(** * canal/circuit.py: interconnect lowering and configuration addressing

    A shallow embedding of [canal/circuit.py] (the layer built on top of the
    Cyclone graph model) together with the properties of its element
    synthesis, configuration-address allocation, tile address decoding and
    route resolution.

    Conventions of the embedding.
    - Python exceptions are values of [result]; an [assert] is [AssertionError].
    - Python [dict]s are association lists in insertion order ([dict_set]
      keeps the position of an existing key, as Python does).
    - Python [int]s are [Z]; list positions are [nat].
    - The graph model ([canal/cyclone.py]), the primitive library ([zelus]) and
      the generator framework ([kratos]) are not part of this file's sources;
      the few facts used about them are introduced in sections 3 to 5 under a
      [Modelled from the spec:] comment.  Names used by the source without a
      binding in it ([magma], [mantle], [Core], [FromMagma], [Const],
      [MuxWithDefaultWrapper]) are treated the same way, as primitives of the
      framework.
    - [Generator.wire] records an undirected connection between two signals.
    - Attributes that no modelled code reads ([instance_name], the structural
      hash) are left out. *)

From Stdlib Require Import String Ascii List ZArith Lia Bool DecimalString.
From Stdlib Require Import Sorting.Mergesort Sorting.Sorted Sorting.Permutation.
From Stdlib Require Import Structures.Orders.
Import ListNotations.

Open Scope string_scope.
Open Scope Z_scope.

(* ================================================================= *)
(** ** 1. Python runtime: exceptions, lists, dicts, strings *)

Inductive PyError :=
| AssertionError
| ValueError
| KeyError
| IndexError
| AttributeError
| NotImplementedError
| AlreadyFinalized.   (* Exception("Circuit already finalized") *)

Inductive result (A : Type) :=
| Ok (a : A)
| Raise (e : PyError).

Arguments Ok {A} a.
Arguments Raise {A} e.

Definition bind {A B} (m : result A) (k : A -> result B) : result B :=
  match m with
  | Ok a => k a
  | Raise e => Raise e
  end.

Notation "x <- m ;; k" := (bind m (fun x => k))
  (at level 61, m at next level, right associativity).
Notation "' p <- m ;; k" := (bind m (fun x => match x with p => k end))
  (at level 61, p pattern, m at next level, right associativity).
Notation "m ;;; k" := (bind m (fun _ => k))
  (at level 61, right associativity).

(** [assert b] *)
Definition assert (b : bool) : result unit :=
  if b then Ok tt else Raise AssertionError.

(** [for a in l: s = f(s, a)], stopping at the first exception. *)
Fixpoint for_each {S A} (f : S -> A -> result S) (l : list A) (s : S)
  : result S :=
  match l with
  | [] => Ok s
  | a :: l' => s' <- f s a ;; for_each f l' s'
  end.

(** [enumerate(l)] *)
Fixpoint enumerate_from {A} (i : nat) (l : list A) : list (nat * A) :=
  match l with
  | [] => []
  | a :: l' => (i, a) :: enumerate_from (S i) l'
  end.

Definition enumerate {A} (l : list A) : list (nat * A) := enumerate_from 0 l.

Section PyList.
Context {A : Type} (eqb : A -> A -> bool).

(** [x in l] *)
Fixpoint contains (x : A) (l : list A) : bool :=
  match l with
  | [] => false
  | y :: l' => eqb y x || contains x l'
  end.

(** [l.index(x)] as an option: the first position holding [x]. *)
Fixpoint find_index (x : A) (l : list A) : option nat :=
  match l with
  | [] => None
  | y :: l' =>
      if eqb y x then Some O
      else match find_index x l' with
           | Some i => Some (S i)
           | None => None
           end
  end.

(** [l.index(x)]: [ValueError] when [x] is absent. *)
Definition index (x : A) (l : list A) : result nat :=
  match find_index x l with
  | Some i => Ok i
  | None => Raise ValueError
  end.

(** [l.remove(x)]: drops the first occurrence, [ValueError] when absent. *)
Fixpoint remove_first (x : A) (l : list A) : result (list A) :=
  match l with
  | [] => Raise ValueError
  | y :: l' =>
      if eqb y x then Ok l'
      else (r <- remove_first x l' ;; Ok (y :: r))
  end.
End PyList.

(** [l[i]] for a non-negative position. *)
Definition item {A} (l : list A) (i : nat) : result A :=
  match nth_error l i with
  | Some a => Ok a
  | None => Raise IndexError
  end.

Section Dict.
Context {K V : Type} (eqb : K -> K -> bool).

Definition dict := list (K * V).

Fixpoint dict_get (d : dict) (k : K) : option V :=
  match d with
  | [] => None
  | (k', v) :: d' => if eqb k' k then Some v else dict_get d' k
  end.

(** [d[k]] *)
Definition dict_item (d : dict) (k : K) : result V :=
  match dict_get d k with
  | Some v => Ok v
  | None => Raise KeyError
  end.

(** [k in d] *)
Definition dict_mem (d : dict) (k : K) : bool :=
  match dict_get d k with
  | Some _ => true
  | None => false
  end.

(** [d[k] = v]: an existing key keeps its position. *)
Fixpoint dict_set (d : dict) (k : K) (v : V) : dict :=
  match d with
  | [] => [(k, v)]
  | (k', v') :: d' =>
      if eqb k' k then (k', v) :: d' else (k', v') :: dict_set d' k v
  end.

Definition dict_keys (d : dict) : list K := map fst d.
Definition dict_values (d : dict) : list V := map snd d.
End Dict.

Arguments dict K V : clear implicits.

(** Strings are compared code point by code point, as Python does. *)
Module StringOrder <: TotalLeBool.
Definition t := string.
Definition leb (a b : string) : bool := String.leb a b.
Definition leb_total : forall a b, leb a b = true \/ leb b a = true :=
  String.leb_total.
End StringOrder.

Module ZOrder <: TotalLeBool.
Definition t := Z.
Definition leb (a b : Z) : bool := Z.leb a b.
Definition leb_total (a b : Z) : leb a b = true \/ leb b a = true :=
  match Zbool.Zle_bool_total a b with
  | left H => or_introl H
  | right H => or_intror H
  end.
End ZOrder.

Module StringSort := Sort StringOrder.
Module ZSort := Sort ZOrder.

(** [names.sort()] on a list of [str], and on a list of [int]. *)
Definition sort_names (l : list string) : list string := StringSort.sort l.
Definition sort_widths (l : list Z) : list Z := ZSort.sort l.

(** [str(i)] for an [int]. *)
Definition str_of_int (i : Z) : string := NilZero.string_of_int (Z.to_int i).

(** [name.replace(t, "_")] for a one-character [t]. *)
Fixpoint replace_char (t : ascii) (name : string) : string :=
  match name with
  | EmptyString => EmptyString
  | String c rest =>
      String (if Ascii.eqb c t then "_"%char else c) (replace_char t rest)
  end.

(** [name.replace("__", "_")]: one left-to-right pass over non-overlapping
    occurrences. *)
Fixpoint replace_double_underscore (name : string) : string :=
  match name with
  | EmptyString => EmptyString
  | String c rest =>
      match rest with
      | String c' rest' =>
          if (Ascii.eqb c "_"%char && Ascii.eqb c' "_"%char)%bool
          then String "_"%char (replace_double_underscore rest')
          else String c (replace_double_underscore rest)
      | EmptyString => String c EmptyString
      end
  end.

(** [name[-1]] and [name[:-1]] *)
Fixpoint last_char (name : string) : option ascii :=
  match name with
  | EmptyString => None
  | String c EmptyString => Some c
  | String _ rest => last_char rest
  end.

Fixpoint drop_last (name : string) : string :=
  match name with
  | EmptyString => EmptyString
  | String _ EmptyString => EmptyString
  | String c rest => String c (drop_last rest)
  end.

(** [pat in s] for strings. *)
Fixpoint str_contains (pat s : string) : bool :=
  match s with
  | EmptyString => String.prefix pat EmptyString
  | String _ rest => String.prefix pat s || str_contains pat rest
  end.

(* ================================================================= *)
(** ** 2. Naming ([create_name], [get_mux_sel_name]) *)

Definition create_name (name : string) : result string :=
  let tokens := [" "%char; "("%char; ")"%char; ","%char] in
  let name := fold_left (fun n t => replace_char t n) tokens name in
  let name := replace_double_underscore name in
  match last_char name with
  | None => Raise IndexError
  | Some c => if Ascii.eqb c "_"%char then Ok (drop_last name) else Ok name
  end.

(* ================================================================= *)
(** ** 3. The graph model consumed by the compiler *)

(** Modelled from the spec: the graph front-end ([canal/cyclone.py]: [Node],
    [PortNode], [SwitchBoxNode], [RegisterNode], [RegisterMuxNode],
    [SwitchBox], [Tile]) is not part of the sources.  A node has a fixed
    bit-width, a coordinate, an ordered list of incoming sources
    ([get_conn_in()]) and its outgoing neighbours ([len(node)], [n in node],
    iteration); a switch node is tagged [SB_IN] or [SB_OUT]; nodes have a
    stable identity, rendered by [str(node)].  Nodes refer to each other
    through their identity in a graph. *)

Inductive SwitchBoxIO := SB_IN | SB_OUT.

Inductive NodeClass :=
| SwitchBoxNode (io : SwitchBoxIO)
| PortNode
| RegisterNode
| RegisterMuxNode.

Definition NodeId := nat.

Record Node := {
  node_class : NodeClass;
  node_name : string;          (* [node.name] of a port or register node *)
  node_x : Z;
  node_y : Z;
  node_width : Z;
  node_str : string;           (* [str(node)] *)
  conn_in : list NodeId;       (* [node.get_conn_in()] *)
  neighbors : list NodeId      (* the nodes this node drives *)
}.

Definition Graph := NodeId -> Node.

Definition SwitchBoxIO_eqb (a b : SwitchBoxIO) : bool :=
  match a, b with
  | SB_IN, SB_IN | SB_OUT, SB_OUT => true
  | _, _ => false
  end.

Definition is_SwitchBoxNode (n : Node) : bool :=
  match node_class n with SwitchBoxNode _ => true | _ => false end.
Definition is_PortNode (n : Node) : bool :=
  match node_class n with PortNode => true | _ => false end.
Definition is_RegisterNode (n : Node) : bool :=
  match node_class n with RegisterNode => true | _ => false end.
Definition is_RegisterMuxNode (n : Node) : bool :=
  match node_class n with RegisterMuxNode => true | _ => false end.

(** [node.io]: only a switch node carries the tag. *)
Definition node_io (n : Node) : result SwitchBoxIO :=
  match node_class n with
  | SwitchBoxNode io => Ok io
  | _ => Raise AttributeError
  end.

(** [len(node.get_conn_in())] and [len(node)] *)
Definition fan_in (n : Node) : Z := Z.of_nat (length (conn_in n)).
Definition fan_out (n : Node) : Z := Z.of_nat (length (neighbors n)).

Record SwitchBox := {
  switchbox_id : Z;
  switchbox_x : Z;
  switchbox_y : Z;
  switchbox_num_track : Z;
  switchbox_width : Z;
  get_all_sbs : list NodeId;
  switchbox_registers : dict string NodeId;
  switchbox_reg_muxs : dict string NodeId
}.

(** Modelled from the spec: the functional core ([Core]) is an external
    collaborator.  It has an identity, a name, ports, input and output port
    references and a list of features; a feature is a generator with ports
    (possibly the core itself, which then carries the core's identity). *)
Inductive MagmaKind := BitKind | BitsKind (n : Z) | OtherKind.

Record MagmaPort := {
  qualified_name : string;
  port_kind : MagmaKind
}.

Record CoreFeature := {
  core_feature_id : nat;
  core_feature_ports : list string
}.

Record Core := {
  core_id : nat;
  core_name : string;
  core_ports : list string;
  core_inputs : list MagmaPort;
  core_outputs : list MagmaPort;
  core_features : list CoreFeature
}.

Definition Core_eqb (a b : Core) : bool := Nat.eqb (core_id a) (core_id b).

Definition option_Core_eqb (a b : option Core) : bool :=
  match a, b with
  | None, None => true
  | Some a, Some b => Core_eqb a b
  | _, _ => false
  end.

(* ================================================================= *)
(** ** 4. Primitive elements *)

(** Modelled from the spec: the primitive library ([zelus]: [Mux],
    [ConfigRegister], [Register]) is an external collaborator.  A multiplexer
    is made from a height and a width; its select input is
    [ceil(log2(height))] bits wide ([sel_size], [sel_bits]).  A configuration
    register is a named, fixed-width, addressed storage cell. *)
Record Mux := {
  mux_height : Z;
  mux_width : Z
}.

Definition Mux_create (height width : Z) : Mux :=
  {| mux_height := height; mux_width := width |}.

Definition sel_size (m : Mux) : Z := Z.log2_up (mux_height m).
Definition sel_bits (m : Mux) : Z := Z.log2_up (mux_height m).

Record ConfigRegister := {
  reg_width : Z;
  reg_addr_width : Z;
  reg_data_width : Z;
  reg_use_config_en : bool;
  reg_addr : option Z           (* [reg.params.addr], unset at creation *)
}.

Definition ConfigRegister_create (width addr_width data_width : Z)
    (use_config_en : bool) : ConfigRegister :=
  {| reg_width := width; reg_addr_width := addr_width;
     reg_data_width := data_width; reg_use_config_en := use_config_en;
     reg_addr := None |}.

Definition set_addr (r : ConfigRegister) (idx : Z) : ConfigRegister :=
  {| reg_width := reg_width r; reg_addr_width := reg_addr_width r;
     reg_data_width := reg_data_width r;
     reg_use_config_en := reg_use_config_en r;
     reg_addr := Some idx |}.

(** The decode, equality and AND gates instantiated by [TileCircuit.finalize]
    and the read-back multiplexer. *)
Inductive PrimInst :=
| ReadDataMux                        (* [self.read_data_mux] *)
| ReadAndTile                        (* [read_and_tile] *)
| EqTile                             (* [eq_tile] *)
| WriteAndTile                       (* [write_and_tile] *)
| DecodeFeat (i : nat)               (* [decode_feat[i]] *)
| FeatAndConfigEnTile (i : nat).     (* [feat_and_config_en_tile[i]] *)

(* ================================================================= *)
(** ** 5. Generators, ports and wires *)

(** Modelled from the spec: the generator framework ([kratos.Generator]) is an
    external collaborator.  A generator has a name, named ports, child
    instances and wires; looking up a port that does not exist is a fault. *)

(** The generator a signal belongs to, seen from the generator that is being
    built. *)
Inductive GenRef :=
| This                                    (* [self] *)
| Inst (name : string)                    (* an element created by [self] *)
| SbMux (sb_name : string)                (* the element in [sb_muxs[sb_name]] *)
| RegMux (sb_name : string)               (* the element in [reg_muxs[sb_name]] *)
| Reg (reg_name : string)                 (* the register in [regs[reg_name]] *)
| Within (outer : GenRef) (inner : GenRef) (* an element of another unit *)
| CBRef (port_name : string)              (* [self.cbs[port_name]] *)
| SBRef (width : Z)                       (* [self.sbs[width]] *)
| CoreRef (id : nat)                      (* the core or one of its features *)
| Prim (p : PrimInst).

Inductive Sig :=
| SPort (g : GenRef) (name : string)      (* [g.ports.name] *)
| SField (s : Sig) (field : string)       (* member of a packed port *)
| SIdx (s : Sig) (i : nat)                (* [s[i]] *)
| SSlice (s : Sig) (lo hi : Z)            (* [s[lo:hi]] *)
| SNot (s : Sig)                          (* [~s] *)
| SZext (s : Sig) (w : Z)                 (* [zext(s, w)] *)
| SConst (v : Z)                          (* [Const(v)] *)
| SCorePort (p : MagmaPort).              (* a port reference of the core *)

Inductive PortDirection := In_ | Out_.
Inductive PortType := Data | Clock | AsyncReset.

Record Port := {
  port_name : string;
  port_width : Z;
  port_direction : PortDirection;
  port_type : PortType
}.

Inductive Child :=
| ChildMux (m : Mux)
| ChildConfigRegister      (* the object held in [self.registers] *)
| ChildRegister (width : Z)
| ChildUnit (name : string).

Record Generator := {
  gen_name : string;
  gen_ports : list Port;
  gen_children : list (string * Child);
  gen_wires : list (Sig * Sig)
}.

Definition Generator_init (name : string) : Generator :=
  {| gen_name := name; gen_ports := []; gen_children := []; gen_wires := [] |}.

Definition has_port (g : Generator) (name : string) : bool :=
  existsb (fun p => String.eqb (port_name p) name) (gen_ports g).

(** [self.port(name, width, direction, type)] *)
Definition add_port (g : Generator) (name : string) (width : Z)
    (d : PortDirection) (t : PortType) : Generator :=
  {| gen_name := gen_name g;
     gen_ports := gen_ports g ++
       [{| port_name := name; port_width := width;
           port_direction := d; port_type := t |}];
     gen_children := gen_children g;
     gen_wires := gen_wires g |}.

(** [self.remove_port(name)] *)
Definition remove_port (g : Generator) (name : string) : Generator :=
  {| gen_name := gen_name g;
     gen_ports :=
       filter (fun p => negb (String.eqb (port_name p) name)) (gen_ports g);
     gen_children := gen_children g;
     gen_wires := gen_wires g |}.

(** [self.add_child_generator(name, child)] *)
Definition add_child_generator (g : Generator) (name : string) (c : Child)
  : Generator :=
  {| gen_name := gen_name g;
     gen_ports := gen_ports g;
     gen_children := gen_children g ++ [(name, c)];
     gen_wires := gen_wires g |}.

(** [self.wire(a, b)] *)
Definition wire (g : Generator) (a b : Sig) : Generator :=
  {| gen_name := gen_name g;
     gen_ports := gen_ports g;
     gen_children := gen_children g;
     gen_wires := gen_wires g ++ [(a, b)] |}.

(** [g.ports.name] where [g] is the generator [ref] denotes. *)
Definition port_of (g : Generator) (ref : GenRef) (name : string)
  : result Sig :=
  if has_port g name then Ok (SPort ref name) else Raise AttributeError.

(** [ConfigurationType]: the packed configuration port, 32 + 32 + 1 + 1 bits. *)
Definition ConfigurationType : list (string * Z) :=
  [("config_addr", 32); ("config_data", 32); ("read", 1); ("write", 1)].

Definition packed_width (t : list (string * Z)) : Z :=
  fold_left (fun acc f => acc + snd f) t 0.

(* ================================================================= *)
(** ** 6. Element synthesis ([create_mux]) *)

Definition get_mux_sel_name (node : Node) : result string :=
  name <- create_name (node_str node) ;;
  Ok (name ++ "_sel").

Definition create_mux (node : Node) : result (Mux * string) :=
  let conn_in := conn_in node in
  let height := Z.of_nat (length conn_in) in
  node_name <- create_name (node_str node) ;;
  let name :=
    if height >? 1 then
      if negb (str_contains "MUX" node_name) then "MUX_" ++ node_name
      else node_name
    else "WIRE_" ++ node_name in
  let mux := Mux_create height (node_width node) in
  Ok (mux, name).

(* ================================================================= *)
(** ** 7. Configuration allocation ([InterconnectConfigurable]) *)

Module InterconnectConfigurable.

Record t := {
  gen : Generator;
  registers : dict string ConfigRegister;
  config_addr_width : Z;
  config_data_width : Z;
  read_config_data_mux : option Mux
}.

Definition with_gen (self : t) (g : Generator) : t :=
  {| gen := g; registers := registers self;
     config_addr_width := config_addr_width self;
     config_data_width := config_data_width self;
     read_config_data_mux := read_config_data_mux self |}.

Definition with_registers (self : t) (r : dict string ConfigRegister) : t :=
  {| gen := gen self; registers := r;
     config_addr_width := config_addr_width self;
     config_data_width := config_data_width self;
     read_config_data_mux := read_config_data_mux self |}.

Definition with_read_config_data_mux (self : t) (m : Mux) : t :=
  {| gen := gen self; registers := registers self;
     config_addr_width := config_addr_width self;
     config_data_width := config_data_width self;
     read_config_data_mux := Some m |}.

Definition __init__ (name : string) (config_addr_width config_data_width : Z)
  : t :=
  let g := Generator_init name in
  (* Ports for reconfiguration. *)
  let g := add_port g "clk" 1 In_ Clock in
  let g := add_port g "reset" 1 In_ AsyncReset in
  let g := add_port g "read_config_data" config_data_width Out_ Data in
  {| gen := g; registers := [];
     config_addr_width := config_addr_width;
     config_data_width := config_data_width;
     read_config_data_mux := None |}.

Definition add_config (self : t) (name : string) (width : Z) : result t :=
  assert (negb (dict_mem String.eqb (registers self) name)) ;;;
  let reg := ConfigRegister_create width (config_addr_width self)
               (config_data_width self) true in
  let self := with_gen self
                (add_child_generator (gen self) name ChildConfigRegister) in
  Ok (with_registers self (dict_set String.eqb (registers self) name reg)).

(** One round of the address loop of [_setup_config]. *)
Definition setup_register (self : t) (entry : nat * string) : result t :=
  let '(idx, config_name) := entry in
  reg <- dict_item String.eqb (registers self) config_name ;;
  let self := with_registers self
    (dict_set String.eqb (registers self) config_name
       (set_addr reg (Z.of_nat idx))) in
  let r := Inst config_name in
  config <- port_of (gen self) This "config" ;;
  let self := with_gen self
    (wire (gen self) (SField config "config_addr") (SPort r "config_addr")) in
  config <- port_of (gen self) This "config" ;;
  let self := with_gen self
    (wire (gen self) (SField config "config_data") (SPort r "config_data")) in
  config <- port_of (gen self) This "config" ;;
  let self := with_gen self
    (wire (gen self) (SField config "write") (SPort r "config_en")) in
  reset <- port_of (gen self) This "reset" ;;
  Ok (with_gen self (wire (gen self) reset (SPort r "reset"))).

(** One round of the read-back loop of [_setup_config]. *)
Definition setup_read_input (self : t) (entry : nat * string) : result t :=
  let '(idx, config_name) := entry in
  _ <- dict_item String.eqb (registers self) config_name ;;
  Ok (with_gen self
        (wire (gen self)
           (SPort (Inst "read_config_data_mux")
                  ("I" ++ str_of_int (Z.of_nat idx)))
           (SZext (SPort (Inst config_name) "O")
                  (config_data_width self)))).

Definition _setup_config (self : t) : result t :=
  let config_names := dict_keys (registers self) in
  let config_names := sort_names config_names in
  self <- for_each setup_register (enumerate config_names) self ;;
  let num_config_reg := Z.of_nat (length config_names) in
  if num_config_reg >? 1 then
    let mux := Mux_create num_config_reg (config_data_width self) in
    let self := with_read_config_data_mux self mux in
    let sel_bits := sel_size mux in
    (* Wire up config_addr to select input of read_data MUX. *)
    config <- port_of (gen self) This "config" ;;
    let self := with_gen self
      (wire (gen self)
         (SSlice (SField config "config_addr") 0 sel_bits)
         (SPort (Inst "read_config_data_mux") "S")) in
    read_config_data <- port_of (gen self) This "read_config_data" ;;
    let self := with_gen self
      (wire (gen self) (SPort (Inst "read_config_data_mux") "O")
         read_config_data) in
    for_each setup_read_input (enumerate config_names) self
  else if num_config_reg =? 1 then
    config_name <- item config_names 0 ;;
    _ <- dict_item String.eqb (registers self) config_name ;;
    read_config_data <- port_of (gen self) This "read_config_data" ;;
    Ok (with_gen self
          (wire (gen self) read_config_data
             (SZext (SPort (Inst config_name) "O")
                    (config_data_width self))))
  else Ok self.

End InterconnectConfigurable.

(* ================================================================= *)
(** ** 8. Connection boxes ([CB]) *)

Module CB.
Import InterconnectConfigurable.

Record t := {
  base : InterconnectConfigurable.t;
  node : NodeId;
  mux : Mux
}.

Definition __init__ (G : Graph) (node : NodeId)
    (config_addr_width config_data_width : Z) : result t :=
  (if negb (is_PortNode (G node)) then Raise ValueError else Ok tt) ;;;
  name <- create_name (node_str (G node)) ;;
  let self := InterconnectConfigurable.__init__ name config_addr_width
                config_data_width in
  '(mux, name) <- create_mux (G node) ;;
  let self := with_gen self
                (add_child_generator (gen self) name (ChildMux mux)) in
  (* lift the port to the top level *)
  let self := with_gen self
                (add_port (gen self) "I" (node_width (G node)) In_ Data) in
  let self := with_gen self
                (add_port (gen self) "O" (node_width (G node)) Out_ Data) in
  I <- port_of (gen self) This "I" ;;
  let self := with_gen self (wire (gen self) I (SPort (Inst name) "I")) in
  O <- port_of (gen self) This "O" ;;
  let self := with_gen self (wire (gen self) O (SPort (Inst name) "O")) in
  self <-
    (if mux_height mux >? 1 then
       let self := with_gen self
         (add_port (gen self) "config" (packed_width ConfigurationType)
            In_ Data) in
       config_name <- get_mux_sel_name (G node) ;;
       self <- add_config self config_name (sel_bits mux) ;;
       _ <- dict_item String.eqb (registers self) config_name ;;
       Ok (with_gen self
             (wire (gen self) (SPort (Inst config_name) "O")
                (SPort (Inst name) "S")))
     else
       (* remove clk and reset ports from the base class since it's going
          to be a pass through wire anyway *)
       let self := with_gen self (remove_port (gen self) "clk") in
       let self := with_gen self (remove_port (gen self) "reset") in
       let self := with_gen self
                     (remove_port (gen self) "read_config_data") in
       Ok self) ;;
  self <- _setup_config self ;;
  Ok {| base := self; node := node; mux := mux |}.

End CB.

(* ================================================================= *)
(** ** 9. Switch boxes ([SB]) *)

(** Modelled from the spec: a pipeline register of the primitive library. *)
Record Register := {
  register_width : Z
}.

Definition Register_create (width : Z) : Register :=
  {| register_width := width |}.

(** [t.ports], [t.height]: attribute access on a Python tuple.  A tuple has
    neither attribute, so the access raises; the continuation is written as
    for a multiplexer. *)
Definition tuple_attr {A B} (t : A * B) : result Mux := Raise AttributeError.

Module SB.
Import InterconnectConfigurable.

Record t := {
  base : InterconnectConfigurable.t;
  switchbox : SwitchBox;
  __core_name : string;
  stall_signal_width : Z;
  (* [create_mux] returns the pair (element, name); [__create_sb_mux]
     stores that pair as it is. *)
  sb_muxs : dict string (NodeId * (Mux * string));
  reg_muxs : dict string (NodeId * Mux);
  regs : dict string (NodeId * Register);
  mux_name_to_node : dict string NodeId
}.

Definition with_base (self : t) (b : InterconnectConfigurable.t) : t :=
  {| base := b; switchbox := switchbox self;
     __core_name := __core_name self;
     stall_signal_width := stall_signal_width self;
     sb_muxs := sb_muxs self; reg_muxs := reg_muxs self;
     regs := regs self; mux_name_to_node := mux_name_to_node self |}.

Definition upd_gen (self : t) (f : Generator -> Generator) : t :=
  with_base self (with_gen (base self) (f (gen (base self)))).

Definition with_sb_muxs (self : t) d : t :=
  {| base := base self; switchbox := switchbox self;
     __core_name := __core_name self;
     stall_signal_width := stall_signal_width self;
     sb_muxs := d; reg_muxs := reg_muxs self;
     regs := regs self; mux_name_to_node := mux_name_to_node self |}.

Definition with_reg_muxs (self : t) d : t :=
  {| base := base self; switchbox := switchbox self;
     __core_name := __core_name self;
     stall_signal_width := stall_signal_width self;
     sb_muxs := sb_muxs self; reg_muxs := d;
     regs := regs self; mux_name_to_node := mux_name_to_node self |}.

Definition with_regs (self : t) d : t :=
  {| base := base self; switchbox := switchbox self;
     __core_name := __core_name self;
     stall_signal_width := stall_signal_width self;
     sb_muxs := sb_muxs self; reg_muxs := reg_muxs self;
     regs := d; mux_name_to_node := mux_name_to_node self |}.

Definition with_mux_name_to_node (self : t) d : t :=
  {| base := base self; switchbox := switchbox self;
     __core_name := __core_name self;
     stall_signal_width := stall_signal_width self;
     sb_muxs := sb_muxs self; reg_muxs := reg_muxs self;
     regs := regs self; mux_name_to_node := d |}.

Definition __name (switchbox : SwitchBox) (core_name : string) : string :=
  "SB_ID" ++ str_of_int (switchbox_id switchbox) ++ "_"
  ++ str_of_int (switchbox_num_track switchbox) ++ "TRACKS_"
  ++ "B" ++ str_of_int (switchbox_width switchbox) ++ "_" ++ core_name.

Definition add_config_node (self : t) (node : NodeId) (name : string)
    (width : Z) : result t :=
  b <- add_config (base self) name width ;;
  let self := with_base self b in
  (* index the name to node so that we can trace back during the
     configuration *)
  Ok (with_mux_name_to_node self
        (dict_set String.eqb (mux_name_to_node self) name node)).

Definition __create_sb_mux (G : Graph) (self : t) : result t :=
  let sbs := get_all_sbs (switchbox self) in
  for_each (fun self sb =>
      let sb_name := node_str (G sb) in
      m <- create_mux (G sb) ;;
      Ok (with_sb_muxs self
            (dict_set String.eqb (sb_muxs self) sb_name (sb, m))))
    sbs self.

Definition create_reg_mux_step (G : Graph) (self : t)
    (entry : string * NodeId) : result t :=
  let reg_mux := snd entry in
  (* assert the connections to make sure it's a valid register mux *)
  let conn_ins := conn_in (G reg_mux) in
  assert (Z.of_nat (length conn_ins) =? 2) ;;;
  (* find out the sb it's connected in. also do some checking *)
  node1 <- item conn_ins 0 ;;
  node2 <- item conn_ins 1 ;;
  sb_node <-
    (if is_RegisterNode (G node1) then
       assert (is_SwitchBoxNode (G node2)) ;;;
       io <- node_io (G node2) ;;
       assert (SwitchBoxIO_eqb io SB_OUT) ;;;
       Ok node2
     else if is_RegisterNode (G node2) then
       assert (is_SwitchBoxNode (G node1)) ;;;
       io <- node_io (G node1) ;;
       assert (SwitchBoxIO_eqb io SB_OUT) ;;;
       Ok node1
     else Raise ValueError) ;;
  (* we use the sb_name instead so that when we lift the port up,
     we can use the mux output instead *)
  let sb_name := node_str (G sb_node) in
  '(mux, mux_name) <- create_mux (G reg_mux) ;;
  let self := upd_gen self
                (fun g => add_child_generator g mux_name (ChildMux mux)) in
  Ok (with_reg_muxs self
        (dict_set String.eqb (reg_muxs self) sb_name (reg_mux, mux))).

Definition __create_reg_mux (G : Graph) (self : t) : result t :=
  for_each (create_reg_mux_step G) (switchbox_reg_muxs (switchbox self))
    self.

Definition __create_reg (G : Graph) (self : t) : result t :=
  self <-
    for_each (fun self (entry : string * NodeId) =>
        let '(reg_name, reg_node) := entry in
        let reg := Register_create (node_width (G reg_node)) in
        instance_name <- create_name (node_str (G reg_node)) ;;
        let self := upd_gen self (fun g =>
          add_child_generator g instance_name
            (ChildRegister (register_width reg))) in
        Ok (with_regs self
              (dict_set String.eqb (regs self) reg_name (reg_node, reg))))
      (switchbox_registers (switchbox self)) self ;;
  (* add stall ports *)
  if Z.of_nat (length (regs self)) >? 0 then
    let self := upd_gen self (fun g =>
      add_port g "stall" (stall_signal_width self) In_ Data) in
    (* fanout the stall signals to registers
       invert the stall signal to clk_en *)
    stall <- port_of (gen (base self)) This "stall" ;;
    let invert_sig := SNot (SIdx stall 0) in
    for_each (fun self (entry : string * (NodeId * Register)) =>
        Ok (upd_gen self (fun g =>
              wire g (SPort (Reg (fst entry)) "clk_en") invert_sig)))
      (regs self) self
  else Ok self.

(** Second pass of [__init__]: lift the ports and wire them. *)
Definition lift_port_step (G : Graph) (self : t)
    (entry : string * (NodeId * (Mux * string))) : result t :=
  let '(sb_name, (sb, mux)) := entry in
  (* only lift them if the ports are connect to the outside world *)
  port_name <- create_name sb_name ;;
  io <- node_io (G sb) ;;
  if SwitchBoxIO_eqb io SB_IN then
    m <- tuple_attr mux ;;
    let self := upd_gen self (fun g =>
      add_port g port_name (mux_width m) In_ Data) in
    p <- port_of (gen (base self)) This port_name ;;
    _ <- tuple_attr mux ;;
    Ok (upd_gen self (fun g => wire g p (SPort (SbMux sb_name) "I")))
  else
    m <- tuple_attr mux ;;
    let self := upd_gen self (fun g =>
      add_port g port_name (mux_width m) Out_ Data) in
    (* to see if we have a register mux here
       if so , we need to lift the reg_mux output instead *)
    out <-
      (if dict_mem String.eqb (reg_muxs self) sb_name then
         (* override the mux value *)
         '(node, _) <- dict_item String.eqb (reg_muxs self) sb_name ;;
         assert (is_RegisterMuxNode (G node)) ;;;
         assert (contains Nat.eqb node (neighbors (G sb))) ;;;
         Ok (RegMux sb_name)
       else Ok (SbMux sb_name)) ;;
    p <- port_of (gen (base self)) This port_name ;;
    _ <- (match out with
          | RegMux _ => Ok m
          | _ => tuple_attr mux
          end) ;;
    Ok (upd_gen self (fun g => wire g p (SPort out "O"))).

Definition connect_sbs_step (G : Graph) (self : t)
    (entry : string * (NodeId * (Mux * string))) : result t :=
  let '(sb_name, (sb, mux)) := entry in
  io <- node_io (G sb) ;;
  if SwitchBoxIO_eqb io SB_IN then
    for_each (fun self node =>
        if is_SwitchBoxNode (G node) then
          nio <- node_io (G node) ;;
          assert (SwitchBoxIO_eqb nio SB_OUT) ;;;
          assert ((node_x (G node) =? node_x (G sb))
                  && (node_y (G node) =? node_y (G sb))) ;;;
          _ <- tuple_attr mux ;;
          let output_port := SPort (SbMux sb_name) "O" in
          idx <- index Nat.eqb sb (conn_in (G node)) ;;
          '(node_, node_mux) <-
            dict_item String.eqb (sb_muxs self) (node_str (G node)) ;;
          assert (Nat.eqb node_ node) ;;;
          _ <- tuple_attr node_mux ;;
          let input_port :=
            SIdx (SPort (SbMux (node_str (G node))) "I") idx in
          Ok (upd_gen self (fun g => wire g input_port output_port))
        else Ok self)
      (neighbors (G sb)) self
  else Ok self.

(** The principle is that it only connects to the nodes within its range;
    in SB we only connect to sb nodes. *)
Definition __connect_sbs (G : Graph) (self : t) : result t :=
  for_each (connect_sbs_step G) (sb_muxs self) self.

Definition connect_sb_out_step (G : Graph) (self : t)
    (entry : string * (NodeId * (Mux * string))) : result t :=
  let '(_, (sb, mux)) := entry in
  io <- node_io (G sb) ;;
  if SwitchBoxIO_eqb io SB_OUT then
    for_each (fun self node =>
        if is_RegisterNode (G node) then
          let reg_name := node_name (G node) in
          '(reg_node, reg) <- dict_item String.eqb (regs self) reg_name ;;
          assert (Z.of_nat (length (conn_in (G reg_node))) =? 1) ;;;
          (* wire 1 *)
          _ <- tuple_attr mux ;;
          Ok (upd_gen self (fun g =>
                wire g (SPort (SbMux (node_str (G sb))) "O")
                       (SPort (Reg reg_name) "I")))
        else if is_RegisterMuxNode (G node) then
          assert (Z.of_nat (length (conn_in (G node))) =? 2) ;;;
          idx <- index Nat.eqb sb (conn_in (G node)) ;;
          let sb_name := node_str (G sb) in
          '(n, reg_mux) <- dict_item String.eqb (reg_muxs self) sb_name ;;
          assert (Nat.eqb n node) ;;;
          (* wire 2 *)
          _ <- tuple_attr mux ;;
          Ok (upd_gen self (fun g =>
                wire g (SPort (SbMux sb_name) "O")
                       (SIdx (SPort (RegMux sb_name) "I") idx)))
        else Ok self)
      (neighbors (G sb)) self
  else Ok self.

Definition __connect_sb_out (G : Graph) (self : t) : result t :=
  for_each (connect_sb_out_step G) (sb_muxs self) self.

Definition connect_regs_step (G : Graph) (self : t)
    (entry : string * (NodeId * Register)) : result t :=
  let '(reg_name, (node, reg)) := entry in
  (* pipeline register only has 1 connection *)
  assert (Z.of_nat (length (neighbors (G node))) =? 1) ;;;
  reg_mux_node <- item (neighbors (G node)) 0 ;;
  (* make a copy since we need to pop the list *)
  let reg_mux_conn := conn_in (G reg_mux_node) in
  (* register mux can only have 2 incoming connections *)
  assert (Z.of_nat (length reg_mux_conn) =? 2) ;;;
  reg_mux_conn <- remove_first Nat.eqb node reg_mux_conn ;;
  sb_node <- item reg_mux_conn 0 ;;
  (* register has to be connected together with a reg mux *)
  assert (contains Nat.eqb node (neighbors (G sb_node))) ;;;
  let sb_name := node_str (G sb_node) in
  '(n, mux) <- dict_item String.eqb (reg_muxs self) sb_name ;;
  assert (Nat.eqb n reg_mux_node) ;;;
  idx <- index Nat.eqb node (conn_in (G reg_mux_node)) ;;
  (* wire 3 *)
  Ok (upd_gen self (fun g =>
        wire g (SPort (Reg reg_name) "O")
               (SIdx (SPort (RegMux sb_name) "I") idx))).

Definition __connect_regs (G : Graph) (self : t) : result t :=
  for_each (connect_regs_step G) (regs self) self.

(** The selector registers of the switch nodes (the loop over [sb_muxs]
    that follows the port set-up in [__init__]). *)
Definition config_sb_mux_step (G : Graph) (self : t)
    (entry : string * (NodeId * (Mux * string))) : result t :=
  let '(sb_name, (sb, mux)) := entry in
  config_name <- get_mux_sel_name (G sb) ;;
  m <- tuple_attr mux ;;
  if mux_height m >? 1 then
    assert (sel_size m >? 0) ;;;
    self <- add_config_node self sb config_name (sel_size m) ;;
    _ <- dict_item String.eqb (registers (base self)) config_name ;;
    Ok (upd_gen self (fun g =>
          wire g (SPort (Inst config_name) "O") (SPort (SbMux sb_name) "S")))
  else Ok self.

(** The selector registers of the register muxes. *)
Definition config_reg_mux_step (G : Graph) (self : t)
    (entry : string * (NodeId * Mux)) : result t :=
  let '(sb_name, (reg_mux, mux)) := entry in
  config_name <- get_mux_sel_name (G reg_mux) ;;
  assert (mux_height mux =? 2) ;;;
  assert (sel_size mux >? 0) ;;;
  self <- add_config_node self reg_mux config_name (sel_size mux) ;;
  _ <- dict_item String.eqb (registers (base self)) config_name ;;
  Ok (upd_gen self (fun g =>
        wire g (SPort (Inst config_name) "O") (SPort (RegMux sb_name) "S"))).

Definition __init__ (G : Graph) (switchbox : SwitchBox)
    (config_addr_width config_data_width : Z) (core_name : string)
    (stall_signal_width : Z) : result t :=
  let self :=
    {| base := InterconnectConfigurable.__init__
                 (__name switchbox core_name)
                 config_addr_width config_data_width;
       switchbox := switchbox; __core_name := core_name;
       stall_signal_width := stall_signal_width;
       sb_muxs := []; reg_muxs := []; regs := [];
       mux_name_to_node := [] |} in
  (* first pass to create the mux and register circuit *)
  self <- __create_reg G self ;;
  self <- __create_sb_mux G self ;;
  self <- __create_reg_mux G self ;;
  (* second pass to lift the ports and wire them *)
  self <- for_each (lift_port_step G) (sb_muxs self) self ;;
  (* connect internal sbs *)
  self <- __connect_sbs G self ;;
  (* connect regs and reg muxs *)
  self <- __connect_sb_out G self ;;
  self <- __connect_regs G self ;;
  (* set up the configuration registers, if needed *)
  let self :=
    if Z.of_nat (length (sb_muxs self)) >? 0 then
      upd_gen self (fun g =>
        add_port g "config" (packed_width ConfigurationType) In_ Data)
    else
      (* remove added ports since it's a empty switchbox *)
      upd_gen self (fun g =>
        remove_port (remove_port (remove_port g "clk") "reset")
          "read_config_data") in
  self <- for_each (config_sb_mux_step G) (sb_muxs self) self ;;
  self <- for_each (config_reg_mux_step G) (reg_muxs self) self ;;
  b <- _setup_config (base self) ;;
  Ok (with_base self b).

End SB.

(* ================================================================= *)
(** ** 10. The core interface ([CoreInterface]) and tiles *)

Module CoreInterface.

Record t := {
  input_ports : dict string (Z * MagmaPort);
  output_ports : dict string (Z * MagmaPort);
  core : option Core
}.

(** nasty function to get the actual bit width from the port reference *)
Definition __get_bit_width (port : MagmaPort) : result Z :=
  match port_kind port with
  | BitKind => Ok 1
  | BitsKind n => Ok n
  | OtherKind => Raise NotImplementedError
  end.

Definition add_ports (ports : list MagmaPort)
    (d : dict string (Z * MagmaPort)) : result (dict string (Z * MagmaPort)) :=
  for_each (fun d port =>
      let port_name := qualified_name port in
      width <- __get_bit_width port ;;
      Ok (dict_set String.eqb d port_name (width, port)))
    ports d.

Definition __init__ (core : option Core) : result t :=
  match core with
  | None =>
      (* empty tile *)
      Ok {| input_ports := []; output_ports := []; core := None |}
  | Some c =>
      ins <- add_ports (core_inputs c) [] ;;
      outs <- add_ports (core_outputs c) [] ;;
      Ok {| input_ports := ins; output_ports := outs; core := core |}
  end.

Definition inputs (self : t) : list (Z * string) :=
  map (fun e : string * (Z * MagmaPort) => (fst (snd e), fst e))
      (input_ports self).

Definition outputs (self : t) : list (Z * string) :=
  map (fun e : string * (Z * MagmaPort) => (fst (snd e), fst e))
      (output_ports self).

Definition get_port_ref (self : t) (port_name : string)
  : result MagmaPort :=
  if dict_mem String.eqb (input_ports self) port_name then
    e <- dict_item String.eqb (input_ports self) port_name ;; Ok (snd e)
  else
    e <- dict_item String.eqb (output_ports self) port_name ;; Ok (snd e).

Definition __eq__ (self other : t) : bool :=
  option_Core_eqb (core other) (core self).

End CoreInterface.

(** Modelled from the spec: a tile of the graph front-end ([cyclone.Tile]):
    one coordinate, one bit-width's switch-box, the core port nodes at that
    coordinate and the core interface. *)
Record Tile := {
  tile_x : Z;
  tile_y : Z;
  tile_track_width : Z;
  tile_switchbox : SwitchBox;
  tile_ports : dict string NodeId;
  tile_core : CoreInterface.t
}.

(** A feature of a tile: a feature of the core, a connection box (held in
    [cbs] under [key]) or a switch box (held in [sbs] under [key]). *)
Inductive Feature :=
| FCore (f : CoreFeature)
| FCB (key : string) (cb : CB.t)
| FSB (key : Z) (sb : SB.t).

(** The generator a feature is. *)
Definition feature_ref (f : Feature) : GenRef :=
  match f with
  | FCore cf => CoreRef (core_feature_id cf)
  | FCB key _ => CBRef key
  | FSB key _ => SBRef key
  end.

Definition GenRef_eq_dec : forall a b : GenRef, {a = b} + {a <> b}.
Proof.
  decide equality; try apply string_dec; try apply Z.eq_dec;
    try apply Nat.eq_dec.
  decide equality; apply Nat.eq_dec.
Defined.

Definition GenRef_eqb (a b : GenRef) : bool :=
  if GenRef_eq_dec a b then true else false.

(** Generators compare by identity. *)
Definition Feature_eqb (a b : Feature) : bool :=
  GenRef_eqb (feature_ref a) (feature_ref b).

(** [name in feature.ports] *)
Definition feature_has_port (f : Feature) (name : string) : bool :=
  match f with
  | FCore cf => existsb (String.eqb name) (core_feature_ports cf)
  | FCB _ cb => has_port (InterconnectConfigurable.gen (CB.base cb)) name
  | FSB _ sb => has_port (InterconnectConfigurable.gen (SB.base sb)) name
  end.

(** [g.ports[name]] as a port record. *)
Definition get_port (g : Generator) (name : string) : result Port :=
  match find (fun p => String.eqb (port_name p) name) (gen_ports g) with
  | Some p => Ok p
  | None => Raise AttributeError
  end.

(** [self.core.ports[name]] *)
Definition core_port_of (core : option Core) (name : string) : result Sig :=
  match core with
  | None => Raise AttributeError
  | Some c =>
      if existsb (String.eqb name) (core_ports c)
      then Ok (SPort (CoreRef (core_id c)) name)
      else Raise AttributeError
  end.

(* ================================================================= *)
(** ** 11. Tiles ([TileCircuit]): construction *)

Module TileCircuit.

Record t := {
  gen : Generator;
  tiles : dict Z Tile;
  config_addr_width : Z;
  config_data_width : Z;
  tile_id_width : Z;
  full_config_addr_width : Z;
  feature_addr_slice : Z * Z;
  tile_id_slice : Z * Z;
  feature_config_slice : Z * Z;
  x : Z;
  y : Z;
  core : option Core;
  core_interface : CoreInterface.t;
  cbs : dict string CB.t;
  sbs : dict Z SB.t;
  __features : list Feature;
  (* [MuxWithDefaultWrapper(height, width, sel_bits, default)] *)
  read_data_mux : option (Z * Z * Z * Z);
  finalized : bool
}.

Definition with_gen (self : t) (g : Generator) : t :=
  {| gen := g; tiles := tiles self;
     config_addr_width := config_addr_width self;
     config_data_width := config_data_width self;
     tile_id_width := tile_id_width self;
     full_config_addr_width := full_config_addr_width self;
     feature_addr_slice := feature_addr_slice self;
     tile_id_slice := tile_id_slice self;
     feature_config_slice := feature_config_slice self;
     x := x self; y := y self; core := core self;
     core_interface := core_interface self;
     cbs := cbs self; sbs := sbs self; __features := __features self;
     read_data_mux := read_data_mux self; finalized := finalized self |}.

Definition with_cbs (self : t) (d : dict string CB.t) : t :=
  {| gen := gen self; tiles := tiles self;
     config_addr_width := config_addr_width self;
     config_data_width := config_data_width self;
     tile_id_width := tile_id_width self;
     full_config_addr_width := full_config_addr_width self;
     feature_addr_slice := feature_addr_slice self;
     tile_id_slice := tile_id_slice self;
     feature_config_slice := feature_config_slice self;
     x := x self; y := y self; core := core self;
     core_interface := core_interface self;
     cbs := d; sbs := sbs self; __features := __features self;
     read_data_mux := read_data_mux self; finalized := finalized self |}.

Definition with_sbs (self : t) (d : dict Z SB.t) : t :=
  {| gen := gen self; tiles := tiles self;
     config_addr_width := config_addr_width self;
     config_data_width := config_data_width self;
     tile_id_width := tile_id_width self;
     full_config_addr_width := full_config_addr_width self;
     feature_addr_slice := feature_addr_slice self;
     tile_id_slice := tile_id_slice self;
     feature_config_slice := feature_config_slice self;
     x := x self; y := y self; core := core self;
     core_interface := core_interface self;
     cbs := cbs self; sbs := d; __features := __features self;
     read_data_mux := read_data_mux self; finalized := finalized self |}.

Definition with_features (self : t) (l : list Feature) : t :=
  {| gen := gen self; tiles := tiles self;
     config_addr_width := config_addr_width self;
     config_data_width := config_data_width self;
     tile_id_width := tile_id_width self;
     full_config_addr_width := full_config_addr_width self;
     feature_addr_slice := feature_addr_slice self;
     tile_id_slice := tile_id_slice self;
     feature_config_slice := feature_config_slice self;
     x := x self; y := y self; core := core self;
     core_interface := core_interface self;
     cbs := cbs self; sbs := sbs self; __features := l;
     read_data_mux := read_data_mux self; finalized := finalized self |}.

Definition with_read_data_mux (self : t) (m : Z * Z * Z * Z) : t :=
  {| gen := gen self; tiles := tiles self;
     config_addr_width := config_addr_width self;
     config_data_width := config_data_width self;
     tile_id_width := tile_id_width self;
     full_config_addr_width := full_config_addr_width self;
     feature_addr_slice := feature_addr_slice self;
     tile_id_slice := tile_id_slice self;
     feature_config_slice := feature_config_slice self;
     x := x self; y := y self; core := core self;
     core_interface := core_interface self;
     cbs := cbs self; sbs := sbs self; __features := __features self;
     read_data_mux := Some m; finalized := finalized self |}.

Definition with_finalized (self : t) (b : bool) : t :=
  {| gen := gen self; tiles := tiles self;
     config_addr_width := config_addr_width self;
     config_data_width := config_data_width self;
     tile_id_width := tile_id_width self;
     full_config_addr_width := full_config_addr_width self;
     feature_addr_slice := feature_addr_slice self;
     tile_id_slice := tile_id_slice self;
     feature_config_slice := feature_config_slice self;
     x := x self; y := y self; core := core self;
     core_interface := core_interface self;
     cbs := cbs self; sbs := sbs self; __features := __features self;
     read_data_mux := read_data_mux self; finalized := b |}.

Definition upd_gen (self : t) (f : Generator -> Generator) : t :=
  with_gen self (f (gen self)).

Definition __name (core : option Core) : string :=
  match core with
  | Some c => "Tile_" ++ core_name c
  | None => "Tile_Empty"
  end.

Definition add_feature (self : t) (feature : Feature) : t :=
  with_features self (__features self ++ [feature]).

Definition features (self : t) : list Feature := __features self.

(** The sanity check over [tiles.items()]. *)
Definition sanity_step (st : Z * Z * option CoreInterface.t)
    (entry : Z * Tile) : result (Z * Z * option CoreInterface.t) :=
  let '(x, y, core) := st in
  let '(bit_width, tile) := entry in
  assert (bit_width =? tile_track_width tile) ;;;
  if x =? -1 then
    Ok (tile_x tile, tile_y tile, Some (tile_core tile))
  else
    assert (x =? tile_x tile) ;;;
    assert (y =? tile_y tile) ;;;
    (* the restriction is that all the tiles in the same coordinate
       have to have the same core, otherwise it's physically impossible *)
    match core with
    | Some c => assert (CoreInterface.__eq__ c (tile_core tile))
    | None => Raise AttributeError
    end ;;;
    Ok st.

(** Connection box time: one port of one tile. *)
Definition create_cb_step (G : Graph) (bit_width : Z)
    (core : CoreInterface.t) (self : t) (entry : string * NodeId)
  : result t :=
  let port_node := snd entry in
  (* input ports *)
  if fan_out (G port_node) =? 0 then
    assert (bit_width =? node_width (G port_node)) ;;;
    (* make sure that it has at least one connection *)
    if fan_in (G port_node) =? 0 then Ok self
    else
      (* create a CB *)
      let port_name := node_name (G port_node) in
      cb <- CB.__init__ G port_node (config_addr_width self)
              (config_data_width self) ;;
      let self := upd_gen self (fun g =>
        add_child_generator g ("CB_" ++ port_name) (ChildUnit "CB")) in
      port_ref <- CoreInterface.get_port_ref core port_name ;;
      O <- port_of (InterconnectConfigurable.gen (CB.base cb))
             (CBRef port_name) "O" ;;
      let self := upd_gen self (fun g => wire g O (SCorePort port_ref)) in
      Ok (with_cbs self (dict_set String.eqb (cbs self) port_name cb))
  else
    (* output ports *)
    assert (fan_in (G port_node) =? 0) ;;;
    assert (bit_width =? node_width (G port_node)) ;;;
    Ok self.

(** Creation of the connection boxes and of the switch box of one tile. *)
Definition create_tile_step (G : Graph) (stall_signal_width : Z) (self : t)
    (entry : Z * Tile) : result t :=
  let '(bit_width, tile) := entry in
  let core := tile_core tile in
  self <- for_each (create_cb_step G bit_width core) (tile_ports tile)
            self ;;
  (* switch box time *)
  let core_name :=
    match TileCircuit.core self with
    | Some c => core_name c
    | None => ""
    end in
  sb <- SB.__init__ G (tile_switchbox tile) (config_addr_width self)
          (config_data_width self) core_name stall_signal_width ;;
  let self := with_sbs self
    (dict_set Z.eqb (sbs self) (switchbox_width (SB.switchbox sb)) sb) in
  Ok (upd_gen self (fun g =>
        add_child_generator g ("SB_" ++ str_of_int bit_width)
          (ChildUnit "SB"))).

(** lift all the sb ports up *)
Definition lift_sb_port_step (G : Graph) (key : Z) (switchbox : SB.t)
    (self : t) (sb : NodeId) : result t :=
  sb_name <- create_name (node_str (G sb)) ;;
  '(node, mux) <-
    dict_item String.eqb (SB.sb_muxs switchbox) (node_str (G sb)) ;;
  assert (Nat.eqb node sb) ;;;
  assert (node_x (G sb) =? x self) ;;;
  assert (node_y (G sb) =? y self) ;;;
  port <- get_port (InterconnectConfigurable.gen (SB.base switchbox))
            sb_name ;;
  io <- node_io (G node) ;;
  let self :=
    if SwitchBoxIO_eqb io SB_IN
    then upd_gen self (fun g => add_port g sb_name (port_width port) In_ Data)
    else upd_gen self (fun g =>
           add_port g sb_name (port_width port) Out_ Data) in
  p <- port_of (gen self) This sb_name ;;
  Ok (upd_gen self (fun g => wire g p (SPort (SBRef key) sb_name))).

Definition lift_sb_ports_step (G : Graph) (self : t) (entry : Z * SB.t)
  : result t :=
  let '(key, switchbox) := entry in
  let sbs := get_all_sbs (SB.switchbox switchbox) in
  assert (switchbox_x (SB.switchbox switchbox) =? x self) ;;;
  assert (switchbox_y (SB.switchbox switchbox) =? y self) ;;;
  for_each (lift_sb_port_step G key switchbox) sbs self.

(** connect ports from cb to switch box and back *)
Definition connect_cb_input_step (G : Graph) (key : string) (cb : CB.t)
    (self : t) (entry : nat * NodeId) : result t :=
  let '(idx, node) := entry in
  assert (is_SwitchBoxNode (G node) || is_RegisterMuxNode (G node)) ;;;
  (* for IO tiles they have connections to other tiles *)
  if negb (node_x (G node) =? x self) || negb (node_y (G node) =? y self)
  then Ok self
  else
    let bit_width := node_width (G node) in
    sb_circuit <- dict_item Z.eqb (sbs self) bit_width ;;
    io <- node_io (G node) ;;
    if SwitchBoxIO_eqb io SB_IN then
      (* get the internal wire *)
      '(n, sb_mux) <-
        dict_item String.eqb (SB.sb_muxs sb_circuit) (node_str (G node)) ;;
      assert (Nat.eqb n node) ;;;
      _ <- tuple_attr sb_mux ;;
      I <- port_of (InterconnectConfigurable.gen (CB.base cb))
             (CBRef key) "I" ;;
      Ok (upd_gen self (fun g =>
            wire g (SPort (Within (SBRef bit_width)
                             (SbMux (node_str (G node)))) "O")
                   (SIdx I idx)))
    else
      sb_name <- create_name (node_str (G node)) ;;
      p <- port_of (InterconnectConfigurable.gen (SB.base sb_circuit))
             (SBRef bit_width) sb_name ;;
      I <- port_of (InterconnectConfigurable.gen (CB.base cb))
             (CBRef key) "I" ;;
      Ok (upd_gen self (fun g => wire g p (SIdx I idx))).

Definition connect_cb_step (G : Graph) (self : t) (entry : string * CB.t)
  : result t :=
  let '(key, cb) := entry in
  let conn_ins := conn_in (G (CB.node cb)) in
  for_each (connect_cb_input_step G key cb) (enumerate conn_ins) self.

(** connect ports from core to switch box *)
Definition connect_core_port_step (G : Graph) (bit_width : Z)
    (port_node : NodeId) (self : t) (sb_node : NodeId) : result t :=
  let port_name := node_name (G port_node) in
  assert (is_SwitchBoxNode (G sb_node)) ;;;
  (* for IO tiles they have connections to other tiles *)
  if negb (node_x (G sb_node) =? x self)
     || negb (node_y (G sb_node) =? y self)
  then Ok self
  else
    idx <- index Nat.eqb port_node (conn_in (G sb_node)) ;;
    let width := node_width (G port_node) in
    sb_circuit <- dict_item Z.eqb (sbs self) width ;;
    (* we need to find the actual mux *)
    '(n, mux) <-
      dict_item String.eqb (SB.sb_muxs sb_circuit) (node_str (G sb_node)) ;;
    assert (Nat.eqb n sb_node) ;;;
    (* the generator doesn't allow circular reference
       we have to be very creative here *)
    '(self, sb_circuit) <-
      (if negb (has_port (InterconnectConfigurable.gen (SB.base sb_circuit))
                  port_name) then
         let sb_circuit := SB.upd_gen sb_circuit (fun g =>
           add_port g port_name bit_width In_ Data) in
         c <- core_port_of (core self) port_name ;;
         p <- port_of (InterconnectConfigurable.gen (SB.base sb_circuit))
                (SBRef width) port_name ;;
         Ok (upd_gen self (fun g => wire g c p), sb_circuit)
       else Ok (self, sb_circuit)) ;;
    p <- port_of (InterconnectConfigurable.gen (SB.base sb_circuit))
           This port_name ;;
    _ <- tuple_attr mux ;;
    let sb_circuit := SB.upd_gen sb_circuit (fun g =>
      wire g p (SIdx (SPort (SbMux (node_str (G sb_node))) "I") idx)) in
    Ok (with_sbs self (dict_set Z.eqb (sbs self) width sb_circuit)).

Definition connect_core_step (G : Graph) (bit_width : Z) (self : t)
    (entry : string * NodeId) : result t :=
  let port_node := snd entry in
  if fan_out (G port_node) >? 0 then
    assert (fan_in (G port_node) =? 0) ;;;
    for_each (connect_core_port_step G bit_width port_node)
      (neighbors (G port_node)) self
  else Ok self.

Definition connect_core_tile_step (G : Graph) (self : t)
    (entry : Z * Tile) : result t :=
  let '(bit_width, tile) := entry in
  for_each (connect_core_step G bit_width) (tile_ports tile) self.

Definition __add_tile_id (self : t) : t :=
  upd_gen self (fun g => add_port g "tile_id" (tile_id_width self) In_ Data).

(** lift the internal ports only if we have empty switch boxes *)
Definition lift_input_step (G : Graph) (bit_width : Z) (self : t)
    (entry : Z * string) : result t :=
  let '(bt, port_name) := entry in
  if negb (bt =? bit_width) then Ok self
  else
    (* depends on if the port has any connection or not
       we lift the port up first
       if it has no connection, then we lift it up *)
    tile <- dict_item Z.eqb (tiles self) bit_width ;;
    port_node <- dict_item String.eqb (tile_ports tile) port_name ;;
    if negb (fan_in (G port_node) =? 0) then
      cb <- dict_item String.eqb (cbs self) port_name ;;
      cb_input_port <- port_of (InterconnectConfigurable.gen (CB.base cb))
                         (CBRef port_name) "I" ;;
      (* use the CB input type instead *)
      base_type <- get_port (InterconnectConfigurable.gen (CB.base cb))
                     "I" ;;
      let self := upd_gen self (fun g =>
        add_port g port_name (port_width base_type)
          (port_direction base_type) Data) in
      p <- port_of (gen self) This port_name ;;
      Ok (upd_gen self (fun g => wire g p cb_input_port))
    else
      let self := upd_gen self (fun g =>
        add_port g port_name bit_width In_ Data) in
      p <- port_of (gen self) This port_name ;;
      c <- core_port_of (core self) port_name ;;
      Ok (upd_gen self (fun g => wire g p c)).

Definition lift_output_step (bit_width : Z) (self : t)
    (entry : Z * string) : result t :=
  let '(bt, port_name) := entry in
  if negb (bt =? bit_width) then Ok self
  else
    (* depends on if the port has any connection or not
       we lift the port up first
       if it has connection, then we connect it to the core *)
    let self := upd_gen self (fun g =>
      add_port g port_name bit_width Out_ Data) in
    p <- port_of (gen self) This port_name ;;
    c <- core_port_of (core self) port_name ;;
    Ok (upd_gen self (fun g => wire g p c)).

Definition lift_ports_step (G : Graph) (self : t) (entry : Z * SB.t)
  : result t :=
  let '(bit_width, sb) := entry in
  if switchbox_num_track (SB.switchbox sb) >? 0 then Ok self
  else
    (* lift the input ports up *)
    self <- for_each (lift_input_step G bit_width)
              (CoreInterface.inputs (core_interface self)) self ;;
    (* lift the output ports up *)
    for_each (lift_output_step bit_width)
      (CoreInterface.outputs (core_interface self)) self.

Definition __lift_ports (G : Graph) (self : t) : result t :=
  for_each (lift_ports_step G) (sbs self) self.

(** The feature list: core features first, then CBs, then SBs. *)
Definition add_features (self : t) : result t :=
  let self := with_features self [] in
  (* users are free to add more features to the core *)
  let self :=
    match core self with
    | Some c =>
        (* add core features first *)
        fold_left (fun self feature => add_feature self (FCore feature))
          (core_features c) self
    | None => self
    end in
  (* then CBs *)
  let cb_names := dict_keys (cbs self) in
  let cb_names := sort_names cb_names in
  self <- for_each (fun self name =>
              cb <- dict_item String.eqb (cbs self) name ;;
              Ok (add_feature self (FCB name cb)))
            cb_names self ;;
  (* then SBs *)
  let sb_widths := dict_keys (sbs self) in
  let sb_widths := sort_widths sb_widths in
  for_each (fun self width =>
      sb <- dict_item Z.eqb (sbs self) width ;;
      Ok (add_feature self (FSB width sb)))
    sb_widths self.

Definition __init__ (G : Graph) (tiles : dict Z Tile)
    (config_addr_width config_data_width : Z)
    (tile_id_width full_config_addr_width stall_signal_width : Z)
  : result t :=
  (* compute config addr sizes *)
  let full_width := full_config_addr_width in
  (* (16, 24) *)
  let feature_addr_slice :=
    (full_width - tile_id_width, full_width - config_addr_width) in
  (* (0, 16) *)
  let tile_id_slice := (0, tile_id_width) in
  (* (24, 32) *)
  let feature_config_slice :=
    (full_width - config_addr_width, full_width) in
  (* sanity check *)
  '(x, y, core) <- for_each sanity_step tiles (-1, -1, None) ;;
  assert (negb (x =? -1) && negb (y =? -1)) ;;;
  core_interface <-
    match core with
    | Some c => Ok c
    | None => Raise AttributeError
    end ;;
  let core := CoreInterface.core core_interface in
  (* good to go *)
  let self :=
    {| gen := Generator_init (__name core); tiles := tiles;
       config_addr_width := config_addr_width;
       config_data_width := config_data_width;
       tile_id_width := tile_id_width;
       full_config_addr_width := full_config_addr_width;
       feature_addr_slice := feature_addr_slice;
       tile_id_slice := tile_id_slice;
       feature_config_slice := feature_config_slice;
       x := x; y := y; core := core; core_interface := core_interface;
       cbs := []; sbs := []; __features := [];
       read_data_mux := None; finalized := false |} in
  (* create cb and switchbox *)
  self <- for_each (create_tile_step G stall_signal_width) tiles self ;;
  (* lift all the sb ports up *)
  self <- for_each (lift_sb_ports_step G) (sbs self) self ;;
  (* connect ports from cb to switch box and back *)
  self <- for_each (connect_cb_step G) (cbs self) self ;;
  (* connect ports from core to switch box *)
  self <- for_each (connect_core_tile_step G) tiles self ;;
  let self := __add_tile_id self in
  (* add ports *)
  let self := upd_gen self (fun g =>
    add_port (add_port g "stall" stall_signal_width In_ Data)
      "reset" 1 In_ AsyncReset) in
  (* lift ports if there is empty sb *)
  self <- __lift_ports G self ;;
  (* add features *)
  self <- add_features self ;;
  Ok (with_finalized self false).

(** The default widths of [__init__]. *)
Definition default_tile_id_width : Z := 16.
Definition default_full_config_addr_width : Z := 32.
Definition default_stall_signal_width : Z := 4.

(* --------------------------------------------------------------- *)
(** *** Route resolution *)

Definition circuit_registers (circuit : Feature)
  : dict string ConfigRegister :=
  match circuit with
  | FCB _ cb => InterconnectConfigurable.registers (CB.base cb)
  | FSB _ sb => InterconnectConfigurable.registers (SB.base sb)
  | FCore _ => []
  end.

Definition __find_reg_index (circuit : Feature) (node : Node)
  : result nat :=
  let config_names := dict_keys (circuit_registers circuit) in
  let config_names := sort_names config_names in
  mux_sel_name <- get_mux_sel_name node ;;
  index String.eqb mux_sel_name config_names.

Definition get_route_bitstream_config (G : Graph) (self : t)
    (src_node dst_node : NodeId) : result (nat * nat * nat) :=
  assert (node_width (G src_node) =? node_width (G dst_node)) ;;;
  tile <- dict_item Z.eqb (tiles self) (node_width (G src_node)) ;;
  assert ((node_x (G dst_node) =? tile_x tile)
          && (node_y (G dst_node) =? tile_y tile)) ;;;
  assert (contains Nat.eqb dst_node (neighbors (G src_node))) ;;;
  config_data <- index Nat.eqb src_node (conn_in (G dst_node)) ;;
  (* find the circuit *)
  circuit <-
    match node_class (G dst_node) with
    | SwitchBoxNode _ =>
        sb <- dict_item Z.eqb (sbs self) (node_width (G src_node)) ;;
        Ok (FSB (node_width (G src_node)) sb)
    | PortNode =>
        cb <- dict_item String.eqb (cbs self) (node_name (G dst_node)) ;;
        Ok (FCB (node_name (G dst_node)) cb)
    | RegisterMuxNode =>
        sb <- dict_item Z.eqb (sbs self) (node_width (G src_node)) ;;
        Ok (FSB (node_width (G src_node)) sb)
    | RegisterNode => Raise NotImplementedError
    end ;;
  reg_index <- __find_reg_index circuit (G dst_node) ;;
  feature_addr <- index Feature_eqb circuit (features self) ;;
  Ok (reg_index, feature_addr, config_data).

(* --------------------------------------------------------------- *)
(** *** Finalization

    [finalize] mutates an existing tile, so what it did before an exception
    stays: its steps run in a state-and-exception monad over the tile. *)

Definition M (A : Type) : Type := t -> result A * t.

Definition ret {A} (a : A) : M A := fun s => (Ok a, s).

Definition bindM {A B} (m : M A) (k : A -> M B) : M B :=
  fun s =>
    match m s with
    | (Ok a, s') => k a s'
    | (Raise e, s') => (Raise e, s')
    end.

Definition get : M t := fun s => (Ok s, s).
Definition modify (f : t -> t) : M unit := fun s => (Ok tt, f s).
Definition lift {A} (r : result A) : M A := fun s => (r, s).

Notation "x <~ m ;; k" := (bindM m (fun x => k))
  (at level 61, m at next level, right associativity).
Notation "m ;;> k" := (bindM m (fun _ => k))
  (at level 61, right associativity).

Fixpoint for_eachM {A} (f : A -> M unit) (l : list A) : M unit :=
  match l with
  | [] => ret tt
  | a :: l' => f a ;;> for_eachM f l'
  end.

(** [self.wire(a, b)] on the tile. *)
Definition wireM (a b : Sig) : M unit :=
  modify (fun s => upd_gen s (fun g => wire g a b)).

(** [self.ports.name] on the tile. *)
Definition self_port (name : string) : M Sig :=
  s <~ get ;; lift (port_of (gen s) This name).

Definition Sig_eq_dec : forall a b : Sig, {a = b} + {a <> b}.
Proof.
  decide equality; try apply string_dec; try apply Z.eq_dec;
    try apply Nat.eq_dec; try apply GenRef_eq_dec.
  decide equality; try apply string_dec.
  decide equality; apply Z.eq_dec.
Defined.

Definition Sig_eqb (a b : Sig) : bool :=
  if Sig_eq_dec a b then true else false.

(** The ports called [name] of the features that have one, and of the core
    when it has one that is not among them. *)
Definition fanout_ports (self : t) (name : string) : list Sig :=
  let ports :=
    map (fun feature => SPort (feature_ref feature) name)
      (filter (fun feature => feature_has_port feature name)
         (features self)) in
  (* some core may not expose the port as features, such as mem cores *)
  match core self with
  | Some c =>
      if existsb (String.eqb name) (core_ports c)
         && negb (contains Sig_eqb (SPort (CoreRef (core_id c)) name) ports)
      then ports ++ [SPort (CoreRef (core_id c)) name]
      else ports
  | None => ports
  end.

(** automatically add stall signal and connect it to the features if the
    feature supports it *)
Definition __add_stall : M unit :=
  self <~ get ;;
  let stall_ports := fanout_ports self "stall" in
  for_eachM (fun stall_port =>
      stall <~ self_port "stall" ;; wireM stall stall_port)
    stall_ports.

(** automatically add reset signal and connect it to the features if the
    feature supports it *)
Definition __add_reset : M unit :=
  self <~ get ;;
  let reset_ports := fanout_ports self "reset" in
  for_eachM (fun reset_port =>
      reset <~ self_port "reset" ;; wireM reset reset_port)
    reset_ports.

(** a introspection on itself to determine whether to add config or not *)
Fixpoint should_add_config_loop (features : list Feature) : result bool :=
  match features with
  | [] => Ok false
  | feature :: rest =>
      if feature_has_port feature "config" then Ok true
      else
        (* if the feature doesn't have config port, it shouldn't have
           reset either, although the other way around may be true *)
        assert (negb (feature_has_port feature "reset")) ;;;
        should_add_config_loop rest
  end.

Definition __should_add_config : M bool :=
  self <~ get ;; lift (should_add_config_loop (features self)).

(** [self.ports.config.config_addr[slice]] *)
Definition config_addr_slice (sl : Z * Z) : M Sig :=
  config <~ self_port "config" ;;
  ret (SSlice (SField config "config_addr") (fst sl) (snd sl)).

(** The first loop of [finalize]: the shared bus of one feature. *)
Definition wire_feature_bus (feature : Feature) : M unit :=
  if negb (feature_has_port feature "config") then ret tt
  else
    self <~ get ;;
    let fconfig := SPort (feature_ref feature) "config" in
    a <~ config_addr_slice (feature_config_slice self) ;;
    wireM a (SField fconfig "config_addr") ;;>
    config <~ self_port "config" ;;
    wireM (SField config "config_data") (SField fconfig "config_data") ;;>
    config <~ self_port "config" ;;
    wireM (SField config "read") (SField fconfig "read").

(** The second loop of [finalize]: read-back input and write decode of
    feature [i]. *)
Definition wire_feature_decode (entry : nat * Feature) : M unit :=
  let '(i, feat) := entry in
  self <~ get ;;
  (* wire each feature's read_data output to read_data_mux inputs *)
  (if feature_has_port feat "read_config_data" then
     wireM (SPort (feature_ref feat) "read_config_data")
           (SIdx (SPort (Prim ReadDataMux) "I") i)
   else
     (* wire constant *)
     wireM (SConst 0) (SIdx (SPort (Prim ReadDataMux) "I") i)) ;;>
  (* for each feature,
     config_en = (config_addr.feature == feature_num) & config_en_tile *)
  a <~ config_addr_slice (feature_addr_slice self) ;;
  wireM (SPort (Prim (DecodeFeat i)) "I") a ;;>
  wireM (SPort (Prim (DecodeFeat i)) "O")
        (SPort (Prim (FeatAndConfigEnTile i)) "I0") ;;>
  wireM (SPort (Prim WriteAndTile) "O")
        (SPort (Prim (FeatAndConfigEnTile i)) "I1") ;;>
  (if feature_has_port feat "config" then
     wireM (SPort (Prim (FeatAndConfigEnTile i)) "O")
           (SIdx (SField (SPort (feature_ref feat) "config") "write") 0)
   else ret tt) ;;>
  (if feature_has_port feat "config_en" then
     wireM (SPort (Prim (DecodeFeat i)) "O")
           (SPort (feature_ref feat) "config_en")
   else ret tt).

Definition finalize : M unit :=
  self <~ get ;;
  if finalized self then lift (Raise AlreadyFinalized)
  else
    modify (fun s => with_finalized s true) ;;>
    (* add stall and reset signal *)
    __add_stall ;;>
    __add_reset ;;>
    (* see if we really need to add config or not *)
    b <~ __should_add_config ;;
    if negb b then ret tt
    else
      modify (fun s => upd_gen s (fun g =>
        add_port
          (add_port
             (add_port g "config"
                (full_config_addr_width s + config_data_width s + 2)
                In_ Data)
             "clk" 1 In_ Clock)
          "read_config_data" (config_data_width s) Out_ Data)) ;;>
      self <~ get ;;
      let features := features self in
      let num_features := Z.of_nat (length features) in
      modify (fun s => with_read_data_mux s
                (num_features, config_data_width s, config_addr_width s,
                 0)) ;;>
      (* most of the logic copied from tile_magma.py
         remove all hardcoded values *)
      for_eachM wire_feature_bus features ;;>
      (* Connect S input to config_addr.feature. *)
      a <~ config_addr_slice (feature_addr_slice self) ;;
      wireM a (SPort (Prim ReadDataMux) "S") ;;>
      read_config_data <~ self_port "read_config_data" ;;
      wireM (SPort (Prim ReadDataMux) "O") read_config_data ;;>
      (* Logic to generate EN input for read_data_mux *)
      (* config_addr.tile_id == self.tile_id? *)
      tile_id <~ self_port "tile_id" ;;
      wireM tile_id (SPort (Prim EqTile) "I0") ;;>
      a <~ config_addr_slice (tile_id_slice self) ;;
      wireM a (SPort (Prim EqTile) "I1") ;;>
      (* (config_addr.tile_id == self.tile_id) & READ *)
      wireM (SPort (Prim ReadAndTile) "I0") (SPort (Prim EqTile) "O") ;;>
      config <~ self_port "config" ;;
      wireM (SPort (Prim ReadAndTile) "I1")
            (SIdx (SField config "read") 0) ;;>
      (* read_data_mux.EN = (config_addr.tile_id == self.tile_id) & READ *)
      wireM (SPort (Prim ReadAndTile) "O")
            (SIdx (SPort (Prim ReadDataMux) "EN") 0) ;;>
      (* Logic for writing to config registers
         Config_en_tile = (config_addr.tile_id == self.tile_id & WRITE) *)
      wireM (SPort (Prim WriteAndTile) "I0") (SPort (Prim EqTile) "O") ;;>
      config <~ self_port "config" ;;
      wireM (SPort (Prim WriteAndTile) "I1")
            (SIdx (SField config "write") 0) ;;>
      for_eachM wire_feature_decode (enumerate features).

End TileCircuit.

(* ================================================================= *)
(** ** 12. The configuration decode logic as a netlist

    [TileCircuit.finalize] builds the write decode out of an equality gate, AND
    gates and one decoder per feature.  Its meaning is read off the wires: the
    value of an input pin is the value of the signal it is wired to. *)

Module Netlist.
Import TileCircuit.

(** The values on the tile's configuration ports in one cycle. *)
Record ConfigBus := {
  bus_config_addr : Z;
  bus_config_data : Z;
  bus_read : bool;
  bus_write : bool;
  bus_tile_id : Z
}.

Definition b2z (b : bool) : Z := if b then 1 else 0.

(** A bound of a Python slice over a sequence of length [len]. *)
Definition slice_bound (len i : Z) : Z :=
  if i <? 0 then Z.max 0 (i + len) else Z.min i len.

(** [v[lo:hi]] for a [len]-bit value, bit 0 being the least significant. *)
Definition bits_slice (len : Z) (sl : Z * Z) (v : Z) : Z :=
  let lo := slice_bound len (fst sl) in
  let hi := slice_bound len (snd sl) in
  if lo <? hi then Z.land (Z.shiftr v lo) (Z.ones (hi - lo)) else 0.

Definition mentions (pin : Sig) (w : Sig * Sig) : bool :=
  Sig_eqb (fst w) pin || Sig_eqb (snd w) pin.

(** The signal an input pin is wired to. *)
Definition driver (wires : list (Sig * Sig)) (pin : Sig) : option Sig :=
  match find (mentions pin) wires with
  | Some w => Some (if Sig_eqb (fst w) pin then snd w else fst w)
  | None => None
  end.

Definition and2 (a b : option Z) : option Z :=
  match a, b with
  | Some a, Some b => Some (b2z (negb (a =? 0) && negb (b =? 0)))
  | _, _ => None
  end.

(** The value of a signal of the tile.  Gates: [DefineEQ] compares its two
    inputs, [DefineAnd(2)] is a conjunction, [DefineDecode(i, n)] is high
    when its input is [i]. *)
Fixpoint eval (fuel : nat) (self : t) (bus : ConfigBus) (s : Sig)
  : option Z :=
  match fuel with
  | O => None
  | S fuel =>
      let input := fun pin =>
        match driver (gen_wires (gen self)) pin with
        | Some src => eval fuel self bus src
        | None => None
        end in
      match s with
      | SConst v => Some v
      | SPort This name =>
          if String.eqb name "tile_id" then Some (bus_tile_id bus) else None
      | SField (SPort This port) field =>
          if negb (String.eqb port "config") then None
          else if String.eqb field "config_addr"
          then Some (bus_config_addr bus)
          else if String.eqb field "config_data"
          then Some (bus_config_data bus)
          else if String.eqb field "read" then Some (b2z (bus_read bus))
          else if String.eqb field "write" then Some (b2z (bus_write bus))
          else None
      | SIdx s' i =>
          match eval fuel self bus s' with
          | Some v => Some (b2z (Z.testbit v (Z.of_nat i)))
          | None => None
          end
      | SSlice s' lo hi =>
          match eval fuel self bus s' with
          | Some v => Some (bits_slice (full_config_addr_width self)
                              (lo, hi) v)
          | None => None
          end
      | SPort (Prim p) name =>
          if negb (String.eqb name "O") then None
          else
            match p with
            | EqTile =>
                match input (SPort (Prim p) "I0"),
                      input (SPort (Prim p) "I1") with
                | Some a, Some b => Some (b2z (a =? b))
                | _, _ => None
                end
            | ReadAndTile | WriteAndTile | FeatAndConfigEnTile _ =>
                and2 (input (SPort (Prim p) "I0"))
                     (input (SPort (Prim p) "I1"))
            | DecodeFeat i =>
                match input (SPort (Prim p) "I") with
                | Some a => Some (b2z (a =? Z.of_nat i))
                | None => None
                end
            | ReadDataMux => None
            end
      | _ => None
      end
  end.

(** The write-enable pin of a feature, [feature.ports.config.write[0]]. *)
Definition write_pin (f : Feature) : Sig :=
  SIdx (SField (SPort (feature_ref f) "config") "write") 0.

(** The value the netlist puts on the write-enable of a feature. *)
Definition feature_write_enable (self : t) (bus : ConfigBus) (f : Feature)
  : option Z :=
  match driver (gen_wires (gen self)) (write_pin f) with
  | Some src => eval 8 self bus src
  | None => None
  end.

(** The three fields of a configuration address. *)
Definition tile_id_field (self : t) (bus : ConfigBus) : Z :=
  bits_slice (full_config_addr_width self) (tile_id_slice self)
    (bus_config_addr bus).

Definition feature_field (self : t) (bus : ConfigBus) : Z :=
  bits_slice (full_config_addr_width self) (feature_addr_slice self)
    (bus_config_addr bus).

Definition register_field (self : t) (bus : ConfigBus) : Z :=
  bits_slice (full_config_addr_width self) (feature_config_slice self)
    (bus_config_addr bus).

(** Modelled from the spec: a configuration register is an addressed
    storage cell; it takes the data on the bus when its enable is high and
    the address on the bus is its own, and keeps its value otherwise. *)
Definition ConfigRegister_next (r : ConfigRegister) (value : Z)
    (config_addr config_data : Z) (config_en : bool) : Z :=
  if config_en
     && match reg_addr r with
        | Some a => config_addr =? a
        | None => false
        end
  then config_data mod 2 ^ reg_width r
  else value.

(** One clock edge on the configuration registers of a feature: inside a
    unit [_setup_config] wires the unit's [config.write] to the enable of
    every register and the unit's address and data to their inputs. *)
Definition feature_registers_next (self : t) (bus : ConfigBus)
    (f : Feature) (values : dict string Z) : option (dict string Z) :=
  match feature_write_enable self bus f with
  | Some en =>
      Some (map (fun e : string * Z =>
              match dict_get String.eqb (circuit_registers f) (fst e) with
              | Some r =>
                  (fst e,
                   ConfigRegister_next r (snd e) (register_field self bus)
                     (bus_config_data bus) (negb (en =? 0)))
              | None => e
              end) values)
  | None => None
  end.

(** The wires [finalize] adds, written out. *)
Definition config_addr_sig (sl : Z * Z) : Sig :=
  SSlice (SField (SPort This "config") "config_addr") (fst sl) (snd sl).

Definition bus_wires (self : t) (f : Feature) : list (Sig * Sig) :=
  if negb (feature_has_port f "config") then []
  else
    let fconfig := SPort (feature_ref f) "config" in
    [(config_addr_sig (feature_config_slice self),
      SField fconfig "config_addr");
     (SField (SPort This "config") "config_data",
      SField fconfig "config_data");
     (SField (SPort This "config") "read", SField fconfig "read")].

Definition decode_wires (self : t) (entry : nat * Feature)
  : list (Sig * Sig) :=
  let '(i, feat) := entry in
  [(if feature_has_port feat "read_config_data"
    then SPort (feature_ref feat) "read_config_data" else SConst 0,
    SIdx (SPort (Prim ReadDataMux) "I") i);
   (SPort (Prim (DecodeFeat i)) "I",
    config_addr_sig (feature_addr_slice self));
   (SPort (Prim (DecodeFeat i)) "O",
    SPort (Prim (FeatAndConfigEnTile i)) "I0");
   (SPort (Prim WriteAndTile) "O",
    SPort (Prim (FeatAndConfigEnTile i)) "I1")]
  ++ (if feature_has_port feat "config"
      then [(SPort (Prim (FeatAndConfigEnTile i)) "O", write_pin feat)]
      else [])
  ++ (if feature_has_port feat "config_en"
      then [(SPort (Prim (DecodeFeat i)) "O",
             SPort (feature_ref feat) "config_en")]
      else []).

Definition gate_wires (self : t) : list (Sig * Sig) :=
  [(config_addr_sig (feature_addr_slice self),
    SPort (Prim ReadDataMux) "S");
   (SPort (Prim ReadDataMux) "O", SPort This "read_config_data");
   (SPort This "tile_id", SPort (Prim EqTile) "I0");
   (config_addr_sig (tile_id_slice self), SPort (Prim EqTile) "I1");
   (SPort (Prim ReadAndTile) "I0", SPort (Prim EqTile) "O");
   (SPort (Prim ReadAndTile) "I1",
    SIdx (SField (SPort This "config") "read") 0);
   (SPort (Prim ReadAndTile) "O", SIdx (SPort (Prim ReadDataMux) "EN") 0);
   (SPort (Prim WriteAndTile) "I0", SPort (Prim EqTile) "O");
   (SPort (Prim WriteAndTile) "I1",
    SIdx (SField (SPort This "config") "write") 0)].

Definition fanout_wires (self : t) (name : string) : list (Sig * Sig) :=
  map (fun p => (SPort This name, p)) (fanout_ports self name).

Definition config_wires (self : t) : list (Sig * Sig) :=
  flat_map (bus_wires self) (features self)
  ++ gate_wires self
  ++ flat_map (decode_wires self) (enumerate (features self)).

(** A wire that touches neither a gate of the decode logic nor a bit of a
    packed port: every wire made before [finalize] is of this kind. *)
Definition plain_sig (s : Sig) : bool :=
  match s with
  | SPort (Prim _) _ => false
  | SIdx (SField _ _) _ => false
  | _ => true
  end.

Definition plain_wires (wires : list (Sig * Sig)) : bool :=
  forallb (fun w : Sig * Sig => plain_sig (fst w) && plain_sig (snd w))
    wires.

End Netlist.

(* ================================================================= *)
(** ** 13. Example fabric

    A tile at (1, 1) on the 16-bit layer with an empty switch box, a core with
    two inputs and one output, and the switch nodes of the neighbouring tiles
    that drive its inputs; and a switch box with one switch-out node feeding
    a pipeline register and its register mux. *)

Module Examples.

Definition mk_node (c : NodeClass) (name : string) (x y width : Z)
    (str : string) (conn_in neighbors : list NodeId) : Node :=
  {| node_class := c; node_name := name; node_x := x; node_y := y;
     node_width := width; node_str := str; conn_in := conn_in;
     neighbors := neighbors |}.

Definition graph : Graph := fun id =>
  match id with
  | 0%nat => mk_node PortNode "data_in" 1 1 16 "PORT data_in (1, 1, 16)"
               [2; 3; 4]%nat []
  | 1%nat => mk_node PortNode "flush" 1 1 16 "PORT flush (1, 1, 16)"
               [2]%nat []
  | 2%nat => mk_node (SwitchBoxNode SB_OUT) "" 0 1 16
               "SB (0, 0, 1, 0, 1, 16)" [] [0; 1]%nat
  | 3%nat => mk_node (SwitchBoxNode SB_OUT) "" 0 1 16
               "SB (1, 0, 1, 0, 1, 16)" [] [0]%nat
  | 4%nat => mk_node (SwitchBoxNode SB_OUT) "" 0 1 16
               "SB (2, 0, 1, 0, 1, 16)" [] [0]%nat
  | 5%nat => mk_node PortNode "data_out" 1 1 16 "PORT data_out (1, 1, 16)"
               [] [6]%nat
  | 6%nat => mk_node (SwitchBoxNode SB_IN) "" 2 1 16
               "SB (0, 2, 1, 2, 0, 16)" [5]%nat []
  | 10%nat => mk_node (SwitchBoxNode SB_OUT) "" 1 1 16
                "SB (0, 1, 1, 0, 1, 16)" [] [11; 12]%nat
  | 11%nat => mk_node RegisterNode "T0_EAST" 1 1 16
                "REG T0_EAST 0 (1, 1, 16)" [10]%nat [12]%nat
  | 12%nat => mk_node RegisterMuxNode "" 1 1 16 "RMUX (0, 1, 1, 16)"
                [10; 11]%nat []
  | _ => mk_node PortNode "unused" 0 0 16 "PORT unused (0, 0, 16)" [] []
  end.

Definition pe_core : Core :=
  {| core_id := 0; core_name := "PE";
     core_ports := ["data_in"; "flush"; "data_out"; "clk"; "reset";
                    "config"; "read_config_data"; "stall"];
     core_inputs := [{| qualified_name := "data_in";
                        port_kind := BitsKind 16 |};
                     {| qualified_name := "flush";
                        port_kind := BitsKind 16 |}];
     core_outputs := [{| qualified_name := "data_out";
                         port_kind := BitsKind 16 |}];
     core_features := [{| core_feature_id := 0;
                          core_feature_ports :=
                            ["clk"; "reset"; "config"; "read_config_data";
                             "stall"] |}] |}.

(** A core that exposes no feature of its own. *)
Definition plain_core : Core :=
  {| core_id := 1; core_name := "IO";
     core_ports := ["flush"];
     core_inputs := [{| qualified_name := "flush";
                        port_kind := BitsKind 16 |}];
     core_outputs := [];
     core_features := [] |}.

Definition interface_of (c : Core) : CoreInterface.t :=
  match CoreInterface.__init__ (Some c) with
  | Ok ci => ci
  | Raise _ =>
      {| CoreInterface.input_ports := []; CoreInterface.output_ports := [];
         CoreInterface.core := None |}
  end.

Definition empty_switchbox : SwitchBox :=
  {| switchbox_id := 0; switchbox_x := 1; switchbox_y := 1;
     switchbox_num_track := 0; switchbox_width := 16;
     get_all_sbs := []; switchbox_registers := [];
     switchbox_reg_muxs := [] |}.

(** One switch-out node, its pipeline register and its register mux. *)
Definition reg_switchbox : SwitchBox :=
  {| switchbox_id := 0; switchbox_x := 1; switchbox_y := 1;
     switchbox_num_track := 1; switchbox_width := 16;
     get_all_sbs := [10%nat];
     switchbox_registers := [("T0_EAST", 11%nat)];
     switchbox_reg_muxs := [("RMUX_T0_EAST", 12%nat)] |}.

Definition pe_tile : Tile :=
  {| tile_x := 1; tile_y := 1; tile_track_width := 16;
     tile_switchbox := empty_switchbox;
     tile_ports := [("data_in", 0%nat); ("flush", 1%nat);
                    ("data_out", 5%nat)];
     tile_core := interface_of pe_core |}.

Definition io_tile : Tile :=
  {| tile_x := 1; tile_y := 1; tile_track_width := 16;
     tile_switchbox := empty_switchbox;
     tile_ports := [("flush", 1%nat)];
     tile_core := interface_of plain_core |}.

(** [TileCircuit({16: tile}, config_addr_width=8, config_data_width=32)]
    with the default widths. *)
Definition build (tile : Tile) : result TileCircuit.t :=
  TileCircuit.__init__ graph [(16, tile)] 8 32
    TileCircuit.default_tile_id_width
    TileCircuit.default_full_config_addr_width
    TileCircuit.default_stall_signal_width.

Definition empty_tile_circuit : TileCircuit.t :=
  {| TileCircuit.gen := Generator_init "";
     TileCircuit.tiles := [];
     TileCircuit.config_addr_width := 0;
     TileCircuit.config_data_width := 0;
     TileCircuit.tile_id_width := 0;
     TileCircuit.full_config_addr_width := 0;
     TileCircuit.feature_addr_slice := (0, 0);
     TileCircuit.tile_id_slice := (0, 0);
     TileCircuit.feature_config_slice := (0, 0);
     TileCircuit.x := 0; TileCircuit.y := 0; TileCircuit.core := None;
     TileCircuit.core_interface :=
       {| CoreInterface.input_ports := [];
          CoreInterface.output_ports := []; CoreInterface.core := None |};
     TileCircuit.cbs := []; TileCircuit.sbs := [];
     TileCircuit.__features := [];
     TileCircuit.read_data_mux := None; TileCircuit.finalized := false |}.

Definition built (tile : Tile) : TileCircuit.t :=
  match build tile with
  | Ok tc => tc
  | Raise _ => empty_tile_circuit
  end.

(** The connection box of a port of the example graph. *)
Definition cb_of (port_node : NodeId) : CB.t :=
match CB.__init__ graph port_node 8 32 with
| Ok cb => cb
| Raise _ =>
    {| CB.base := InterconnectConfigurable.__init__ "" 8 32;
       CB.node := port_node; CB.mux := Mux_create 0 0 |}
end.

Definition pe_tile_circuit : TileCircuit.t := built pe_tile.
Definition io_tile_circuit : TileCircuit.t := built io_tile.

End Examples.

(* ================================================================= *)
(** ** 14. Vocabulary of the statements *)

(** The address [_setup_config] gave to the register called [name]. *)
Definition address_of (self : InterconnectConfigurable.t) (name : string)
  : option Z :=
  match dict_get String.eqb (InterconnectConfigurable.registers self) name with
  | Some r => reg_addr r
  | None => None
  end.

(** [add_config(name, width)] for each entry, in the order of the list. *)
Definition register_all (entries : list (string * Z))
    (self : InterconnectConfigurable.t) : result InterconnectConfigurable.t :=
  for_each (fun self (e : string * Z) =>
      InterconnectConfigurable.add_config self (fst e) (snd e))
    entries self.

(** A unit with its configuration ports and no register yet. *)
Definition fresh_unit (name : string)
    (config_addr_width config_data_width : Z) : InterconnectConfigurable.t :=
  let self := InterconnectConfigurable.__init__ name config_addr_width
                config_data_width in
  InterconnectConfigurable.with_gen self
    (add_port (InterconnectConfigurable.gen self) "config"
       (packed_width ConfigurationType) In_ Data).

(** The feature that owns the selector of a destination: the switch box of
    the bit-width for a switch node or a register mux, the connection box
    named after the destination for a port. *)
Definition owning_feature (self : TileCircuit.t) (src dst : Node)
  : option Feature :=
  match node_class dst with
  | SwitchBoxNode _ | RegisterMuxNode =>
      option_map (FSB (node_width src))
        (dict_get Z.eqb (TileCircuit.sbs self) (node_width src))
  | PortNode =>
      option_map (FCB (node_name dst))
        (dict_get String.eqb (TileCircuit.cbs self) (node_name dst))
  | RegisterNode => None
  end.

(** The preconditions of the route resolver: equal widths, a tile of that
    width, the destination at the tile's coordinate, and an edge from the
    source to the destination. *)
Definition route_preconditions (G : Graph) (self : TileCircuit.t)
    (src dst : NodeId) : Prop :=
  node_width (G src) = node_width (G dst) /\
  (exists tile,
     dict_get Z.eqb (TileCircuit.tiles self) (node_width (G src)) = Some tile /\
     node_x (G dst) = tile_x tile /\ node_y (G dst) = tile_y tile) /\
  In dst (neighbors (G src)) /\
  In src (conn_in (G dst)).

(** The unit was compiled for the node, by the connection-box compiler, or
    is a unit made by the switch-box compiler. *)
Definition compiled_for (G : Graph) (dst : NodeId) (circuit : Feature)
  : Prop :=
  match circuit with
  | FCB _ cb => exists caw cdw, CB.__init__ G dst caw cdw = Ok cb
  | FSB _ sb =>
      exists switchbox caw cdw core_name ssw,
        SB.__init__ G switchbox caw cdw core_name ssw = Ok sb
  | FCore _ => False
  end.

(** The tile with more wires. *)
Definition add_wires (s : TileCircuit.t) (ws : list (Sig * Sig))
  : TileCircuit.t :=
  TileCircuit.upd_gen s (fun g =>
    {| gen_name := gen_name g; gen_ports := gen_ports g;
       gen_children := gen_children g;
       gen_wires := gen_wires g ++ ws |}).

(** The tile [finalize] leaves when no configuration is added: marked
    finalized, with the stall and reset fan-out. *)
Definition finalized_plain (s : TileCircuit.t) : TileCircuit.t :=
  add_wires (TileCircuit.with_finalized s true)
    (Netlist.fanout_wires s "stall" ++ Netlist.fanout_wires s "reset").

(** The tile [finalize] leaves when a feature has a configuration port: with
    the three configuration ports, the read-back multiplexer and the decode
    logic as well. *)
Definition finalized_config (s : TileCircuit.t) : TileCircuit.t :=
  add_wires
    (TileCircuit.with_read_data_mux
       (TileCircuit.upd_gen (finalized_plain s) (fun g =>
          add_port
            (add_port
               (add_port g "config"
                  (TileCircuit.full_config_addr_width s
                   + TileCircuit.config_data_width s + 2) In_ Data)
               "clk" 1 In_ Clock)
            "read_config_data" (TileCircuit.config_data_width s) Out_ Data))
       (Z.of_nat (length (TileCircuit.features s)),
        TileCircuit.config_data_width s, TileCircuit.config_addr_width s, 0))
    (Netlist.config_wires s).

(** A bit position lies in a slice. *)
Definition in_slice (sl : Z * Z) (bit : Z) : Prop :=
  fst sl <= bit < snd sl.

Definition slice_width (sl : Z * Z) : Z := snd sl - fst sl.

Section FinalizeParts.
Import TileCircuit.

(** The part of [finalize] that adds the configuration ports and logic. *)
Definition finalize_config_part : M unit :=
  modify (fun s => upd_gen s (fun g =>
    add_port
      (add_port
         (add_port g "config"
            (full_config_addr_width s + config_data_width s + 2) In_ Data)
         "clk" 1 In_ Clock)
      "read_config_data" (config_data_width s) Out_ Data)) ;;>
  self <~ get ;;
  let features := features self in
  let num_features := Z.of_nat (length features) in
  modify (fun s => with_read_data_mux s
            (num_features, config_data_width s, config_addr_width s, 0)) ;;>
  for_eachM wire_feature_bus features ;;>
  a <~ config_addr_slice (feature_addr_slice self) ;;
  wireM a (SPort (Prim ReadDataMux) "S") ;;>
  read_config_data <~ self_port "read_config_data" ;;
  wireM (SPort (Prim ReadDataMux) "O") read_config_data ;;>
  tile_id <~ self_port "tile_id" ;;
  wireM tile_id (SPort (Prim EqTile) "I0") ;;>
  a <~ config_addr_slice (tile_id_slice self) ;;
  wireM a (SPort (Prim EqTile) "I1") ;;>
  wireM (SPort (Prim ReadAndTile) "I0") (SPort (Prim EqTile) "O") ;;>
  config <~ self_port "config" ;;
  wireM (SPort (Prim ReadAndTile) "I1") (SIdx (SField config "read") 0) ;;>
  wireM (SPort (Prim ReadAndTile) "O")
        (SIdx (SPort (Prim ReadDataMux) "EN") 0) ;;>
  wireM (SPort (Prim WriteAndTile) "I0") (SPort (Prim EqTile) "O") ;;>
  config <~ self_port "config" ;;
  wireM (SPort (Prim WriteAndTile) "I1") (SIdx (SField config "write") 0) ;;>
  for_eachM wire_feature_decode (enumerate features).

(** [finalize] after its guard against a second call. *)
Definition finalize_body : M unit :=
  __add_stall ;;>
  __add_reset ;;>
  b <~ __should_add_config ;;
  if negb b then ret tt else finalize_config_part.

(** A property of the tile that a step keeps, whether it returns or raises. *)
Definition preserves {A} (P : t -> Prop) (m : M A) : Prop :=
  forall s, P s -> P (snd (m s)).

(** Properties that do not depend on the wires. *)
Definition wire_blind (P : t -> Prop) : Prop :=
  forall s a b, P s -> P (upd_gen s (fun g => wire g a b)).

End FinalizeParts.

(** The address layout of a tile: its slices and widths. *)
Definition layout (s : TileCircuit.t)
  : (Z * Z) * (Z * Z) * (Z * Z) * (Z * Z * Z * Z) :=
  (TileCircuit.tile_id_slice s, TileCircuit.feature_addr_slice s,
   TileCircuit.feature_config_slice s,
   (TileCircuit.full_config_addr_width s, TileCircuit.tile_id_width s,
    TileCircuit.config_addr_width s, TileCircuit.config_data_width s)).

(** What the construction steps of a tile keep: the address layout and the
    core; that no wire touches the decode logic; the ports already made; and
    that [cbs] and [sbs] have distinct keys. *)
Definition init_inv (s0 s : TileCircuit.t) : Prop :=
  layout s = layout s0 /\
  TileCircuit.core s = TileCircuit.core s0 /\
  TileCircuit.finalized s = TileCircuit.finalized s0 /\
  (Netlist.plain_wires (gen_wires (TileCircuit.gen s0)) = true ->
   Netlist.plain_wires (gen_wires (TileCircuit.gen s)) = true) /\
  (forall n, has_port (TileCircuit.gen s0) n = true ->
             has_port (TileCircuit.gen s) n = true) /\
  (NoDup (dict_keys (TileCircuit.cbs s0)) ->
   NoDup (dict_keys (TileCircuit.cbs s))) /\
  (NoDup (dict_keys (TileCircuit.sbs s0)) ->
   NoDup (dict_keys (TileCircuit.sbs s))).

(** The value on an input pin of the tile's netlist: the value of the signal
    the pin is wired to. *)
Definition input_value (fuel : nat) (s : TileCircuit.t)
    (bus : Netlist.ConfigBus) (pin : Sig) : option Z :=
  match Netlist.driver (gen_wires (TileCircuit.gen s)) pin with
  | Some src => Netlist.eval fuel s bus src
  | None => None
  end.

(** A switch box without the packed [config] port. *)
Definition no_config (self : SB.t) : Prop :=
  has_port (InterconnectConfigurable.gen (SB.base self)) "config" = false.

(** A core whose one feature has a [stall] port and no configuration, and
    which has a [stall] and a [reset] port of its own; the tile of this core
    and the tile circuit compiled from it. *)
Definition mem_core : Core :=
  {| core_id := 2; core_name := "MEM";
     core_ports := ["flush"; "stall"; "reset"];
     core_inputs := [{| qualified_name := "flush";
                        port_kind := BitsKind 16 |}];
     core_outputs := [];
     core_features := [{| core_feature_id := 3;
                          core_feature_ports := ["stall"] |}] |}.

Definition mem_tile : Tile :=
  {| tile_x := 1; tile_y := 1; tile_track_width := 16;
     tile_switchbox := Examples.empty_switchbox;
     tile_ports := [("flush", 1%nat)];
     tile_core := Examples.interface_of mem_core |}.

Definition mem_tile_circuit : TileCircuit.t := Examples.built mem_tile.

(* --------------------------------------------------------------- *)
(** *** Vocabulary of the further properties *)

(** The wire [_setup_config] makes from input [I<i>] of the read-back
    multiplexer of a unit to the output of the register called [name],
    zero-extended to the data width. *)
Definition read_input_wire (cdw : Z) (e : nat * string) : Sig * Sig :=
  (SPort (Inst "read_config_data_mux")
     ("I" ++ str_of_int (Z.of_nat (fst e))),
   SZext (SPort (Inst (snd e)) "O") cdw).

(** A unit with three registers, registered out of order, before and after
    [_setup_config]. *)
Definition three_registers : InterconnectConfigurable.t :=
  match register_all [("b_sel", 2); ("a_sel", 1); ("c_sel", 1)]
          (fresh_unit "unit" 8 32) with
  | Ok u => u
  | Raise _ => fresh_unit "unit" 8 32
  end.

Definition three_registers_set_up : InterconnectConfigurable.t :=
  match InterconnectConfigurable._setup_config three_registers with
  | Ok u => u
  | Raise _ => three_registers
  end.

(** The unit [SB.__init__] returns for a switch box without switch nodes,
    registers and register muxes: the three ports of the base class are
    removed again and nothing else is made. *)
Definition empty_SB (switchbox : SwitchBox) (caw cdw : Z)
    (core_name : string) (stall_signal_width : Z) : SB.t :=
  {| SB.base :=
       {| InterconnectConfigurable.gen :=
            Generator_init (SB.__name switchbox core_name);
          InterconnectConfigurable.registers := [];
          InterconnectConfigurable.config_addr_width := caw;
          InterconnectConfigurable.config_data_width := cdw;
          InterconnectConfigurable.read_config_data_mux := None |};
     SB.switchbox := switchbox; SB.__core_name := core_name;
     SB.stall_signal_width := stall_signal_width;
     SB.sb_muxs := []; SB.reg_muxs := []; SB.regs := [];
     SB.mux_name_to_node := [] |}.

(** The switch box of the example after [__create_reg_mux] made the element
    of its register mux. *)
Definition reg_mux_created : SB.t :=
  match SB.create_reg_mux_step Examples.graph
          (empty_SB Examples.reg_switchbox 8 32 "PE" 4)
          ("RMUX_T0_EAST", 12%nat) with
  | Ok s => s
  | Raise _ => empty_SB Examples.reg_switchbox 8 32 "PE" 4
  end.

(** The width [CoreInterface.__get_bit_width] reads off a port reference:
    1 for a bit, the length for a bit vector. *)
Definition port_width_is (p : MagmaPort) (w : Z) : Prop :=
  match port_kind p with
  | BitKind => w = 1
  | BitsKind n => w = n
  | OtherKind => False
  end.

(** What every construction step of a tile keeps: the coordinate, the core
    interface, the tiles and the configuration widths. *)
Definition same_frame (s s' : TileCircuit.t) : Prop :=
  TileCircuit.x s' = TileCircuit.x s /\
  TileCircuit.y s' = TileCircuit.y s /\
  TileCircuit.core_interface s' = TileCircuit.core_interface s /\
  TileCircuit.core s' = TileCircuit.core s /\
  TileCircuit.tiles s' = TileCircuit.tiles s /\
  TileCircuit.config_addr_width s' = TileCircuit.config_addr_width s /\
  TileCircuit.config_data_width s' = TileCircuit.config_data_width s.

(** What the steps after the creation of the units keep: the connection
    boxes and the switch boxes. *)
Definition same_units (s s' : TileCircuit.t) : Prop :=
  TileCircuit.cbs s' = TileCircuit.cbs s /\
  TileCircuit.sbs s' = TileCircuit.sbs s.

(** The connection box [cb] held under [name] was compiled from a port of
    one of the tiles that has no outgoing edge and at least one incoming
    edge, and [name] is the name of that port. *)
Definition cb_of_port (G : Graph) (tiles : dict Z Tile) (caw cdw : Z)
    (name : string) (cb : CB.t) : Prop :=
  exists width tile key port_node,
    In (width, tile) tiles /\
    In (key, port_node) (tile_ports tile) /\
    node_name (G port_node) = name /\
    neighbors (G port_node) = [] /\
    conn_in (G port_node) <> [] /\
    node_width (G port_node) = width /\
    CB.__init__ G port_node caw cdw = Ok cb.

(** The switch box [sb] held under [key] is the unit [SB.__init__] returns
    for the empty switch box of one of the tiles. *)
Definition sb_of_tile (tiles : dict Z Tile) (caw cdw ssw : Z)
    (core : option Core) (key : Z) (sb : SB.t) : Prop :=
  exists width tile,
    In (width, tile) tiles /\
    key = switchbox_width (tile_switchbox tile) /\
    sb = empty_SB (tile_switchbox tile) caw cdw
           (match core with Some c => core_name c | None => "" end) ssw.

(** What holds of the units of a tile while they are created. *)
Definition units_inv (G : Graph) (tiles : dict Z Tile) (caw cdw ssw : Z)
    (core : option Core) (s : TileCircuit.t) : Prop :=
  TileCircuit.config_addr_width s = caw /\
  TileCircuit.config_data_width s = cdw /\
  TileCircuit.core s = core /\
  (forall name cb,
     dict_get String.eqb (TileCircuit.cbs s) name = Some cb ->
     cb_of_port G tiles caw cdw name cb) /\
  (forall key sb,
     dict_get Z.eqb (TileCircuit.sbs s) key = Some sb ->
     sb_of_tile tiles caw cdw ssw core key sb).
(* ================================================================= *)
(** ** 15. The Python runtime: basic facts *)

Lemma bind_Ok {A B} (m : result A) (k : A -> result B) (b : B) :
  bind m k = Ok b -> exists a, m = Ok a /\ k a = Ok b.
Proof. destruct m; simpl; intros H; [eauto | discriminate]. Qed.

Lemma assert_Ok (b : bool) : assert b = Ok tt -> b = true.
Proof. destruct b; simpl; [reflexivity | discriminate]. Qed.

Lemma assert_true (b : bool) : b = true -> assert b = Ok tt.
Proof. intros ->. reflexivity. Qed.

(** Inversion of a successful run of a sequence of statements. *)
Ltac inv_bind H :=
  repeat match type of H with
  | bind ?m ?k = Ok _ =>
      let a := fresh "a" in
      let Ha := fresh "Ha" in
      apply bind_Ok in H; destruct H as [a [Ha H]]
  end.

Lemma find_index_Some {A} (eqb : A -> A -> bool)
    (eqb_eq : forall a b, eqb a b = true <-> a = b) (x : A) (l : list A) i :
  find_index eqb x l = Some i ->
  nth_error l i = Some x /\
  forall j y, (j < i)%nat -> nth_error l j = Some y -> y <> x.
Proof.
  revert i. induction l as [|y l IH]; simpl; intros i H; [discriminate|].
  destruct (eqb y x) eqn:E.
  - injection H as <-. apply eqb_eq in E. subst. split; [reflexivity|].
    intros j z Hj. lia.
  - destruct (find_index eqb x l) as [i'|] eqn:F; [|discriminate].
    injection H as <-. destruct (IH i' eq_refl) as [H1 H2]. split; [exact H1|].
    intros [|j] z Hj Hz; simpl in Hz.
    + injection Hz as <-. intros ->.
      assert (eqb x x = true) by (apply eqb_eq; reflexivity). congruence.
    + apply (H2 j); [lia | exact Hz].
Qed.

Lemma find_index_In {A} (eqb : A -> A -> bool)
    (eqb_eq : forall a b, eqb a b = true <-> a = b) (x : A) (l : list A) :
  In x l -> exists i, find_index eqb x l = Some i.
Proof.
  induction l as [|y l IH]; simpl; [tauto|]. intros [->|H].
  - assert (eqb x x = true) as -> by (apply eqb_eq; reflexivity). eauto.
  - destruct (eqb y x); [eauto|]. destruct (IH H) as [i ->]. eauto.
Qed.

Lemma find_index_not_In {A} (eqb : A -> A -> bool)
    (eqb_eq : forall a b, eqb a b = true <-> a = b) (x : A) (l : list A) :
  ~ In x l -> find_index eqb x l = None.
Proof.
  induction l as [|y l IH]; simpl; [reflexivity|]. intros H.
  destruct (eqb y x) eqn:E.
  - apply eqb_eq in E. subst. tauto.
  - rewrite IH; [reflexivity | tauto].
Qed.

Lemma index_Ok {A} (eqb : A -> A -> bool) (x : A) (l : list A) i :
  index eqb x l = Ok i -> find_index eqb x l = Some i.
Proof. unfold index. destruct (find_index eqb x l); congruence. Qed.

Lemma dict_get_In {V} (d : dict string V) (k : string) :
  In k (dict_keys d) -> exists v, dict_get String.eqb d k = Some v.
Proof.
  induction d as [|[k' v'] d IH]; simpl; [tauto|].
  destruct (String.eqb_spec k' k) as [->|N]; [eauto|].
  intros [H|H]; [congruence | auto].
Qed.

Lemma dict_get_not_In {V} (d : dict string V) (k : string) :
  ~ In k (dict_keys d) -> dict_get String.eqb d k = None.
Proof.
  induction d as [|[k' v'] d IH]; simpl; [reflexivity|].
  destruct (String.eqb_spec k' k) as [->|N]; [tauto|]. intros H.
  apply IH. tauto.
Qed.

Lemma dict_get_Some_In {V} (d : dict string V) (k : string) v :
  dict_get String.eqb d k = Some v -> In k (dict_keys d).
Proof.
  induction d as [|[k' v'] d IH]; simpl; [discriminate|].
  destruct (String.eqb_spec k' k) as [->|N]; [auto|]. auto.
Qed.

Lemma dict_set_keys_mem {V} (d : dict string V) (k : string) v :
  In k (dict_keys d) ->
  dict_keys (dict_set String.eqb d k v) = dict_keys d.
Proof.
  induction d as [|[k' v'] d IH]; simpl; [tauto|].
  destruct (String.eqb_spec k' k) as [->|N]; simpl; [reflexivity|].
  intros [H|H]; [congruence|]. now rewrite IH.
Qed.

Lemma dict_set_new {V} (d : dict string V) (k : string) v :
  ~ In k (dict_keys d) -> dict_set String.eqb d k v = (d ++ [(k, v)])%list.
Proof.
  induction d as [|[k' v'] d IH]; simpl; [reflexivity|].
  destruct (String.eqb_spec k' k) as [->|N]; [tauto|]. intros H.
  rewrite IH; [reflexivity | tauto].
Qed.

Lemma dict_get_set_same {V} (d : dict string V) (k : string) v :
  dict_get String.eqb (dict_set String.eqb d k v) k = Some v.
Proof.
  induction d as [|[k' v'] d IH]; simpl.
  - now rewrite String.eqb_refl.
  - destruct (String.eqb_spec k' k) as [->|N]; simpl.
    + now rewrite String.eqb_refl.
    + destruct (String.eqb_spec k' k); [congruence | exact IH].
Qed.

Lemma dict_get_set_other {V} (d : dict string V) (k k0 : string) v :
  k <> k0 ->
  dict_get String.eqb (dict_set String.eqb d k v) k0
  = dict_get String.eqb d k0.
Proof.
  intros N. induction d as [|[k' v'] d IH]; simpl.
  - destruct (String.eqb_spec k k0); [congruence | reflexivity].
  - destruct (String.eqb_spec k' k) as [->|N']; simpl.
    + destruct (String.eqb_spec k k0); [congruence | reflexivity].
    + destruct (String.eqb_spec k' k0); [reflexivity | exact IH].
Qed.

(* ================================================================= *)
(** ** 16. Sorting names *)

Lemma ascii_compare_lt_trans (a b c : ascii) :
  Ascii.compare a b = Lt -> Ascii.compare b c = Lt -> Ascii.compare a c = Lt.
Proof.
  unfold Ascii.compare. rewrite !N.compare_lt_iff. lia.
Qed.

Lemma string_compare_refl (a : string) : String.compare a a = Eq.
Proof.
  induction a as [|c a IH]; simpl; [reflexivity|].
  unfold Ascii.compare. now rewrite N.compare_refl.
Qed.

Lemma string_compare_lt_trans (a b c : string) :
  String.compare a b = Lt -> String.compare b c = Lt ->
  String.compare a c = Lt.
Proof.
  revert b c. induction a as [|x a IH]; intros [|y b] [|z c]; simpl;
    try congruence.
  destruct (Ascii.compare x y) eqn:Exy; try discriminate;
    destruct (Ascii.compare y z) eqn:Eyz; try discriminate; intros H1 H2.
  - apply Ascii.compare_eq_iff in Exy, Eyz. subst.
    unfold Ascii.compare. rewrite N.compare_refl. eauto.
  - apply Ascii.compare_eq_iff in Exy. subst. now rewrite Eyz.
  - apply Ascii.compare_eq_iff in Eyz. subst. now rewrite Exy.
  - now rewrite (ascii_compare_lt_trans _ _ _ Exy Eyz).
Qed.

Lemma string_leb_iff (a b : string) :
  String.leb a b = true <-> String.compare a b = Lt \/ a = b.
Proof.
  unfold String.leb. destruct (String.compare a b) eqn:E; split; auto.
  - intros _. right. now apply String.compare_eq_iff.
  - discriminate.
  - intros [H| ->]; [discriminate|]. now rewrite string_compare_refl in E.
Qed.

Lemma string_leb_trans (a b c : string) :
  String.leb a b = true -> String.leb b c = true -> String.leb a c = true.
Proof.
  rewrite !string_leb_iff. intros [H1| ->] [H2| ->]; auto.
  left. eapply string_compare_lt_trans; eauto.
Qed.

Lemma string_ltb_iff (a b : string) :
  String.ltb a b = true <-> String.leb a b = true /\ a <> b.
Proof.
  rewrite string_leb_iff. unfold String.ltb.
  destruct (String.compare a b) eqn:E; split; try discriminate;
    try reflexivity.
  - intros [[H|H] N]; [discriminate H | contradiction].
  - intros _. split; [now left|]. intros ->.
    now rewrite string_compare_refl in E.
  - intros [[H|H] N]; [discriminate H | contradiction].
Qed.

Lemma sort_names_sorted (l : list string) :
  StronglySorted (fun a b => String.leb a b = true) (sort_names l).
Proof.
  apply StringSort.StronglySorted_sort.
  intros a b c. apply string_leb_trans.
Qed.

Lemma sort_names_perm (l : list string) : Permutation l (sort_names l).
Proof. apply StringSort.Permuted_sort. Qed.

Lemma sort_widths_sorted (l : list Z) :
  StronglySorted Z.le (sort_widths l).
Proof.
  assert (H : StronglySorted (fun a b => Z.leb a b = true) (sort_widths l)).
  { apply ZSort.StronglySorted_sort. intros a b c. unfold ZOrder.leb.
    unfold is_true. rewrite !Z.leb_le. lia. }
  induction H; constructor; auto.
  eapply Forall_impl; [|eassumption]. intros b. apply Z.leb_le.
Qed.

Lemma sort_widths_perm (l : list Z) : Permutation l (sort_widths l).
Proof. apply ZSort.Permuted_sort. Qed.

(** A list has one sorted arrangement. *)
Lemma sorted_perm_unique {A} (R : A -> A -> Prop)
    (antisym : forall a b, R a b -> R b a -> a = b) (l1 l2 : list A) :
  StronglySorted R l1 -> StronglySorted R l2 -> Permutation l1 l2 ->
  l1 = l2.
Proof.
  intros S1. revert l2. induction S1 as [|a l1 S1 IH F1]; intros l2 S2 P.
  - apply Permutation_nil in P. now subst.
  - destruct S2 as [|b l2 S2 F2].
    + apply Permutation_sym, Permutation_nil in P. discriminate.
    + assert (a = b) as ->.
      { assert (Ia : In a (b :: l2))
          by (eapply Permutation_in; [eassumption | now left]).
        assert (Ib : In b (a :: l1))
          by (eapply Permutation_in;
              [apply Permutation_sym; eassumption | now left]).
        destruct Ia as [->|Ia]; [reflexivity|].
        destruct Ib as [->|Ib]; [reflexivity|].
        rewrite Forall_forall in F1, F2. apply antisym; auto. }
      f_equal. apply IH; [exact S2|]. eapply Permutation_cons_inv; eauto.
Qed.

(** The sorted names depend on the set of names, not on their order. *)
Lemma sort_names_permutation (l1 l2 : list string) :
  Permutation l1 l2 -> sort_names l1 = sort_names l2.
Proof.
  intros P.
  apply (sorted_perm_unique (fun a b => String.leb a b = true)).
  - intros a b. apply String.leb_antisym.
  - apply sort_names_sorted.
  - apply sort_names_sorted.
  - eapply Permutation_trans; [apply Permutation_sym, sort_names_perm|].
    eapply Permutation_trans; [exact P | apply sort_names_perm].
Qed.

Lemma sort_names_NoDup (l : list string) :
  NoDup l -> NoDup (sort_names l).
Proof.
  intros H. eapply Permutation_NoDup; [apply sort_names_perm | exact H].
Qed.

(** Distinct names in sorted order are in strictly increasing order. *)
Lemma sorted_strict (l : list string) :
  NoDup l -> StronglySorted (fun a b => String.leb a b = true) l ->
  StronglySorted (fun a b => String.ltb a b = true) l.
Proof.
  intros N S. induction S as [|a l S IH F]; constructor.
  - apply IH. now inversion N.
  - inversion N as [|? ? Na Nl]; subst. rewrite Forall_forall in *.
    intros b Hb. apply string_ltb_iff. split; [auto|].
    intros ->. contradiction.
Qed.

Lemma strongly_sorted_nth {A} (R : A -> A -> Prop) (l : list A) i j a b :
  StronglySorted R l -> (i < j)%nat ->
  nth_error l i = Some a -> nth_error l j = Some b -> R a b.
Proof.
  intros S. revert i j. induction S as [|x l S IH F]; intros i j Hij Hi Hj.
  - destruct i; discriminate.
  - destruct j as [|j]; [lia|]. simpl in Hj. destruct i as [|i]; simpl in Hi.
    + injection Hi as <-. rewrite Forall_forall in F. apply F.
      eapply nth_error_In; eauto.
    + apply (IH i j); [lia | auto | auto].
Qed.

(* ================================================================= *)
(** ** 17. Configuration allocation *)

Lemma port_of_ok (g : Generator) (ref : GenRef) (name : string) :
  has_port g name = true -> port_of g ref name = Ok (SPort ref name).
Proof. unfold port_of. now intros ->. Qed.

Section SetupConfig.
Import InterconnectConfigurable.

Lemma setup_register_ok (self : t) (idx : nat) (name : string) r :
  dict_get String.eqb (registers self) name = Some r ->
  has_port (gen self) "config" = true ->
  has_port (gen self) "reset" = true ->
  exists self',
    setup_register self (idx, name) = Ok self' /\
    registers self' =
      dict_set String.eqb (registers self) name (set_addr r (Z.of_nat idx)) /\
    gen_ports (gen self') = gen_ports (gen self) /\
    config_data_width self' = config_data_width self.
Proof.
  intros Hr Hc Hs. unfold setup_register, dict_item. rewrite Hr.
  cbn [bind].
  repeat (rewrite port_of_ok by first [exact Hc | exact Hs]; cbn [bind]).
  eexists. repeat split; reflexivity.
Qed.

Lemma setup_loop_ok (names : list string) : forall (i : nat) (self : t),
  (forall n, In n names -> In n (dict_keys (registers self))) ->
  NoDup names ->
  has_port (gen self) "config" = true ->
  has_port (gen self) "reset" = true ->
  exists self',
    for_each setup_register (enumerate_from i names) self = Ok self' /\
    gen_ports (gen self') = gen_ports (gen self) /\
    config_data_width self' = config_data_width self /\
    dict_keys (registers self') = dict_keys (registers self) /\
    (forall j n, nth_error names j = Some n ->
       exists r, dict_get String.eqb (registers self) n = Some r /\
                 dict_get String.eqb (registers self') n
                 = Some (set_addr r (Z.of_nat (i + j)))) /\
    (forall n, ~ In n names ->
       dict_get String.eqb (registers self') n
       = dict_get String.eqb (registers self) n).
Proof.
  induction names as [|name names IH]; intros i self Hin Hnd Hc Hs.
  - exists self. simpl. repeat split; auto.
    intros [|j] n H; discriminate.
  - cbn [for_each enumerate_from].
    destruct (dict_get_In (registers self) name) as [r Hr];
      [apply Hin; now left|].
    destruct (setup_register_ok self i name r Hr Hc Hs)
      as [s1 [E1 [R1 [P1 W1]]]].
    rewrite E1. cbn [bind].
    assert (K1 : dict_keys (registers s1) = dict_keys (registers self)).
    { rewrite R1. apply dict_set_keys_mem. apply Hin. now left. }
    inversion Hnd as [|? ? Hn Hnd']; subst.
    destruct (IH (S i) s1) as [s2 [E2 [P2 [W2 [K2 [A2 O2]]]]]].
    { intros n Hn'. rewrite K1. apply Hin. now right. }
    { exact Hnd'. }
    { unfold has_port in *. now rewrite P1. }
    { unfold has_port in *. now rewrite P1. }
    exists s2. split; [exact E2|]. split; [congruence|].
    split; [congruence|]. split; [congruence|]. split.
    + intros [|j] n Hj; simpl in Hj.
      * injection Hj as <-. exists r. split; [exact Hr|].
        rewrite O2 by exact Hn. rewrite R1, dict_get_set_same.
        do 3 f_equal. lia.
      * destruct (A2 j n Hj) as [r' [G1 G2]].
        assert (name <> n).
        { intros ->. apply Hn. eapply nth_error_In; eauto. }
        rewrite R1, dict_get_set_other in G1 by assumption.
        exists r'. split; [exact G1|]. rewrite G2. do 3 f_equal. lia.
    + intros n Hn'. rewrite O2 by (intros H; apply Hn'; now right).
      rewrite R1. apply dict_get_set_other. intros ->. apply Hn'. now left.
Qed.

Lemma read_loop_ok (l : list (nat * string)) : forall (self : t),
  (forall e, In e l -> In (snd e) (dict_keys (registers self))) ->
  exists self',
    for_each setup_read_input l self = Ok self' /\
    registers self' = registers self.
Proof.
  induction l as [|[i n] l IH]; intros self Hin.
  - exists self. split; reflexivity.
  - cbn [for_each]. unfold setup_read_input at 1.
    destruct (dict_get_In (registers self) n) as [r Hr];
      [apply (Hin (i, n)); now left|].
    unfold dict_item. rewrite Hr. cbn [bind].
    match goal with
    | |- context [for_each setup_read_input l ?s] =>
        destruct (IH s) as [s' [E R]]
    end.
    { intros e He. apply Hin. now right. }
    exists s'. split; [exact E | exact R].
Qed.

Lemma enumerate_from_snd {A} (l : list A) : forall i e,
  In e (enumerate_from i l) -> In (snd e) l.
Proof.
  induction l as [|a l IH]; simpl; intros i e H; [contradiction|].
  destruct H as [<-|H]; [now left | right; eauto].
Qed.

(** [_setup_config] succeeds on a unit that has the configuration ports and
    gives the register at position [j] of the sorted names address [j]. *)
Lemma setup_config_ok (self : t) :
  NoDup (dict_keys (registers self)) ->
  has_port (gen self) "config" = true ->
  has_port (gen self) "reset" = true ->
  has_port (gen self) "read_config_data" = true ->
  exists self',
    _setup_config self = Ok self' /\
    dict_keys (registers self') = dict_keys (registers self) /\
    (forall j n,
       nth_error (sort_names (dict_keys (registers self))) j = Some n ->
       address_of self' n = Some (Z.of_nat j)) /\
    (forall n, ~ In n (dict_keys (registers self)) ->
       address_of self' n = None).
Proof.
  intros Hnd Hc Hs Hr. unfold _setup_config.
  set (names := sort_names (dict_keys (registers self))).
  assert (Hin : forall n, In n names -> In n (dict_keys (registers self))).
  { intros n Hn. eapply Permutation_in;
      [apply Permutation_sym, sort_names_perm | exact Hn]. }
  destruct (setup_loop_ok names 0 self Hin (sort_names_NoDup _ Hnd) Hc Hs)
    as [s1 [E1 [P1 [W1 [K1 [A1 O1]]]]]].
  unfold enumerate. rewrite E1. cbn [bind].
  assert (Addr : forall s', registers s' = registers s1 ->
    (forall j n, nth_error names j = Some n ->
       address_of s' n = Some (Z.of_nat j)) /\
    (forall n, ~ In n (dict_keys (registers self)) ->
       address_of s' n = None)).
  { intros s' Hs'. unfold address_of. rewrite Hs'. split.
    - intros j n Hj. destruct (A1 j n Hj) as [r [_ G]]. rewrite G.
      reflexivity.
    - intros n Hn. rewrite O1.
      + now rewrite dict_get_not_In.
      + intros H. apply Hn, Hin, H. }
  assert (Hc1 : has_port (gen s1) "config" = true)
    by (unfold has_port in *; now rewrite P1).
  assert (Hr1 : has_port (gen s1) "read_config_data" = true)
    by (unfold has_port in *; now rewrite P1).
  destruct (Z.of_nat (length names) >? 1) eqn:L1.
  - repeat (rewrite port_of_ok by first [exact Hc1 | exact Hr1];
            cbn [bind]).
    match goal with
    | |- context [for_each setup_read_input _ ?s] =>
        destruct (read_loop_ok (enumerate_from 0 names) s) as [s2 [E2 R2]]
    end.
    { intros e He. cbn [registers with_gen with_read_config_data_mux].
      rewrite K1. apply Hin.
      eapply enumerate_from_snd; eauto. }
    exists s2. split; [exact E2|]. split; [now rewrite R2|].
    apply Addr. exact R2.
  - destruct (Z.of_nat (length names) =? 1) eqn:L2.
    + apply Z.eqb_eq in L2.
      destruct names as [|n [|n' names']] eqn:En;
        cbn [length] in L2; try lia.
      unfold item. cbn [nth_error bind].
      destruct (dict_get_In (registers s1) n) as [r Hrn].
      { rewrite K1. apply Hin. now left. }
      unfold dict_item. rewrite Hrn. cbn [bind].
      rewrite port_of_ok by exact Hr1. cbn [bind]. eexists. split; [reflexivity|]. split; [exact K1|].
      apply Addr. reflexivity.
    + exists s1. split; [reflexivity|]. split; [exact K1|].
      apply Addr. reflexivity.
Qed.

Lemma add_config_ok (self : t) (name : string) (width : Z) :
  ~ In name (dict_keys (registers self)) ->
  exists self',
    add_config self name width = Ok self' /\
    registers self' =
      (registers self ++
       [(name, ConfigRegister_create width (config_addr_width self)
                 (config_data_width self) true)])%list /\
    gen_ports (gen self') = gen_ports (gen self) /\
    config_addr_width self' = config_addr_width self /\
    config_data_width self' = config_data_width self.
Proof.
  intros Hn. unfold add_config, dict_mem.
  rewrite dict_get_not_In by exact Hn. cbn [negb assert bind].
  eexists. split; [reflexivity|].
  cbn [registers with_registers with_gen gen add_child_generator gen_ports
       config_addr_width config_data_width].
  rewrite dict_set_new by exact Hn. repeat split; reflexivity.
Qed.

Lemma register_all_ok (entries : list (string * Z)) : forall (self : t),
  NoDup (dict_keys (registers self) ++ map fst entries) ->
  exists self',
    register_all entries self = Ok self' /\
    dict_keys (registers self') =
      (dict_keys (registers self) ++ map fst entries)%list /\
    gen_ports (gen self') = gen_ports (gen self).
Proof.
  induction entries as [|[n w] entries IH]; intros self Hnd.
  - exists self. simpl. rewrite app_nil_r. repeat split; reflexivity.
  - simpl in *.
    destruct (add_config_ok self n w) as [s1 [E1 [R1 [P1 _]]]].
    { apply NoDup_remove_2 in Hnd. intros H. apply Hnd.
      apply in_or_app. now left. }
    unfold register_all. cbn [for_each fst snd]. rewrite E1. cbn [bind].
    destruct (IH s1) as [s2 [E2 [K2 P2]]].
    { rewrite R1. unfold dict_keys. rewrite map_app. simpl.
      rewrite <- app_assoc. exact Hnd. }
    exists s2. split; [exact E2|]. split; [|congruence].
    rewrite K2, R1. unfold dict_keys. rewrite map_app. simpl.
    now rewrite <- app_assoc.
Qed.

End SetupConfig.

Lemma map_nth_seq {A B} (f : A -> B) (g : nat -> B) (l : list A) :
  forall i,
    (forall j a, nth_error l j = Some a -> f a = g (i + j)%nat) ->
    map f l = map g (seq i (length l)).
Proof.
  induction l as [|a l IH]; intros i H; [reflexivity|]. simpl. f_equal.
  - rewrite (H 0%nat a eq_refl). f_equal. lia.
  - apply IH. intros j b Hj. rewrite (H (S j) b Hj). f_equal. lia.
Qed.

(** C2. After [_setup_config], each of the [n] registered configuration
    registers has an address; listed in the lexicographic order of their
    names the addresses are [0, 1, ..., n-1]; and two registration orders of
    the same names give the same name-to-address map. *)
Theorem setup_config_addresses :
  forall (unit0 : InterconnectConfigurable.t)
         (entries1 entries2 : list (string * Z)),
    InterconnectConfigurable.registers unit0 = [] ->
    has_port (InterconnectConfigurable.gen unit0) "config" = true ->
    has_port (InterconnectConfigurable.gen unit0) "reset" = true ->
    has_port (InterconnectConfigurable.gen unit0) "read_config_data" = true ->
    NoDup (map fst entries1) ->
    Permutation entries1 entries2 ->
    exists u1 f1 u2 f2,
      register_all entries1 unit0 = Ok u1 /\
      InterconnectConfigurable._setup_config u1 = Ok f1 /\
      register_all entries2 unit0 = Ok u2 /\
      InterconnectConfigurable._setup_config u2 = Ok f2 /\
      Permutation (sort_names (map fst entries1)) (map fst entries1) /\
      StronglySorted (fun a b => String.ltb a b = true)
        (sort_names (map fst entries1)) /\
      map (address_of f1) (sort_names (map fst entries1))
      = map (fun i => Some (Z.of_nat i)) (seq 0 (length entries1)) /\
      (forall name, ~ In name (map fst entries1) ->
                    address_of f1 name = None) /\
      (forall name, address_of f2 name = address_of f1 name).
Proof.
  intros unit0 entries1 entries2 Hreg Hc Hs Hr Hnd Hperm.
  assert (Hperm' : Permutation (map fst entries1) (map fst entries2))
    by (apply Permutation_map; exact Hperm).
  assert (Hnd2 : NoDup (map fst entries2))
    by (eapply Permutation_NoDup; eauto).
  destruct (register_all_ok entries1 unit0) as [u1 [E1 [K1 P1]]].
  { rewrite Hreg. exact Hnd. }
  destruct (register_all_ok entries2 unit0) as [u2 [E2 [K2 P2]]].
  { rewrite Hreg. exact Hnd2. }
  rewrite Hreg in K1, K2. simpl in K1, K2.
  destruct (setup_config_ok u1) as [f1 [F1 [_ [A1 N1]]]];
    try (unfold has_port in *; rewrite P1; assumption).
  { rewrite K1. exact Hnd. }
  destruct (setup_config_ok u2) as [f2 [F2 [_ [A2 N2]]]];
    try (unfold has_port in *; rewrite P2; assumption).
  { rewrite K2. exact Hnd2. }
  rewrite K1 in A1, N1. rewrite K2 in A2, N2.
  rewrite <- (sort_names_permutation _ _ Hperm') in A2.
  exists u1, f1, u2, f2. repeat (split; [assumption|]).
  split; [apply Permutation_sym, sort_names_perm|].
  split; [apply sorted_strict;
          [apply sort_names_NoDup; exact Hnd | apply sort_names_sorted]|].
  split.
  { replace (length entries1)
      with (length (sort_names (map fst entries1))).
    - apply map_nth_seq. intros j a Hj. now apply A1.
    - rewrite <- (Permutation_length (sort_names_perm _)).
      apply length_map. }
  split; [exact N1|].
  intros name. destruct (in_dec string_dec name (map fst entries1)) as [I|I].
  - assert (I' : In name (sort_names (map fst entries1)))
      by (eapply Permutation_in; [apply sort_names_perm | exact I]).
    apply In_nth_error in I'. destruct I' as [j Hj].
    now rewrite (A1 j name Hj), (A2 j name Hj).
  - rewrite N1 by exact I. apply N2. intros H. apply I.
    eapply Permutation_in; [apply Permutation_sym; exact Hperm' | exact H].
Qed.

Lemma setup_config_addresses_witness :
  exists u1 f1 u2 f2,
    register_all [("b", 1); ("a", 2); ("c", 1)] (fresh_unit "unit" 8 32)
    = Ok u1 /\
    InterconnectConfigurable._setup_config u1 = Ok f1 /\
    register_all [("a", 2); ("b", 1); ("c", 1)] (fresh_unit "unit" 8 32)
    = Ok u2 /\
    InterconnectConfigurable._setup_config u2 = Ok f2 /\
    Permutation (sort_names ["b"; "a"; "c"]) ["b"; "a"; "c"] /\
    StronglySorted (fun a b => String.ltb a b = true)
      (sort_names ["b"; "a"; "c"]) /\
    map (address_of f1) (sort_names ["b"; "a"; "c"])
    = [Some 0; Some 1; Some 2] /\
    (forall name, ~ In name ["b"; "a"; "c"] -> address_of f1 name = None) /\
    (forall name, address_of f2 name = address_of f1 name).
Proof.
  apply (setup_config_addresses (fresh_unit "unit" 8 32)
           [("b", 1); ("a", 2); ("c", 1)] [("a", 2); ("b", 1); ("c", 1)]).
  - reflexivity.
  - reflexivity.
  - reflexivity.
  - reflexivity.
  - repeat constructor; simpl; intuition discriminate.
  - apply perm_swap.
Defined.

(* ================================================================= *)
(** ** 18. Names, element synthesis and connection boxes *)

Lemma last_char_nonempty (s : string) : s <> "" -> last_char s <> None.
Proof.
  induction s as [|c s IH]; [congruence|]. intros _. simpl.
  destruct s; [discriminate|]. apply IH. discriminate.
Qed.

Lemma replace_char_nonempty (t : ascii) (s : string) :
  s <> "" -> replace_char t s <> "".
Proof. destruct s; [congruence|]. discriminate. Qed.

Lemma replace_double_underscore_nonempty (s : string) :
  s <> "" -> replace_double_underscore s <> "".
Proof.
  destruct s as [|c [|c' s]]; [congruence | discriminate |]. intros _. simpl.
  destruct (Ascii.eqb c "_" && Ascii.eqb c' "_")%bool; discriminate.
Qed.

(** [create_name] returns for every non-empty string. *)
Lemma create_name_ok (s : string) :
  s <> "" -> exists name, create_name s = Ok name.
Proof.
  intros H. unfold create_name.
  set (s' := replace_double_underscore _).
  assert (Hs : s' <> "").
  { apply replace_double_underscore_nonempty. simpl.
    repeat apply replace_char_nonempty. exact H. }
  apply last_char_nonempty in Hs. destruct (last_char s') as [c|];
    [|congruence].
  destruct (Ascii.eqb c "_"); eauto.
Qed.

Lemma create_mux_ok (n : Node) (node_name : string) :
  create_name (node_str n) = Ok node_name ->
  create_mux n =
    Ok (Mux_create (fan_in n) (node_width n),
        if fan_in n >? 1 then
          if negb (str_contains "MUX" node_name) then "MUX_" ++ node_name
          else node_name
        else "WIRE_" ++ node_name).
Proof. intros H. unfold create_mux. rewrite H. reflexivity. Qed.

Lemma dict_item_head {V} (d : dict string V) (k : string) (v : V) :
  dict_item String.eqb ((k, v) :: d) k = Ok v.
Proof. unfold dict_item. simpl. now rewrite String.eqb_refl. Qed.

Lemma sort_names_singleton (n : string) : sort_names [n] = [n].
Proof. reflexivity. Qed.

Lemma CB_init_passthrough (G : Graph) (node : NodeId) (caw cdw : Z)
    (node_name : string) :
  is_PortNode (G node) = true ->
  create_name (node_str (G node)) = Ok node_name ->
  (fan_in (G node) <=? 1) = true ->
  CB.__init__ G node caw cdw =
    Ok {| CB.base :=
            {| InterconnectConfigurable.gen :=
                 {| gen_name := node_name;
                    gen_ports :=
                      [{| port_name := "I"; port_width := node_width (G node);
                          port_direction := In_; port_type := Data |};
                       {| port_name := "O"; port_width := node_width (G node);
                          port_direction := Out_; port_type := Data |}];
                    gen_children :=
                      [("WIRE_" ++ node_name,
                        ChildMux (Mux_create (fan_in (G node))
                                    (node_width (G node))))];
                    gen_wires :=
                      [(SPort This "I", SPort (Inst ("WIRE_" ++ node_name)) "I");
                       (SPort This "O",
                        SPort (Inst ("WIRE_" ++ node_name)) "O")] |};
               InterconnectConfigurable.registers := [];
               InterconnectConfigurable.config_addr_width := caw;
               InterconnectConfigurable.config_data_width := cdw;
               InterconnectConfigurable.read_config_data_mux := None |};
          CB.node := node;
          CB.mux := Mux_create (fan_in (G node)) (node_width (G node)) |}.
Proof.
  intros Hp Hn Hk. unfold CB.__init__. rewrite Hp, Hn.
  rewrite (create_mux_ok _ _ Hn).
  assert (Hk' : (fan_in (G node) >? 1) = false) by lia.
  rewrite Hk'. cbn. rewrite Hk'. reflexivity.
Qed.

Lemma setup_config_single (self : InterconnectConfigurable.t)
    (k : string) (r : ConfigRegister) :
  InterconnectConfigurable.registers self = [(k, r)] ->
  has_port (InterconnectConfigurable.gen self) "config" = true ->
  has_port (InterconnectConfigurable.gen self) "reset" = true ->
  has_port (InterconnectConfigurable.gen self) "read_config_data" = true ->
  exists self',
    InterconnectConfigurable._setup_config self = Ok self' /\
    InterconnectConfigurable.registers self' = [(k, set_addr r 0)] /\
    gen_ports (InterconnectConfigurable.gen self')
    = gen_ports (InterconnectConfigurable.gen self) /\
    gen_children (InterconnectConfigurable.gen self')
    = gen_children (InterconnectConfigurable.gen self).
Proof.
  intros Hr Hc Hs Hd. unfold InterconnectConfigurable._setup_config.
  rewrite Hr. cbn [dict_keys map fst]. rewrite sort_names_singleton.
  unfold enumerate. cbn [enumerate_from for_each].
  unfold InterconnectConfigurable.setup_register. rewrite Hr.
  rewrite dict_item_head. cbn [bind].
  repeat (rewrite port_of_ok by first [exact Hc | exact Hs]; cbn [bind]).
  cbn [length Z.of_nat Pos.of_succ_nat Z.gtb Z.compare Pos.compare
       Pos.compare_cont Z.eqb Pos.eqb item nth_error bind].
  cbn [InterconnectConfigurable.registers
       InterconnectConfigurable.with_gen
       InterconnectConfigurable.with_registers dict_set].
  rewrite String.eqb_refl. rewrite dict_item_head. cbn [bind].
  rewrite port_of_ok by exact Hd. cbn [bind].
  eexists. split; [reflexivity|]. repeat split; reflexivity.
Qed.

Lemma CB_init_selector (G : Graph) (node : NodeId) (caw cdw : Z)
    (node_name : string) :
  is_PortNode (G node) = true ->
  create_name (node_str (G node)) = Ok node_name ->
  (fan_in (G node) >? 1) = true ->
  exists cb,
    CB.__init__ G node caw cdw = Ok cb /\
    CB.node cb = node /\
    CB.mux cb = Mux_create (fan_in (G node)) (node_width (G node)) /\
    In ((if negb (str_contains "MUX" node_name) then "MUX_" ++ node_name
         else node_name),
        ChildMux (CB.mux cb))
       (gen_children (InterconnectConfigurable.gen (CB.base cb))) /\
    InterconnectConfigurable.registers (CB.base cb) =
      [(node_name ++ "_sel",
        {| reg_width := Z.log2_up (fan_in (G node));
           reg_addr_width := caw; reg_data_width := cdw;
           reg_use_config_en := true; reg_addr := Some 0 |})] /\
    has_port (InterconnectConfigurable.gen (CB.base cb)) "config" = true.
Proof.
  intros Hp Hn Hk. unfold CB.__init__. rewrite Hp, Hn.
  rewrite (create_mux_ok _ _ Hn). rewrite Hk.
  unfold get_mux_sel_name. rewrite Hn.
  cbn. rewrite Hk. repeat (rewrite dict_item_head; cbn).
  match goal with
  | |- context [InterconnectConfigurable._setup_config ?s] =>
      destruct (setup_config_single s (node_name ++ "_sel")
                  (ConfigRegister_create
                     (sel_bits (Mux_create (fan_in (G node))
                                  (node_width (G node)))) caw cdw true))
        as [s' [E [R [P C]]]]; try reflexivity
  end.
  rewrite E. eexists. split; [reflexivity|]. cbn [CB.node CB.mux CB.base].
  split; [reflexivity|]. split; [reflexivity|]. split.
  { rewrite C. cbn. auto. }
  split; [exact R|]. unfold has_port. rewrite P. reflexivity.
Qed.

(** C6 (as stated, refuted). The register mux of the example has two incoming
    edges and its element is named [RMUX_0_1_1_16]: the name of the node
    already contains [MUX], so no [MUX_] prefix is added. *)
Lemma create_mux_name_without_prefix :
  fan_in (Examples.graph 12%nat) = 2 /\
  create_mux (Examples.graph 12%nat)
  = Ok (Mux_create 2 16, "RMUX_0_1_1_16") /\
  String.prefix "MUX" "RMUX_0_1_1_16" = false.
Proof. repeat split; reflexivity. Qed.

(** C6 (amended). Element synthesis for a node with [k] incoming edges makes
    an element of height [k] and of the node's width.  For [k >= 2] its name
    is [MUX_] followed by the node's name when that name does not contain
    [MUX], and the node's name itself otherwise, so the name always contains
    [MUX]; compiled as a connection box, a port node gets one configuration
    register of width [ceil(log2(k))] for the select input.  For [k = 1] the
    name is [WIRE_] followed by the node's name and the connection box of a
    port node has no configuration register. *)
Theorem create_mux_element :
  forall (G : Graph) (node : NodeId) (caw cdw : Z),
    node_str (G node) <> "" ->
    exists node_name mux name,
      create_name (node_str (G node)) = Ok node_name /\
      create_mux (G node) = Ok (mux, name) /\
      mux_height mux = fan_in (G node) /\
      mux_width mux = node_width (G node) /\
      (fan_in (G node) >= 2 ->
         name = (if str_contains "MUX" node_name then node_name
                 else "MUX_" ++ node_name) /\
         str_contains "MUX" name = true /\
         (is_PortNode (G node) = true ->
            exists cb,
              CB.__init__ G node caw cdw = Ok cb /\
              CB.mux cb = mux /\
              In (name, ChildMux mux)
                 (gen_children (InterconnectConfigurable.gen (CB.base cb))) /\
              InterconnectConfigurable.registers (CB.base cb) =
                [(node_name ++ "_sel",
                  {| reg_width := Z.log2_up (fan_in (G node));
                     reg_addr_width := caw; reg_data_width := cdw;
                     reg_use_config_en := true; reg_addr := Some 0 |})])) /\
      (fan_in (G node) = 1 ->
         name = "WIRE_" ++ node_name /\
         (is_PortNode (G node) = true ->
            exists cb,
              CB.__init__ G node caw cdw = Ok cb /\
              CB.mux cb = mux /\
              In (name, ChildMux mux)
                 (gen_children (InterconnectConfigurable.gen (CB.base cb))) /\
              InterconnectConfigurable.registers (CB.base cb) = [])).
Proof.
  intros G node caw cdw Hstr.
  destruct (create_name_ok _ Hstr) as [node_name Hn].
  exists node_name. eexists. eexists. split; [exact Hn|].
  split; [apply (create_mux_ok _ _ Hn)|].
  split; [reflexivity|]. split; [reflexivity|]. split.
  - intros Hk. assert (Hk' : (fan_in (G node) >? 1) = true) by lia.
    rewrite Hk'. split.
    { destruct (str_contains "MUX" node_name); reflexivity. }
    split.
    { destruct (str_contains "MUX" node_name) eqn:E; simpl;
        [exact E | reflexivity]. }
    intros Hp.
    destruct (CB_init_selector G node caw cdw node_name Hp Hn Hk')
      as [cb [E [_ [M [C [R _]]]]]].
    exists cb. split; [exact E|]. split; [exact M|]. split; [|exact R].
    rewrite <- M. exact C.
  - intros Hk. assert (Hk' : (fan_in (G node) >? 1) = false) by lia.
    rewrite Hk'. split; [reflexivity|]. intros Hp.
    assert (Hk2 : (fan_in (G node) <=? 1) = true) by lia.
    rewrite (CB_init_passthrough G node caw cdw node_name Hp Hn Hk2).
    eexists. split; [reflexivity|]. simpl. auto.
Qed.

Lemma create_mux_element_witness :
  exists node_name mux name,
    create_name (node_str (Examples.graph 0%nat)) = Ok node_name /\
    create_mux (Examples.graph 0%nat) = Ok (mux, name) /\
    mux_height mux = 3 /\ mux_width mux = 16.
Proof.
  destruct (create_mux_element Examples.graph 0%nat 8 32)
    as [node_name [mux [name [H1 [H2 [H3 [H4 _]]]]]]].
  - discriminate.
  - exists node_name, mux, name. repeat split; assumption.
Defined.

(** C7. The connection box of a port node with exactly one incoming edge has
    the ports [I] and [O] only (no [config], [clk], [reset] or
    [read_config_data] port), allocates no configuration register, and
    consists of one height-1 element wired from [I] to [O]. *)
Theorem passthrough_connection_box :
  forall (G : Graph) (node : NodeId) (caw cdw : Z),
    is_PortNode (G node) = true ->
    node_str (G node) <> "" ->
    fan_in (G node) = 1 ->
    exists cb node_name,
      create_name (node_str (G node)) = Ok node_name /\
      CB.__init__ G node caw cdw = Ok cb /\
      has_port (InterconnectConfigurable.gen (CB.base cb)) "config" = false /\
      has_port (InterconnectConfigurable.gen (CB.base cb)) "clk" = false /\
      has_port (InterconnectConfigurable.gen (CB.base cb)) "reset" = false /\
      has_port (InterconnectConfigurable.gen (CB.base cb)) "read_config_data"
      = false /\
      map port_name (gen_ports (InterconnectConfigurable.gen (CB.base cb)))
      = ["I"; "O"] /\
      InterconnectConfigurable.registers (CB.base cb) = [] /\
      gen_children (InterconnectConfigurable.gen (CB.base cb))
      = [("WIRE_" ++ node_name,
          ChildMux (Mux_create 1 (node_width (G node))))] /\
      gen_wires (InterconnectConfigurable.gen (CB.base cb))
      = [(SPort This "I", SPort (Inst ("WIRE_" ++ node_name)) "I");
         (SPort This "O", SPort (Inst ("WIRE_" ++ node_name)) "O")].
Proof.
  intros G node caw cdw Hp Hstr Hk.
  destruct (create_name_ok _ Hstr) as [node_name Hn].
  assert (Hk2 : (fan_in (G node) <=? 1) = true) by lia.
  eexists. exists node_name. split; [exact Hn|].
  split; [apply (CB_init_passthrough G node caw cdw node_name Hp Hn Hk2)|].
  rewrite Hk. cbn. repeat split; reflexivity.
Qed.

Lemma passthrough_connection_box_witness :
  exists cb node_name,
    create_name (node_str (Examples.graph 1%nat)) = Ok node_name /\
    CB.__init__ Examples.graph 1%nat 8 32 = Ok cb /\
    map port_name (gen_ports (InterconnectConfigurable.gen (CB.base cb)))
    = ["I"; "O"] /\
    InterconnectConfigurable.registers (CB.base cb) = [].
Proof.
  destruct (passthrough_connection_box Examples.graph 1%nat 8 32)
    as [cb [node_name [H1 [H2 [_ [_ [_ [_ [H3 [H4 _]]]]]]]]]].
  - reflexivity.
  - discriminate.
  - reflexivity.
  - exists cb, node_name. repeat split; assumption.
Defined.

(* ================================================================= *)
(** ** 19. Switch boxes *)

Lemma for_each_inv {S A} (P : S -> Prop) (f : S -> A -> result S)
    (l : list A) :
  (forall s a s', In a l -> P s -> f s a = Ok s' -> P s') ->
  forall s s', P s -> for_each f l s = Ok s' -> P s'.
Proof.
  induction l as [|a l IH]; intros Hf s s' Hs H; simpl in H.
  - now injection H as <-.
  - apply bind_Ok in H. destruct H as [s1 [H1 H2]].
    apply (IH (fun s a s' Ha => Hf s a s' (or_intror Ha)) s1 s'); [|exact H2].
    apply (Hf s a s1); [now left | exact Hs | exact H1].
Qed.

(** A loop whose body always raises returns only on the empty list. *)
Lemma for_each_never {S A} (f : S -> A -> result S) (l : list A) :
  (forall s a s', f s a <> Ok s') ->
  forall s s', for_each f l s = Ok s' -> l = [] /\ s' = s.
Proof.
  intros Hf s s' H. destruct l as [|a l]; simpl in H.
  - injection H as <-. auto.
  - apply bind_Ok in H. destruct H as [s1 [H1 _]]. now apply Hf in H1.
Qed.

(** Case analysis on a successful run, one statement at a time. *)
Ltac inv_ok H :=
  unfold tuple_attr in H;
  repeat first
    [ discriminate H
    | match type of H with
      | bind ?m _ = Ok _ =>
          let E := fresh "E" in destruct m eqn:E; cbn [bind] in H
      | (if ?b then _ else _) = Ok _ =>
          let E := fresh "E" in destruct b eqn:E
      | (let '(_, _) := ?x in _) = Ok _ => destruct x
      | match ?x with _ => _ end = Ok _ =>
          let E := fresh "E" in destruct x eqn:E
      end ].

Section SwitchBoxFacts.
Import InterconnectConfigurable.
Variable G : Graph.

(** The second pass of [SB.__init__] reads [mux.ports] of the pair held in
    [sb_muxs]: it raises at every entry. *)
Lemma lift_port_step_raises (self : SB.t) entry (self' : SB.t) :
  SB.lift_port_step G self entry <> Ok self'.
Proof.
  intros H. unfold SB.lift_port_step in H.
  destruct entry as [sb_name [sb mux]]. inv_ok H.
Qed.

Lemma config_sb_mux_step_raises (self : SB.t) entry (self' : SB.t) :
  SB.config_sb_mux_step G self entry <> Ok self'.
Proof.
  intros H. unfold SB.config_sb_mux_step in H.
  destruct entry as [sb_name [sb mux]]. inv_ok H.
Qed.

Lemma has_port_add_port_other (g : Generator) (n m : string) w d t :
  n <> m -> has_port (add_port g n w d t) m = has_port g m.
Proof.
  intros N. unfold has_port, add_port. simpl. rewrite existsb_app. simpl.
  destruct (String.eqb_spec n m); [contradiction|].
  now rewrite !orb_false_r.
Qed.

Lemma has_port_remove_port (g : Generator) (n m : string) :
  has_port g m = false -> has_port (remove_port g n) m = false.
Proof.
  unfold has_port, remove_port. simpl. induction (gen_ports g) as [|p l IH];
    simpl; [auto|].
  intros H. apply orb_false_elim in H. destruct H as [H1 H2].
  destruct (negb (port_name p =? n)%string); simpl; [rewrite H1|]; auto.
Qed.

Lemma create_reg_switchbox (self self' : SB.t) :
  SB.__create_reg G self = Ok self' ->
  SB.switchbox self' = SB.switchbox self.
Proof.
  intros H. unfold SB.__create_reg in H.
  apply bind_Ok in H. destruct H as [s1 [H1 H]].
  assert (I1 : SB.switchbox s1 = SB.switchbox self).
  { refine (for_each_inv (fun s => SB.switchbox s = SB.switchbox self)
              _ _ _ _ _ _ H1); [|auto].
    intros s [reg_name reg_node] s' _ I Hstep. inv_ok Hstep.
    injection Hstep as <-. exact I. }
  destruct (Z.of_nat (length (SB.regs s1)) >? 0); [|now injection H as <-].
  apply bind_Ok in H. destruct H as [stall [_ H]].
  refine (for_each_inv (fun s => SB.switchbox s = SB.switchbox self)
            _ _ _ _ _ _ H); [|exact I1].
  intros s e s' _ I Hstep. injection Hstep as <-. exact I.
Qed.

Lemma create_reg_no_config (self self' : SB.t) :
  no_config self -> SB.__create_reg G self = Ok self' ->
  no_config self' /\ SB.sb_muxs self' = SB.sb_muxs self /\
  SB.reg_muxs self' = SB.reg_muxs self /\
  registers (SB.base self') = registers (SB.base self).
Proof.
  intros Hs H. unfold SB.__create_reg in H.
  apply bind_Ok in H. destruct H as [s1 [H1 H]].
  assert (I1 : no_config s1 /\ SB.sb_muxs s1 = SB.sb_muxs self /\
               SB.reg_muxs s1 = SB.reg_muxs self /\
               registers (SB.base s1) = registers (SB.base self)).
  { refine (for_each_inv (fun s => no_config s /\ SB.sb_muxs s = SB.sb_muxs self /\
              SB.reg_muxs s = SB.reg_muxs self /\
              registers (SB.base s) = registers (SB.base self)) _ _ _ _ _ _ H1); [|auto].
    intros s [reg_name reg_node] s' _ I Hstep. inv_ok Hstep.
    injection Hstep as <-. exact I. }
  destruct (Z.of_nat (length (SB.regs s1)) >? 0); [|now injection H as <-].
  apply bind_Ok in H. destruct H as [stall [_ H]].
  refine (for_each_inv (fun s => no_config s /\ SB.sb_muxs s = SB.sb_muxs self /\
              SB.reg_muxs s = SB.reg_muxs self /\
              registers (SB.base s) = registers (SB.base self)) _ _ _ _ _ _ H).
  - intros s e s' _ I Hstep. injection Hstep as <-. exact I.
  - destruct I1 as [I1 I2]. split; [|exact I2].
    unfold no_config in *. cbn [SB.base SB.upd_gen SB.with_base gen with_gen].
    now rewrite has_port_add_port_other by discriminate.
Qed.

Lemma create_sb_mux_no_config (self self' : SB.t) :
  SB.__create_sb_mux G self = Ok self' ->
  SB.base self' = SB.base self /\ SB.reg_muxs self' = SB.reg_muxs self /\
  (get_all_sbs (SB.switchbox self) <> [] -> SB.sb_muxs self' <> []).
Proof.
  unfold SB.__create_sb_mux. intros H.
  assert (I : SB.base self' = SB.base self /\
              SB.reg_muxs self' = SB.reg_muxs self).
  { refine (for_each_inv
              (fun s => SB.base s = SB.base self /\
                        SB.reg_muxs s = SB.reg_muxs self) _ _ _ _ _ _ H);
      [|auto].
    intros s a s' _ I Hstep. inv_ok Hstep. injection Hstep as <-. exact I. }
  destruct I as [I1 I2]. split; [exact I1|]. split; [exact I2|].
  destruct (get_all_sbs (SB.switchbox self)) as [|sb sbs]; [congruence|].
  intros _. simpl in H. apply bind_Ok in H. destruct H as [s1 [H1 H]].
  inv_ok H1. injection H1 as <-.
  refine (for_each_inv (fun s => SB.sb_muxs s <> []) _ _ _ _ _ _ H).
  - intros st n st' _ I Hstep. inv_ok Hstep. injection Hstep as <-.
    cbn [SB.sb_muxs SB.with_sb_muxs].
    destruct (SB.sb_muxs st) as [|[k v] d]; [contradiction|]. simpl.
    destruct (k =? node_str (G n))%string; discriminate.
  - cbn [SB.sb_muxs SB.with_sb_muxs].
    destruct (SB.sb_muxs self) as [|[k v] d]; simpl; [discriminate|].
    destruct (k =? node_str (G sb))%string; discriminate.
Qed.

Lemma create_reg_mux_no_config (self self' : SB.t) :
  no_config self -> SB.__create_reg_mux G self = Ok self' ->
  no_config self' /\ SB.sb_muxs self' = SB.sb_muxs self /\
  registers (SB.base self') = registers (SB.base self).
Proof.
  unfold SB.__create_reg_mux. intros Hs H.
  refine (for_each_inv
            (fun s => no_config s /\ SB.sb_muxs s = SB.sb_muxs self /\
                      registers (SB.base s) = registers (SB.base self))
            _ _ _ _ _ _ H); [|auto].
  intros s a s' _ I Hstep. unfold SB.create_reg_mux_step in Hstep.
  inv_ok Hstep; injection Hstep as <-; exact I.
Qed.

Lemma connect_regs_no_config (self self' : SB.t) :
  no_config self -> SB.__connect_regs G self = Ok self' ->
  no_config self' /\ SB.sb_muxs self' = SB.sb_muxs self /\
  SB.reg_muxs self' = SB.reg_muxs self /\
  registers (SB.base self') = registers (SB.base self).
Proof.
  unfold SB.__connect_regs. intros Hs H.
  refine (for_each_inv (fun s => no_config s /\ SB.sb_muxs s = SB.sb_muxs self /\
              SB.reg_muxs s = SB.reg_muxs self /\
              registers (SB.base s) = registers (SB.base self)) _ _ _ _ _ _ H); [|auto].
  intros s [reg_name [node reg]] s' _ I Hstep.
  unfold SB.connect_regs_step in Hstep.
  inv_ok Hstep; injection Hstep as <-; exact I.
Qed.

Lemma add_config_Ok (self self' : t) (name : string) (width : Z) :
  add_config self name width = Ok self' ->
  gen_ports (gen self') = gen_ports (gen self) /\
  registers self' <> [].
Proof.
  unfold add_config. intros H. apply bind_Ok in H.
  destruct H as [_ [_ H]]. injection H as <-.
  split; [reflexivity|].
  cbn [registers with_registers with_gen].
  destruct (registers self) as [|[k v] d]; simpl; [discriminate|].
  destruct (k =? name)%string; discriminate.
Qed.

Lemma config_reg_mux_step_Ok (self self' : SB.t) entry :
  SB.config_reg_mux_step G self entry = Ok self' ->
  gen_ports (gen (SB.base self')) = gen_ports (gen (SB.base self)) /\
  registers (SB.base self') <> [] /\
  SB.sb_muxs self' = SB.sb_muxs self.
Proof.
  destruct entry as [sb_name [reg_mux mux]].
  unfold SB.config_reg_mux_step, SB.add_config_node. intros H.
  apply bind_Ok in H. destruct H as [config_name [_ H]].
  apply bind_Ok in H. destruct H as [_ [_ H]].
  apply bind_Ok in H. destruct H as [_ [_ H]].
  apply bind_Ok in H. destruct H as [s1 [H1 H]].
  apply bind_Ok in H1. destruct H1 as [b [Hb H1]]. injection H1 as <-.
  apply bind_Ok in H. destruct H as [_ [_ H]]. injection H as <-.
  apply add_config_Ok in Hb. destruct Hb as [Hb1 Hb2].
  repeat split; assumption.
Qed.

Lemma config_reg_mux_no_config (l : list (string * (NodeId * Mux)))
    (self self' : SB.t) :
  no_config self ->
  for_each (SB.config_reg_mux_step G) l self = Ok self' ->
  no_config self' /\ SB.sb_muxs self' = SB.sb_muxs self /\
  (l <> [] -> registers (SB.base self') <> []).
Proof.
  intros Hs H.
  assert (I : no_config self' /\ SB.sb_muxs self' = SB.sb_muxs self).
  { refine (for_each_inv
              (fun s => no_config s /\ SB.sb_muxs s = SB.sb_muxs self)
              _ _ _ _ _ _ H); [|auto].
    intros st e st' _ [I1 I2] Hstep.
    apply config_reg_mux_step_Ok in Hstep.
    destruct Hstep as [P [_ M]]. split; [|congruence].
    unfold no_config, has_port in *. now rewrite P. }
  destruct I as [I1 I2]. split; [exact I1|]. split; [exact I2|].
  destruct l as [|e l]; [congruence|]. intros _.
  simpl in H. apply bind_Ok in H. destruct H as [s1 [H1 H]].
  apply config_reg_mux_step_Ok in H1.
  refine (for_each_inv (fun s => registers (SB.base s) <> [])
            _ _ _ _ _ _ H); [|exact (proj1 (proj2 H1))].
  intros st e' st' _ _ Hstep. apply config_reg_mux_step_Ok in Hstep.
  exact (proj1 (proj2 Hstep)).
Qed.

(** Without a [config] port [_setup_config] returns only when there is no
    register to set up. *)
Lemma setup_config_needs_config (self self' : t) :
  has_port (gen self) "config" = false ->
  _setup_config self = Ok self' ->
  registers self = [] /\ self' = self.
Proof.
  intros Hc H. unfold _setup_config in H.
  destruct (registers self) as [|[k v] d] eqn:R.
  - simpl in H. injection H as <-. auto.
  - exfalso.
    assert (P : Permutation (dict_keys ((k, v) :: d))
                  (sort_names (dict_keys ((k, v) :: d))))
      by apply sort_names_perm.
    destruct (sort_names (dict_keys ((k, v) :: d))) as [|n names] eqn:S.
    + apply Permutation_sym, Permutation_nil in P. discriminate.
    + unfold enumerate in H. cbn [enumerate_from for_each] in H.
      apply bind_Ok in H. destruct H as [s1 [H _]].
      apply bind_Ok in H. destruct H as [s2 [H _]].
      unfold setup_register in H. inv_ok H.
      unfold port_of in E0. cbn [gen with_registers] in E0.
      rewrite Hc in E0. discriminate.
Qed.

(** The switch-box compiler returns only for a switch box without switch
    nodes and without register muxes, and the unit it returns has no
    configuration register. *)
Lemma SB_init_Ok (switchbox : SwitchBox) (caw cdw : Z) (core_name : string)
    (stall_signal_width : Z) (sb : SB.t) :
  SB.__init__ G switchbox caw cdw core_name stall_signal_width = Ok sb ->
  get_all_sbs switchbox = [] /\
  SB.sb_muxs sb = [] /\
  registers (SB.base sb) = [] /\
  has_port (gen (SB.base sb)) "config" = false.
Proof.
  intros H. unfold SB.__init__ in H.
  apply bind_Ok in H. destruct H as [s1 [H1 H]].
  apply bind_Ok in H. destruct H as [s2 [H2 H]].
  apply bind_Ok in H. destruct H as [s3 [H3 H]].
  apply bind_Ok in H. destruct H as [s4 [H4 H]].
  apply bind_Ok in H. destruct H as [s5 [H5 H]].
  apply bind_Ok in H. destruct H as [s6 [H6 H]].
  apply bind_Ok in H. destruct H as [s7 [H7 H]].
  apply bind_Ok in H. destruct H as [s9 [H9 H]].
  apply bind_Ok in H. destruct H as [s10 [H10 H]].
  apply bind_Ok in H. destruct H as [b [Hb H]]. injection H as <-.
  pose proof (create_reg_switchbox _ _ H1) as W1.
  apply create_reg_no_config in H1; [|reflexivity].
  destruct H1 as [C1 [M1 [RM1 R1]]].
  pose proof (create_sb_mux_no_config _ _ H2) as [B2 [RM2 N2]].
  assert (C2 : no_config s2) by (unfold no_config; now rewrite B2).
  apply create_reg_mux_no_config in H3; [|exact C2].
  destruct H3 as [C3 [M3 R3]].
  apply for_each_never in H4; [|apply lift_port_step_raises].
  destruct H4 as [M4 ->].
  unfold SB.__connect_sbs in H5. rewrite M4 in H5. injection H5 as <-.
  unfold SB.__connect_sb_out in H6. rewrite M4 in H6. injection H6 as <-.
  apply connect_regs_no_config in H7; [|exact C3].
  destruct H7 as [C7 [M7 [RM7 R7]]].
  assert (M7' : SB.sb_muxs s7 = []) by congruence.
  rewrite M7' in H9. cbn [length Z.of_nat Z.gtb Z.compare] in H9.
  cbn [SB.sb_muxs SB.upd_gen SB.with_base] in H9. rewrite M7' in H9.
  injection H9 as <-.
  apply config_reg_mux_no_config in H10.
  2:{ unfold no_config in *.
      cbn [SB.base SB.upd_gen SB.with_base gen with_gen].
      now repeat apply has_port_remove_port. }
  destruct H10 as [C10 [M10 _]].
  apply setup_config_needs_config in Hb; [|exact C10].
  destruct Hb as [Rb ->].
  cbn [SB.base SB.with_base SB.sb_muxs].
  split.
  { destruct (get_all_sbs switchbox) as [|a l] eqn:E; [reflexivity|].
    exfalso. rewrite W1 in N2. cbn [SB.switchbox] in N2.
    apply N2; [rewrite E; discriminate | congruence]. }
  split; [rewrite M10; exact M7'|]. split; [exact Rb | exact C10].
Qed.

End SwitchBoxFacts.

(* ================================================================= *)
(** ** 20. Route resolution *)

Lemma Feature_eqb_eq (a b : Feature) :
  Feature_eqb a b = true <-> feature_ref a = feature_ref b.
Proof.
  unfold Feature_eqb, GenRef_eqb.
  destruct (GenRef_eq_dec (feature_ref a) (feature_ref b)); split; auto.
  discriminate.
Qed.

Lemma find_index_feature (circuit : Feature) (l : list Feature) :
  In (feature_ref circuit) (map feature_ref l) ->
  exists i f,
    find_index Feature_eqb circuit l = Some i /\
    nth_error l i = Some f /\ feature_ref f = feature_ref circuit /\
    (forall j g, (j < i)%nat -> nth_error l j = Some g ->
                 feature_ref g <> feature_ref circuit).
Proof.
  induction l as [|g l IH]; simpl; [tauto|]. intros H.
  destruct (Feature_eqb g circuit) eqn:E.
  - apply Feature_eqb_eq in E. exists 0%nat, g. repeat split; auto.
    intros j g' Hj. lia.
  - assert (N : feature_ref g <> feature_ref circuit).
    { intros Heq. apply Feature_eqb_eq in Heq. congruence. }
    destruct H as [H|H]; [contradiction|].
    destruct (IH H) as [i [f [F1 [F2 [F3 F4]]]]]. rewrite F1.
    exists (S i), f. repeat split; auto.
    intros [|j] g' Hj Hg; simpl in Hg.
    + now injection Hg as <-.
    + apply (F4 j); [lia | exact Hg].
Qed.

Lemma find_index_feature_Some (circuit : Feature) (l : list Feature) i :
  find_index Feature_eqb circuit l = Some i ->
  exists f, nth_error l i = Some f /\ feature_ref f = feature_ref circuit.
Proof.
  revert i. induction l as [|g l IH]; simpl; intros i H; [discriminate|].
  destruct (Feature_eqb g circuit) eqn:E.
  - injection H as <-. apply Feature_eqb_eq in E. exists g. simpl. auto.
  - destruct (find_index Feature_eqb circuit l) as [j|]; [|discriminate].
    injection H as <-. simpl. apply IH. reflexivity.
Qed.

Lemma contains_In (x : nat) (l : list nat) :
  contains Nat.eqb x l = true <-> In x l.
Proof.
  induction l as [|y l IH]; simpl; [split; [discriminate | tauto]|].
  rewrite orb_true_iff, IH, Nat.eqb_eq. tauto.
Qed.

Lemma nat_eqb_eq (a b : nat) : Nat.eqb a b = true <-> a = b.
Proof. apply Nat.eqb_eq. Qed.

Lemma string_eqb_eq (a b : string) : String.eqb a b = true <-> a = b.
Proof. apply String.eqb_eq. Qed.

(** The resolver up to the choice of the owning feature. *)
Lemma route_owner (G : Graph) (self : TileCircuit.t) (src dst : NodeId) :
  route_preconditions G self src dst ->
  exists config_data,
    find_index Nat.eqb src (conn_in (G dst)) = Some config_data /\
    TileCircuit.get_route_bitstream_config G self src dst =
      match node_class (G dst) with
      | RegisterNode => Raise NotImplementedError
      | _ =>
          match owning_feature self (G src) (G dst) with
          | None => Raise KeyError
          | Some circuit =>
              reg_index <- TileCircuit.__find_reg_index circuit (G dst) ;;
              feature_addr <-
                index Feature_eqb circuit (TileCircuit.features self) ;;
              Ok (reg_index, feature_addr, config_data)
          end
      end.
Proof.
  intros [Hw [[tile [Ht [Hx Hy]]] [Hn Hc]]].
  destruct (find_index_In Nat.eqb nat_eqb_eq src _ Hc) as [c Hc'].
  exists c. split; [exact Hc'|].
  unfold TileCircuit.get_route_bitstream_config, dict_item, index.
  rewrite Hw, Z.eqb_refl. cbn [assert bind]. rewrite <- Hw, Ht.
  cbn [bind]. rewrite Hx, Hy, !Z.eqb_refl. cbn [andb assert bind].
  rewrite (proj2 (contains_In _ _) Hn). cbn [assert bind]. rewrite Hc'.
  cbn [bind]. unfold owning_feature.
  destruct (node_class (G dst)); cbn [bind]; try reflexivity.
  - destruct (dict_get Z.eqb (TileCircuit.sbs self) (node_width (G src)));
      reflexivity.
  - destruct (dict_get String.eqb (TileCircuit.cbs self) (node_name (G dst)));
      reflexivity.
  - destruct (dict_get Z.eqb (TileCircuit.sbs self) (node_width (G src)));
      reflexivity.
Qed.

(** C1 (as stated, refuted). On the example tile the port [flush] has one
    incoming edge, from switch node 2; the pair satisfies the resolver
    preconditions and the resolver raises. *)
Lemma route_to_passthrough_port_raises :
  route_preconditions Examples.graph Examples.pe_tile_circuit 2%nat 1%nat /\
  TileCircuit.get_route_bitstream_config Examples.graph
    Examples.pe_tile_circuit 2%nat 1%nat = Raise ValueError.
Proof.
  split; [|reflexivity].
  split; [reflexivity|]. split.
  - exists Examples.pe_tile. repeat split; reflexivity.
  - split; simpl; auto.
Qed.

(** C1 (amended). For every pair that satisfies the resolver preconditions
    and whose destination is a switch node, a register mux or a port, when
    the owning feature (the switch box of the bit-width, or the connection
    box named after the port) is in the tile's feature list and holds the
    destination's selector register, the resolver returns: [config_data], the
    first position of the source in the destination's incoming list;
    [reg_index], the position of the selector-register name in the sorted
    register names of the owning feature; [feature_addr], the position of the
    owning feature in the feature list.  The connection box of a port with
    at least two incoming edges holds its selector register. *)
Theorem route_bitstream_config :
  forall (G : Graph) (self : TileCircuit.t) (src dst : NodeId)
         (circuit : Feature) (sel_name : string),
    route_preconditions G self src dst ->
    owning_feature self (G src) (G dst) = Some circuit ->
    get_mux_sel_name (G dst) = Ok sel_name ->
    In (feature_ref circuit) (map feature_ref (TileCircuit.features self)) ->
    (In sel_name (dict_keys (TileCircuit.circuit_registers circuit)) \/
     (2 <= fan_in (G dst) /\ is_PortNode (G dst) = true /\
      compiled_for G dst circuit)) ->
    exists reg_index feature_addr config_data,
      TileCircuit.get_route_bitstream_config G self src dst
      = Ok (reg_index, feature_addr, config_data) /\
      find_index Nat.eqb src (conn_in (G dst)) = Some config_data /\
      nth_error (conn_in (G dst)) config_data = Some src /\
      find_index String.eqb sel_name
        (sort_names (dict_keys (TileCircuit.circuit_registers circuit)))
      = Some reg_index /\
      nth_error
        (sort_names (dict_keys (TileCircuit.circuit_registers circuit)))
        reg_index = Some sel_name /\
      find_index Feature_eqb circuit (TileCircuit.features self)
      = Some feature_addr /\
      exists f, nth_error (TileCircuit.features self) feature_addr = Some f /\
                feature_ref f = feature_ref circuit.
Proof.
  intros G self src dst circuit sel_name Hpre Hown Hsel Hfeat Hreg.
  destruct (route_owner G self src dst Hpre) as [c [Hc Hroute]].
  assert (Hreg' : In sel_name
                    (dict_keys (TileCircuit.circuit_registers circuit))).
  { destruct Hreg as [H|[Hk [Hp Hcomp]]]; [exact H|].
    unfold get_mux_sel_name in Hsel. apply bind_Ok in Hsel.
    destruct Hsel as [nm [Hname Hsel]]. injection Hsel as <-.
    assert (Hk' : (fan_in (G dst) >? 1) = true) by lia.
    unfold owning_feature in Hown. unfold is_PortNode in Hp.
    destruct (node_class (G dst)) eqn:Ecls; try discriminate.
    destruct (dict_get String.eqb (TileCircuit.cbs self) (node_name (G dst)))
      as [cb|]; [|discriminate].
    injection Hown as <-. destruct Hcomp as [caw [cdw Hcb]].
    assert (Hp' : is_PortNode (G dst) = true)
      by (unfold is_PortNode; now rewrite Ecls).
    destruct (CB_init_selector G dst caw cdw nm Hp' Hname Hk')
      as [cb' [E [_ [_ [_ [R _]]]]]].
    rewrite Hcb in E. injection E as <-.
    cbn [TileCircuit.circuit_registers]. rewrite R. simpl. auto. }
  assert (Hsorted : In sel_name
            (sort_names (dict_keys (TileCircuit.circuit_registers circuit))))
    by (eapply Permutation_in; [apply sort_names_perm | exact Hreg']).
  destruct (find_index_In String.eqb string_eqb_eq _ _ Hsorted) as [r Hr].
  destruct (find_index_feature circuit _ Hfeat) as [fa [f [F1 [F2 [F3 _]]]]].
  exists r, fa, c. rewrite Hroute, Hown.
  assert (Hcls : node_class (G dst) <> RegisterNode).
  { intros E. unfold owning_feature in Hown. rewrite E in Hown.
    discriminate. }
  split.
  { unfold TileCircuit.__find_reg_index, index. rewrite Hsel. cbn [bind].
    rewrite Hr, F1. cbn [bind].
    destruct (node_class (G dst)); try reflexivity. contradiction. }
  split; [exact Hc|].
  split; [apply (find_index_Some Nat.eqb nat_eqb_eq _ _ _ Hc)|].
  split; [exact Hr|].
  split; [apply (find_index_Some String.eqb string_eqb_eq _ _ _ Hr)|].
  split; [exact F1|]. exists f. split; assumption.
Qed.

Lemma route_bitstream_config_witness :
  exists reg_index feature_addr config_data,
    TileCircuit.get_route_bitstream_config Examples.graph
      Examples.pe_tile_circuit 3%nat 0%nat
    = Ok (reg_index, feature_addr, config_data) /\
    find_index Nat.eqb 3%nat (conn_in (Examples.graph 0%nat))
    = Some config_data /\
    nth_error (conn_in (Examples.graph 0%nat)) config_data = Some 3%nat /\
    find_index String.eqb "PORT_data_in_1_1_16_sel"
      (sort_names
         (dict_keys
            (TileCircuit.circuit_registers
               (FCB "data_in" (Examples.cb_of 0%nat)))))
    = Some reg_index /\
    nth_error
      (sort_names
         (dict_keys
            (TileCircuit.circuit_registers
               (FCB "data_in" (Examples.cb_of 0%nat)))))
      reg_index = Some "PORT_data_in_1_1_16_sel" /\
    find_index Feature_eqb (FCB "data_in" (Examples.cb_of 0%nat))
      (TileCircuit.features Examples.pe_tile_circuit)
    = Some feature_addr /\
    exists f,
      nth_error (TileCircuit.features Examples.pe_tile_circuit) feature_addr
      = Some f /\
      feature_ref f = feature_ref (FCB "data_in" (Examples.cb_of 0%nat)).
Proof.
  apply (route_bitstream_config Examples.graph Examples.pe_tile_circuit
           3%nat 0%nat (FCB "data_in" (Examples.cb_of 0%nat))
           "PORT_data_in_1_1_16_sel").
  - split; [reflexivity|]. split.
    + exists Examples.pe_tile. repeat split; reflexivity.
    + split; simpl; auto.
  - vm_compute. reflexivity.
  - vm_compute. reflexivity.
  - vm_compute. auto.
  - right. split; [vm_compute; discriminate|]. split; [reflexivity|].
    exists 8, 32. vm_compute. reflexivity.
Defined.

Lemma find_reg_index_no_register (circuit : Feature) (n : Node) :
  n.(node_str) <> "" ->
  TileCircuit.circuit_registers circuit = [] ->
  TileCircuit.__find_reg_index circuit n = Raise ValueError.
Proof.
  intros Hs Hr. unfold TileCircuit.__find_reg_index, get_mux_sel_name.
  destruct (create_name_ok _ Hs) as [nm ->]. rewrite Hr. reflexivity.
Qed.

(** A unit compiled for a node with one incoming edge has no register. *)
Lemma compiled_for_no_register (G : Graph) (dst : NodeId)
    (circuit : Feature) :
  fan_in (G dst) = 1 -> node_str (G dst) <> "" ->
  compiled_for G dst circuit ->
  TileCircuit.circuit_registers circuit = [].
Proof.
  intros Hk Hs Hc. destruct circuit as [f|key cb|key sb]; simpl in *.
  - contradiction.
  - destruct Hc as [caw [cdw Hcb]].
    destruct (create_name_ok _ Hs) as [nm Hn].
    unfold CB.__init__ in Hcb.
    destruct (is_PortNode (G dst)) eqn:Hp; [|discriminate].
    assert (Hk' : (fan_in (G dst) <=? 1) = true) by lia.
    pose proof (CB_init_passthrough G dst caw cdw nm Hp Hn Hk') as E.
    unfold CB.__init__ in E. rewrite Hp in E. rewrite E in Hcb.
    now injection Hcb as <-.
  - destruct Hc as [sw [caw [cdw [cn [ssw Hsb]]]]].
    apply SB_init_Ok in Hsb. tauto.
Qed.

(** C10 (as stated, refuted). The pipeline register of the example has one
    incoming edge, from switch node 10; the pair satisfies the resolver
    preconditions and the resolver raises [NotImplementedError] when it
    chooses the owning feature, which is not an exception of the
    register-index lookup. *)
Lemma route_to_register_raises_at_dispatch :
  route_preconditions Examples.graph Examples.pe_tile_circuit
    10%nat 11%nat /\
  fan_in (Examples.graph 11%nat) = 1 /\
  TileCircuit.get_route_bitstream_config Examples.graph
    Examples.pe_tile_circuit 10%nat 11%nat = Raise NotImplementedError /\
  forall circuit,
    TileCircuit.__find_reg_index circuit (Examples.graph 11%nat)
    <> Raise NotImplementedError.
Proof.
  split.
  { split; [reflexivity|]. split.
    - exists Examples.pe_tile. repeat split; reflexivity.
    - split; simpl; auto. }
  split; [reflexivity|]. split; [vm_compute; reflexivity|].
  intros circuit. unfold TileCircuit.__find_reg_index, index.
  replace (get_mux_sel_name (Examples.graph 11%nat))
    with (Ok (A:=string) "REG_T0_EAST_0_1_1_16_sel") by reflexivity.
  cbn [bind]. destruct (find_index _ _ _); discriminate.
Qed.

(** C10 (amended). For every pair that satisfies the resolver preconditions
    and whose destination has exactly one incoming edge the resolver raises:
    [NotImplementedError] at the choice of the owning feature when the
    destination is a register node; [KeyError] when the tile holds no
    owning feature for the destination; and otherwise [ValueError] in the
    register-index lookup, the owning feature being the unit compiled for
    the destination, which holds no selector register for it. *)
Theorem route_to_single_fan_in_raises :
  forall (G : Graph) (self : TileCircuit.t) (src dst : NodeId),
    route_preconditions G self src dst ->
    fan_in (G dst) = 1 ->
    node_str (G dst) <> "" ->
    (forall circuit,
       owning_feature self (G src) (G dst) = Some circuit ->
       compiled_for G dst circuit) ->
    TileCircuit.get_route_bitstream_config G self src dst =
      match node_class (G dst) with
      | RegisterNode => Raise NotImplementedError
      | _ =>
          match owning_feature self (G src) (G dst) with
          | Some _ => Raise ValueError
          | None => Raise KeyError
          end
      end /\
    forall circuit,
      owning_feature self (G src) (G dst) = Some circuit ->
      TileCircuit.__find_reg_index circuit (G dst) = Raise ValueError.
Proof.
  intros G self src dst Hpre Hk Hs Hcomp.
  assert (Hidx : forall circuit,
            owning_feature self (G src) (G dst) = Some circuit ->
            TileCircuit.__find_reg_index circuit (G dst) = Raise ValueError).
  { intros circuit Hown. apply find_reg_index_no_register; [exact Hs|].
    apply (compiled_for_no_register G dst); auto. }
  split; [|exact Hidx].
  destruct (route_owner G self src dst Hpre) as [c [_ ->]].
  destruct (owning_feature self (G src) (G dst)) as [circuit|] eqn:Hown.
  - rewrite (Hidx circuit eq_refl). reflexivity.
  - reflexivity.
Qed.

Lemma route_to_single_fan_in_raises_witness :
  TileCircuit.get_route_bitstream_config Examples.graph
    Examples.pe_tile_circuit 2%nat 1%nat = Raise ValueError /\
  forall circuit,
    owning_feature Examples.pe_tile_circuit (Examples.graph 2%nat)
      (Examples.graph 1%nat) = Some circuit ->
    TileCircuit.__find_reg_index circuit (Examples.graph 1%nat)
    = Raise ValueError.
Proof.
  apply (route_to_single_fan_in_raises Examples.graph
           Examples.pe_tile_circuit 2%nat 1%nat).
  - split; [reflexivity|]. split.
    + exists Examples.pe_tile. repeat split; reflexivity.
    + split; simpl; auto.
  - reflexivity.
  - discriminate.
  - intros circuit H. vm_compute in H. injection H as <-.
    exists 8, 32. vm_compute. reflexivity.
Defined.

(* ================================================================= *)
(** ** 21. The feature list of a tile *)

Lemma add_core_features (l : list CoreFeature) : forall (s : TileCircuit.t),
  fold_left (fun self feature => TileCircuit.add_feature self (FCore feature))
    l s
  = TileCircuit.with_features s
      (TileCircuit.features s ++ map FCore l).
Proof.
  induction l as [|f l IH]; intros s; simpl.
  - rewrite app_nil_r. now destruct s.
  - rewrite IH. unfold TileCircuit.add_feature, TileCircuit.features.
    cbn [TileCircuit.__features TileCircuit.with_features].
    now rewrite <- app_assoc.
Qed.

Lemma add_cb_features (names : list string) :
  forall (s s' : TileCircuit.t),
    for_each (fun self name =>
        cb <- dict_item String.eqb (TileCircuit.cbs self) name ;;
        Ok (TileCircuit.add_feature self (FCB name cb)))
      names s = Ok s' ->
    exists items,
      s' = TileCircuit.with_features s
             (TileCircuit.features s
              ++ map (fun e : string * CB.t => FCB (fst e) (snd e)) items) /\
      map fst items = names /\
      forall n cb, In (n, cb) items ->
                   dict_get String.eqb (TileCircuit.cbs s) n = Some cb.
Proof.
  induction names as [|n names IH]; intros s s' H; simpl in H.
  - injection H as <-. exists []. simpl. rewrite app_nil_r.
    split; [now destruct s|]. split; [reflexivity | contradiction].
  - apply bind_Ok in H. destruct H as [s1 [H1 H]].
    apply bind_Ok in H1. destruct H1 as [cb [Hcb H1]]. injection H1 as <-.
    unfold dict_item in Hcb.
    destruct (dict_get String.eqb (TileCircuit.cbs s) n) as [cb'|] eqn:E;
      [|discriminate]. injection Hcb as ->.
    destruct (IH _ _ H) as [items [-> [Hn Hi]]].
    exists ((n, cb) :: items). split.
    { unfold TileCircuit.add_feature, TileCircuit.features.
      cbn [TileCircuit.__features TileCircuit.with_features map fst snd].
      now rewrite <- app_assoc. }
    split; [simpl; now rewrite Hn|].
    intros n' cb'' [Heq|Hin]; [congruence|]. apply (Hi n' cb'' Hin).
Qed.

Lemma add_sb_features (widths : list Z) :
  forall (s s' : TileCircuit.t),
    for_each (fun self width =>
        sb <- dict_item Z.eqb (TileCircuit.sbs self) width ;;
        Ok (TileCircuit.add_feature self (FSB width sb)))
      widths s = Ok s' ->
    exists items,
      s' = TileCircuit.with_features s
             (TileCircuit.features s
              ++ map (fun e : Z * SB.t => FSB (fst e) (snd e)) items) /\
      map fst items = widths /\
      forall w sb, In (w, sb) items ->
                   dict_get Z.eqb (TileCircuit.sbs s) w = Some sb.
Proof.
  induction widths as [|n widths IH]; intros s s' H; simpl in H.
  - injection H as <-. exists []. simpl. rewrite app_nil_r.
    split; [now destruct s|]. split; [reflexivity | contradiction].
  - apply bind_Ok in H. destruct H as [s1 [H1 H]].
    apply bind_Ok in H1. destruct H1 as [sb [Hsb H1]]. injection H1 as <-.
    unfold dict_item in Hsb.
    destruct (dict_get Z.eqb (TileCircuit.sbs s) n) as [sb'|] eqn:E;
      [|discriminate]. injection Hsb as ->.
    destruct (IH _ _ H) as [items [-> [Hn Hi]]].
    exists ((n, sb) :: items). split.
    { unfold TileCircuit.add_feature, TileCircuit.features.
      cbn [TileCircuit.__features TileCircuit.with_features map fst snd].
      now rewrite <- app_assoc. }
    split; [simpl; now rewrite Hn|].
    intros n' sb'' [Heq|Hin]; [congruence|]. apply (Hi n' sb'' Hin).
Qed.

Lemma add_features_Ok (s s' : TileCircuit.t) :
  TileCircuit.add_features s = Ok s' ->
  exists cb_items sb_items,
    s' = TileCircuit.with_features s
           (map FCore (match TileCircuit.core s with
                       | Some c => core_features c
                       | None => []
                       end)
            ++ map (fun e : string * CB.t => FCB (fst e) (snd e)) cb_items
            ++ map (fun e : Z * SB.t => FSB (fst e) (snd e)) sb_items) /\
    map fst cb_items = sort_names (dict_keys (TileCircuit.cbs s)) /\
    (forall n cb, In (n, cb) cb_items ->
                  dict_get String.eqb (TileCircuit.cbs s) n = Some cb) /\
    map fst sb_items = sort_widths (dict_keys (TileCircuit.sbs s)) /\
    (forall w sb, In (w, sb) sb_items ->
                  dict_get Z.eqb (TileCircuit.sbs s) w = Some sb).
Proof.
  unfold TileCircuit.add_features. intros H.
  apply bind_Ok in H. destruct H as [s1 [H1 H]].
  set (s0 := match TileCircuit.core (TileCircuit.with_features s []) with
             | Some c => _
             | None => _
             end) in H1.
  assert (E0 : s0 = TileCircuit.with_features s
                      (map FCore (match TileCircuit.core s with
                                  | Some c => core_features c
                                  | None => []
                                  end))).
  { subst s0. cbn [TileCircuit.core TileCircuit.with_features].
    destruct (TileCircuit.core s); [|reflexivity].
    rewrite add_core_features. reflexivity. }
  rewrite E0 in H1. clear E0 s0.
  apply add_cb_features in H1. destruct H1 as [cb_items [-> [N1 I1]]].
  apply add_sb_features in H. destruct H as [sb_items [-> [N2 I2]]].
  exists cb_items, sb_items.
  cbn [TileCircuit.with_features TileCircuit.features TileCircuit.__features
       TileCircuit.cbs TileCircuit.sbs] in *.
  rewrite <- app_assoc.
  split; [reflexivity|]. repeat split; assumption.
Qed.

Lemma dictZ_get_Some_In {V} (d : dict Z V) (k : Z) v :
  dict_get Z.eqb d k = Some v -> In k (dict_keys d).
Proof.
  induction d as [|[k' v'] d IH]; simpl; [discriminate|].
  destruct (Z.eqb_spec k' k) as [->|N]; auto.
Qed.

(** On a feature list made of the core's features, the connection boxes and
    the switch boxes of a tile, the owning feature of a route is listed. *)
Lemma owning_feature_listed (self : TileCircuit.t) (src dst : Node)
    (circuit : Feature) (core_feats : list Feature)
    (cb_items : list (string * CB.t)) (sb_items : list (Z * SB.t)) :
  TileCircuit.features self =
    (core_feats ++ map (fun e => FCB (fst e) (snd e)) cb_items
     ++ map (fun e => FSB (fst e) (snd e)) sb_items)%list ->
  Permutation (map fst cb_items) (dict_keys (TileCircuit.cbs self)) ->
  Permutation (map fst sb_items) (dict_keys (TileCircuit.sbs self)) ->
  owning_feature self src dst = Some circuit ->
  In (feature_ref circuit) (map feature_ref (TileCircuit.features self)).
Proof.
  intros F Pc Ps H. rewrite F, !map_app, !map_map. cbn [feature_ref fst].
  assert (Hsb : forall sb,
            dict_get Z.eqb (TileCircuit.sbs self) (node_width src) = Some sb ->
            In (SBRef (node_width src))
               (map (fun e : Z * SB.t => SBRef (fst e)) sb_items)).
  { intros sb E. apply dictZ_get_Some_In in E.
    apply (Permutation_in _ (Permutation_sym Ps)) in E.
    apply in_map_iff in E. destruct E as [e [E1 E2]].
    apply in_map_iff. exists e. now rewrite E1. }
  unfold owning_feature in H.
  destruct (node_class dst); try discriminate.
  - destruct (dict_get Z.eqb (TileCircuit.sbs self) (node_width src))
      as [sb|] eqn:E; [|discriminate]. injection H as <-.
    cbn [feature_ref]. apply in_or_app. right. apply in_or_app. right.
    apply (Hsb sb eq_refl).
  - destruct (dict_get String.eqb (TileCircuit.cbs self) (node_name dst))
      as [cb|] eqn:E; [|discriminate]. injection H as <-.
    cbn [feature_ref]. apply in_or_app. right. apply in_or_app. left.
    apply dict_get_Some_In in E.
    apply (Permutation_in _ (Permutation_sym Pc)) in E.
    apply in_map_iff in E. destruct E as [e [E1 E2]].
    apply in_map_iff. exists e. now rewrite E1.
  - destruct (dict_get Z.eqb (TileCircuit.sbs self) (node_width src))
      as [sb|] eqn:E; [|discriminate]. injection H as <-.
    cbn [feature_ref]. apply in_or_app. right. apply in_or_app. right.
    apply (Hsb sb eq_refl).
Qed.

(** The resolver returns the first position of a listed owning feature that
    holds the selector register of the destination. *)
Lemma route_returns_listed (G : Graph) (self : TileCircuit.t)
    (src dst : NodeId) (circuit : Feature) (sel_name : string) :
  route_preconditions G self src dst ->
  owning_feature self (G src) (G dst) = Some circuit ->
  get_mux_sel_name (G dst) = Ok sel_name ->
  In sel_name (dict_keys (TileCircuit.circuit_registers circuit)) ->
  In (feature_ref circuit) (map feature_ref (TileCircuit.features self)) ->
  exists reg_index feature_addr config_data f,
    TileCircuit.get_route_bitstream_config G self src dst
    = Ok (reg_index, feature_addr, config_data) /\
    find_index Feature_eqb circuit (TileCircuit.features self)
    = Some feature_addr /\
    nth_error (TileCircuit.features self) feature_addr = Some f /\
    feature_ref f = feature_ref circuit.
Proof.
  intros Hpre Hown Hsel Hreg Hfeat.
  destruct (route_owner G self src dst Hpre) as [c [_ Hroute]].
  assert (Hsorted : In sel_name
            (sort_names (dict_keys (TileCircuit.circuit_registers circuit))))
    by (eapply Permutation_in; [apply sort_names_perm | exact Hreg]).
  destruct (find_index_In String.eqb string_eqb_eq _ _ Hsorted) as [r Hr].
  destruct (find_index_feature circuit _ Hfeat) as [fa [f [F1 [F2 [F3 _]]]]].
  exists r, fa, c, f. rewrite Hroute, Hown.
  split; [|split; [exact F1 | split; assumption]].
  unfold TileCircuit.__find_reg_index, index. rewrite Hsel. cbn [bind].
  rewrite Hr, F1. cbn [bind].
  destruct (node_class (G dst)) eqn:E; try reflexivity.
  unfold owning_feature in Hown. rewrite E in Hown. discriminate.
Qed.

(** C3. The feature list The feature list of a tile built by [TileCircuit.__init__] is: the
    features of the core, then the connection boxes in the lexicographic order
    of their port names, then the switch boxes in ascending order of their
    bit-widths; and the feature address the route resolver returns is the
    position of the owning feature in this list: whenever it returns, and it
    does return, with that position, for every pair that satisfies its
    preconditions and whose owning feature holds the selector register of
    the destination. *)
Theorem feature_list_order :
  forall (G : Graph) (tiles : dict Z Tile) (caw cdw tiw fw ssw : Z)
         (self : TileCircuit.t),
    TileCircuit.__init__ G tiles caw cdw tiw fw ssw = Ok self ->
    exists (cb_items : list (string * CB.t)) (sb_items : list (Z * SB.t)),
      TileCircuit.features self =
        (map FCore (match TileCircuit.core self with
                    | Some c => core_features c
                    | None => []
                    end)
         ++ map (fun e => FCB (fst e) (snd e)) cb_items
         ++ map (fun e => FSB (fst e) (snd e)) sb_items)%list /\
      Permutation (map fst cb_items) (dict_keys (TileCircuit.cbs self)) /\
      StronglySorted (fun a b => String.leb a b = true) (map fst cb_items) /\
      (forall n cb, In (n, cb) cb_items ->
         dict_get String.eqb (TileCircuit.cbs self) n = Some cb) /\
      Permutation (map fst sb_items) (dict_keys (TileCircuit.sbs self)) /\
      StronglySorted Z.le (map fst sb_items) /\
      (forall w sb, In (w, sb) sb_items ->
         dict_get Z.eqb (TileCircuit.sbs self) w = Some sb) /\
      (forall src dst reg_index feature_addr config_data,
         TileCircuit.get_route_bitstream_config G self src dst
         = Ok (reg_index, feature_addr, config_data) ->
         exists circuit f,
           owning_feature self (G src) (G dst) = Some circuit /\
           nth_error (TileCircuit.features self) feature_addr = Some f /\
           feature_ref f = feature_ref circuit) /\
      (forall src dst circuit sel_name,
         route_preconditions G self src dst ->
         owning_feature self (G src) (G dst) = Some circuit ->
         get_mux_sel_name (G dst) = Ok sel_name ->
         In sel_name (dict_keys (TileCircuit.circuit_registers circuit)) ->
         exists reg_index feature_addr config_data f,
           TileCircuit.get_route_bitstream_config G self src dst
           = Ok (reg_index, feature_addr, config_data) /\
           find_index Feature_eqb circuit (TileCircuit.features self)
           = Some feature_addr /\
           nth_error (TileCircuit.features self) feature_addr = Some f /\
           feature_ref f = feature_ref circuit).
Proof.
  intros G tiles caw cdw tiw fw ssw self H.
  unfold TileCircuit.__init__ in H.
  apply bind_Ok in H. destruct H as [[[x y] core] [_ H]].
  apply bind_Ok in H. destruct H as [_ [_ H]].
  apply bind_Ok in H. destruct H as [ci [_ H]].
  apply bind_Ok in H. destruct H as [s1 [_ H]].
  apply bind_Ok in H. destruct H as [s2 [_ H]].
  apply bind_Ok in H. destruct H as [s3 [_ H]].
  apply bind_Ok in H. destruct H as [s4 [_ H]].
  apply bind_Ok in H. destruct H as [s5 [_ H]].
  apply bind_Ok in H. destruct H as [s6 [H6 H]]. injection H as <-.
  apply add_features_Ok in H6.
  destruct H6 as [cb_items [sb_items [-> [N1 [I1 [N2 I2]]]]]].
  exists cb_items, sb_items.
  cbn [TileCircuit.with_features TileCircuit.with_finalized
       TileCircuit.features TileCircuit.__features TileCircuit.core
       TileCircuit.cbs TileCircuit.sbs].
  split; [reflexivity|].
  split; [rewrite N1; apply Permutation_sym, sort_names_perm|].
  split; [rewrite N1; apply sort_names_sorted|].
  split; [exact I1|].
  split; [rewrite N2; apply Permutation_sym, sort_widths_perm|].
  split; [rewrite N2; apply sort_widths_sorted|].
  split; [exact I2|].
  split.
  2: { intros src dst circuit sel_name Hpre Hown Hsel Hreg.
       apply (route_returns_listed G _ src dst circuit sel_name Hpre Hown
                Hsel Hreg).
       pose proof (fun cf E Pc Ps =>
                     owning_feature_listed _ (G src) (G dst) circuit cf
                       cb_items sb_items E Pc Ps Hown) as L.
       eapply L; clear L.
       - reflexivity.
       - cbn [TileCircuit.with_features TileCircuit.with_finalized
              TileCircuit.cbs]. rewrite N1.
         apply Permutation_sym, sort_names_perm.
       - cbn [TileCircuit.with_features TileCircuit.with_finalized
              TileCircuit.sbs]. rewrite N2.
         apply Permutation_sym, sort_widths_perm. }
  intros src dst r f c Hr.
  unfold TileCircuit.get_route_bitstream_config in Hr.
  apply bind_Ok in Hr. destruct Hr as [_ [_ Hr]].
  apply bind_Ok in Hr. destruct Hr as [tile [_ Hr]].
  apply bind_Ok in Hr. destruct Hr as [_ [_ Hr]].
  apply bind_Ok in Hr. destruct Hr as [_ [_ Hr]].
  apply bind_Ok in Hr. destruct Hr as [c' [_ Hr]].
  apply bind_Ok in Hr. destruct Hr as [circuit [Hcirc Hr]].
  apply bind_Ok in Hr. destruct Hr as [r' [_ Hr]].
  apply bind_Ok in Hr. destruct Hr as [f' [Hf Hr]].
  injection Hr as -> -> ->.
  apply index_Ok in Hf. apply find_index_feature_Some in Hf.
  destruct Hf as [feat [F1 F2]].
  exists circuit, feat. split; [|split; assumption].
  unfold owning_feature, dict_item in *.
  cbn [TileCircuit.with_features TileCircuit.with_finalized
       TileCircuit.cbs TileCircuit.sbs] in *.
  destruct (node_class (G dst)); try discriminate.
  - destruct (dict_get Z.eqb (TileCircuit.sbs s5) (node_width (G src)));
      [|discriminate]. cbn [bind] in Hcirc. now injection Hcirc as <-.
  - destruct (dict_get String.eqb (TileCircuit.cbs s5) (node_name (G dst)));
      [|discriminate]. cbn [bind] in Hcirc. now injection Hcirc as <-.
  - destruct (dict_get Z.eqb (TileCircuit.sbs s5) (node_width (G src)));
      [|discriminate]. cbn [bind] in Hcirc. now injection Hcirc as <-.
Qed.

Lemma feature_list_order_witness :
  map feature_ref (TileCircuit.features Examples.pe_tile_circuit)
  = [CoreRef 0; CBRef "data_in"; CBRef "flush"; SBRef 16] /\
  TileCircuit.get_route_bitstream_config Examples.graph
    Examples.pe_tile_circuit 3%nat 0%nat = Ok (0%nat, 1%nat, 1%nat) /\
  exists (cb_items : list (string * CB.t)) (sb_items : list (Z * SB.t)),
    TileCircuit.features Examples.pe_tile_circuit =
      (map FCore (match TileCircuit.core Examples.pe_tile_circuit with
                  | Some c => core_features c
                  | None => []
                  end)
       ++ map (fun e => FCB (fst e) (snd e)) cb_items
       ++ map (fun e => FSB (fst e) (snd e)) sb_items)%list /\
    StronglySorted (fun a b => String.leb a b = true) (map fst cb_items) /\
    StronglySorted Z.le (map fst sb_items) /\
    exists reg_index feature_addr config_data f,
      TileCircuit.get_route_bitstream_config Examples.graph
        Examples.pe_tile_circuit 3%nat 0%nat
      = Ok (reg_index, feature_addr, config_data) /\
      find_index Feature_eqb (FCB "data_in" (Examples.cb_of 0%nat))
        (TileCircuit.features Examples.pe_tile_circuit)
      = Some feature_addr /\
      nth_error (TileCircuit.features Examples.pe_tile_circuit) feature_addr
      = Some f /\
      feature_ref f = CBRef "data_in".
Proof.
  split; [vm_compute; reflexivity|].
  split; [vm_compute; reflexivity|].
  destruct (feature_list_order Examples.graph [(16, Examples.pe_tile)] 8 32
              TileCircuit.default_tile_id_width
              TileCircuit.default_full_config_addr_width
              TileCircuit.default_stall_signal_width
              Examples.pe_tile_circuit)
    as [cb_items [sb_items [H1 [_ [H2 [_ [_ [H3 [_ [_ H4]]]]]]]]]].
  - vm_compute. reflexivity.
  - exists cb_items, sb_items.
    split; [exact H1|]. split; [exact H2|]. split; [exact H3|].
    apply (H4 3%nat 0%nat (FCB "data_in" (Examples.cb_of 0%nat))
             "PORT_data_in_1_1_16_sel").
    + split; [reflexivity|]. split.
      * exists Examples.pe_tile. repeat split; reflexivity.
      * split; simpl; auto.
    + vm_compute. reflexivity.
    + vm_compute. reflexivity.
    + vm_compute. auto.
Defined.

(* ================================================================= *)
(** ** 22. Finalization *)

Section Finalize.
Import TileCircuit.

Lemma add_wires_app (s : t) (w1 w2 : list (Sig * Sig)) :
  add_wires (add_wires s w1) w2 = add_wires s (w1 ++ w2).
Proof.
  unfold add_wires, upd_gen, with_gen. simpl. now rewrite app_assoc.
Qed.

Lemma add_wires_nil (s : t) : add_wires s [] = s.
Proof.
  unfold add_wires, upd_gen, with_gen. destruct s as [g]. destruct g.
  simpl. now rewrite app_nil_r.
Qed.

Lemma bindM_Ok {A B} (m : M A) (k : A -> M B) (s s' : t) (a : A) :
  m s = (Ok a, s') -> bindM m k s = k a s'.
Proof. unfold bindM. now intros ->. Qed.

Lemma bindM_Raise {A B} (m : M A) (k : A -> M B) (s s' : t) e :
  m s = (Raise e, s') -> bindM m k s = (Raise e, s').
Proof. unfold bindM. now intros ->. Qed.

Lemma bindM_ret (s : t) (a : unit) : ret a s = (Ok a, s).
Proof. reflexivity. Qed.

Lemma wireM_wires (a b : Sig) (s0 : t) (w : list (Sig * Sig)) :
  wireM a b (add_wires s0 w) = (Ok tt, add_wires s0 (w ++ [(a, b)])).
Proof. unfold wireM, modify. now rewrite <- add_wires_app. Qed.

Lemma self_port_wires (name : string) (s0 : t) (w : list (Sig * Sig)) :
  has_port (gen s0) name = true ->
  self_port name (add_wires s0 w)
  = (Ok (SPort This name), add_wires s0 w).
Proof.
  intros H. unfold self_port, bindM, get, lift, port_of.
  replace (has_port (gen (add_wires s0 w)) name) with (has_port (gen s0) name)
    by reflexivity.
  now rewrite H.
Qed.

Lemma for_eachM_wires {A} (f : A -> M unit) (W : A -> list (Sig * Sig))
    (s0 : t) :
  (forall a w, f a (add_wires s0 w) = (Ok tt, add_wires s0 (w ++ W a))) ->
  forall l w,
    for_eachM f l (add_wires s0 w)
    = (Ok tt, add_wires s0 (w ++ flat_map W l)).
Proof.
  intros Hf. induction l as [|a l IH]; intros w; simpl.
  - now rewrite app_nil_r.
  - rewrite (bindM_Ok _ _ _ _ _ (Hf a w)). rewrite IH.
    now rewrite <- app_assoc.
Qed.

Lemma fanout_ok (name : string) (s0 : t) (w : list (Sig * Sig)) :
  has_port (gen s0) name = true ->
  for_eachM (fun p => x <~ self_port name ;; wireM x p)
    (fanout_ports s0 name) (add_wires s0 w)
  = (Ok tt, add_wires s0 (w ++ Netlist.fanout_wires s0 name)).
Proof.
  intros H. unfold Netlist.fanout_wires.
  rewrite (for_eachM_wires _ (fun p => [(SPort This name, p)])).
  - f_equal.
  - intros p w'. rewrite (bindM_Ok _ _ _ _ _ (self_port_wires _ _ _ H)).
    apply wireM_wires.
Qed.

Lemma add_stall_ok (s0 : t) (w : list (Sig * Sig)) :
  has_port (gen s0) "stall" = true ->
  __add_stall (add_wires s0 w)
  = (Ok tt, add_wires s0 (w ++ Netlist.fanout_wires s0 "stall")).
Proof.
  intros H. unfold __add_stall, bindM at 1, get.
  replace (fanout_ports (add_wires s0 w) "stall")
    with (fanout_ports s0 "stall") by reflexivity.
  now apply fanout_ok.
Qed.

Lemma add_reset_ok (s0 : t) (w : list (Sig * Sig)) :
  has_port (gen s0) "reset" = true ->
  __add_reset (add_wires s0 w)
  = (Ok tt, add_wires s0 (w ++ Netlist.fanout_wires s0 "reset")).
Proof.
  intros H. unfold __add_reset, bindM at 1, get.
  replace (fanout_ports (add_wires s0 w) "reset")
    with (fanout_ports s0 "reset") by reflexivity.
  now apply fanout_ok.
Qed.

Lemma finalize_unfold (s : t) :
  finalize s =
    if finalized s then (Raise AlreadyFinalized, s)
    else finalize_body (with_finalized s true).
Proof.
  unfold finalize, bindM at 1, get. now destruct (finalized s).
Qed.

(** The fan-out part of [finalize]. *)
Lemma finalize_fanout (s : t) :
  finalized s = false ->
  has_port (gen s) "stall" = true ->
  has_port (gen s) "reset" = true ->
  finalize s =
    (b <~ __should_add_config ;;
     if negb b then ret tt else finalize_config_part) (finalized_plain s).
Proof.
  intros Hf Hs Hr. rewrite finalize_unfold, Hf. unfold finalize_body.
  rewrite <- (add_wires_nil (with_finalized s true)).
  rewrite (bindM_Ok _ _ _ _ _ (add_stall_ok (with_finalized s true) _ Hs)).
  rewrite (bindM_Ok _ _ _ _ _ (add_reset_ok (with_finalized s true) _ Hr)).
  reflexivity.
Qed.

Lemma config_addr_slice_ok (sl : Z * Z) (s0 : t) (w : list (Sig * Sig)) :
  has_port (gen s0) "config" = true ->
  config_addr_slice sl (add_wires s0 w)
  = (Ok (Netlist.config_addr_sig sl), add_wires s0 w).
Proof.
  intros H. unfold config_addr_slice.
  rewrite (bindM_Ok _ _ _ _ _ (self_port_wires _ _ _ H)). reflexivity.
Qed.

Lemma wire_feature_bus_ok (f : Feature) (s0 : t) (w : list (Sig * Sig)) :
  has_port (gen s0) "config" = true ->
  wire_feature_bus f (add_wires s0 w)
  = (Ok tt, add_wires s0 (w ++ Netlist.bus_wires s0 f)).
Proof.
  intros H. unfold wire_feature_bus, Netlist.bus_wires.
  destruct (negb (feature_has_port f "config")).
  - unfold ret. now rewrite app_nil_r.
  - unfold bindM at 1, get.
    rewrite (bindM_Ok _ _ _ _ _ (config_addr_slice_ok _ _ _ H)).
    rewrite (bindM_Ok _ _ _ _ _ (wireM_wires _ _ _ _)).
    rewrite (bindM_Ok _ _ _ _ _ (self_port_wires _ _ _ H)).
    rewrite (bindM_Ok _ _ _ _ _ (wireM_wires _ _ _ _)).
    rewrite (bindM_Ok _ _ _ _ _ (self_port_wires _ _ _ H)).
    rewrite wireM_wires. rewrite <- !app_assoc. reflexivity.
Qed.

Lemma wire_feature_decode_ok (e : nat * Feature) (s0 : t)
    (w : list (Sig * Sig)) :
  has_port (gen s0) "config" = true ->
  wire_feature_decode e (add_wires s0 w)
  = (Ok tt, add_wires s0 (w ++ Netlist.decode_wires s0 e)).
Proof.
  intros H. destruct e as [i feat].
  unfold wire_feature_decode, Netlist.decode_wires.
  unfold bindM at 1, get.
  assert (E1 : forall w',
    (if feature_has_port feat "read_config_data"
     then wireM (SPort (feature_ref feat) "read_config_data")
            (SIdx (SPort (Prim ReadDataMux) "I") i)
     else wireM (SConst 0) (SIdx (SPort (Prim ReadDataMux) "I") i))
      (add_wires s0 w')
    = (Ok tt,
       add_wires s0
         (w' ++ [(if feature_has_port feat "read_config_data"
                  then SPort (feature_ref feat) "read_config_data"
                  else SConst 0,
                  SIdx (SPort (Prim ReadDataMux) "I") i)]))).
  { intros w'. destruct (feature_has_port feat "read_config_data");
      apply wireM_wires. }
  rewrite (bindM_Ok _ _ _ _ _ (E1 _)).
  rewrite (bindM_Ok _ _ _ _ _ (config_addr_slice_ok _ _ _ H)).
  rewrite (bindM_Ok _ _ _ _ _ (wireM_wires _ _ _ _)).
  rewrite (bindM_Ok _ _ _ _ _ (wireM_wires _ _ _ _)).
  rewrite (bindM_Ok _ _ _ _ _ (wireM_wires _ _ _ _)).
  destruct (feature_has_port feat "config");
    destruct (feature_has_port feat "config_en");
    repeat first [ rewrite (bindM_Ok _ _ _ _ _ (wireM_wires _ _ _ _))
                 | rewrite (bindM_Ok _ _ _ _ _ (bindM_ret _ _))
                 | rewrite wireM_wires
                 | rewrite bindM_ret ];
    rewrite <- ?app_assoc; simpl; rewrite ?app_nil_r; reflexivity.
Qed.

Lemma should_add_config_plain (fs : list Feature) :
  (forall f, In f fs -> feature_has_port f "config" = false) ->
  should_add_config_loop fs = Ok false \/
  should_add_config_loop fs = Raise AssertionError.
Proof.
  induction fs as [|f fs IH]; intros H; simpl; [now left|].
  rewrite (H f) by now left.
  destruct (feature_has_port f "reset"); simpl; [now right|].
  apply IH. intros g Hg. apply H. now right.
Qed.

Lemma should_add_config_eq (s : t) :
  __should_add_config s = (should_add_config_loop (features s), s).
Proof. reflexivity. Qed.

(** [finalize] on a tile none of whose features has a [config] port. *)
Lemma finalize_plain (s : t) :
  finalized s = false ->
  has_port (gen s) "stall" = true ->
  has_port (gen s) "reset" = true ->
  (forall f, In f (features s) -> feature_has_port f "config" = false) ->
  finalize s = (Ok tt, finalized_plain s) \/
  finalize s = (Raise AssertionError, finalized_plain s).
Proof.
  intros Hf Hs Hr Hc. rewrite (finalize_fanout s Hf Hs Hr).
  pose proof (should_add_config_eq (finalized_plain s)) as Hsc.
  replace (features (finalized_plain s)) with (features s) in Hsc
    by reflexivity.
  destruct (should_add_config_plain _ Hc) as [E|E]; rewrite E in Hsc.
  - left. rewrite (bindM_Ok _ _ _ _ _ Hsc). reflexivity.
  - right. rewrite (bindM_Raise _ _ _ _ _ Hsc). reflexivity.
Qed.

(** [finalize] on a tile one of whose features has a [config] port. *)
Lemma finalize_with_config (s : t) :
  finalized s = false ->
  has_port (gen s) "stall" = true ->
  has_port (gen s) "reset" = true ->
  has_port (gen s) "tile_id" = true ->
  should_add_config_loop (features s) = Ok true ->
  finalize s = (Ok tt, finalized_config s).
Proof.
  intros Hf Hs Hr Ht Hc. rewrite (finalize_fanout s Hf Hs Hr).
  pose proof (should_add_config_eq (finalized_plain s)) as Hsc.
  replace (features (finalized_plain s)) with (features s) in Hsc
    by reflexivity.
  rewrite Hc in Hsc. rewrite (bindM_Ok _ _ _ _ _ Hsc). cbn [negb].
  unfold finalize_config_part.
  unfold bindM at 1, modify at 1. cbv beta iota.
  unfold bindM at 1, get at 1. cbv beta iota.
  unfold bindM at 1, modify at 1. cbv beta iota.
  match goal with
  | |- _ (with_read_data_mux ?x ?m) = _ =>
      set (s0 := with_read_data_mux x m)
  end.
  assert (Hcfg : has_port (gen s0) "config" = true).
  { subst s0. unfold has_port. cbn. rewrite !existsb_app. simpl.
    now rewrite !orb_true_r. }
  assert (Hrd : has_port (gen s0) "read_config_data" = true).
  { subst s0. unfold has_port. cbn. rewrite !existsb_app. simpl.
    now rewrite !orb_true_r. }
  assert (Hti : has_port (gen s0) "tile_id" = true).
  { subst s0. unfold has_port in *. cbn. rewrite !existsb_app. rewrite Ht.
    reflexivity. }
  rewrite <- (add_wires_nil s0).
  rewrite (bindM_Ok _ _ _ _ _
             (for_eachM_wires _ _ s0
                (fun a w => wire_feature_bus_ok a s0 w Hcfg) _ _)).
  repeat first
    [ rewrite (bindM_Ok _ _ _ _ _ (config_addr_slice_ok _ s0 _ Hcfg))
    | rewrite (bindM_Ok _ _ _ _ _ (self_port_wires _ s0 _ Hcfg))
    | rewrite (bindM_Ok _ _ _ _ _ (self_port_wires _ s0 _ Hrd))
    | rewrite (bindM_Ok _ _ _ _ _ (self_port_wires _ s0 _ Hti))
    | rewrite (bindM_Ok _ _ _ _ _ (wireM_wires _ _ s0 _)) ].
  rewrite (for_eachM_wires _ _ s0
             (fun a w => wire_feature_decode_ok a s0 w Hcfg)).
  unfold finalized_config, Netlist.config_wires, Netlist.gate_wires.
  f_equal. subst s0. f_equal. rewrite <- !app_assoc. reflexivity.
Qed.

End Finalize.

Section FinalizeInvariants.
Import TileCircuit.

Lemma preserves_bindM {A B} (P : t -> Prop) (m : M A) (k : A -> M B) :
  preserves P m -> (forall a, preserves P (k a)) -> preserves P (bindM m k).
Proof.
  intros Hm Hk s Hs. unfold bindM. specialize (Hm s Hs).
  destruct (m s) as [[a|e] s']; simpl in *; [now apply Hk | exact Hm].
Qed.

Lemma preserves_for_eachM {A} (P : t -> Prop) (f : A -> M unit)
    (l : list A) :
  (forall a, preserves P (f a)) -> preserves P (for_eachM f l).
Proof.
  intros Hf. induction l as [|a l IH]; simpl.
  - intros s Hs. exact Hs.
  - apply preserves_bindM; [apply Hf | intros _; exact IH].
Qed.

Lemma preserves_pure {A} (P : t -> Prop) (m : M A) :
  (forall s, snd (m s) = s) -> preserves P m.
Proof. intros H s Hs. now rewrite H. Qed.

Lemma preserves_modify (P : t -> Prop) (f : t -> t) :
  (forall s, P s -> P (f s)) -> preserves P (modify f).
Proof. intros H s Hs. now apply H. Qed.

Lemma preserves_wireM (P : t -> Prop) (a b : Sig) :
  wire_blind P -> preserves P (wireM a b).
Proof. intros H s Hs. apply (H s a b Hs). Qed.

Lemma preserves_self_port (P : t -> Prop) (name : string) :
  preserves P (self_port name).
Proof.
  apply preserves_pure. intros s. unfold self_port, bindM, get, lift.
  simpl. now destruct (port_of (gen s) This name).
Qed.

Lemma preserves_config_addr_slice (P : t -> Prop) (sl : Z * Z) :
  preserves P (config_addr_slice sl).
Proof.
  unfold config_addr_slice. apply preserves_bindM.
  - apply preserves_self_port.
  - intros a. now apply preserves_pure.
Qed.

Lemma preserves_fanout (P : t -> Prop) (name : string) (l : list Sig) :
  wire_blind P ->
  preserves P
    (for_eachM (fun p => x <~ self_port name ;; wireM x p) l).
Proof.
  intros H. apply preserves_for_eachM. intros p. apply preserves_bindM.
  - apply preserves_self_port.
  - intros a. now apply preserves_wireM.
Qed.

Lemma preserves_add_stall (P : t -> Prop) :
  wire_blind P -> preserves P __add_stall.
Proof.
  intros H. unfold __add_stall. apply preserves_bindM.
  - now apply preserves_pure.
  - intros self. now apply preserves_fanout.
Qed.

Lemma preserves_add_reset (P : t -> Prop) :
  wire_blind P -> preserves P __add_reset.
Proof.
  intros H. unfold __add_reset. apply preserves_bindM.
  - now apply preserves_pure.
  - intros self. now apply preserves_fanout.
Qed.

Lemma preserves_wire_feature_bus (P : t -> Prop) (f : Feature) :
  wire_blind P -> preserves P (wire_feature_bus f).
Proof.
  intros H. unfold wire_feature_bus.
  destruct (negb (feature_has_port f "config")); [now apply preserves_pure|].
  repeat first
    [ apply preserves_bindM; [|intros ?]
    | apply preserves_config_addr_slice
    | apply preserves_self_port
    | apply preserves_wireM; exact H
    | now apply preserves_pure ].
Qed.

Lemma preserves_wire_feature_decode (P : t -> Prop) (e : nat * Feature) :
  wire_blind P -> preserves P (wire_feature_decode e).
Proof.
  intros H. destruct e as [i feat]. unfold wire_feature_decode.
  repeat first
    [ apply preserves_bindM; [|intros ?]
    | apply preserves_config_addr_slice
    | apply preserves_self_port
    | apply preserves_wireM; exact H
    | now apply preserves_pure
    | match goal with
      | |- preserves _ (if ?b then _ else _) => destruct b
      end ].
Qed.

Lemma preserves_finalize_body (P : t -> Prop) :
  wire_blind P ->
  (forall s w, P s ->
     P (upd_gen s (fun g =>
          add_port
            (add_port (add_port g "config" (fst w) In_ Data) "clk" 1 In_ Clock)
            "read_config_data" (snd w) Out_ Data))) ->
  (forall s m, P s -> P (with_read_data_mux s m)) ->
  preserves P finalize_body.
Proof.
  intros W Hp Hm. unfold finalize_body, finalize_config_part.
  repeat first
    [ apply preserves_bindM; [|intros ?]
    | apply preserves_add_stall; exact W
    | apply preserves_add_reset; exact W
    | apply preserves_config_addr_slice
    | apply preserves_self_port
    | apply preserves_wireM; exact W
    | apply preserves_for_eachM; intros ?
    | apply preserves_wire_feature_bus; exact W
    | apply preserves_wire_feature_decode; exact W
    | apply preserves_modify; intros st Hst; apply Hm; exact Hst
    | apply preserves_modify; intros st Hst;
      apply (Hp st (full_config_addr_width st + config_data_width st + 2,
                    config_data_width st) Hst)
    | now apply preserves_pure
    | match goal with
      | |- preserves _ (if ?b then _ else _) => destruct b
      end ].
Qed.

(** Whatever happens, the tile is marked finalized after [finalize]. *)
Lemma finalize_marks (s : t) : finalized (snd (finalize s)) = true.
Proof.
  rewrite finalize_unfold. destruct (finalized s) eqn:Hf; [exact Hf|].
  apply (preserves_finalize_body (fun s => finalized s = true)); auto.
  intros st a b Hst. exact Hst.
Qed.

(** Without a feature that has a [config] port, [finalize] leaves the ports
    of the tile as they are, whether it returns or raises. *)
Lemma finalize_plain_ports (s : t) :
  finalized s = false ->
  (forall f, In f (features s) -> feature_has_port f "config" = false) ->
  gen_ports (gen (snd (finalize s))) = gen_ports (gen s).
Proof.
  intros Hf Hc. rewrite finalize_unfold, Hf. unfold finalize_body.
  set (P := fun st : t => gen_ports (gen st) = gen_ports (gen s) /\
                          features st = features s).
  assert (W : wire_blind P) by (intros st a b Hst; exact Hst).
  assert (P0 : P (with_finalized s true)) by (split; reflexivity).
  pose proof (preserves_add_stall P W _ P0) as P1.
  unfold bindM at 1.
  destruct (__add_stall (with_finalized s true)) as [[[]|e] s1];
    simpl in P1; [|exact (proj1 P1)].
  pose proof (preserves_add_reset P W _ P1) as P2.
  unfold bindM at 1.
  destruct (__add_reset s1) as [[[]|e] s2]; simpl in P2; [|exact (proj1 P2)].
  unfold bindM. rewrite should_add_config_eq. rewrite (proj2 P2).
  destruct (should_add_config_plain _ Hc) as [E|E]; rewrite E; simpl;
    exact (proj1 P2).
Qed.

End FinalizeInvariants.

(** The ports a fan-out reaches. *)
Section Fanout.
Import TileCircuit Netlist.

Lemma contains_Sig_In (x : Sig) (l : list Sig) :
  contains Sig_eqb x l = true <-> In x l.
Proof.
  induction l as [|y l IH]; simpl; [split; [discriminate | tauto]|].
  rewrite orb_true_iff, IH. unfold Sig_eqb.
  destruct (Sig_eq_dec y x); split; intros H; auto.
  - destruct H as [H|H]; [discriminate | auto].
  - destruct H as [H|H]; [contradiction | auto].
Qed.

Lemma existsb_name_In (name : string) (l : list string) :
  existsb (String.eqb name) l = true <-> In name l.
Proof.
  rewrite existsb_exists. split.
  - intros [x [Hx E]]. apply String.eqb_eq in E. now subst.
  - intros H. exists name. split; [exact H | apply String.eqb_refl].
Qed.

Lemma fanout_ports_In (s : t) (name : string) (p : Sig) :
  In p (fanout_ports s name) <->
  (exists f, In f (features s) /\ feature_has_port f name = true /\
             p = SPort (feature_ref f) name) \/
  (exists c, core s = Some c /\ In name (core_ports c) /\
             p = SPort (CoreRef (core_id c)) name).
Proof.
  unfold fanout_ports.
  set (ports := map (fun feature => SPort (feature_ref feature) name)
                  (filter (fun feature => feature_has_port feature name)
                     (features s))).
  assert (Hp : forall q, In q ports <->
             exists f, In f (features s) /\ feature_has_port f name = true /\
                       q = SPort (feature_ref f) name).
  { intros q. unfold ports. rewrite in_map_iff. split.
    - intros [f [<- Hf]]. apply filter_In in Hf. exists f. tauto.
    - intros [f [H1 [H2 ->]]]. exists f. split; [reflexivity|].
      apply filter_In. auto. }
  destruct (core s) as [c|].
  - destruct (existsb (String.eqb name) (core_ports c)) eqn:Ec;
      cbn [andb].
    + apply existsb_name_In in Ec.
      destruct (contains Sig_eqb (SPort (CoreRef (core_id c)) name) ports)
        eqn:Ek; cbn [negb].
      * apply contains_Sig_In in Ek. rewrite Hp. split; [auto|].
        intros [H|[c' [E [_ ->]]]]; [exact H|]. injection E as <-.
        now apply Hp.
      * rewrite in_app_iff, Hp. cbn [In]. split.
        -- intros [H|[<-|[]]]; [auto|]. right. exists c. auto.
        -- intros [H|[c' [E [_ ->]]]]; [auto|]. injection E as <-. auto.
    + rewrite Hp. split; [auto|].
      intros [H|[c' [E [Hn _]]]]; [exact H|]. injection E as <-.
      apply existsb_name_In in Hn. congruence.
  - rewrite Hp. split; [auto|]. intros [H|[c' [E _]]]; [exact H|].
    discriminate.
Qed.

Lemma fanout_ports_NoDup (s : t) (name : string) :
  NoDup (map feature_ref (features s)) -> NoDup (fanout_ports s name).
Proof.
  intros Hnd. unfold fanout_ports.
  set (ports := map (fun feature => SPort (feature_ref feature) name)
                  (filter (fun feature => feature_has_port feature name)
                     (features s))).
  assert (Np : NoDup ports).
  { unfold ports. clear ports. revert Hnd.
    induction (features s) as [|f l IH]; simpl; intros H; [constructor|].
    inversion H as [|? ? Hn Hl]; subst.
    destruct (feature_has_port f name); [|auto]. simpl.
    constructor; [|auto]. intros Hin. apply Hn.
    apply in_map_iff in Hin. destruct Hin as [g [E Hg]].
    apply filter_In in Hg. injection E as E.
    apply in_map_iff. exists g. tauto. }
  destruct (core s) as [c|]; [|exact Np].
  destruct (existsb (String.eqb name) (core_ports c)); cbn [andb];
    [|exact Np].
  destruct (contains Sig_eqb (SPort (CoreRef (core_id c)) name) ports)
    eqn:Ek; cbn [negb]; [exact Np|].
  apply NoDup_app; [exact Np | repeat constructor; simpl; tauto |].
  intros q H1 [<-|[]]. apply contains_Sig_In in H1. congruence.
Qed.

(** The wires of a fan-out go from the port of the tile to the port of that
    name of every feature that has one, and of the core when it has one. *)
Lemma fanout_wires_In (s : t) (name : string) (w : Sig * Sig) :
  In w (fanout_wires s name) <->
  (exists f, In f (features s) /\ feature_has_port f name = true /\
             w = (SPort This name, SPort (feature_ref f) name)) \/
  (exists c, core s = Some c /\ In name (core_ports c) /\
             w = (SPort This name, SPort (CoreRef (core_id c)) name)).
Proof.
  unfold fanout_wires. rewrite in_map_iff. split.
  - intros [p [<- Hp]]. apply fanout_ports_In in Hp.
    destruct Hp as [[f (H1 & H2 & ->)]|[c (H1 & H2 & ->)]];
      [left; exists f | right; exists c]; auto.
  - intros [[f (H1 & H2 & ->)]|[c (H1 & H2 & ->)]].
    + exists (SPort (feature_ref f) name). split; [reflexivity|].
      apply fanout_ports_In. left. exists f. auto.
    + exists (SPort (CoreRef (core_id c)) name). split; [reflexivity|].
      apply fanout_ports_In. right. exists c. auto.
Qed.

End Fanout.


Lemma should_add_config_no_reset (fs : list Feature) :
  (forall f, In f fs -> feature_has_port f "config" = false) ->
  (forall f, In f fs -> feature_has_port f "reset" = false) ->
  TileCircuit.should_add_config_loop fs = Ok false.
Proof.
  induction fs as [|f fs IH]; intros Hc Hr; simpl; [reflexivity|].
  rewrite (Hc f), (Hr f) by now left. simpl.
  apply IH; intros g Hg; [apply Hc | apply Hr]; now right.
Qed.

(** C9. A second call of [finalize] after one that returned raises.  When no
    feature has a [config] port, [finalize] leaves the ports of the tile as
    they are (no [config], [clk] or [read_config_data] port is added), and on
    a tile with its [stall] and [reset] ports it still wires the stall and
    reset fan-out: the wires it adds are the stall wires followed by the
    reset wires, and a wire is among those of a name exactly when it goes
    from that port of the tile to the port of that name of a feature that
    has one, or of the core when the core has one.  It returns when, in
    addition, no feature has a [reset] port. *)
Theorem finalize_once :
  forall s : TileCircuit.t,
    (forall s', TileCircuit.finalize s = (Ok tt, s') ->
                TileCircuit.finalize s' = (Raise AlreadyFinalized, s')) /\
    (TileCircuit.finalized s = false ->
     (forall f, In f (TileCircuit.features s) ->
                feature_has_port f "config" = false) ->
     gen_ports (TileCircuit.gen (snd (TileCircuit.finalize s)))
     = gen_ports (TileCircuit.gen s) /\
     (has_port (TileCircuit.gen s) "stall" = true ->
      has_port (TileCircuit.gen s) "reset" = true ->
      gen_wires (TileCircuit.gen (snd (TileCircuit.finalize s)))
      = (gen_wires (TileCircuit.gen s)
         ++ Netlist.fanout_wires s "stall"
         ++ Netlist.fanout_wires s "reset")%list /\
      (forall name w,
         In w (Netlist.fanout_wires s name) <->
         (exists f, In f (TileCircuit.features s) /\
                    feature_has_port f name = true /\
                    w = (SPort This name, SPort (feature_ref f) name)) \/
         (exists c, TileCircuit.core s = Some c /\
                    In name (core_ports c) /\
                    w = (SPort This name,
                         SPort (CoreRef (core_id c)) name))) /\
      ((forall f, In f (TileCircuit.features s) ->
                  feature_has_port f "reset" = false) ->
       fst (TileCircuit.finalize s) = Ok tt))).
Proof.
  intros s. split.
  - intros s' H. pose proof (finalize_marks s) as M. rewrite H in M.
    simpl in M. rewrite finalize_unfold, M. reflexivity.
  - intros Hf Hc. split; [now apply finalize_plain_ports|].
    intros Hs Hr. split; [|split].
    + destruct (finalize_plain s Hf Hs Hr Hc) as [E|E]; rewrite E;
        reflexivity.
    + intros name w. apply fanout_wires_In.
    + intros Hn. rewrite (finalize_fanout s Hf Hs Hr).
      pose proof (should_add_config_eq (finalized_plain s)) as Hsc.
      replace (TileCircuit.features (finalized_plain s))
        with (TileCircuit.features s) in Hsc by reflexivity.
      rewrite (should_add_config_no_reset _ Hc Hn) in Hsc.
      rewrite (bindM_Ok _ _ _ _ _ Hsc). reflexivity.
Qed.

Lemma finalize_once_witness :
  (forall s',
     TileCircuit.finalize mem_tile_circuit = (Ok tt, s') ->
     TileCircuit.finalize s' = (Raise AlreadyFinalized, s')) /\
  gen_ports (TileCircuit.gen (snd (TileCircuit.finalize mem_tile_circuit)))
  = gen_ports (TileCircuit.gen mem_tile_circuit) /\
  gen_wires (TileCircuit.gen (snd (TileCircuit.finalize mem_tile_circuit)))
  = (gen_wires (TileCircuit.gen mem_tile_circuit)
     ++ [(SPort This "stall", SPort (CoreRef 3) "stall");
         (SPort This "stall", SPort (CoreRef 2) "stall");
         (SPort This "reset", SPort (CoreRef 2) "reset")])%list /\
  In (SPort This "stall", SPort (CoreRef 3) "stall")
     (Netlist.fanout_wires mem_tile_circuit "stall") /\
  fst (TileCircuit.finalize mem_tile_circuit) = Ok tt.
Proof.
  destruct (finalize_once mem_tile_circuit) as [A B].
  split; [exact A|].
  assert (F : forall f, In f (TileCircuit.features mem_tile_circuit) ->
                feature_has_port f "config" = false /\
                feature_has_port f "reset" = false).
  { assert (E : forallb (fun f => negb (feature_has_port f "config")
                                   && negb (feature_has_port f "reset"))
                  (TileCircuit.features mem_tile_circuit) = true)
      by (vm_compute; reflexivity).
    rewrite forallb_forall in E. intros f Hf. specialize (E f Hf).
    apply andb_true_iff in E. destruct E as [E1 E2].
    apply negb_true_iff in E1, E2. split; assumption. }
  destruct B as [P W].
  - vm_compute. reflexivity.
  - intros f Hf. apply (F f Hf).
  - split; [exact P|]. destruct W as [W1 [W2 W3]].
    + vm_compute. reflexivity.
    + vm_compute. reflexivity.
    + split; [|split].
      * refine (eq_trans W1 _). clear. vm_compute. reflexivity.
      * apply (proj2 (W2 "stall"
                        (SPort This "stall", SPort (CoreRef 3) "stall"))).
        left. exists (FCore {| core_feature_id := 3;
                               core_feature_ports := ["stall"] |}).
        clear. split; [vm_compute; auto|]. split; reflexivity.
      * apply W3. intros f Hf. apply (F f Hf).
Defined.

(* ================================================================= *)
(** ** 23. The three ranges of a configuration address *)

Lemma bits_slice_spec (len lo hi v : Z) :
  0 <= lo <= hi -> hi <= len ->
  Netlist.bits_slice len (lo, hi) v = (v / 2 ^ lo) mod 2 ^ (hi - lo).
Proof.
  intros H1 H2. unfold Netlist.bits_slice, Netlist.slice_bound. simpl.
  assert (E1 : (lo <? 0) = false) by lia.
  assert (E2 : (hi <? 0) = false) by lia.
  rewrite E1, E2, !Z.min_l by lia.
  destruct (lo <? hi) eqn:E.
  - rewrite Z.land_ones by lia. now rewrite Z.shiftr_div_pow2 by lia.
  - assert (hi = lo) as -> by lia. rewrite Z.sub_diag. simpl.
    now rewrite Z.mod_1_r.
Qed.

(** An address below [2 ^ (2 * T)] is made of its low [T] bits, the next
    [T - C] bits and the high [C] bits. *)
Lemma address_decomposition (T C a : Z) :
  0 <= C <= T -> 0 <= a < 2 ^ (2 * T) ->
  a = a mod 2 ^ T
      + 2 ^ T * ((a / 2 ^ T) mod 2 ^ (T - C))
      + 2 ^ (2 * T - C) * ((a / 2 ^ (2 * T - C)) mod 2 ^ C).
Proof.
  intros HC Ha.
  assert (PT : 0 < 2 ^ T) by (apply Z.pow_pos_nonneg; lia).
  assert (PD : 0 < 2 ^ (T - C)) by (apply Z.pow_pos_nonneg; lia).
  assert (PC : 0 < 2 ^ C) by (apply Z.pow_pos_nonneg; lia).
  assert (E1 : 2 ^ (2 * T - C) = 2 ^ T * 2 ^ (T - C)).
  { rewrite <- Z.pow_add_r by lia. f_equal. lia. }
  assert (E2 : 2 ^ (2 * T) = 2 ^ (2 * T - C) * 2 ^ C).
  { rewrite <- Z.pow_add_r by lia. f_equal. lia. }
  assert (Hq : 0 <= a / 2 ^ (2 * T - C) < 2 ^ C).
  { split.
    - apply Z.div_pos; [lia|]. rewrite E1. nia.
    - apply Z.div_lt_upper_bound; [rewrite E1; nia|]. lia. }
  rewrite (Z.mod_small (a / 2 ^ (2 * T - C))) by exact Hq.
  rewrite E1. rewrite <- Z.div_div by lia.
  pose proof (Z.div_mod a (2 ^ T)) as D1.
  pose proof (Z.div_mod (a / 2 ^ T) (2 ^ (T - C))) as D2.
  nia.
Qed.

(* ================================================================= *)
(** ** 24. What the construction of a tile keeps *)

Lemma init_inv_refl (s : TileCircuit.t) : init_inv s s.
Proof. unfold init_inv. repeat split; auto. Qed.

Lemma init_inv_trans (s0 s1 s2 : TileCircuit.t) :
  init_inv s0 s1 -> init_inv s1 s2 -> init_inv s0 s2.
Proof.
  unfold init_inv. intros (A1 & A2 & A3 & A4 & A5 & A6 & A7)
                          (B1 & B2 & B3 & B4 & B5 & B6 & B7).
  repeat split; try congruence; auto.
Qed.

Lemma for_each_init_inv {A} (f : TileCircuit.t -> A -> result TileCircuit.t)
    (l : list A) :
  (forall s a s', f s a = Ok s' -> init_inv s s') ->
  forall s s', for_each f l s = Ok s' -> init_inv s s'.
Proof.
  intros Hf s s' H.
  refine (for_each_inv (init_inv s) f l _ s s' (init_inv_refl s) H).
  intros st a st' _ I Hstep. eapply init_inv_trans; [exact I|].
  exact (Hf st a st' Hstep).
Qed.

Lemma plain_wires_app (l1 l2 : list (Sig * Sig)) :
  Netlist.plain_wires (l1 ++ l2)
  = Netlist.plain_wires l1 && Netlist.plain_wires l2.
Proof. unfold Netlist.plain_wires. apply forallb_app. Qed.

Lemma has_port_add_port (g : Generator) (n m : string) w d t :
  has_port g m = true -> has_port (add_port g n w d t) m = true.
Proof.
  intros H. unfold has_port, add_port in *. simpl. rewrite existsb_app, H.
  reflexivity.
Qed.

Lemma has_port_add_port_same (g : Generator) (n : string) w d t :
  has_port (add_port g n w d t) n = true.
Proof.
  unfold has_port, add_port. simpl. rewrite existsb_app. simpl.
  rewrite String.eqb_refl. now rewrite orb_true_r.
Qed.

Lemma dict_set_NoDup {K V} (eqb : K -> K -> bool)
    (eqb_eq : forall a b, eqb a b = true <-> a = b)
    (d : dict K V) (k : K) (v : V) :
  NoDup (dict_keys d) -> NoDup (dict_keys (dict_set eqb d k v)).
Proof.
  assert (Hin : forall d x, In x (dict_keys (dict_set eqb d k v)) ->
                            x = k \/ In x (dict_keys d)).
  { clear d. induction d as [|[k' v'] d IH]; simpl; intros x H.
    - destruct H as [H|[]]; auto.
    - destruct (eqb k' k) eqn:E; simpl in H.
      + destruct H as [H|H]; auto.
      + destruct H as [H|H]; auto. destruct (IH x H); auto. }
  induction d as [|[k' v'] d IH]; simpl; intros H.
  - constructor; [tauto | constructor].
  - inversion H as [|? ? Hn Hd]; subst. destruct (eqb k' k) eqn:E; simpl.
    + constructor; assumption.
    + constructor; [|auto]. intros Hx. destruct (Hin d k' Hx) as [->|Hx'].
      * assert (eqb k k = true) by (apply eqb_eq; reflexivity). congruence.
      * contradiction.
Qed.

Lemma port_of_Ok (g : Generator) (r : GenRef) (n : string) (x : Sig) :
  port_of g r n = Ok x -> x = SPort r n.
Proof. unfold port_of. destruct (has_port g n); congruence. Qed.

Lemma core_port_of_Ok (c : option Core) (n : string) (x : Sig) :
  core_port_of c n = Ok x -> exists id, x = SPort (CoreRef id) n.
Proof.
  unfold core_port_of. destruct c as [c|]; [|discriminate].
  destruct (existsb _ _); [|discriminate]. intros H. injection H as <-. eauto.
Qed.

(** Resolves the signals a port lookup returned. *)
Ltac name_ports :=
  repeat match goal with
  | E : port_of _ _ _ = Ok _ |- _ => apply port_of_Ok in E; subst
  | E : core_port_of _ _ = Ok _ |- _ =>
      apply core_port_of_Ok in E; destruct E as [? ->]
  end.

(** Closes [init_inv] between a state and the state a step made from it. *)
Ltac close_inv :=
  repeat match goal with
  | |- context [if ?b then _ else _] => destruct b
  end;
  unfold init_inv;
  cbn [TileCircuit.upd_gen TileCircuit.with_gen TileCircuit.with_cbs
       TileCircuit.with_sbs TileCircuit.gen TileCircuit.cbs TileCircuit.sbs
       TileCircuit.core TileCircuit.finalized layout
       TileCircuit.tile_id_slice TileCircuit.feature_addr_slice
       TileCircuit.feature_config_slice TileCircuit.full_config_addr_width
       TileCircuit.tile_id_width TileCircuit.config_addr_width
       TileCircuit.config_data_width wire add_port add_child_generator
       gen_wires gen_ports];
  repeat split;
  try reflexivity;
  try (let Hplain := fresh "Hplain" in
       intros Hplain; unfold wire; cbn [gen_wires];
       rewrite ?plain_wires_app, Hplain; reflexivity);
  try (let m := fresh "m" in
       let Hm := fresh "Hm" in
       intros m Hm;
       unfold has_port, wire, add_port, add_child_generator in *;
       cbn [gen_ports]; rewrite ?existsb_app, Hm; reflexivity);
  try (let Hnd := fresh "Hnd" in
       intros Hnd; first
         [ exact Hnd
         | apply (dict_set_NoDup String.eqb string_eqb_eq); exact Hnd
         | apply (dict_set_NoDup Z.eqb Z.eqb_eq); exact Hnd ]).

Section InitSteps.
Variable G : Graph.

Lemma create_cb_step_inv bit_width core s entry s' :
  TileCircuit.create_cb_step G bit_width core s entry = Ok s' ->
  init_inv s s'.
Proof.
  unfold TileCircuit.create_cb_step. intros H. inv_ok H;
    injection H as <-; name_ports; try apply init_inv_refl; close_inv.
Qed.

Lemma create_tile_step_inv ssw s entry s' :
  TileCircuit.create_tile_step G ssw s entry = Ok s' -> init_inv s s'.
Proof.
  unfold TileCircuit.create_tile_step. destruct entry as [bit_width tile].
  intros H. apply bind_Ok in H. destruct H as [s1 [H1 H]].
  apply bind_Ok in H. destruct H as [sb [_ H]]. injection H as <-.
  apply for_each_init_inv in H1; [|apply create_cb_step_inv].
  eapply init_inv_trans; [exact H1|]. close_inv.
Qed.

Lemma lift_sb_ports_step_inv s entry s' :
  TileCircuit.lift_sb_ports_step G s entry = Ok s' -> init_inv s s'.
Proof.
  unfold TileCircuit.lift_sb_ports_step. destruct entry as [key switchbox].
  intros H. apply bind_Ok in H. destruct H as [_ [_ H]].
  apply bind_Ok in H. destruct H as [_ [_ H]].
  revert H. apply for_each_init_inv. clear s s'. intros s sb s' H.
  unfold TileCircuit.lift_sb_port_step in H. inv_ok H;
    injection H as <-; name_ports; close_inv.
Qed.

Lemma connect_cb_step_inv s entry s' :
  TileCircuit.connect_cb_step G s entry = Ok s' -> init_inv s s'.
Proof.
  unfold TileCircuit.connect_cb_step. destruct entry as [key cb].
  apply for_each_init_inv. clear s s'. intros s [idx node] s' H.
  unfold TileCircuit.connect_cb_input_step in H. inv_ok H;
    injection H as <-; name_ports; try apply init_inv_refl; close_inv.
Qed.

Lemma connect_core_tile_step_inv s entry s' :
  TileCircuit.connect_core_tile_step G s entry = Ok s' -> init_inv s s'.
Proof.
  unfold TileCircuit.connect_core_tile_step. destruct entry as [bw tile].
  apply for_each_init_inv. clear s s'. intros s e s' H.
  unfold TileCircuit.connect_core_step in H.
  destruct (fan_out (G (snd e)) >? 0); [|injection H as <-;
                                          apply init_inv_refl].
  apply bind_Ok in H. destruct H as [_ [_ H]]. revert H.
  apply for_each_init_inv. clear s s'. intros s sb_node s' H.
  unfold TileCircuit.connect_core_port_step in H. inv_ok H.
  injection H as <-. apply init_inv_refl.
Qed.

Lemma lift_ports_step_inv s entry s' :
  TileCircuit.lift_ports_step G s entry = Ok s' -> init_inv s s'.
Proof.
  unfold TileCircuit.lift_ports_step. destruct entry as [bit_width sb].
  intros H. destruct (switchbox_num_track (SB.switchbox sb) >? 0).
  { injection H as <-. apply init_inv_refl. }
  apply bind_Ok in H. destruct H as [s1 [H1 H]].
  apply (init_inv_trans s s1 s').
  - revert H1. apply for_each_init_inv. clear. intros s e s' H.
    unfold TileCircuit.lift_input_step in H. inv_ok H;
      injection H as <-; name_ports; try apply init_inv_refl; close_inv.
  - revert H. apply for_each_init_inv. clear. intros s e s' H.
    unfold TileCircuit.lift_output_step in H. inv_ok H;
      injection H as <-; name_ports; try apply init_inv_refl; close_inv.
Qed.

End InitSteps.

(** A tile built by [__init__]: its address layout, its ports and wires. *)
Lemma init_Ok_facts (G : Graph) (tiles : dict Z Tile)
    (caw cdw tiw fw ssw : Z) (self : TileCircuit.t) :
  TileCircuit.__init__ G tiles caw cdw tiw fw ssw = Ok self ->
  layout self = ((0, tiw), (fw - tiw, fw - caw), (fw - caw, fw),
                 (fw, tiw, caw, cdw)) /\
  TileCircuit.finalized self = false /\
  has_port (TileCircuit.gen self) "tile_id" = true /\
  has_port (TileCircuit.gen self) "stall" = true /\
  has_port (TileCircuit.gen self) "reset" = true /\
  Netlist.plain_wires (gen_wires (TileCircuit.gen self)) = true /\
  NoDup (dict_keys (TileCircuit.cbs self)) /\
  NoDup (dict_keys (TileCircuit.sbs self)).
Proof.
  intros H. unfold TileCircuit.__init__ in H.
  apply bind_Ok in H. destruct H as [[[x y] core] [_ H]].
  apply bind_Ok in H. destruct H as [_ [_ H]].
  apply bind_Ok in H. destruct H as [ci [_ H]].
  apply bind_Ok in H. destruct H as [s1 [H1 H]].
  apply bind_Ok in H. destruct H as [s2 [H2 H]].
  apply bind_Ok in H. destruct H as [s3 [H3 H]].
  apply bind_Ok in H. destruct H as [s4 [H4 H]].
  apply bind_Ok in H. destruct H as [s5 [H5 H]].
  apply bind_Ok in H. destruct H as [s6 [H6 H]]. injection H as <-.
  apply for_each_init_inv in H1; [|apply create_tile_step_inv].
  apply for_each_init_inv in H2; [|apply lift_sb_ports_step_inv].
  apply for_each_init_inv in H3; [|apply connect_cb_step_inv].
  apply for_each_init_inv in H4; [|apply connect_core_tile_step_inv].
  unfold TileCircuit.__lift_ports in H5.
  apply for_each_init_inv in H5; [|apply lift_ports_step_inv].
  pose proof (init_inv_trans _ _ _ (init_inv_trans _ _ _
                (init_inv_trans _ _ _ H1 H2) H3) H4) as I4.
  destruct I4 as (L4 & _ & _ & W4 & _ & C4 & S4).
  destruct H5 as (L5 & _ & _ & W5 & P5 & C5 & S5).
  apply add_features_Ok in H6.
  destruct H6 as [cb_items [sb_items [-> _]]].
  unfold layout in *.
  cbn [TileCircuit.with_features TileCircuit.with_finalized TileCircuit.gen
       TileCircuit.finalized TileCircuit.cbs TileCircuit.sbs
       TileCircuit.tile_id_slice TileCircuit.feature_addr_slice
       TileCircuit.feature_config_slice TileCircuit.full_config_addr_width
       TileCircuit.tile_id_width TileCircuit.config_addr_width
       TileCircuit.config_data_width TileCircuit.upd_gen
       TileCircuit.with_gen TileCircuit.__add_tile_id] in *.
  split; [congruence|]. split; [reflexivity|].
  split; [apply P5; do 2 apply has_port_add_port;
          apply has_port_add_port_same|].
  split; [apply P5; apply has_port_add_port; apply has_port_add_port_same|].
  split; [apply P5; apply has_port_add_port_same|].
  split; [apply W5, W4; reflexivity|].
  split; [apply C5, C4; constructor | apply S5, S4; constructor].
Qed.

Lemma NoDup_map_inj {A B} (f : A -> B) (l : list A) :
  (forall a b, f a = f b -> a = b) -> NoDup l -> NoDup (map f l).
Proof.
  intros Hf H. induction H as [|a l Hn Hl IH]; simpl; constructor; auto.
  intros Hin. apply in_map_iff in Hin. destruct Hin as [b [E Hb]].
  apply Hf in E. subst. contradiction.
Qed.

(** The feature list [__init__] leaves: core features, connection boxes by
    sorted name, switch boxes by sorted width. *)
Lemma init_features_shape (G : Graph) (tiles : dict Z Tile)
    (caw cdw tiw fw ssw : Z) (self : TileCircuit.t) :
  TileCircuit.__init__ G tiles caw cdw tiw fw ssw = Ok self ->
  exists (cb_items : list (string * CB.t)) (sb_items : list (Z * SB.t)),
    TileCircuit.features self =
      (map FCore (match TileCircuit.core self with
                  | Some c => core_features c
                  | None => []
                  end)
       ++ map (fun e => FCB (fst e) (snd e)) cb_items
       ++ map (fun e => FSB (fst e) (snd e)) sb_items)%list /\
    map fst cb_items = sort_names (dict_keys (TileCircuit.cbs self)) /\
    map fst sb_items = sort_widths (dict_keys (TileCircuit.sbs self)).
Proof.
  intros H. unfold TileCircuit.__init__ in H.
  apply bind_Ok in H. destruct H as [[[x y] core] [_ H]].
  apply bind_Ok in H. destruct H as [_ [_ H]].
  apply bind_Ok in H. destruct H as [ci [_ H]].
  apply bind_Ok in H. destruct H as [s1 [_ H]].
  apply bind_Ok in H. destruct H as [s2 [_ H]].
  apply bind_Ok in H. destruct H as [s3 [_ H]].
  apply bind_Ok in H. destruct H as [s4 [_ H]].
  apply bind_Ok in H. destruct H as [s5 [_ H]].
  apply bind_Ok in H. destruct H as [s6 [H6 H]]. injection H as <-.
  apply add_features_Ok in H6.
  destruct H6 as [cb_items [sb_items [-> [N1 [_ [N2 _]]]]]].
  exists cb_items, sb_items.
  cbn [TileCircuit.with_features TileCircuit.with_finalized
       TileCircuit.features TileCircuit.__features TileCircuit.core
       TileCircuit.cbs TileCircuit.sbs].
  repeat split; assumption.
Qed.

(** The features of a tile built by [__init__] are distinct generators when
    the features of the core are. *)
Lemma init_feature_refs (G : Graph) (tiles : dict Z Tile)
    (caw cdw tiw fw ssw : Z) (self : TileCircuit.t) :
  TileCircuit.__init__ G tiles caw cdw tiw fw ssw = Ok self ->
  NoDup (map core_feature_id
           (match TileCircuit.core self with
            | Some c => core_features c
            | None => []
            end)) ->
  NoDup (map feature_ref (TileCircuit.features self)).
Proof.
  intros H Hcore.
  destruct (init_Ok_facts _ _ _ _ _ _ _ _ H) as (_ & _ & _ & _ & _ & _ & C & S).
  destruct (init_features_shape _ _ _ _ _ _ _ _ H)
    as [cb_items [sb_items [-> [P1 P2]]]].
  rewrite !map_app, !map_map. cbn [feature_ref fst snd].
  assert (N1 : NoDup (map (fun x => CoreRef (core_feature_id x))
                        (match TileCircuit.core self with
                         | Some c => core_features c
                         | None => []
                         end))).
  { rewrite <- (map_map core_feature_id CoreRef).
    apply NoDup_map_inj; [intros a b E; now injection E | exact Hcore]. }
  assert (N2 : NoDup (map (fun x : string * CB.t => CBRef (fst x)) cb_items)).
  { rewrite <- (map_map fst CBRef).
    apply NoDup_map_inj; [intros a b E; now injection E|].
    rewrite P1.
    eapply Permutation_NoDup; [apply sort_names_perm | exact C]. }
  assert (N3 : NoDup (map (fun x : Z * SB.t => SBRef (fst x)) sb_items)).
  { rewrite <- (map_map fst SBRef).
    apply NoDup_map_inj; [intros a b E; now injection E|].
    rewrite P2.
    eapply Permutation_NoDup; [apply sort_widths_perm | exact S]. }
  apply NoDup_app; [exact N1 | apply NoDup_app; [exact N2 | exact N3 |] |].
  - intros r H1 H2. apply in_map_iff in H1, H2.
    destruct H1 as [? [<- _]]. destruct H2 as [? [E _]]. discriminate.
  - intros r H1 H2. apply in_map_iff in H1. destruct H1 as [? [<- _]].
    apply in_app_or in H2. destruct H2 as [H2|H2]; apply in_map_iff in H2;
      destruct H2 as [? [E _]]; discriminate.
Qed.

(* ================================================================= *)
(** ** 25. The write decode of a finalized tile *)

Section WriteDecode.
Import TileCircuit Netlist.

Lemma Sig_eqb_refl (a : Sig) : Sig_eqb a a = true.
Proof. unfold Sig_eqb. destruct (Sig_eq_dec a a); congruence. Qed.

Lemma Sig_eqb_neq (a b : Sig) : a <> b -> Sig_eqb a b = false.
Proof. unfold Sig_eqb. destruct (Sig_eq_dec a b); congruence. Qed.

Lemma mentions_neq (pin a b : Sig) :
  a <> pin -> b <> pin -> mentions pin (a, b) = false.
Proof.
  intros Ha Hb. unfold mentions. cbn [fst snd].
  now rewrite (Sig_eqb_neq _ _ Ha), (Sig_eqb_neq _ _ Hb).
Qed.

Lemma driver_cons_fst (pin b : Sig) (l : list (Sig * Sig)) :
  driver ((pin, b) :: l) pin = Some b.
Proof.
  unfold driver, mentions. cbn [find fst snd].
  rewrite Sig_eqb_refl. cbn [orb fst snd]. now rewrite Sig_eqb_refl.
Qed.

Lemma driver_cons_snd (pin a : Sig) (l : list (Sig * Sig)) :
  a <> pin -> driver ((a, pin) :: l) pin = Some a.
Proof.
  intros H. unfold driver, mentions. cbn [find fst snd].
  rewrite (Sig_eqb_neq _ _ H), Sig_eqb_refl. cbn [orb fst snd].
  now rewrite (Sig_eqb_neq _ _ H).
Qed.

Lemma driver_cons_skip (pin : Sig) (w : Sig * Sig) (l : list (Sig * Sig)) :
  mentions pin w = false -> driver (w :: l) pin = driver l pin.
Proof. intros H. unfold driver. cbn [find]. now rewrite H. Qed.

Lemma driver_app_skip (pin : Sig) (l1 l2 : list (Sig * Sig)) :
  forallb (fun w => negb (mentions pin w)) l1 = true ->
  driver (l1 ++ l2) pin = driver l2 pin.
Proof.
  induction l1 as [|w l1 IH]; simpl; intros H; [reflexivity|].
  apply andb_true_iff in H. destruct H as [H1 H2].
  apply negb_true_iff in H1. rewrite driver_cons_skip by exact H1. auto.
Qed.

Lemma driver_app_found (pin x : Sig) (l1 l2 : list (Sig * Sig)) :
  driver l1 pin = Some x -> driver (l1 ++ l2) pin = Some x.
Proof.
  unfold driver. induction l1 as [|w l1 IH]; cbn [find app];
    [discriminate|].
  destruct (mentions pin w); auto.
Qed.

(** Plain wires do not touch the pins of the decode logic. *)
Lemma plain_wires_skip (pin : Sig) (l : list (Sig * Sig)) :
  plain_sig pin = false -> plain_wires l = true ->
  forallb (fun w => negb (mentions pin w)) l = true.
Proof.
  intros Hp. unfold plain_wires. induction l as [|[a b] l IH]; simpl;
    [reflexivity|].
  intros H. apply andb_true_iff in H. destruct H as [H1 H2].
  apply andb_true_iff in H1. destruct H1 as [Ha Hb].
  rewrite IH by exact H2. rewrite mentions_neq; [reflexivity | |];
    intros ->; congruence.
Qed.

Lemma feature_ref_plain (f : Feature) (name : string) :
  plain_sig (SPort (feature_ref f) name) = true.
Proof. destruct f; reflexivity. Qed.

Lemma fanout_wires_plain (s : t) (name : string) :
  plain_wires (fanout_wires s name) = true.
Proof.
  unfold fanout_wires, plain_wires. rewrite forallb_forall.
  intros w Hw. apply in_map_iff in Hw. destruct Hw as [p [<- Hp]]. simpl.
  unfold fanout_ports in Hp.
  assert (Hf : forall q,
             In q (map (fun feature => SPort (feature_ref feature) name)
                     (filter (fun feature => feature_has_port feature name)
                        (features s))) -> plain_sig q = true).
  { intros q Hq. apply in_map_iff in Hq. destruct Hq as [f [<- _]].
    apply feature_ref_plain. }
  destruct (core s) as [c|]; [|now apply Hf].
  destruct (_ && _); [|now apply Hf].
  apply in_app_or in Hp. destruct Hp as [Hp|[<-|[]]]; [now apply Hf|].
  reflexivity.
Qed.

Lemma bus_wires_plain (s : t) (l : list Feature) :
  plain_wires (flat_map (bus_wires s) l) = true.
Proof.
  induction l as [|f l IH]; simpl; [reflexivity|].
  rewrite plain_wires_app, IH, andb_true_r. unfold bus_wires.
  destruct (negb (feature_has_port f "config")); reflexivity.
Qed.

(** The wires of a finalized tile, up to the decode logic. *)
Lemma finalized_config_wires (s : t) :
  gen_wires (gen (finalized_config s))
  = ((gen_wires (gen s) ++ fanout_wires s "stall" ++ fanout_wires s "reset"
      ++ flat_map (bus_wires s) (features s))
     ++ gate_wires s
     ++ flat_map (decode_wires s) (enumerate (features s)))%list.
Proof.
  unfold finalized_config, finalized_plain, config_wires. simpl.
  now rewrite <- !app_assoc.
Qed.

Lemma driver_finalized (s : t) (pin : Sig) :
  plain_wires (gen_wires (gen s)) = true ->
  plain_sig pin = false ->
  driver (gen_wires (gen (finalized_config s))) pin
  = driver (gate_wires s
            ++ flat_map (decode_wires s) (enumerate (features s))) pin.
Proof.
  intros Hw Hp. rewrite finalized_config_wires. apply driver_app_skip.
  apply plain_wires_skip; [exact Hp|].
  now rewrite !plain_wires_app, Hw, !fanout_wires_plain, bus_wires_plain.
Qed.

Lemma driver_flat_map_nth {A} (W : A -> list (Sig * Sig)) (pin x : Sig)
    (l : list A) : forall j a,
  nth_error l j = Some a ->
  (forall j' b, (j' < j)%nat -> nth_error l j' = Some b ->
                forallb (fun w => negb (mentions pin w)) (W b) = true) ->
  driver (W a) pin = Some x ->
  driver (flat_map W l) pin = Some x.
Proof.
  induction l as [|b l IH]; intros j a Hj Hlt Hx.
  - destruct j; discriminate.
  - simpl. destruct j as [|j]; simpl in Hj.
    + injection Hj as ->. now apply driver_app_found.
    + rewrite driver_app_skip by (apply (Hlt 0%nat b); [lia | reflexivity]).
      apply (IH j a Hj); [|exact Hx].
      intros j' c Hj' Hc. apply (Hlt (S j') c); [lia | exact Hc].
Qed.

Lemma nth_error_enumerate_from {A} (l : list A) : forall k j a,
  nth_error l j = Some a ->
  nth_error (enumerate_from k l) j = Some ((k + j)%nat, a).
Proof.
  induction l as [|b l IH]; intros k j a H; [destruct j; discriminate|].
  destruct j as [|j]; simpl in *.
  - injection H as ->. now rewrite Nat.add_0_r.
  - rewrite (IH (S k) j a H). do 2 f_equal. lia.
Qed.

Lemma nth_error_enumerate_from_inv {A} (l : list A) : forall k j e,
  nth_error (enumerate_from k l) j = Some e ->
  fst e = (k + j)%nat /\ nth_error l j = Some (snd e).
Proof.
  induction l as [|b l IH]; intros k j e H; [destruct j; discriminate|].
  destruct j as [|j]; simpl in *.
  - injection H as <-. simpl. split; [lia | reflexivity].
  - destruct (IH (S k) j e H) as [E1 E2]. split; [lia | exact E2].
Qed.

(** Finds the driver of a pin in an explicit list of wires. *)
Ltac find_driver :=
  repeat first
    [ rewrite driver_cons_fst
    | rewrite driver_cons_snd by congruence
    | rewrite driver_cons_skip by (apply mentions_neq; congruence) ].

(** Shows that no wire of an explicit list touches a pin. *)
Ltac skip_wires :=
  cbn [forallb app];
  repeat (rewrite mentions_neq by congruence; cbn [negb andb]);
  try reflexivity.

Lemma gate_drivers (s : t) (rest : list (Sig * Sig)) :
  driver (gate_wires s ++ rest) (SPort (Prim WriteAndTile) "I0")
  = Some (SPort (Prim EqTile) "O") /\
  driver (gate_wires s ++ rest) (SPort (Prim WriteAndTile) "I1")
  = Some (SIdx (SField (SPort This "config") "write") 0) /\
  driver (gate_wires s ++ rest) (SPort (Prim EqTile) "I0")
  = Some (SPort This "tile_id") /\
  driver (gate_wires s ++ rest) (SPort (Prim EqTile) "I1")
  = Some (config_addr_sig (tile_id_slice s)).
Proof.
  unfold gate_wires, config_addr_sig.
  repeat split; apply driver_app_found; find_driver; reflexivity.
Qed.

Lemma gate_wires_skip_decode (s : t) (i : nat) (name : string) :
  forallb (fun w => negb (mentions (SPort (Prim (DecodeFeat i)) name) w))
    (gate_wires s) = true /\
  forallb (fun w => negb (mentions
                            (SPort (Prim (FeatAndConfigEnTile i)) name) w))
    (gate_wires s) = true.
Proof. unfold gate_wires, config_addr_sig. split; skip_wires. Qed.

Lemma gate_wires_skip_write (s : t) (f : Feature) :
  forallb (fun w => negb (mentions (write_pin f) w)) (gate_wires s) = true.
Proof.
  unfold gate_wires, config_addr_sig, write_pin.
  destruct f; cbn [feature_ref]; skip_wires.
Qed.

(** The wires of the entry of another feature touch none of the pins of
    feature [i]. *)
Lemma decode_wires_skip (s : t) (i j : nat) (f g : Feature)
    (name : string) :
  j <> i -> feature_ref g <> feature_ref f ->
  forallb (fun w => negb (mentions (SPort (Prim (DecodeFeat i)) name) w))
    (decode_wires s (j, g)) = true /\
  forallb (fun w => negb (mentions
                            (SPort (Prim (FeatAndConfigEnTile i)) name) w))
    (decode_wires s (j, g)) = true /\
  forallb (fun w => negb (mentions (write_pin f) w))
    (decode_wires s (j, g)) = true.
Proof.
  intros Hj Hr. unfold decode_wires, config_addr_sig, write_pin.
  assert (H1 : DecodeFeat j <> DecodeFeat i) by congruence.
  assert (H2 : FeatAndConfigEnTile j <> FeatAndConfigEnTile i)
    by congruence.
  destruct (feature_has_port g "read_config_data");
    destruct (feature_has_port g "config");
    destruct (feature_has_port g "config_en");
    destruct g; cbn [feature_ref] in *;
    repeat split; skip_wires.
Qed.

(** The drivers of the pins of feature [i] in its own entry. *)
Lemma decode_wires_drivers (s : t) (i : nat) (f : Feature) :
  driver (decode_wires s (i, f)) (SPort (Prim (DecodeFeat i)) "I")
  = Some (config_addr_sig (feature_addr_slice s)) /\
  driver (decode_wires s (i, f)) (SPort (Prim (FeatAndConfigEnTile i)) "I0")
  = Some (SPort (Prim (DecodeFeat i)) "O") /\
  driver (decode_wires s (i, f)) (SPort (Prim (FeatAndConfigEnTile i)) "I1")
  = Some (SPort (Prim WriteAndTile) "O") /\
  (feature_has_port f "config" = true ->
   driver (decode_wires s (i, f)) (write_pin f)
   = Some (SPort (Prim (FeatAndConfigEnTile i)) "O")).
Proof.
  unfold decode_wires, config_addr_sig, write_pin.
  destruct (feature_has_port f "read_config_data");
    repeat split; try (intros ->); cbn [app];
    try (destruct f; cbn [feature_ref]); find_driver; reflexivity.
Qed.

End WriteDecode.

Section WriteEnable.
Import TileCircuit Netlist.

Lemma eval_and (n : nat) (s : t) (bus : ConfigBus) (p : PrimInst) :
  p = WriteAndTile \/ (exists i, p = FeatAndConfigEnTile i) ->
  eval (S n) s bus (SPort (Prim p) "O")
  = and2 (input_value n s bus (SPort (Prim p) "I0"))
         (input_value n s bus (SPort (Prim p) "I1")).
Proof. intros [->|[i ->]]; reflexivity. Qed.

Lemma eval_eq_tile (n : nat) (s : t) (bus : ConfigBus) :
  eval (S n) s bus (SPort (Prim EqTile) "O")
  = match input_value n s bus (SPort (Prim EqTile) "I0"),
          input_value n s bus (SPort (Prim EqTile) "I1") with
    | Some a, Some b => Some (b2z (a =? b))
    | _, _ => None
    end.
Proof. reflexivity. Qed.

Lemma eval_decode (n : nat) (s : t) (bus : ConfigBus) (i : nat) :
  eval (S n) s bus (SPort (Prim (DecodeFeat i)) "O")
  = match input_value n s bus (SPort (Prim (DecodeFeat i)) "I") with
    | Some a => Some (b2z (a =? Z.of_nat i))
    | None => None
    end.
Proof. reflexivity. Qed.

Lemma eval_config_addr (n : nat) (s : t) (bus : ConfigBus) (sl : Z * Z) :
  eval (S (S n)) s bus (config_addr_sig sl)
  = Some (bits_slice (full_config_addr_width s) sl (bus_config_addr bus)).
Proof. destruct sl. reflexivity. Qed.

Lemma eval_tile_id (n : nat) (s : t) (bus : ConfigBus) :
  eval (S n) s bus (SPort This "tile_id") = Some (bus_tile_id bus).
Proof. reflexivity. Qed.

Lemma eval_write_bit (n : nat) (s : t) (bus : ConfigBus) :
  eval (S (S n)) s bus (SIdx (SField (SPort This "config") "write") 0)
  = Some (b2z (bus_write bus)).
Proof. simpl. now destruct (bus_write bus). Qed.

Lemma b2z_nonzero (b : bool) : negb (b2z b =? 0) = b.
Proof. now destruct b. Qed.

Lemma NoDup_refs_differ (l : list Feature) (i j : nat) (f g : Feature) :
  NoDup (map feature_ref l) ->
  nth_error l i = Some f -> nth_error l j = Some g -> j <> i ->
  feature_ref g <> feature_ref f.
Proof.
  intros Hnd Hi Hj Hne E. apply Hne.
  rewrite NoDup_nth_error in Hnd. apply Hnd.
  - rewrite length_map. apply nth_error_Some. congruence.
  - rewrite !nth_error_map, Hi, Hj. simpl. congruence.
Qed.

(** The drivers of the pins of feature [i] in the finalized tile. *)
Lemma finalized_drivers (s : t) (i : nat) (f : Feature) :
  plain_wires (gen_wires (gen s)) = true ->
  NoDup (map feature_ref (features s)) ->
  nth_error (features s) i = Some f ->
  feature_has_port f "config" = true ->
  let W := gen_wires (gen (finalized_config s)) in
  driver W (write_pin f) = Some (SPort (Prim (FeatAndConfigEnTile i)) "O") /\
  driver W (SPort (Prim (FeatAndConfigEnTile i)) "I0")
  = Some (SPort (Prim (DecodeFeat i)) "O") /\
  driver W (SPort (Prim (FeatAndConfigEnTile i)) "I1")
  = Some (SPort (Prim WriteAndTile) "O") /\
  driver W (SPort (Prim (DecodeFeat i)) "I")
  = Some (config_addr_sig (feature_addr_slice s)) /\
  driver W (SPort (Prim WriteAndTile) "I0") = Some (SPort (Prim EqTile) "O") /\
  driver W (SPort (Prim WriteAndTile) "I1")
  = Some (SIdx (SField (SPort This "config") "write") 0) /\
  driver W (SPort (Prim EqTile) "I0") = Some (SPort This "tile_id") /\
  driver W (SPort (Prim EqTile) "I1")
  = Some (config_addr_sig (tile_id_slice s)).
Proof.
  intros Hw Hnd Hi Hc W. subst W.
  rewrite !(driver_finalized s _ Hw) by reflexivity.
  destruct (gate_drivers s
              (flat_map (decode_wires s) (enumerate (features s))))
    as (G1 & G2 & G3 & G4).
  assert (Hen : nth_error (enumerate (features s)) i = Some (i, f))
    by (apply (nth_error_enumerate_from _ 0%nat); exact Hi).
  assert (Hskip : forall j' e, (j' < i)%nat ->
             nth_error (enumerate (features s)) j' = Some e ->
             fst e <> i /\ feature_ref (snd e) <> feature_ref f).
  { intros j' e Hj He. apply nth_error_enumerate_from_inv in He.
    destruct He as [E1 E2]. simpl in E1. split; [lia|].
    apply (NoDup_refs_differ (features s) i j'); auto. lia. }
  destruct (decode_wires_drivers s i f) as (D1 & D2 & D3 & D4).
  repeat split; try assumption.
  - rewrite driver_app_skip by apply gate_wires_skip_write.
    apply (driver_flat_map_nth _ _ _ _ i (i, f) Hen); [|exact (D4 Hc)].
    intros j' [j g] Hj He. destruct (Hskip j' _ Hj He) as [N1 N2].
    apply (decode_wires_skip s i j f g "" N1 N2).
  - rewrite driver_app_skip by apply gate_wires_skip_decode.
    apply (driver_flat_map_nth _ _ _ _ i (i, f) Hen); [|exact D2].
    intros j' [j g] Hj He. destruct (Hskip j' _ Hj He) as [N1 N2].
    apply (decode_wires_skip s i j f g "I0" N1 N2).
  - rewrite driver_app_skip by apply gate_wires_skip_decode.
    apply (driver_flat_map_nth _ _ _ _ i (i, f) Hen); [|exact D3].
    intros j' [j g] Hj He. destruct (Hskip j' _ Hj He) as [N1 N2].
    apply (decode_wires_skip s i j f g "I1" N1 N2).
  - rewrite driver_app_skip by apply gate_wires_skip_decode.
    apply (driver_flat_map_nth _ _ _ _ i (i, f) Hen); [|exact D1].
    intros j' [j g] Hj He. destruct (Hskip j' _ Hj He) as [N1 N2].
    apply (decode_wires_skip s i j f g "I" N1 N2).
Qed.

(** The write-enable of feature [i] in the finalized tile. *)
Lemma write_enable_value (s : t) (bus : ConfigBus) (i : nat) (f : Feature) :
  plain_wires (gen_wires (gen s)) = true ->
  NoDup (map feature_ref (features s)) ->
  nth_error (features s) i = Some f ->
  feature_has_port f "config" = true ->
  feature_write_enable (finalized_config s) bus f
  = Some (b2z ((tile_id_field (finalized_config s) bus =? bus_tile_id bus)
               && bus_write bus
               && (feature_field (finalized_config s) bus =? Z.of_nat i))).
Proof.
  intros Hw Hnd Hi Hc.
  destruct (finalized_drivers s i f Hw Hnd Hi Hc)
    as (D1 & D2 & D3 & D4 & D5 & D6 & D7 & D8).
  unfold feature_write_enable. rewrite D1.
  rewrite eval_and by (right; eauto). unfold input_value. rewrite D2, D3.
  rewrite eval_decode, eval_and by (left; reflexivity).
  unfold input_value. rewrite D4, D5, D6.
  rewrite eval_config_addr, eval_eq_tile, eval_write_bit.
  unfold input_value. rewrite D7, D8.
  rewrite eval_tile_id, eval_config_addr.
  unfold and2, tile_id_field, feature_field.
  rewrite !b2z_nonzero.
  replace (full_config_addr_width (finalized_config s))
    with (full_config_addr_width s) by reflexivity.
  replace (tile_id_slice (finalized_config s)) with (tile_id_slice s)
    by reflexivity.
  replace (feature_addr_slice (finalized_config s))
    with (feature_addr_slice s) by reflexivity.
  rewrite (Z.eqb_sym (bus_tile_id bus)). f_equal. f_equal.
  now rewrite andb_comm.
Qed.

End WriteEnable.

Section FinalizeOutcome.
Import TileCircuit Netlist.

Lemma should_add_config_cases (fs : list Feature) (f : Feature) :
  In f fs -> feature_has_port f "config" = true ->
  should_add_config_loop fs = Ok true \/
  should_add_config_loop fs = Raise AssertionError.
Proof.
  induction fs as [|g fs IH]; intros Hin Hc; [contradiction|]. simpl.
  destruct (feature_has_port g "config") eqn:Eg; [now left|].
  destruct Hin as [->|Hin]; [congruence|].
  destruct (feature_has_port g "reset"); simpl; [now right|].
  now apply IH.
Qed.

(** A successful [finalize] of a tile one of whose features has a [config]
    port leaves the tile with the configuration logic. *)
Lemma finalize_Ok_config (s s' : t) (f : Feature) :
  finalized s = false ->
  has_port (gen s) "stall" = true ->
  has_port (gen s) "reset" = true ->
  has_port (gen s) "tile_id" = true ->
  In f (features s) -> feature_has_port f "config" = true ->
  finalize s = (Ok tt, s') ->
  s' = finalized_config s.
Proof.
  intros Hf Hs Hr Ht Hin Hc H.
  destruct (should_add_config_cases _ _ Hin Hc) as [E|E].
  - rewrite (finalize_with_config s Hf Hs Hr Ht E) in H. congruence.
  - rewrite (finalize_fanout s Hf Hs Hr) in H.
    pose proof (should_add_config_eq (finalized_plain s)) as Hsc.
    replace (features (finalized_plain s)) with (features s) in Hsc
      by reflexivity.
    rewrite E in Hsc. rewrite (bindM_Raise _ _ _ _ _ Hsc) in H.
    discriminate H.
Qed.

Lemma registers_hold (s : t) (bus : ConfigBus) (f : Feature)
    (values : dict string Z) :
  feature_write_enable s bus f = Some 0 ->
  feature_registers_next s bus f values = Some values.
Proof.
  intros H. unfold feature_registers_next. rewrite H.
  apply f_equal.
  induction values as [|[k v] values IH]; [reflexivity|].
  cbn [map fst snd]. rewrite IH. apply (f_equal (fun e => e :: values)).
  now destruct (dict_get String.eqb (circuit_registers f) k).
Qed.

End FinalizeOutcome.

(** C5. In a tile built by [TileCircuit.__init__] and finalized, the
    write-enable of the feature at index [i] is: (the tile-id range of the
    address equals the tile's own [tile_id]) AND (the write bit) AND (the
    feature range of the address equals [i]).  Hence when the tile-id range
    differs from the tile's identifier the write-enable of every feature is
    low and a clock edge leaves every configuration register of every feature
    with the value it had. *)
Theorem feature_write_enable_decode :
  forall (G : Graph) (tiles : dict Z Tile) (caw cdw tiw fw ssw : Z)
         (self s' : TileCircuit.t) (bus : Netlist.ConfigBus)
         (i : nat) (f : Feature),
    TileCircuit.__init__ G tiles caw cdw tiw fw ssw = Ok self ->
    NoDup (map core_feature_id
             (match TileCircuit.core self with
              | Some c => core_features c
              | None => []
              end)) ->
    TileCircuit.finalize self = (Ok tt, s') ->
    nth_error (TileCircuit.features self) i = Some f ->
    feature_has_port f "config" = true ->
    Netlist.feature_write_enable s' bus f
    = Some (Netlist.b2z
              ((Netlist.tile_id_field s' bus =? Netlist.bus_tile_id bus)
               && Netlist.bus_write bus
               && (Netlist.feature_field s' bus =? Z.of_nat i))) /\
    (Netlist.tile_id_field s' bus <> Netlist.bus_tile_id bus ->
     forall g, In g (TileCircuit.features self) ->
               feature_has_port g "config" = true ->
       Netlist.feature_write_enable s' bus g = Some 0 /\
       forall values,
         Netlist.feature_registers_next s' bus g values = Some values).
Proof.
  intros G tiles caw cdw tiw fw ssw self s' bus i f Hinit Hcore Hfin Hi Hc.
  destruct (init_Ok_facts _ _ _ _ _ _ _ _ Hinit)
    as (_ & Hf & Ht & Hs & Hr & Hw & _ & _).
  pose proof (init_feature_refs _ _ _ _ _ _ _ _ Hinit Hcore) as Hnd.
  assert (Hs' : s' = finalized_config self).
  { apply (finalize_Ok_config self s' f Hf Hs Hr Ht); auto.
    eapply nth_error_In; eassumption. }
  subst s'. split.
  - apply write_enable_value; assumption.
  - intros Hne g Hg Hgc.
    destruct (In_nth_error _ _ Hg) as [j Hj].
    assert (E : Netlist.feature_write_enable (finalized_config self) bus g
                = Some 0).
    { rewrite (write_enable_value self bus j g Hw Hnd Hj Hgc).
      apply Z.eqb_neq in Hne. rewrite Hne. reflexivity. }
    split; [exact E|]. intros values. now apply registers_hold.
Qed.

Lemma feature_write_enable_decode_witness :
  let s' := snd (TileCircuit.finalize Examples.pe_tile_circuit) in
  let f := FCB "data_in" (Examples.cb_of 0%nat) in
  let bus := {| Netlist.bus_config_addr := 65536 + 7;
                Netlist.bus_config_data := 5;
                Netlist.bus_read := false;
                Netlist.bus_write := true;
                Netlist.bus_tile_id := 7 |} in
  Netlist.feature_write_enable s' bus f = Some 1.
Proof.
  intros s' f bus.
  apply (feature_write_enable_decode Examples.graph [(16, Examples.pe_tile)]
           8 32 TileCircuit.default_tile_id_width
           TileCircuit.default_full_config_addr_width
           TileCircuit.default_stall_signal_width
           Examples.pe_tile_circuit s' bus 1%nat f);
    vm_compute; try reflexivity.
  repeat constructor; simpl; tauto.
Defined.

Section AddressRanges.
Import TileCircuit Netlist.

Lemma bus_wire_in (s : t) (f : Feature) :
  In f (features s) -> feature_has_port f "config" = true ->
  In (config_addr_sig (feature_config_slice s),
      SField (SPort (feature_ref f) "config") "config_addr")
     (gen_wires (gen (finalized_config s))).
Proof.
  intros Hin Hc. rewrite finalized_config_wires.
  apply in_or_app. left. do 3 (apply in_or_app; right).
  apply in_flat_map. exists f. split; [exact Hin|].
  unfold bus_wires. rewrite Hc. left. reflexivity.
Qed.

Lemma ranges_partition (T C bit : Z) :
  0 <= C <= T -> 0 <= bit < 2 * T ->
  let tile := (0, T) in
  let feat := (2 * T - T, 2 * T - C) in
  let reg := (2 * T - C, 2 * T) in
  (in_slice tile bit /\ ~ in_slice feat bit /\ ~ in_slice reg bit) \/
  (~ in_slice tile bit /\ in_slice feat bit /\ ~ in_slice reg bit) \/
  (~ in_slice tile bit /\ ~ in_slice feat bit /\ in_slice reg bit).
Proof. intros H1 H2. unfold in_slice. cbn [fst snd]. lia. Qed.

End AddressRanges.

(** C4 (as stated, refuted). The feature range of the example tile is 8 bits
    wide while the tile has four features, whose count needs 2 bits; and a
    tile built with an 8-bit tile identifier in a 32-bit address has ranges
    that cover no bit from 8 to 23. *)
Lemma feature_range_width_is_not_log2_count :
  slice_width (TileCircuit.feature_addr_slice Examples.pe_tile_circuit) = 8 /\
  length (TileCircuit.features Examples.pe_tile_circuit) = 4%nat /\
  Z.log2_up 4 = 2 /\
  exists self,
    TileCircuit.__init__ Examples.graph [(16, Examples.pe_tile)] 8 32 8 32 4
    = Ok self /\
    ~ in_slice (TileCircuit.tile_id_slice self) 10 /\
    ~ in_slice (TileCircuit.feature_addr_slice self) 10 /\
    ~ in_slice (TileCircuit.feature_config_slice self) 10.
Proof.
  split; [vm_compute; reflexivity|]. split; [vm_compute; reflexivity|].
  split; [reflexivity|].
  destruct (TileCircuit.__init__ Examples.graph [(16, Examples.pe_tile)]
              8 32 8 32 4) as [self|e] eqn:E.
  - exists self. split; [reflexivity|].
    destruct (init_Ok_facts _ _ _ _ _ _ _ _ E) as (L & _).
    unfold layout in L. injection L as L1 L2 L3 _ _ _ _.
    rewrite L1, L2, L3. unfold in_slice. simpl. lia.
  - exfalso. revert E. vm_compute. discriminate.
Qed.

(** C4 (amended). In a tile built by [TileCircuit.__init__] the configuration
    address has three fixed bit ranges: the tile identifier in bits
    [0, tile_id_width), the feature address in bits
    [full - tile_id_width, full - config_addr_width), of width
    [tile_id_width - config_addr_width] whatever the number of features, and
    the register address in bits [full - config_addr_width, full).  When
    [full = 2 * tile_id_width] and [config_addr_width <= tile_id_width] every
    bit of the address lies in exactly one range and the address is the sum
    of its three fields.  After [finalize] the register range of the tile's
    address is wired unchanged to the [config_addr] of every feature that has
    a [config] port. *)
Theorem address_ranges :
  forall (G : Graph) (tiles : dict Z Tile) (caw cdw tiw fw ssw : Z)
         (self : TileCircuit.t),
    TileCircuit.__init__ G tiles caw cdw tiw fw ssw = Ok self ->
    TileCircuit.tile_id_slice self = (0, tiw) /\
    TileCircuit.feature_addr_slice self = (fw - tiw, fw - caw) /\
    TileCircuit.feature_config_slice self = (fw - caw, fw) /\
    slice_width (TileCircuit.feature_addr_slice self) = tiw - caw /\
    (0 <= caw <= tiw -> fw = 2 * tiw ->
     (forall bit, 0 <= bit < fw ->
        (in_slice (TileCircuit.tile_id_slice self) bit /\
         ~ in_slice (TileCircuit.feature_addr_slice self) bit /\
         ~ in_slice (TileCircuit.feature_config_slice self) bit) \/
        (~ in_slice (TileCircuit.tile_id_slice self) bit /\
         in_slice (TileCircuit.feature_addr_slice self) bit /\
         ~ in_slice (TileCircuit.feature_config_slice self) bit) \/
        (~ in_slice (TileCircuit.tile_id_slice self) bit /\
         ~ in_slice (TileCircuit.feature_addr_slice self) bit /\
         in_slice (TileCircuit.feature_config_slice self) bit)) /\
     (forall bus, 0 <= Netlist.bus_config_addr bus < 2 ^ fw ->
        Netlist.bus_config_addr bus
        = Netlist.tile_id_field self bus
          + 2 ^ tiw * Netlist.feature_field self bus
          + 2 ^ (fw - caw) * Netlist.register_field self bus)) /\
    (forall s' f,
       TileCircuit.finalize self = (Ok tt, s') ->
       In f (TileCircuit.features self) ->
       feature_has_port f "config" = true ->
       In (Netlist.config_addr_sig (TileCircuit.feature_config_slice self),
           SField (SPort (feature_ref f) "config") "config_addr")
          (gen_wires (TileCircuit.gen s'))).
Proof.
  intros G tiles caw cdw tiw fw ssw self H.
  destruct (init_Ok_facts _ _ _ _ _ _ _ _ H)
    as (L & Hf & Ht & Hs & Hr & _).
  unfold layout in L. injection L as L1 L2 L3 L4 L5 L6 _.
  split; [exact L1|]. split; [exact L2|]. split; [exact L3|].
  split; [rewrite L2; unfold slice_width; simpl; lia|].
  split.
  - intros Hc ->. split.
    + intros bit Hb. rewrite L1, L2, L3.
      apply (ranges_partition tiw caw bit Hc Hb).
    + intros bus Ha.
      unfold Netlist.tile_id_field, Netlist.feature_field,
        Netlist.register_field.
      rewrite L1, L2, L3, L4.
      rewrite !bits_slice_spec by lia.
      rewrite Z.div_1_r.
      replace (tiw - 0) with tiw by lia.
      replace (2 * tiw - tiw) with tiw by lia.
      replace (2 * tiw - caw - tiw) with (tiw - caw) by lia.
      replace (2 * tiw - (2 * tiw - caw)) with caw by lia.
      apply address_decomposition; assumption.
  - intros s' f Hfin Hin Hc.
    rewrite (finalize_Ok_config self s' f Hf Hs Hr Ht Hin Hc Hfin).
    apply bus_wire_in; assumption.
Qed.

Lemma address_ranges_witness :
  let self := Examples.pe_tile_circuit in
  let bus := {| Netlist.bus_config_addr := 3 * 2 ^ 24 + 2 ^ 16 + 7;
                Netlist.bus_config_data := 0;
                Netlist.bus_read := false;
                Netlist.bus_write := true;
                Netlist.bus_tile_id := 7 |} in
  TileCircuit.tile_id_slice self = (0, 16) /\
  TileCircuit.feature_addr_slice self = (16, 24) /\
  TileCircuit.feature_config_slice self = (24, 32) /\
  Netlist.bus_config_addr bus
  = Netlist.tile_id_field self bus
    + 2 ^ 16 * Netlist.feature_field self bus
    + 2 ^ (32 - 8) * Netlist.register_field self bus /\
  In (Netlist.config_addr_sig (TileCircuit.feature_config_slice self),
      SField (SPort (feature_ref (FCB "data_in" (Examples.cb_of 0%nat)))
                "config") "config_addr")
     (gen_wires (TileCircuit.gen (snd (TileCircuit.finalize self)))).
Proof.
  intros self bus.
  destruct (address_ranges Examples.graph [(16, Examples.pe_tile)] 8 32
              TileCircuit.default_tile_id_width
              TileCircuit.default_full_config_addr_width
              TileCircuit.default_stall_signal_width self)
    as (H1 & H2 & H3 & _ & H5 & H6).
  - vm_compute. reflexivity.
  - split; [exact H1|]. split; [exact H2|]. split; [exact H3|]. split.
    + apply H5; [vm_compute; split; discriminate | reflexivity |].
      vm_compute. split; [discriminate | reflexivity].
    + apply (H6 (snd (TileCircuit.finalize self))
                (FCB "data_in" (Examples.cb_of 0%nat)));
        [vm_compute; reflexivity | vm_compute; tauto |
         vm_compute; reflexivity].
Defined.

(* ================================================================= *)
(** ** 26. A switch box with a pipeline register *)

(** C8. The example switch box has a register mux whose two incoming edges
    are an OUT-tagged switch node and a register, and a register with one
    incoming and one outgoing edge; [create_mux] gives the register mux a
    selector of height 2 with a 1-bit select; and [SB.__init__] on this
    switch box raises [AttributeError] instead of allocating the select
    register. *)
Theorem register_mux_switchbox_raises :
  conn_in (Examples.graph 12%nat) = [10%nat; 11%nat] /\
  node_class (Examples.graph 12%nat) = RegisterMuxNode /\
  node_class (Examples.graph 10%nat) = SwitchBoxNode SB_OUT /\
  node_class (Examples.graph 11%nat) = RegisterNode /\
  conn_in (Examples.graph 11%nat) = [10%nat] /\
  neighbors (Examples.graph 11%nat) = [12%nat] /\
  (exists mux name,
     create_mux (Examples.graph 12%nat) = Ok (mux, name) /\
     mux_height mux = 2 /\ sel_size mux = 1) /\
  SB.__init__ Examples.graph Examples.reg_switchbox 8 32 "PE" 4
  = Raise AttributeError.
Proof.
  repeat (split; [reflexivity|]). split.
  - eexists. eexists. split; [vm_compute; reflexivity|].
    split; reflexivity.
  - vm_compute. reflexivity.
Qed.

(* ================================================================= *)
(** ** 27. More on names *)

Section Names.

Lemma replace_char_removes (t : ascii) (s : string) :
  t <> "_"%char -> ~ In t (list_ascii_of_string (replace_char t s)).
Proof.
  intros Ht. induction s as [|c s IH]; simpl; [tauto|].
  intros [E|E]; [|now apply IH].
  destruct (Ascii.eqb_spec c t); congruence.
Qed.

Lemma replace_char_keeps_absent (t c : ascii) (s : string) :
  c <> "_"%char -> ~ In c (list_ascii_of_string s) ->
  ~ In c (list_ascii_of_string (replace_char t s)).
Proof.
  intros Hc. induction s as [|a s IH]; simpl; [tauto|].
  intros Hn [E|E]; [|apply IH; tauto].
  destruct (Ascii.eqb a t); [congruence | tauto].
Qed.

Lemma replace_double_underscore_chars (n : nat) :
  forall s c, (String.length s <= n)%nat ->
    In c (list_ascii_of_string (replace_double_underscore s)) ->
    In c (list_ascii_of_string s).
Proof.
  induction n as [|n IH]; intros s c Hl.
  - destruct s; simpl in *; [tauto | lia].
  - destruct s as [|a [|b r]]; [simpl; tauto | simpl; tauto |].
    change (replace_double_underscore (String a (String b r)))
      with (if (Ascii.eqb a "_" && Ascii.eqb b "_")%bool
            then String "_"%char (replace_double_underscore r)
            else String a (replace_double_underscore (String b r))).
    destruct (Ascii.eqb a "_" && Ascii.eqb b "_")%bool eqn:E.
    + apply andb_prop in E. destruct E as [E1 E2].
      apply Ascii.eqb_eq in E1. subst a.
      cbn [list_ascii_of_string In]. intros [H|H]; [now left|].
      right. right. apply IH; [simpl in *; lia | exact H].
    + change (In c (list_ascii_of_string
                      (String a (replace_double_underscore (String b r))))
              -> In c (list_ascii_of_string (String a (String b r)))).
      cbn [list_ascii_of_string In]. intros [H|H]; [now left|].
      right. apply (IH (String b r)); [simpl in *; lia | exact H].
Qed.

Lemma drop_last_chars (s : string) (c : ascii) :
  In c (list_ascii_of_string (drop_last s)) -> In c (list_ascii_of_string s).
Proof.
  induction s as [|a s IH]; [simpl; tauto|].
  destruct s as [|b r]; [simpl; tauto|].
  change (In c (list_ascii_of_string (String a (drop_last (String b r))))
          -> In c (list_ascii_of_string (String a (String b r)))).
  cbn [list_ascii_of_string In]. intros [H|H]; [now left|].
  right. now apply IH.
Qed.

Lemma replace_char_absent (t : ascii) (s : string) :
  ~ In t (list_ascii_of_string s) -> replace_char t s = s.
Proof.
  induction s as [|a s IH]; [reflexivity|]. simpl. intros H.
  rewrite IH by tauto.
  destruct (Ascii.eqb_spec a t); [tauto | reflexivity].
Qed.

Lemma prefix_double_underscore (a b : ascii) (r : string) :
  String.prefix "__" (String a (String b r))
  = (Ascii.eqb a "_" && Ascii.eqb b "_")%bool.
Proof.
  cbn [String.prefix].
  destruct (ascii_dec "_" a) as [Ea|Na].
  - destruct (ascii_dec "_" b) as [Eb|Nb].
    + subst a b. now destruct r.
    + subst a. destruct (Ascii.eqb_spec b "_") as [Eb|Eb];
        [symmetry in Eb; contradiction | reflexivity].
  - destruct (Ascii.eqb_spec a "_") as [Ea|Ea];
      [symmetry in Ea; contradiction | reflexivity].
Qed.

Lemma replace_double_underscore_absent (n : nat) :
  forall s, (String.length s <= n)%nat ->
    str_contains "__" s = false -> replace_double_underscore s = s.
Proof.
  induction n as [|n IH]; intros s Hl.
  - destruct s; simpl in *; [reflexivity | lia].
  - destruct s as [|a [|b r]]; [reflexivity | reflexivity |].
    intros H.
    change (str_contains "__" (String a (String b r)))
      with (String.prefix "__" (String a (String b r))
            || str_contains "__" (String b r))%bool in H.
    apply orb_false_elim in H. destruct H as [H1 H2].
    rewrite prefix_double_underscore in H1.
    change (replace_double_underscore (String a (String b r)))
      with (if (Ascii.eqb a "_" && Ascii.eqb b "_")%bool
            then String "_"%char (replace_double_underscore r)
            else String a (replace_double_underscore (String b r))).
    rewrite H1.
    f_equal. apply IH; [simpl in *; lia | exact H2].
Qed.

End Names.

(** X1. The name [create_name] returns contains no space, parenthesis or
    comma. *)
Theorem create_name_has_no_separator :
  forall (name r : string) (c : ascii),
    create_name name = Ok r ->
    In c [" "%char; "("%char; ")"%char; ","%char] ->
    ~ In c (list_ascii_of_string r).
Proof.
  intros name r c H Hc. unfold create_name in H.
  cbn [fold_left] in H.
  set (n4 := replace_char "," (replace_char ")" (replace_char "("
               (replace_char " " name)))) in H.
  assert (H4 : ~ In c (list_ascii_of_string n4)).
  { subst n4. cbn [In] in Hc.
    destruct Hc as [<-|[<-|[<-|[<-|[]]]]].
    - do 3 (apply replace_char_keeps_absent; [discriminate|]).
      apply replace_char_removes. discriminate.
    - do 2 (apply replace_char_keeps_absent; [discriminate|]).
      apply replace_char_removes. discriminate.
    - apply replace_char_keeps_absent; [discriminate|].
      apply replace_char_removes. discriminate.
    - apply replace_char_removes. discriminate. }
  assert (H5 : ~ In c (list_ascii_of_string (replace_double_underscore n4))).
  { intros Hin. apply H4.
    apply (replace_double_underscore_chars (String.length n4)); auto. }
  destruct (last_char (replace_double_underscore n4)) as [l|]; [|discriminate].
  destruct (Ascii.eqb l "_"); injection H as <-; [|exact H5].
  intros Hin. apply H5. now apply drop_last_chars.
Qed.

Lemma create_name_has_no_separator_witness :
  create_name "SB (0, 1, 1, 0, 1, 16)" = Ok "SB_0_1_1_0_1_16" /\
  ~ In " "%char (list_ascii_of_string "SB_0_1_1_0_1_16").
Proof.
  split; [reflexivity|].
  apply (create_name_has_no_separator "SB (0, 1, 1, 0, 1, 16)");
    [reflexivity | simpl; tauto].
Defined.

(** X2. [create_name] raises exactly on the empty string, and then it raises
    [IndexError]; on every other string it returns. *)
Theorem create_name_raises_on_empty :
  forall name : string,
    (name = "" /\ create_name name = Raise IndexError) \/
    (name <> "" /\ exists r, create_name name = Ok r).
Proof.
  intros name. destruct name as [|a s].
  - left. split; reflexivity.
  - right. split; [discriminate|]. apply create_name_ok. discriminate.
Qed.

(** X3. [create_name] returns a name as it is when the name is not empty,
    holds no space, parenthesis or comma and no two underscores in a row,
    and does not end with an underscore. *)
Theorem create_name_keeps_clean_name :
  forall name : string,
    name <> "" ->
    (forall c, In c [" "%char; "("%char; ")"%char; ","%char] ->
               ~ In c (list_ascii_of_string name)) ->
    str_contains "__" name = false ->
    last_char name <> Some "_"%char ->
    create_name name = Ok name.
Proof.
  intros name Hne Hc Hu Hl. unfold create_name. cbn [fold_left].
  rewrite (replace_char_absent " " name) by (apply Hc; simpl; tauto).
  rewrite (replace_char_absent "(" name) by (apply Hc; simpl; tauto).
  rewrite (replace_char_absent ")" name) by (apply Hc; simpl; tauto).
  rewrite (replace_char_absent "," name) by (apply Hc; simpl; tauto).
  rewrite (replace_double_underscore_absent (String.length name)) by auto.
  pose proof (last_char_nonempty name Hne) as Hs.
  destruct (last_char name) as [l|]; [|congruence].
  destruct (Ascii.eqb_spec l "_"); [congruence | reflexivity].
Qed.

Lemma create_name_keeps_clean_name_witness :
  create_name "data_in" = Ok "data_in".
Proof.
  apply create_name_keeps_clean_name;
    [discriminate | | reflexivity | discriminate].
  intros c Hc Hin. simpl in Hc, Hin.
  destruct Hc as [<-|[<-|[<-|[<-|[]]]]];
    repeat (destruct Hin as [Hin|Hin]; [discriminate Hin|]); exact Hin.
Defined.

(* ================================================================= *)
(** ** 28. More on configuration allocation *)

Section Allocation.
Import InterconnectConfigurable.

Lemma setup_register_inv (self self' : t) (e : nat * string) :
  setup_register self e = Ok self' ->
  read_config_data_mux self' = read_config_data_mux self /\
  config_data_width self' = config_data_width self /\
  gen_ports (gen self') = gen_ports (gen self) /\
  incl (gen_wires (gen self)) (gen_wires (gen self')).
Proof.
  destruct e as [idx name]. unfold setup_register. intros H.
  inv_ok H. injection H as <-.
  cbn [read_config_data_mux config_data_width gen with_gen with_registers
       wire gen_ports gen_wires].
  repeat split; try reflexivity.
  intros w Hw. repeat (apply in_or_app; left). exact Hw.
Qed.

Lemma setup_loop_inv (l : list (nat * string)) (self self' : t) :
  for_each setup_register l self = Ok self' ->
  read_config_data_mux self' = read_config_data_mux self /\
  config_data_width self' = config_data_width self /\
  gen_ports (gen self') = gen_ports (gen self) /\
  incl (gen_wires (gen self)) (gen_wires (gen self')).
Proof.
  intros H.
  refine (for_each_inv
            (fun s => read_config_data_mux s = read_config_data_mux self /\
                      config_data_width s = config_data_width self /\
                      gen_ports (gen s) = gen_ports (gen self) /\
                      incl (gen_wires (gen self)) (gen_wires (gen s)))
            _ _ _ _ _ _ H).
  - intros s a s' _ (I1 & I2 & I3 & I4) Hs.
    apply setup_register_inv in Hs. destruct Hs as (J1 & J2 & J3 & J4).
    repeat split; try congruence.
    intros w Hw. apply J4, I4, Hw.
  - repeat split; try reflexivity. apply incl_refl.
Qed.

Lemma read_loop_inv (l : list (nat * string)) : forall (self self' : t),
  for_each setup_read_input l self = Ok self' ->
  read_config_data_mux self' = read_config_data_mux self /\
  gen_wires (gen self')
  = (gen_wires (gen self)
     ++ map (read_input_wire (config_data_width self)) l)%list.
Proof.
  induction l as [|[i n] l IH]; intros self self' H; simpl in H.
  - injection H as <-. now rewrite app_nil_r.
  - apply bind_Ok in H. destruct H as [s1 [H1 H]].
    unfold setup_read_input in H1. inv_ok H1. injection H1 as <-.
    apply IH in H. destruct H as [J1 J2].
    cbn [read_config_data_mux config_data_width gen with_gen wire
         gen_wires] in *.
    split; [exact J1|]. rewrite J2, <- app_assoc. reflexivity.
Qed.

End Allocation.

(** X4. [add_config] registers a name once: with a name that is already
    registered it raises [AssertionError]; with a new name it appends a
    register of the given width whose address is not set yet, and leaves the
    registers it had and the ports as they were. *)
Theorem add_config_registers_once :
  forall (self : InterconnectConfigurable.t) (name : string) (width : Z),
    (In name (dict_keys (InterconnectConfigurable.registers self)) ->
     InterconnectConfigurable.add_config self name width
     = Raise AssertionError) /\
    (~ In name (dict_keys (InterconnectConfigurable.registers self)) ->
     exists self',
       InterconnectConfigurable.add_config self name width = Ok self' /\
       InterconnectConfigurable.registers self' =
         (InterconnectConfigurable.registers self ++
          [(name,
            ConfigRegister_create width
              (InterconnectConfigurable.config_addr_width self)
              (InterconnectConfigurable.config_data_width self) true)])%list /\
       address_of self' name = None /\
       (forall other, other <> name ->
          dict_get String.eqb (InterconnectConfigurable.registers self') other
          = dict_get String.eqb (InterconnectConfigurable.registers self)
              other) /\
       gen_ports (InterconnectConfigurable.gen self')
       = gen_ports (InterconnectConfigurable.gen self)).
Proof.
  intros self name width. split.
  - intros Hin. unfold InterconnectConfigurable.add_config, dict_mem.
    destruct (dict_get_In _ _ Hin) as [r ->]. reflexivity.
  - intros Hn.
    destruct (add_config_ok self name width Hn) as [s' [E [R [P _]]]].
    exists s'. split; [exact E|]. split; [exact R|].
    assert (D : InterconnectConfigurable.registers s'
                = dict_set String.eqb
                    (InterconnectConfigurable.registers self) name
                    (ConfigRegister_create width
                       (InterconnectConfigurable.config_addr_width self)
                       (InterconnectConfigurable.config_data_width self)
                       true))
      by (rewrite dict_set_new by exact Hn; exact R).
    split; [|split; [|exact P]].
    + unfold address_of. rewrite D, dict_get_set_same. reflexivity.
    + intros other Ho. rewrite D. apply dict_get_set_other. congruence.
Qed.

Lemma add_config_registers_once_witness :
  exists u,
    InterconnectConfigurable.add_config (fresh_unit "unit" 8 32) "a_sel" 2
    = Ok u /\
    InterconnectConfigurable.add_config u "a_sel" 3 = Raise AssertionError.
Proof.
  destruct (add_config_registers_once (fresh_unit "unit" 8 32) "a_sel" 2)
    as [_ H].
  destruct H as [u [E [R _]]]; [simpl; tauto|].
  exists u. split; [exact E|].
  apply (add_config_registers_once u "a_sel" 3).
  rewrite R. simpl. now left.
Defined.

(** X5. The read-back path [_setup_config] builds.  With more than one
    register the unit gets a read-back multiplexer as high as the number of
    registers, selected by the low [ceil(log2(n))] bits of the address, whose
    input [I<i>] reads the register at position [i] of the sorted names;
    with exactly one register no multiplexer is made and [read_config_data]
    reads that register; with no register the unit is returned as it is. *)
Theorem setup_config_readback :
  forall (self self' : InterconnectConfigurable.t),
    InterconnectConfigurable._setup_config self = Ok self' ->
    let names :=
      sort_names (dict_keys (InterconnectConfigurable.registers self)) in
    let cdw := InterconnectConfigurable.config_data_width self in
    let wires := gen_wires (InterconnectConfigurable.gen self') in
    ((1 < length names)%nat ->
     InterconnectConfigurable.read_config_data_mux self'
     = Some (Mux_create (Z.of_nat (length names)) cdw) /\
     In (SSlice (SField (SPort This "config") "config_addr") 0
           (Z.log2_up (Z.of_nat (length names))),
         SPort (Inst "read_config_data_mux") "S") wires /\
     In (SPort (Inst "read_config_data_mux") "O",
         SPort This "read_config_data") wires /\
     forall i name, nth_error names i = Some name ->
       In (read_input_wire cdw (i, name)) wires) /\
    (forall name, names = [name] ->
     InterconnectConfigurable.read_config_data_mux self'
     = InterconnectConfigurable.read_config_data_mux self /\
     In (SPort This "read_config_data", SZext (SPort (Inst name) "O") cdw)
        wires) /\
    (names = [] -> self' = self).
Proof.
  intros self self' H names cdw wires. subst wires cdw.
  unfold InterconnectConfigurable._setup_config in H. fold names in H.
  apply bind_Ok in H. destruct H as [s1 [H1 H]].
  pose proof (setup_loop_inv _ _ _ H1) as (M1 & W1 & P1 & I1).
  split; [|split].
  - intros Hn.
    assert (L : (Z.of_nat (length names) >? 1) = true) by lia.
    rewrite L in H.
    apply bind_Ok in H. destruct H as [config [Hc H]].
    apply port_of_Ok in Hc. subst config.
    apply bind_Ok in H. destruct H as [rcd [Hr H]].
    apply port_of_Ok in Hr. subst rcd.
    apply read_loop_inv in H. destruct H as [J1 J2].
    cbn [InterconnectConfigurable.read_config_data_mux
         InterconnectConfigurable.config_data_width
         InterconnectConfigurable.gen InterconnectConfigurable.with_gen
         InterconnectConfigurable.with_read_config_data_mux wire gen_wires]
      in J1, J2.
    rewrite J1, J2, W1. split; [reflexivity|].
    split.
    { apply in_or_app. left. apply in_or_app. left. apply in_or_app. right.
      left. reflexivity. }
    split.
    { apply in_or_app. left. apply in_or_app. right. left. reflexivity. }
    intros i name Hi. apply in_or_app. right.
    apply (in_map (read_input_wire (InterconnectConfigurable.config_data_width
                                      self)) _ (i, name)).
    apply (nth_error_In _ i).
    apply (nth_error_enumerate_from names 0 i name Hi).
  - intros name Hn. rewrite Hn in H. cbn [length Z.of_nat] in H.
    cbn [Z.gtb Z.compare Pos.compare Pos.compare_cont Z.eqb Pos.eqb] in H.
    unfold item in H. cbn [nth_error bind] in H.
    apply bind_Ok in H. destruct H as [r [_ H]].
    apply bind_Ok in H. destruct H as [rcd [Hr H]].
    apply port_of_Ok in Hr. subst rcd. injection H as <-.
    cbn [InterconnectConfigurable.read_config_data_mux
         InterconnectConfigurable.gen InterconnectConfigurable.with_gen
         wire gen_wires].
    split; [exact M1|]. rewrite W1. apply in_or_app. right. now left.
  - intros Hn. rewrite Hn in H1, H. simpl in H1, H.
    injection H1 as <-. now injection H as <-.
Qed.

Lemma setup_config_readback_witness :
  InterconnectConfigurable.read_config_data_mux three_registers_set_up
  = Some (Mux_create 3 32) /\
  In (read_input_wire 32 (1%nat, "b_sel"))
     (gen_wires (InterconnectConfigurable.gen three_registers_set_up)).
Proof.
  destruct (setup_config_readback three_registers three_registers_set_up)
    as [H _]; [vm_compute; reflexivity|].
  destruct H as (M & _ & _ & I); [vm_compute; lia|].
  split; [exact M|]. apply (I 1%nat "b_sel"). vm_compute. reflexivity.
Defined.

(** X6. [_setup_config] without registers returns the unit as it is, whatever
    its ports; with at least one register and no [config] port it raises
    [AttributeError]. *)
Theorem setup_config_needs_config_port :
  forall self : InterconnectConfigurable.t,
    (InterconnectConfigurable.registers self = [] ->
     InterconnectConfigurable._setup_config self = Ok self) /\
    (InterconnectConfigurable.registers self <> [] ->
     has_port (InterconnectConfigurable.gen self) "config" = false ->
     InterconnectConfigurable._setup_config self = Raise AttributeError).
Proof.
  intros self. split.
  - intros R. unfold InterconnectConfigurable._setup_config. rewrite R.
    reflexivity.
  - intros R Hc. unfold InterconnectConfigurable._setup_config.
    pose proof (sort_names_perm
                  (dict_keys (InterconnectConfigurable.registers self))) as P.
    destruct (sort_names
                (dict_keys (InterconnectConfigurable.registers self)))
      as [|n names] eqn:S.
    + apply Permutation_sym, Permutation_nil in P.
      destruct (InterconnectConfigurable.registers self); [congruence|].
      discriminate P.
    + unfold enumerate. cbn [enumerate_from for_each].
      unfold InterconnectConfigurable.setup_register at 1.
      destruct (dict_get_In (InterconnectConfigurable.registers self) n)
        as [r Hr].
      { eapply Permutation_in; [apply Permutation_sym; exact P | now left]. }
      unfold dict_item. rewrite Hr. cbn [bind].
      unfold port_of at 1.
      cbn [InterconnectConfigurable.gen
           InterconnectConfigurable.with_registers].
      rewrite Hc. reflexivity.
Qed.

Lemma setup_config_needs_config_port_witness :
  InterconnectConfigurable._setup_config
    (InterconnectConfigurable.__init__ "unit" 8 32)
  = Ok (InterconnectConfigurable.__init__ "unit" 8 32) /\
  exists u,
    InterconnectConfigurable.add_config
      (InterconnectConfigurable.__init__ "unit" 8 32) "a_sel" 1 = Ok u /\
    InterconnectConfigurable._setup_config u = Raise AttributeError.
Proof.
  split.
  - apply (setup_config_needs_config_port
             (InterconnectConfigurable.__init__ "unit" 8 32)). reflexivity.
  - eexists. split; [reflexivity|].
    apply setup_config_needs_config_port; [discriminate | reflexivity].
Defined.

(* ================================================================= *)
(** ** 29. More on switch boxes *)

Section SwitchBoxCompile.
Import InterconnectConfigurable.
Variable G : Graph.

Lemma dict_set_nonempty {V} (d : dict string V) (k : string) (v : V) :
  dict_set String.eqb d k v <> [].
Proof.
  destruct d as [|[k' v'] d]; simpl; [discriminate|].
  destruct (k' =? k)%string; discriminate.
Qed.

Lemma SB_init_empty (switchbox : SwitchBox) (caw cdw : Z)
    (core_name : string) (ssw : Z) :
  get_all_sbs switchbox = [] ->
  switchbox_registers switchbox = [] ->
  switchbox_reg_muxs switchbox = [] ->
  SB.__init__ G switchbox caw cdw core_name ssw
  = Ok (empty_SB switchbox caw cdw core_name ssw).
Proof.
  intros H1 H2 H3.
  unfold SB.__init__, SB.__create_reg, SB.__create_sb_mux,
    SB.__create_reg_mux, SB.__connect_sbs, SB.__connect_sb_out,
    SB.__connect_regs.
  cbn [SB.switchbox]. rewrite H2. cbn [for_each bind SB.regs length].
  cbn [Z.of_nat Z.gtb Z.compare bind SB.switchbox]. rewrite H1.
  cbn [for_each bind SB.switchbox]. rewrite H3.
  cbn [for_each bind SB.sb_muxs SB.regs SB.reg_muxs length Z.of_nat Z.gtb
       Z.compare SB.upd_gen SB.with_base SB.base].
  reflexivity.
Qed.

Lemma create_reg_regs (self self' : SB.t) :
  SB.__create_reg G self = Ok self' ->
  SB.reg_muxs self' = SB.reg_muxs self /\
  (switchbox_registers (SB.switchbox self) <> [] -> SB.regs self' <> []).
Proof.
  intros H. unfold SB.__create_reg in H.
  apply bind_Ok in H. destruct H as [s1 [H1 H]].
  assert (I1 : SB.reg_muxs s1 = SB.reg_muxs self /\
               (switchbox_registers (SB.switchbox self) <> [] ->
                SB.regs s1 <> [])).
  { split.
    - refine (for_each_inv (fun s => SB.reg_muxs s = SB.reg_muxs self)
                _ _ _ _ _ _ H1); [|reflexivity].
      intros s [reg_name reg_node] s' _ I Hstep. inv_ok Hstep.
      injection Hstep as <-. exact I.
    - destruct (switchbox_registers (SB.switchbox self)) as [|e l];
        [congruence|]. intros _.
      simpl in H1. apply bind_Ok in H1. destruct H1 as [s0 [H0 H1]].
      destruct e as [reg_name reg_node]. inv_ok H0. injection H0 as <-.
      refine (for_each_inv (fun s => SB.regs s <> []) _ _ _ _ _ _ H1).
      + intros s [rn rnode] s' _ I Hstep. inv_ok Hstep.
        injection Hstep as <-. cbn [SB.regs SB.with_regs].
        apply dict_set_nonempty.
      + cbn [SB.regs SB.with_regs]. apply dict_set_nonempty. }
  destruct (Z.of_nat (length (SB.regs s1)) >? 0); [|now injection H as <-].
  apply bind_Ok in H. destruct H as [stall [_ H]].
  refine (for_each_inv
            (fun s => SB.reg_muxs s = SB.reg_muxs self /\
                      (switchbox_registers (SB.switchbox self) <> [] ->
                       SB.regs s <> [])) _ _ _ _ _ _ H).
  - intros s e s' _ I Hstep. injection Hstep as <-. exact I.
  - exact I1.
Qed.

Lemma create_sb_mux_regs (self self' : SB.t) :
  SB.__create_sb_mux G self = Ok self' ->
  SB.regs self' = SB.regs self /\ SB.switchbox self' = SB.switchbox self.
Proof.
  unfold SB.__create_sb_mux. intros H.
  refine (for_each_inv
            (fun s => SB.regs s = SB.regs self /\
                      SB.switchbox s = SB.switchbox self) _ _ _ _ _ _ H);
    [|auto].
  intros s a s' _ I Hstep. inv_ok Hstep. injection Hstep as <-. exact I.
Qed.

Lemma create_reg_mux_regs (self self' : SB.t) :
  SB.__create_reg_mux G self = Ok self' ->
  SB.regs self' = SB.regs self /\
  (switchbox_reg_muxs (SB.switchbox self) <> [] -> SB.reg_muxs self' <> []).
Proof.
  unfold SB.__create_reg_mux. intros H. split.
  - refine (for_each_inv (fun s => SB.regs s = SB.regs self)
              _ _ _ _ _ _ H); [|reflexivity].
    intros s a s' _ I Hstep. unfold SB.create_reg_mux_step in Hstep.
    inv_ok Hstep; injection Hstep as <-; exact I.
  - destruct (switchbox_reg_muxs (SB.switchbox self)) as [|e l];
      [congruence|]. intros _.
    simpl in H. apply bind_Ok in H. destruct H as [s0 [H0 H]].
    assert (N0 : SB.reg_muxs s0 <> []).
    { unfold SB.create_reg_mux_step in H0.
      inv_ok H0; injection H0 as <-; cbn [SB.reg_muxs SB.with_reg_muxs];
        apply dict_set_nonempty. }
    refine (for_each_inv (fun s => SB.reg_muxs s <> []) _ _ _ _ _ _ H);
      [|exact N0].
    intros s a s' _ I Hstep. unfold SB.create_reg_mux_step in Hstep.
    inv_ok Hstep; injection Hstep as <-; cbn [SB.reg_muxs SB.with_reg_muxs];
      apply dict_set_nonempty.
Qed.

Lemma connect_regs_needs_reg_mux (self self' : SB.t) :
  SB.__connect_regs G self = Ok self' ->
  SB.regs self <> [] -> SB.reg_muxs self <> [].
Proof.
  unfold SB.__connect_regs. intros H Hr.
  destruct (SB.regs self) as [|[reg_name [node reg]] l]; [congruence|].
  simpl in H. apply bind_Ok in H. destruct H as [s0 [H0 _]].
  unfold SB.connect_regs_step in H0. inv_ok H0.
  unfold dict_item in E5.
  destruct (SB.reg_muxs self); [discriminate E5 | discriminate].
Qed.

Lemma SB_init_Ok_empty (switchbox : SwitchBox) (caw cdw : Z)
    (core_name : string) (ssw : Z) (sb : SB.t) :
  SB.__init__ G switchbox caw cdw core_name ssw = Ok sb ->
  get_all_sbs switchbox = [] /\
  switchbox_registers switchbox = [] /\
  switchbox_reg_muxs switchbox = [].
Proof.
  intros H.
  pose proof (SB_init_Ok G _ _ _ _ _ _ H) as (A & _).
  split; [exact A|].
  unfold SB.__init__ in H.
  apply bind_Ok in H. destruct H as [s1 [H1 H]].
  apply bind_Ok in H. destruct H as [s2 [H2 H]].
  apply bind_Ok in H. destruct H as [s3 [H3 H]].
  apply bind_Ok in H. destruct H as [s4 [H4 H]].
  apply bind_Ok in H. destruct H as [s5 [H5 H]].
  apply bind_Ok in H. destruct H as [s6 [H6 H]].
  apply bind_Ok in H. destruct H as [s7 [H7 H]].
  apply bind_Ok in H. destruct H as [s9 [H9 H]].
  apply bind_Ok in H. destruct H as [s10 [H10 H]].
  apply bind_Ok in H. destruct H as [b [Hb H]]. injection H as <-.
  pose proof (create_reg_switchbox G _ _ H1) as W1.
  pose proof (create_reg_regs _ _ H1) as [RM1 R1].
  apply create_reg_no_config in H1; [|reflexivity].
  destruct H1 as (C1 & _).
  pose proof (create_sb_mux_regs _ _ H2) as [R2 W2].
  pose proof (create_sb_mux_no_config G _ _ H2) as (B2 & RM2 & _).
  assert (C2 : no_config s2) by (unfold no_config; now rewrite B2).
  pose proof (create_reg_mux_regs _ _ H3) as [R3 RM3].
  pose proof (create_reg_mux_no_config G _ _ C2 H3) as (C3 & M3 & _).
  apply for_each_never in H4; [|apply lift_port_step_raises].
  destruct H4 as [M4 ->].
  unfold SB.__connect_sbs in H5. rewrite M4 in H5. injection H5 as <-.
  unfold SB.__connect_sb_out in H6. rewrite M4 in H6. injection H6 as <-.
  pose proof (connect_regs_needs_reg_mux _ _ H7) as N7.
  pose proof (connect_regs_no_config G _ _ C3 H7) as (C7 & M7 & RM7 & _).
  assert (M7' : SB.sb_muxs s7 = []) by congruence.
  rewrite M7' in H9. cbn [length Z.of_nat Z.gtb Z.compare] in H9.
  cbn [SB.sb_muxs SB.upd_gen SB.with_base] in H9. rewrite M7' in H9.
  injection H9 as <-.
  apply config_reg_mux_no_config in H10.
  2:{ unfold no_config in *.
      cbn [SB.base SB.upd_gen SB.with_base gen with_gen].
      now repeat apply has_port_remove_port. }
  destruct H10 as [C10 [_ N10]].
  apply setup_config_needs_config in Hb; [|exact C10].
  destruct Hb as [Rb _].
  cbn [SB.reg_muxs SB.upd_gen SB.with_base] in N10.
  assert (Z7 : SB.reg_muxs s7 = []).
  { destruct (SB.reg_muxs s7) as [|e l]; [reflexivity|].
    exfalso. apply N10; [discriminate | exact Rb]. }
  assert (Z3 : SB.reg_muxs s3 = []) by congruence.
  split.
  - destruct (switchbox_registers switchbox) as [|e l] eqn:Er;
      [reflexivity|]. exfalso.
    apply N7; [|exact Z3]. rewrite R3, R2. apply R1.
    cbn [SB.switchbox]. rewrite Er. discriminate.
  - destruct (switchbox_reg_muxs switchbox) as [|e l] eqn:Er;
      [reflexivity|]. exfalso.
    apply RM3; [|exact Z3]. rewrite W2, W1. cbn [SB.switchbox].
    rewrite Er. discriminate.
Qed.

End SwitchBoxCompile.


(** X7. [SB.__init__] returns exactly for the switch boxes that have no
    switch node, no register and no register mux, and the unit it returns
    has no port, no element, no wire and no configuration register; on every
    other switch box it raises. *)
Theorem SB_init_returns_only_when_empty :
  forall (G : Graph) (switchbox : SwitchBox) (caw cdw : Z)
         (core_name : string) (ssw : Z),
    (forall sb,
       SB.__init__ G switchbox caw cdw core_name ssw = Ok sb ->
       get_all_sbs switchbox = [] /\
       switchbox_registers switchbox = [] /\
       switchbox_reg_muxs switchbox = [] /\
       sb = empty_SB switchbox caw cdw core_name ssw) /\
    (get_all_sbs switchbox = [] -> switchbox_registers switchbox = [] ->
     switchbox_reg_muxs switchbox = [] ->
     SB.__init__ G switchbox caw cdw core_name ssw
     = Ok (empty_SB switchbox caw cdw core_name ssw)) /\
    (get_all_sbs switchbox <> [] \/ switchbox_registers switchbox <> [] \/
     switchbox_reg_muxs switchbox <> [] ->
     exists e, SB.__init__ G switchbox caw cdw core_name ssw = Raise e).
Proof.
  intros G switchbox caw cdw core_name ssw. split; [|split].
  - intros sb H.
    destruct (SB_init_Ok_empty G _ _ _ _ _ _ H) as (E1 & E2 & E3).
    repeat (split; [assumption|]).
    rewrite (SB_init_empty G _ caw cdw core_name ssw E1 E2 E3) in H.
    now injection H as <-.
  - apply SB_init_empty.
  - intros Hne.
    destruct (SB.__init__ G switchbox caw cdw core_name ssw) as [sb|e] eqn:E;
      [|eauto].
    exfalso. destruct (SB_init_Ok_empty G _ _ _ _ _ _ E) as (F1 & F2 & F3).
    destruct Hne as [N|[N|N]]; congruence.
Qed.

Lemma SB_init_returns_only_when_empty_witness :
  (exists e, SB.__init__ Examples.graph Examples.reg_switchbox 8 32 "PE" 4
             = Raise e) /\
  SB.__init__ Examples.graph Examples.empty_switchbox 8 32 "PE" 4
  = Ok (empty_SB Examples.empty_switchbox 8 32 "PE" 4) /\
  get_all_sbs Examples.empty_switchbox = [].
Proof.
  split; [|split].
  - apply (SB_init_returns_only_when_empty Examples.graph
             Examples.reg_switchbox 8 32 "PE" 4). left. discriminate.
  - apply (SB_init_returns_only_when_empty Examples.graph
             Examples.empty_switchbox 8 32 "PE" 4); reflexivity.
  - destruct (SB_init_returns_only_when_empty Examples.graph
                Examples.empty_switchbox 8 32 "PE" 4) as (H & _).
    apply (H (empty_SB Examples.empty_switchbox 8 32 "PE" 4)).
    vm_compute. reflexivity.
Defined.

(** X8. The checks of [__create_reg_mux] on one register mux.  It raises
    [AssertionError] unless the register mux has exactly two incoming edges
    and [ValueError] when neither of the two sources is a register; when it
    returns, one source is a register and the other an OUT-tagged switch
    node, and the element made for the register mux, of height 2 with a
    1-bit select, is a child of the unit and is held in [reg_muxs] under the
    name of that switch node. *)
Theorem create_reg_mux_step_checks :
  forall (G : Graph) (self : SB.t) (key : string) (reg_mux : NodeId),
    (length (conn_in (G reg_mux)) <> 2%nat ->
     SB.create_reg_mux_step G self (key, reg_mux) = Raise AssertionError) /\
    (forall n1 n2,
       conn_in (G reg_mux) = [n1; n2] ->
       is_RegisterNode (G n1) = false -> is_RegisterNode (G n2) = false ->
       SB.create_reg_mux_step G self (key, reg_mux) = Raise ValueError) /\
    (forall self',
       SB.create_reg_mux_step G self (key, reg_mux) = Ok self' ->
       exists n1 n2 reg_node sb_node mux mux_name,
         conn_in (G reg_mux) = [n1; n2] /\
         ((reg_node = n1 /\ sb_node = n2) \/
          (reg_node = n2 /\ sb_node = n1)) /\
         node_class (G reg_node) = RegisterNode /\
         node_class (G sb_node) = SwitchBoxNode SB_OUT /\
         create_mux (G reg_mux) = Ok (mux, mux_name) /\
         mux_height mux = 2 /\ sel_size mux = 1 /\
         dict_get String.eqb (SB.reg_muxs self') (node_str (G sb_node))
         = Some (reg_mux, mux) /\
         In (mux_name, ChildMux mux)
            (gen_children (InterconnectConfigurable.gen (SB.base self')))).
Proof.
  intros G self key reg_mux. split; [|split].
  - intros Hl. unfold SB.create_reg_mux_step. cbn [snd].
    assert (E : (Z.of_nat (length (conn_in (G reg_mux))) =? 2) = false)
      by lia.
    rewrite E. reflexivity.
  - intros n1 n2 Hc H1 H2. unfold SB.create_reg_mux_step. cbn [snd].
    rewrite Hc. cbn [length Z.of_nat Pos.of_succ_nat Pos.succ Z.eqb Pos.eqb
                     assert bind item nth_error].
    rewrite H1, H2. reflexivity.
  - intros self' H. unfold SB.create_reg_mux_step in H. cbn [snd] in H.
    apply bind_Ok in H. destruct H as [[] [Hl H]].
    apply assert_Ok, Z.eqb_eq in Hl.
    destruct (conn_in (G reg_mux)) as [|n1 [|n2 [|n3 l]]] eqn:Hc;
      cbn [length] in Hl; try lia.
    cbn [item nth_error bind] in H.
    apply bind_Ok in H. destruct H as [sb_node [Hsb H]].
    apply bind_Ok in H. destruct H as [[mux mux_name] [Hm H]].
    injection H as <-.
    assert (Hh : mux_height mux = 2 /\ sel_size mux = 1).
    { unfold create_mux in Hm. apply bind_Ok in Hm.
      destruct Hm as [nm [_ Hm]]. injection Hm as <- _. rewrite Hc.
      split; reflexivity. }
    assert (Hn : exists reg_node,
               ((reg_node = n1 /\ sb_node = n2) \/
                (reg_node = n2 /\ sb_node = n1)) /\
               node_class (G reg_node) = RegisterNode /\
               node_class (G sb_node) = SwitchBoxNode SB_OUT).
    { unfold is_RegisterNode, is_SwitchBoxNode, node_io in Hsb.
      destruct (node_class (G n1)) as [io1| | |] eqn:C1;
        destruct (node_class (G n2)) as [io2| | |] eqn:C2;
        cbn [assert bind] in Hsb; try discriminate Hsb.
      - destruct io1; cbn [SwitchBoxIO_eqb assert bind] in Hsb;
          try discriminate Hsb. injection Hsb as <-.
        exists n2. rewrite C1, C2. auto.
      - destruct io2; cbn [SwitchBoxIO_eqb assert bind] in Hsb;
          try discriminate Hsb. injection Hsb as <-.
        exists n1. rewrite C1, C2. auto. }
    destruct Hn as [reg_node [Hor [Hr Hs]]].
    exists n1, n2, reg_node, sb_node, mux, mux_name.
    split; [reflexivity|]. split; [exact Hor|]. split; [exact Hr|].
    split; [exact Hs|]. split; [exact Hm|].
    split; [exact (proj1 Hh)|]. split; [exact (proj2 Hh)|].
    cbn [SB.reg_muxs SB.with_reg_muxs SB.base SB.upd_gen SB.with_base
         InterconnectConfigurable.gen InterconnectConfigurable.with_gen
         add_child_generator gen_children].
    split; [apply dict_get_set_same|].
    apply in_or_app. right. now left.
Qed.

Lemma create_reg_mux_step_checks_witness :
  exists n1 n2 reg_node sb_node mux mux_name,
    conn_in (Examples.graph 12%nat) = [n1; n2] /\
    ((reg_node = n1 /\ sb_node = n2) \/ (reg_node = n2 /\ sb_node = n1)) /\
    node_class (Examples.graph reg_node) = RegisterNode /\
    node_class (Examples.graph sb_node) = SwitchBoxNode SB_OUT /\
    create_mux (Examples.graph 12%nat) = Ok (mux, mux_name) /\
    mux_height mux = 2 /\ sel_size mux = 1 /\
    dict_get String.eqb (SB.reg_muxs reg_mux_created)
      (node_str (Examples.graph sb_node)) = Some (12%nat, mux) /\
    In (mux_name, ChildMux mux)
       (gen_children
          (InterconnectConfigurable.gen (SB.base reg_mux_created))).
Proof.
  apply (proj2 (proj2 (create_reg_mux_step_checks Examples.graph
                         (empty_SB Examples.reg_switchbox 8 32 "PE" 4)
                         "RMUX_T0_EAST" 12%nat)) reg_mux_created).
  vm_compute. reflexivity.
Defined.

(** X9. The checks of [__connect_regs] on one register.  It raises
    [AssertionError] unless the register has exactly one outgoing edge; when
    it returns, that edge goes to a node with exactly two incoming edges,
    one of them from the register, whose element is held in [reg_muxs], and
    the only change is one wire from the output of the register to the input
    of that element at the position of the register among the incoming
    edges. *)
Theorem connect_regs_step_checks :
  forall (G : Graph) (self : SB.t) (reg_name : string) (node : NodeId)
         (reg : Register),
    (length (neighbors (G node)) <> 1%nat ->
     SB.connect_regs_step G self (reg_name, (node, reg))
     = Raise AssertionError) /\
    (forall self',
       SB.connect_regs_step G self (reg_name, (node, reg)) = Ok self' ->
       exists reg_mux_node sb_node mux idx,
         neighbors (G node) = [reg_mux_node] /\
         length (conn_in (G reg_mux_node)) = 2%nat /\
         find_index Nat.eqb node (conn_in (G reg_mux_node)) = Some idx /\
         In node (neighbors (G sb_node)) /\
         dict_get String.eqb (SB.reg_muxs self) (node_str (G sb_node))
         = Some (reg_mux_node, mux) /\
         self' = SB.upd_gen self (fun g =>
                   wire g (SPort (Reg reg_name) "O")
                     (SIdx (SPort (RegMux (node_str (G sb_node))) "I")
                        idx))).
Proof.
  intros G self reg_name node reg. split.
  - intros Hl. unfold SB.connect_regs_step.
    assert (E : (Z.of_nat (length (neighbors (G node))) =? 1) = false)
      by lia.
    rewrite E. reflexivity.
  - intros self' H. unfold SB.connect_regs_step in H.
    apply bind_Ok in H. destruct H as [[] [Hl H]].
    apply assert_Ok, Z.eqb_eq in Hl.
    destruct (neighbors (G node)) as [|m [|m' l]] eqn:Hn;
      cbn [length] in Hl; try lia.
    cbn [item nth_error bind] in H.
    apply bind_Ok in H. destruct H as [[] [Hc H]].
    apply assert_Ok, Z.eqb_eq in Hc.
    apply bind_Ok in H. destruct H as [rest [Hrem H]].
    apply bind_Ok in H. destruct H as [sb_node [Hsb H]].
    apply bind_Ok in H. destruct H as [[] [Hin H]].
    apply assert_Ok in Hin.
    apply bind_Ok in H. destruct H as [[n mux] [Hd H]].
    apply bind_Ok in H. destruct H as [[] [Hnm H]].
    apply assert_Ok, Nat.eqb_eq in Hnm. subst n.
    apply bind_Ok in H. destruct H as [idx [Hidx H]].
    injection H as <-.
    exists m, sb_node, mux, idx.
    split; [reflexivity|]. split; [lia|].
    split; [apply index_Ok; exact Hidx|].
    split; [apply contains_In; exact Hin|].
    split; [|reflexivity].
    unfold dict_item in Hd.
    destruct (dict_get String.eqb (SB.reg_muxs self) (node_str (G sb_node)));
      [now injection Hd as -> | discriminate].
Qed.

Lemma connect_regs_step_checks_witness :
  let self' :=
    SB.upd_gen reg_mux_created (fun g =>
      wire g (SPort (Reg "T0_EAST") "O")
        (SIdx (SPort (RegMux "SB (0, 1, 1, 0, 1, 16)") "I") 1)) in
  exists reg_mux_node sb_node mux idx,
    neighbors (Examples.graph 11%nat) = [reg_mux_node] /\
    length (conn_in (Examples.graph reg_mux_node)) = 2%nat /\
    find_index Nat.eqb 11%nat (conn_in (Examples.graph reg_mux_node))
    = Some idx /\
    In 11%nat (neighbors (Examples.graph sb_node)) /\
    dict_get String.eqb (SB.reg_muxs reg_mux_created)
      (node_str (Examples.graph sb_node)) = Some (reg_mux_node, mux) /\
    self' = SB.upd_gen reg_mux_created (fun g =>
              wire g (SPort (Reg "T0_EAST") "O")
                (SIdx (SPort (RegMux (node_str (Examples.graph sb_node)))
                         "I") idx)).
Proof.
  intros self'.
  apply (proj2 (connect_regs_step_checks Examples.graph reg_mux_created
                  "T0_EAST" 11%nat (Register_create 16)) self').
  vm_compute. reflexivity.
Defined.

(* ================================================================= *)
(** ** 30. The core interface *)

Section CoreInterfaceFacts.
Import CoreInterface.

Lemma dict_set_In {V} (d : dict string V) (k0 : string) (v0 : V) k v :
  In (k, v) (dict_set String.eqb d k0 v0) ->
  In (k, v) d \/ (k = k0 /\ v = v0).
Proof.
  induction d as [|[k' v'] d IH]; simpl.
  - intros [E|[]]. injection E as <- <-. auto.
  - destruct (String.eqb_spec k' k0) as [->|N]; simpl.
    + intros [E|H]; [injection E as <- <-; auto | auto].
    + intros [E|H]; [auto | destruct (IH H); auto].
Qed.

Lemma add_ports_In (ports : list MagmaPort) :
  forall d d' name w p,
    add_ports ports d = Ok d' ->
    In (name, (w, p)) d' ->
    In (name, (w, p)) d \/
    (In p ports /\ qualified_name p = name /\ port_width_is p w).
Proof.
  unfold add_ports.
  induction ports as [|q ports IH]; intros d d' name w p H Hin; simpl in H.
  - injection H as <-. now left.
  - apply bind_Ok in H. destruct H as [d1 [H1 H]].
    apply bind_Ok in H1. destruct H1 as [wq [Hw H1]]. injection H1 as <-.
    destruct (IH _ _ _ _ _ H Hin) as [Hd|(I1 & I2 & I3)].
    + apply dict_set_In in Hd. destruct Hd as [Hd|[-> E]]; [now left|].
      injection E as -> ->. right. simpl.
      split; [now left|]. split; [reflexivity|].
      unfold __get_bit_width in Hw. unfold port_width_is.
      destruct (port_kind q); congruence.
    + right. simpl. auto.
Qed.

Lemma get_bit_width_Ok (p : MagmaPort) (w : Z) :
  __get_bit_width p = Ok w <-> port_width_is p w.
Proof.
  unfold __get_bit_width, port_width_is.
  destruct (port_kind p); split; intros H; try congruence;
    try contradiction; try discriminate.
Qed.

Lemma add_ports_Ok (ports : list MagmaPort) :
  forall d d',
    add_ports ports d = Ok d' ->
    (forall name, In name (dict_keys d') <->
                  In name (dict_keys d) \/
                  In name (map qualified_name ports)) /\
    (forall name w p,
       dict_get String.eqb d' name = Some (w, p) ->
       dict_get String.eqb d name = Some (w, p) \/
       (In p ports /\ qualified_name p = name /\ port_width_is p w)).
Proof.
  unfold add_ports.
  induction ports as [|q ports IH]; intros d d' H; simpl in H.
  - injection H as <-. split; [simpl; tauto | auto].
  - apply bind_Ok in H. destruct H as [d1 [H1 H]].
    apply bind_Ok in H1. destruct H1 as [wq [Hw H1]]. injection H1 as <-.
    apply get_bit_width_Ok in Hw.
    destruct (IH _ _ H) as [K G]. split.
    + intros name. rewrite K. cbn [map In].
      assert (E : In name (dict_keys (dict_set String.eqb d
                                        (qualified_name q) (wq, q)))
                  <-> In name (dict_keys d) \/ qualified_name q = name).
      { clear. induction d as [|[k v] d IHd]; simpl; [tauto|].
        destruct (String.eqb_spec k (qualified_name q)) as [->|N]; simpl;
          [tauto|]. rewrite IHd. tauto. }
      rewrite E. tauto.
    + intros name w p Hd. destruct (G name w p Hd) as [Hd1|(I1 & I2 & I3)].
      * destruct (String.eqb_spec (qualified_name q) name) as [<-|N].
        -- rewrite dict_get_set_same in Hd1. injection Hd1 as <- <-.
           right. simpl. auto.
        -- rewrite dict_get_set_other in Hd1 by exact N. now left.
      * right. simpl. auto.
Qed.

Lemma add_ports_total (ports : list MagmaPort) :
  forall d,
    (forall p, In p ports -> port_kind p <> OtherKind) ->
    exists d', add_ports ports d = Ok d'.
Proof.
  unfold add_ports.
  induction ports as [|q ports IH]; intros d H; simpl; [eauto|].
  assert (Hq : port_kind q <> OtherKind) by (apply H; now left).
  unfold __get_bit_width at 1.
  destruct (port_kind q); try congruence; cbn [bind];
    apply IH; intros p Hp; apply H; now right.
Qed.

Lemma add_ports_raises (ports : list MagmaPort) :
  forall d,
    (exists p, In p ports /\ port_kind p = OtherKind) ->
    add_ports ports d = Raise NotImplementedError.
Proof.
  unfold add_ports.
  induction ports as [|q ports IH]; intros d [p [Hp Hk]];
    [contradiction|]. simpl.
  unfold __get_bit_width at 1.
  destruct (port_kind q) eqn:Kq; cbn [bind]; try reflexivity.
  - apply IH. destruct Hp as [->|Hp]; [congruence | eauto].
  - apply IH. destruct Hp as [->|Hp]; [congruence | eauto].
Qed.

Lemma add_ports_cases (ports : list MagmaPort) :
  forall d,
    (exists d', add_ports ports d = Ok d' /\
                forall p, In p ports -> port_kind p <> OtherKind) \/
    add_ports ports d = Raise NotImplementedError.
Proof.
  unfold add_ports.
  induction ports as [|q ports IH]; intros d; cbn [for_each].
  - left. exists d. split; [reflexivity | simpl; contradiction].
  - unfold __get_bit_width at 1 3.
    destruct (port_kind q) eqn:Kq; cbn [bind]; [| |right; reflexivity].
    + destruct (IH (dict_set String.eqb d (qualified_name q) (1, q)))
        as [[d' [E H]]|E]; [left | now right].
      exists d'. split; [exact E|]. intros p [<-|Hp]; [congruence | auto].
    + destruct (IH (dict_set String.eqb d (qualified_name q) (n, q)))
        as [[d' [E H]]|E]; [left | now right].
      exists d'. split; [exact E|]. intros p [<-|Hp]; [congruence | auto].
Qed.

End CoreInterfaceFacts.

(** X10. [CoreInterface.__init__] on a core raises [NotImplementedError]
    when an input or an output of the core is neither a bit nor a bit
    vector, and returns otherwise; every entry of [inputs()] and [outputs()]
    is then the qualified name of an input (an output) of the core with its
    width: 1 for a bit, the length for a bit vector. *)
Theorem core_interface_widths :
  forall c : Core,
    ((exists p, In p (core_inputs c ++ core_outputs c) /\
                port_kind p = OtherKind) ->
     CoreInterface.__init__ (Some c) = Raise NotImplementedError) /\
    ((forall p, In p (core_inputs c ++ core_outputs c) ->
                port_kind p <> OtherKind) ->
     exists ci,
       CoreInterface.__init__ (Some c) = Ok ci /\
       CoreInterface.core ci = Some c /\
       (forall w name, In (w, name) (CoreInterface.inputs ci) ->
          exists p, In p (core_inputs c) /\ qualified_name p = name /\
                    port_width_is p w) /\
       (forall w name, In (w, name) (CoreInterface.outputs ci) ->
          exists p, In p (core_outputs c) /\ qualified_name p = name /\
                    port_width_is p w)).
Proof.
  intros c. split.
  - intros [p [Hp Hk]]. unfold CoreInterface.__init__.
    destruct (add_ports_cases (core_inputs c) []) as [[ins [Ei Hi]]|Ei].
    + rewrite Ei. cbn [bind]. rewrite add_ports_raises; [reflexivity|].
      apply in_app_or in Hp. destruct Hp as [Hp|Hp]; [|eauto].
      exfalso. now apply (Hi p).
    + rewrite Ei. reflexivity.
  - intros Hk. unfold CoreInterface.__init__.
    destruct (add_ports_total (core_inputs c) []) as [ins Ei].
    { intros p Hp. apply Hk, in_or_app. now left. }
    destruct (add_ports_total (core_outputs c) []) as [outs Eo].
    { intros p Hp. apply Hk, in_or_app. now right. }
    rewrite Ei, Eo. cbn [bind]. eexists. split; [reflexivity|].
    cbn [CoreInterface.core CoreInterface.inputs CoreInterface.outputs
         CoreInterface.input_ports CoreInterface.output_ports].
    split; [reflexivity|]. split.
    + intros w name Hin. apply in_map_iff in Hin.
      destruct Hin as [[n [w' p]] [E Hin]]. cbn [fst snd] in E.
      injection E as -> ->.
      destruct (add_ports_In _ _ _ _ _ _ Ei Hin) as [[]|H]. eauto.
    + intros w name Hin. apply in_map_iff in Hin.
      destruct Hin as [[n [w' p]] [E Hin]]. cbn [fst snd] in E.
      injection E as -> ->.
      destruct (add_ports_In _ _ _ _ _ _ Eo Hin) as [[]|H]. eauto.
Qed.

Lemma core_interface_widths_witness :
  exists ci,
    CoreInterface.__init__ (Some Examples.pe_core) = Ok ci /\
    CoreInterface.inputs ci = [(16, "data_in"); (16, "flush")] /\
    exists p, In p (core_inputs Examples.pe_core) /\
              qualified_name p = "flush" /\ port_width_is p 16.
Proof.
  destruct (core_interface_widths Examples.pe_core) as [_ H].
  destruct H as [ci (E & _ & I & _)].
  { intros p Hp. simpl in Hp.
    destruct Hp as [<-|[<-|[<-|[]]]]; discriminate. }
  exists ci. split; [exact E|].
  assert (Ec : ci = Examples.interface_of Examples.pe_core).
  { unfold Examples.interface_of. rewrite E. reflexivity. }
  subst ci. split; [reflexivity|].
  apply (I 16 "flush"). simpl. auto.
Defined.

(** X11. Port references of the interface built from a core.  The name of an
    input resolves to an input of that name, also when an output has the
    same name; a name that is only the name of an output resolves to an
    output of that name; any other name raises [KeyError]. *)
Theorem core_interface_port_ref :
  forall (c : Core) (ci : CoreInterface.t) (name : string),
    CoreInterface.__init__ (Some c) = Ok ci ->
    (In name (map qualified_name (core_inputs c)) ->
     exists p, CoreInterface.get_port_ref ci name = Ok p /\
               In p (core_inputs c) /\ qualified_name p = name) /\
    (~ In name (map qualified_name (core_inputs c)) ->
     In name (map qualified_name (core_outputs c)) ->
     exists p, CoreInterface.get_port_ref ci name = Ok p /\
               In p (core_outputs c) /\ qualified_name p = name) /\
    (~ In name (map qualified_name (core_inputs c)) ->
     ~ In name (map qualified_name (core_outputs c)) ->
     CoreInterface.get_port_ref ci name = Raise KeyError).
Proof.
  intros c ci name H. unfold CoreInterface.__init__ in H.
  apply bind_Ok in H. destruct H as [ins [Ei H]].
  apply bind_Ok in H. destruct H as [outs [Eo H]]. injection H as <-.
  destruct (add_ports_Ok _ _ _ Ei) as [Ki Gi].
  destruct (add_ports_Ok _ _ _ Eo) as [Ko Go].
  unfold CoreInterface.get_port_ref, dict_mem, dict_item.
  cbn [CoreInterface.input_ports CoreInterface.output_ports].
  split; [|split].
  - intros Hin.
    destruct (dict_get_In ins name) as [[w p] Hd];
      [apply Ki; now right|].
    rewrite Hd. cbn [bind snd]. exists p. split; [reflexivity|].
    destruct (Gi _ _ _ Hd) as [Hd'|(I1 & I2 & _)]; [discriminate|]. auto.
  - intros Hn Hin.
    rewrite (dict_get_not_In ins name).
    2:{ intros Hk. apply Ki in Hk. destruct Hk as [[]|Hk]. contradiction. }
    destruct (dict_get_In outs name) as [[w p] Hd];
      [apply Ko; now right|].
    rewrite Hd. cbn [bind snd]. exists p. split; [reflexivity|].
    destruct (Go _ _ _ Hd) as [Hd'|(I1 & I2 & _)]; [discriminate|]. auto.
  - intros Hn1 Hn2.
    rewrite (dict_get_not_In ins name).
    2:{ intros Hk. apply Ki in Hk. destruct Hk as [[]|Hk]. contradiction. }
    rewrite (dict_get_not_In outs name).
    2:{ intros Hk. apply Ko in Hk. destruct Hk as [[]|Hk]. contradiction. }
    reflexivity.
Qed.

Lemma core_interface_port_ref_witness :
  (exists p,
     CoreInterface.get_port_ref (Examples.interface_of Examples.pe_core)
       "data_out" = Ok p /\
     In p (core_outputs Examples.pe_core) /\
     qualified_name p = "data_out") /\
  CoreInterface.get_port_ref (Examples.interface_of Examples.pe_core) "clk"
  = Raise KeyError.
Proof.
  split.
  - apply (core_interface_port_ref Examples.pe_core
             (Examples.interface_of Examples.pe_core) "data_out");
      [reflexivity | | simpl; auto].
    simpl. intros [H|[H|[]]]; discriminate.
  - apply (core_interface_port_ref Examples.pe_core
             (Examples.interface_of Examples.pe_core) "clk");
      [reflexivity | |].
    + simpl. intros [H|[H|[]]]; discriminate.
    + simpl. intros [H|[]]; discriminate.
Defined.

(* ================================================================= *)
(** ** 31. More on the construction of a tile *)

Lemma for_each_Ok_each {S A} (f : S -> A -> result S) (l : list A) :
  forall s s', for_each f l s = Ok s' ->
  forall a, In a l -> exists s1 s2, f s1 a = Ok s2.
Proof.
  induction l as [|b l IH]; intros s s' H a Ha; [contradiction|].
  simpl in H. apply bind_Ok in H. destruct H as [s1 [H1 H]].
  destruct Ha as [<-|Ha]; [eauto | exact (IH _ _ H a Ha)].
Qed.

Lemma for_each_each_inv {S A} (P : S -> Prop) (f : S -> A -> result S)
    (l : list A) :
  (forall s a s', In a l -> P s -> f s a = Ok s' -> P s') ->
  forall s s', P s -> for_each f l s = Ok s' ->
  forall a, In a l -> exists s1 s2, f s1 a = Ok s2 /\ P s2.
Proof.
  induction l as [|b l IH]; intros Hf s s' Hs H a Ha; [contradiction|].
  simpl in H. apply bind_Ok in H. destruct H as [s1 [H1 H]].
  assert (P1 : P s1) by (apply (Hf s b s1); auto; now left).
  destruct Ha as [<-|Ha]; [eauto|].
  apply (IH (fun s a s' Ha => Hf s a s' (or_intror Ha)) s1 s' P1 H a Ha).
Qed.

Lemma same_frame_refl (s : TileCircuit.t) : same_frame s s.
Proof. unfold same_frame. repeat split; reflexivity. Qed.

Lemma same_frame_trans (s0 s1 s2 : TileCircuit.t) :
  same_frame s0 s1 -> same_frame s1 s2 -> same_frame s0 s2.
Proof.
  unfold same_frame. intros (A1 & A2 & A3 & A4 & A5 & A6 & A7)
                            (B1 & B2 & B3 & B4 & B5 & B6 & B7).
  repeat split; congruence.
Qed.

Lemma same_units_refl (s : TileCircuit.t) : same_units s s.
Proof. unfold same_units. split; reflexivity. Qed.

Lemma same_units_trans (s0 s1 s2 : TileCircuit.t) :
  same_units s0 s1 -> same_units s1 s2 -> same_units s0 s2.
Proof. unfold same_units. intros [A1 A2] [B1 B2]. split; congruence. Qed.

Lemma for_each_rel {A} (R : TileCircuit.t -> TileCircuit.t -> Prop)
    (f : TileCircuit.t -> A -> result TileCircuit.t) (l : list A) :
  (forall s, R s s) ->
  (forall s0 s1 s2, R s0 s1 -> R s1 s2 -> R s0 s2) ->
  (forall s a s', f s a = Ok s' -> R s s') ->
  forall s s', for_each f l s = Ok s' -> R s s'.
Proof.
  intros Hrefl Htrans Hf s s' H.
  refine (for_each_inv (R s) f l _ s s' (Hrefl s) H).
  intros st a st' _ I Hstep. eapply Htrans; [exact I|].
  exact (Hf st a st' Hstep).
Qed.

(** Closes [same_frame] and [same_units] between a state and the state a
    step made from it. *)
Ltac close_same :=
  repeat match goal with
  | |- context [if ?b then _ else _] => destruct b
  end;
  unfold same_frame, same_units;
  cbn [TileCircuit.upd_gen TileCircuit.with_gen TileCircuit.with_cbs
       TileCircuit.with_sbs TileCircuit.with_features
       TileCircuit.with_finalized TileCircuit.gen TileCircuit.cbs
       TileCircuit.sbs TileCircuit.core TileCircuit.x TileCircuit.y
       TileCircuit.core_interface TileCircuit.tiles
       TileCircuit.config_addr_width TileCircuit.config_data_width];
  repeat split; reflexivity.

Section TileSteps.
Variable G : Graph.

Lemma create_cb_step_frame bit_width core s entry s' :
  TileCircuit.create_cb_step G bit_width core s entry = Ok s' ->
  same_frame s s'.
Proof.
  unfold TileCircuit.create_cb_step. intros H. inv_ok H;
    injection H as <-; try apply same_frame_refl; close_same.
Qed.

Lemma create_tile_step_frame ssw s entry s' :
  TileCircuit.create_tile_step G ssw s entry = Ok s' -> same_frame s s'.
Proof.
  unfold TileCircuit.create_tile_step. destruct entry as [bit_width tile].
  intros H. apply bind_Ok in H. destruct H as [s1 [H1 H]].
  apply bind_Ok in H. destruct H as [sb [_ H]]. injection H as <-.
  apply (for_each_rel same_frame) in H1;
    [|apply same_frame_refl | apply same_frame_trans
     | intros; eapply create_cb_step_frame; eauto].
  eapply same_frame_trans; [exact H1|]. close_same.
Qed.

Lemma lift_sb_ports_step_same s entry s' :
  TileCircuit.lift_sb_ports_step G s entry = Ok s' ->
  same_frame s s' /\ same_units s s'.
Proof.
  unfold TileCircuit.lift_sb_ports_step. destruct entry as [key switchbox].
  intros H. apply bind_Ok in H. destruct H as [_ [_ H]].
  apply bind_Ok in H. destruct H as [_ [_ H]].
  revert H.
  apply (for_each_rel (fun a b => same_frame a b /\ same_units a b)).
  - intros st. split; [apply same_frame_refl | apply same_units_refl].
  - intros s0 s1 s2 [A1 A2] [B1 B2].
    split; [eapply same_frame_trans | eapply same_units_trans]; eauto.
  - clear s s'. intros s sb s' H.
    unfold TileCircuit.lift_sb_port_step in H. inv_ok H;
      injection H as <-; split; close_same.
Qed.

Lemma connect_cb_step_same s entry s' :
  TileCircuit.connect_cb_step G s entry = Ok s' ->
  same_frame s s' /\ same_units s s'.
Proof.
  unfold TileCircuit.connect_cb_step. destruct entry as [key cb].
  apply (for_each_rel (fun a b => same_frame a b /\ same_units a b)).
  - intros st. split; [apply same_frame_refl | apply same_units_refl].
  - intros s0 s1 s2 [A1 A2] [B1 B2].
    split; [eapply same_frame_trans | eapply same_units_trans]; eauto.
  - clear s s'. intros s [idx node] s' H.
    unfold TileCircuit.connect_cb_input_step in H. inv_ok H;
      injection H as <-; split;
      try apply same_frame_refl; try apply same_units_refl; close_same.
Qed.

Lemma connect_core_tile_step_same s entry s' :
  TileCircuit.connect_core_tile_step G s entry = Ok s' ->
  same_frame s s' /\ same_units s s'.
Proof.
  unfold TileCircuit.connect_core_tile_step. destruct entry as [bw tile].
  apply (for_each_rel (fun a b => same_frame a b /\ same_units a b)).
  - intros st. split; [apply same_frame_refl | apply same_units_refl].
  - intros s0 s1 s2 [A1 A2] [B1 B2].
    split; [eapply same_frame_trans | eapply same_units_trans]; eauto.
  - clear s s'. intros s e s' H.
    unfold TileCircuit.connect_core_step in H.
    destruct (fan_out (G (snd e)) >? 0).
    2:{ injection H as <-.
        split; [apply same_frame_refl | apply same_units_refl]. }
    apply bind_Ok in H. destruct H as [_ [_ H]]. revert H.
    apply (for_each_rel (fun a b => same_frame a b /\ same_units a b)).
    + intros st. split; [apply same_frame_refl | apply same_units_refl].
    + intros s0 s1 s2 [A1 A2] [B1 B2].
      split; [eapply same_frame_trans | eapply same_units_trans]; eauto.
    + clear s s'. intros s sb_node s' H.
      unfold TileCircuit.connect_core_port_step in H. inv_ok H.
      injection H as <-.
      split; [apply same_frame_refl | apply same_units_refl].
Qed.

Lemma lift_ports_step_same s entry s' :
  TileCircuit.lift_ports_step G s entry = Ok s' ->
  same_frame s s' /\ same_units s s'.
Proof.
  unfold TileCircuit.lift_ports_step. destruct entry as [bit_width sb].
  intros H. destruct (switchbox_num_track (SB.switchbox sb) >? 0).
  { injection H as <-.
    split; [apply same_frame_refl | apply same_units_refl]. }
  apply bind_Ok in H. destruct H as [s1 [H1 H]].
  assert (R1 : same_frame s s1 /\ same_units s s1).
  { revert H1.
    apply (for_each_rel (fun a b => same_frame a b /\ same_units a b)).
    - intros st. split; [apply same_frame_refl | apply same_units_refl].
    - intros s0 s2 s3 [A1 A2] [B1 B2].
      split; [eapply same_frame_trans | eapply same_units_trans]; eauto.
    - clear. intros s e s' H.
      unfold TileCircuit.lift_input_step in H. inv_ok H;
        injection H as <-; split;
        try apply same_frame_refl; try apply same_units_refl; close_same. }
  assert (R2 : same_frame s1 s' /\ same_units s1 s').
  { revert H.
    apply (for_each_rel (fun a b => same_frame a b /\ same_units a b)).
    - intros st. split; [apply same_frame_refl | apply same_units_refl].
    - intros s0 s2 s3 [A1 A2] [B1 B2].
      split; [eapply same_frame_trans | eapply same_units_trans]; eauto.
    - clear. intros s e s' H.
      unfold TileCircuit.lift_output_step in H. inv_ok H;
        injection H as <-; split;
        try apply same_frame_refl; try apply same_units_refl; close_same. }
  destruct R1 as [A1 A2]. destruct R2 as [B1 B2].
  split; [eapply same_frame_trans | eapply same_units_trans]; eauto.
Qed.

End TileSteps.

Lemma dictZ_get_set_same {V} (d : dict Z V) (k : Z) (v : V) :
  dict_get Z.eqb (dict_set Z.eqb d k v) k = Some v.
Proof.
  induction d as [|[k' v'] d IH]; simpl.
  - now rewrite Z.eqb_refl.
  - destruct (Z.eqb_spec k' k) as [->|N]; simpl.
    + now rewrite Z.eqb_refl.
    + destruct (Z.eqb_spec k' k); [congruence | exact IH].
Qed.

Lemma dictZ_get_set_other {V} (d : dict Z V) (k k0 : Z) (v : V) :
  k <> k0 ->
  dict_get Z.eqb (dict_set Z.eqb d k v) k0 = dict_get Z.eqb d k0.
Proof.
  intros N. induction d as [|[k' v'] d IH]; simpl.
  - destruct (Z.eqb_spec k k0); [congruence | reflexivity].
  - destruct (Z.eqb_spec k' k) as [->|N']; simpl.
    + destruct (Z.eqb_spec k k0); [congruence | reflexivity].
    + destruct (Z.eqb_spec k' k0); [reflexivity | exact IH].
Qed.

Lemma core_interface_eq_refl (c : CoreInterface.t) :
  CoreInterface.__eq__ c c = true.
Proof.
  unfold CoreInterface.__eq__, option_Core_eqb, Core_eqb.
  destruct (CoreInterface.core c); [apply Nat.eqb_refl | reflexivity].
Qed.

(** The sanity loop of [TileCircuit.__init__]. *)
Lemma sanity_loop (l : list (Z * Tile)) :
  forall x0 y0 c0 x y c,
    for_each TileCircuit.sanity_step l (x0, y0, c0) = Ok (x, y, c) ->
    (x0 <> -1 -> x = x0 /\ y = y0 /\ c = c0) /\
    (forall w t, In (w, t) l ->
       tile_track_width t = w /\
       (tile_x t = -1 \/
        (tile_x t = x /\ tile_y t = y /\
         exists ci, c = Some ci /\
                    CoreInterface.__eq__ ci (tile_core t) = true))).
Proof.
  induction l as [|[w t] l IH]; intros x0 y0 c0 x y c H.
  - simpl in H. injection H as <- <- <-. split; [auto | contradiction].
  - cbn [for_each] in H. apply bind_Ok in H. destruct H as [st [Hs H]].
    unfold TileCircuit.sanity_step in Hs.
    apply bind_Ok in Hs. destruct Hs as [[] [Hw Hs]].
    apply assert_Ok, Z.eqb_eq in Hw.
    destruct (Z.eqb_spec x0 (-1)) as [Ex|Nx].
    + injection Hs as <-. destruct (IH _ _ _ _ _ _ H) as [P1 P2].
      split; [intros N; contradiction|].
      intros w' t' [E|Hin]; [|exact (P2 w' t' Hin)].
      injection E as <- <-. split; [auto|].
      destruct (Z.eq_dec (tile_x t) (-1)) as [E1|N1]; [now left|].
      right. destruct (P1 N1) as (-> & -> & ->).
      split; [reflexivity|]. split; [reflexivity|].
      exists (tile_core t). split; [reflexivity|].
      apply core_interface_eq_refl.
    + apply bind_Ok in Hs. destruct Hs as [[] [Hx Hs]].
      apply assert_Ok, Z.eqb_eq in Hx.
      apply bind_Ok in Hs. destruct Hs as [[] [Hy Hs]].
      apply assert_Ok, Z.eqb_eq in Hy.
      apply bind_Ok in Hs. destruct Hs as [[] [Hc Hs]].
      injection Hs as <-. destruct (IH _ _ _ _ _ _ H) as [P1 P2].
      destruct (P1 Nx) as (-> & -> & ->).
      split; [auto|].
      intros w' t' [E|Hin]; [|exact (P2 w' t' Hin)].
      injection E as <- <-. split; [auto|]. right.
      split; [auto|]. split; [auto|].
      destruct c0 as [ci|]; [|discriminate Hc].
      exists ci. split; [reflexivity|]. now apply assert_Ok in Hc.
Qed.

Section TileUnits.
Variable G : Graph.
Variable tiles : dict Z Tile.
Variables caw cdw ssw : Z.
Variable core : option Core.

Lemma length_zero {A} (l : list A) : Z.of_nat (length l) = 0 -> l = [].
Proof. destruct l; [reflexivity | simpl; lia]. Qed.

Lemma create_cb_step_units width tile s entry s' :
  In (width, tile) tiles -> In entry (tile_ports tile) ->
  units_inv G tiles caw cdw ssw core s ->
  TileCircuit.create_cb_step G width (tile_core tile) s entry = Ok s' ->
  units_inv G tiles caw cdw ssw core s'.
Proof.
  intros Ht He (I1 & I2 & I3 & I4 & I5) H.
  unfold TileCircuit.create_cb_step in H. destruct entry as [key pn].
  cbn [snd] in H.
  destruct (fan_out (G pn) =? 0) eqn:Fo.
  - apply bind_Ok in H. destruct H as [[] [Hw H]].
    apply assert_Ok, Z.eqb_eq in Hw.
    destruct (fan_in (G pn) =? 0) eqn:Fi.
    + injection H as <-. repeat split; assumption.
    + apply bind_Ok in H. destruct H as [cb [Hcb H]].
      apply bind_Ok in H. destruct H as [pr [_ H]].
      apply bind_Ok in H. destruct H as [O [_ H]]. injection H as <-.
      unfold units_inv.
      cbn [TileCircuit.upd_gen TileCircuit.with_gen TileCircuit.with_cbs
           TileCircuit.cbs TileCircuit.sbs TileCircuit.core
           TileCircuit.config_addr_width TileCircuit.config_data_width].
      repeat (split; [assumption|]). split; [|exact I5].
      intros name cb' Hd.
      destruct (String.eqb_spec (node_name (G pn)) name) as [E|N].
      * rewrite E, dict_get_set_same in Hd. injection Hd as <-.
        exists width, tile, key, pn. rewrite I1, I2 in Hcb.
        repeat (split; [assumption|]).
        split; [apply length_zero; apply Z.eqb_eq in Fo; exact Fo|].
        split; [|split; [symmetry; exact Hw | exact Hcb]].
        intros Hc. unfold fan_in in Fi. rewrite Hc in Fi. discriminate.
      * rewrite dict_get_set_other in Hd by exact N. apply I4, Hd.
  - apply bind_Ok in H. destruct H as [[] [_ H]].
    apply bind_Ok in H. destruct H as [[] [_ H]].
    injection H as <-. repeat split; assumption.
Qed.

Lemma create_tile_step_units s entry s' :
  In entry tiles -> units_inv G tiles caw cdw ssw core s ->
  TileCircuit.create_tile_step G ssw s entry = Ok s' ->
  units_inv G tiles caw cdw ssw core s'.
Proof.
  intros Ht I H. destruct entry as [width tile].
  unfold TileCircuit.create_tile_step in H.
  apply bind_Ok in H. destruct H as [s1 [H1 H]].
  apply bind_Ok in H. destruct H as [sb [Hsb H]]. injection H as <-.
  assert (I1 : units_inv G tiles caw cdw ssw core s1).
  { refine (for_each_inv (units_inv G tiles caw cdw ssw core) _ _ _ _ _ I H1).
    intros st e st' He Ist Hstep.
    exact (create_cb_step_units width tile st e st' Ht He Ist Hstep). }
  destruct I1 as (J1 & J2 & J3 & J4 & J5).
  rewrite J1, J2, J3 in Hsb.
  destruct (SB_init_Ok_empty G _ _ _ _ _ _ Hsb) as (E1 & E2 & E3).
  rewrite (SB_init_empty G _ caw cdw _ ssw E1 E2 E3) in Hsb.
  injection Hsb as <-.
  unfold units_inv.
  cbn [TileCircuit.upd_gen TileCircuit.with_gen TileCircuit.with_sbs
       TileCircuit.cbs TileCircuit.sbs TileCircuit.core
       TileCircuit.config_addr_width TileCircuit.config_data_width
       SB.switchbox empty_SB].
  repeat (split; [assumption|]).
  intros key sb Hd.
  destruct (Z.eq_dec (switchbox_width (tile_switchbox tile)) key) as [E|N].
  - rewrite E, dictZ_get_set_same in Hd. injection Hd as <-.
    exists width, tile. split; [exact Ht|]. split; [auto | reflexivity].
  - rewrite dictZ_get_set_other in Hd by exact N. apply J5, Hd.
Qed.

End TileUnits.

Lemma for_each_each_post {S A} (Q : A -> S -> Prop)
    (f : S -> A -> result S) (l : list A) :
  (forall s a s', f s a = Ok s' -> Q a s') ->
  (forall a s b s', Q a s -> f s b = Ok s' -> Q a s') ->
  forall s s', for_each f l s = Ok s' -> forall a, In a l -> Q a s'.
Proof.
  intros Hq Hk. induction l as [|b l IH]; intros s s' H a Ha;
    [contradiction|].
  simpl in H. apply bind_Ok in H. destruct H as [s1 [H1 H]].
  destruct Ha as [<-|Ha]; [|exact (IH _ _ H a Ha)].
  apply Hq in H1. clear IH. revert s1 H1 H.
  induction l as [|c l IH]; intros s1 H1 H; simpl in H.
  - now injection H as <-.
  - apply bind_Ok in H. destruct H as [s2 [H2 H]].
    apply (IH s2); [eapply Hk; eauto | exact H].
Qed.

Section TileRequirements.
Variable G : Graph.

Lemma create_cb_step_port bit_width core s key pn s' :
  TileCircuit.create_cb_step G bit_width core s (key, pn) = Ok s' ->
  node_width (G pn) = bit_width /\
  (neighbors (G pn) = [] \/ conn_in (G pn) = []) /\
  (neighbors (G pn) = [] -> conn_in (G pn) <> [] ->
   dict_mem String.eqb (TileCircuit.cbs s') (node_name (G pn)) = true).
Proof.
  unfold TileCircuit.create_cb_step. cbn [snd]. intros H.
  destruct (fan_out (G pn) =? 0) eqn:Fo.
  - apply bind_Ok in H. destruct H as [[] [Hw H]].
    apply assert_Ok, Z.eqb_eq in Hw.
    apply Z.eqb_eq, length_zero in Fo.
    split; [auto|]. split; [now left|]. intros _ Hc.
    destruct (fan_in (G pn) =? 0) eqn:Fi.
    + apply Z.eqb_eq, length_zero in Fi. contradiction.
    + apply bind_Ok in H. destruct H as [cb [Hcb H]].
      apply bind_Ok in H. destruct H as [pr [_ H]].
      apply bind_Ok in H. destruct H as [O [_ H]]. injection H as <-.
      cbn [TileCircuit.cbs TileCircuit.with_cbs]. unfold dict_mem.
      now rewrite dict_get_set_same.
  - apply bind_Ok in H. destruct H as [[] [Hi H]].
    apply assert_Ok, Z.eqb_eq, length_zero in Hi.
    apply bind_Ok in H. destruct H as [[] [Hw H]].
    apply assert_Ok, Z.eqb_eq in Hw.
    split; [auto|]. split; [now right|]. intros _ Hc. contradiction.
Qed.

Lemma create_cb_step_keeps bit_width core s e s' (name : string) :
  TileCircuit.create_cb_step G bit_width core s e = Ok s' ->
  dict_mem String.eqb (TileCircuit.cbs s) name = true ->
  dict_mem String.eqb (TileCircuit.cbs s') name = true.
Proof.
  unfold TileCircuit.create_cb_step. intros H Hm.
  inv_ok H; injection H as <-; try exact Hm.
  cbn [TileCircuit.cbs TileCircuit.with_cbs TileCircuit.upd_gen
       TileCircuit.with_gen].
  unfold dict_mem in *.
  destruct (String.eqb_spec (node_name (G (snd e))) name) as [<-|N].
  - now rewrite dict_get_set_same.
  - now rewrite dict_get_set_other.
Qed.

Lemma create_tile_step_ports ssw s width tile s' :
  TileCircuit.create_tile_step G ssw s (width, tile) = Ok s' ->
  get_all_sbs (tile_switchbox tile) = [] /\
  switchbox_registers (tile_switchbox tile) = [] /\
  switchbox_reg_muxs (tile_switchbox tile) = [] /\
  forall key pn, In (key, pn) (tile_ports tile) ->
    node_width (G pn) = width /\
    (neighbors (G pn) = [] \/ conn_in (G pn) = []) /\
    (neighbors (G pn) = [] -> conn_in (G pn) <> [] ->
     dict_mem String.eqb (TileCircuit.cbs s') (node_name (G pn)) = true).
Proof.
  unfold TileCircuit.create_tile_step. intros H.
  apply bind_Ok in H. destruct H as [s1 [H1 H]].
  apply bind_Ok in H. destruct H as [sb [Hsb H]]. injection H as <-.
  destruct (SB_init_Ok_empty G _ _ _ _ _ _ Hsb) as (E1 & E2 & E3).
  repeat (split; [assumption|]).
  intros key pn Hin.
  cbn [TileCircuit.cbs TileCircuit.with_sbs TileCircuit.upd_gen
       TileCircuit.with_gen].
  refine (for_each_each_post
            (fun (e : string * NodeId) st =>
               node_width (G (snd e)) = width /\
               (neighbors (G (snd e)) = [] \/ conn_in (G (snd e)) = []) /\
               (neighbors (G (snd e)) = [] -> conn_in (G (snd e)) <> [] ->
                dict_mem String.eqb (TileCircuit.cbs st)
                  (node_name (G (snd e))) = true))
            _ _ _ _ _ _ H1 (key, pn) Hin).
  - intros st [k p] st' Hstep. cbn [snd].
    exact (create_cb_step_port _ _ _ _ _ _ Hstep).
  - intros a st b st' (Q1 & Q2 & Q3) Hstep.
    split; [exact Q1|]. split; [exact Q2|]. intros Hn Hc.
    eapply create_cb_step_keeps; [exact Hstep | exact (Q3 Hn Hc)].
Qed.

Lemma create_tile_step_keeps ssw s e s' (name : string) :
  TileCircuit.create_tile_step G ssw s e = Ok s' ->
  dict_mem String.eqb (TileCircuit.cbs s) name = true ->
  dict_mem String.eqb (TileCircuit.cbs s') name = true.
Proof.
  unfold TileCircuit.create_tile_step. destruct e as [width tile].
  intros H Hm.
  apply bind_Ok in H. destruct H as [s1 [H1 H]].
  apply bind_Ok in H. destruct H as [sb [Hsb H]]. injection H as <-.
  cbn [TileCircuit.cbs TileCircuit.with_sbs TileCircuit.upd_gen
       TileCircuit.with_gen].
  refine (for_each_inv
            (fun st => dict_mem String.eqb (TileCircuit.cbs st) name = true)
            _ _ _ _ _ Hm H1).
  intros st a st' _ I Hstep. eapply create_cb_step_keeps; eauto.
Qed.

End TileRequirements.

(** What [TileCircuit.__init__] leaves, read off its steps. *)
Lemma init_Ok_frame (G : Graph) (tiles : dict Z Tile)
    (caw cdw tiw fw ssw : Z) (self : TileCircuit.t) :
  TileCircuit.__init__ G tiles caw cdw tiw fw ssw = Ok self ->
  exists ci,
    for_each TileCircuit.sanity_step tiles (-1, -1, None)
    = Ok (TileCircuit.x self, TileCircuit.y self, Some ci) /\
    TileCircuit.x self <> -1 /\ TileCircuit.y self <> -1 /\
    TileCircuit.core_interface self = ci /\
    TileCircuit.core self = CoreInterface.core ci /\
    TileCircuit.tiles self = tiles /\
    units_inv G tiles caw cdw ssw (CoreInterface.core ci) self /\
    (forall width tile, In (width, tile) tiles ->
       get_all_sbs (tile_switchbox tile) = [] /\
       switchbox_registers (tile_switchbox tile) = [] /\
       switchbox_reg_muxs (tile_switchbox tile) = [] /\
       forall key pn, In (key, pn) (tile_ports tile) ->
         node_width (G pn) = width /\
         (neighbors (G pn) = [] \/ conn_in (G pn) = []) /\
         (neighbors (G pn) = [] -> conn_in (G pn) <> [] ->
          dict_mem String.eqb (TileCircuit.cbs self) (node_name (G pn))
          = true)).
Proof.
  intros H. unfold TileCircuit.__init__ in H.
  apply bind_Ok in H. destruct H as [[[x y] core] [Hs H]].
  apply bind_Ok in H. destruct H as [[] [Hxy H]].
  apply assert_Ok, andb_prop in Hxy. destruct Hxy as [Hx Hy].
  apply negb_true_iff, Z.eqb_neq in Hx, Hy.
  apply bind_Ok in H. destruct H as [ci [Hci H]].
  destruct core as [ci'|]; [injection Hci as ->|discriminate Hci].
  apply bind_Ok in H. destruct H as [s1 [H1 H]].
  apply bind_Ok in H. destruct H as [s2 [H2 H]].
  apply bind_Ok in H. destruct H as [s3 [H3 H]].
  apply bind_Ok in H. destruct H as [s4 [H4 H]].
  apply bind_Ok in H. destruct H as [s5 [H5 H]].
  apply bind_Ok in H. destruct H as [s6 [H6 H]]. injection H as <-.
  match type of H1 with
  | for_each _ _ ?s = _ => set (s0 := s) in *
  end.
  assert (I0 : units_inv G tiles caw cdw ssw (CoreInterface.core ci) s0).
  { unfold units_inv, s0. cbn. repeat split; try reflexivity;
      intros ? ? Hd; discriminate Hd. }
  assert (F1 : same_frame s0 s1).
  { revert H1. apply (for_each_rel same_frame);
      [apply same_frame_refl | apply same_frame_trans
       | intros; eapply create_tile_step_frame; eauto]. }
  assert (I1 : units_inv G tiles caw cdw ssw (CoreInterface.core ci) s1).
  { refine (for_each_inv _ _ _ _ _ _ I0 H1).
    intros st e st' He Ist Hstep.
    exact (create_tile_step_units G tiles caw cdw ssw _ st e st' He Ist
             Hstep). }
  assert (Each : forall e, In e tiles ->
            get_all_sbs (tile_switchbox (snd e)) = [] /\
            switchbox_registers (tile_switchbox (snd e)) = [] /\
            switchbox_reg_muxs (tile_switchbox (snd e)) = [] /\
            forall key pn, In (key, pn) (tile_ports (snd e)) ->
              node_width (G pn) = fst e /\
              (neighbors (G pn) = [] \/ conn_in (G pn) = []) /\
              (neighbors (G pn) = [] -> conn_in (G pn) <> [] ->
               dict_mem String.eqb (TileCircuit.cbs s1) (node_name (G pn))
               = true)).
  { refine (for_each_each_post
              (fun (e : Z * Tile) st =>
                 get_all_sbs (tile_switchbox (snd e)) = [] /\
                 switchbox_registers (tile_switchbox (snd e)) = [] /\
                 switchbox_reg_muxs (tile_switchbox (snd e)) = [] /\
                 forall key pn, In (key, pn) (tile_ports (snd e)) ->
                   node_width (G pn) = fst e /\
                   (neighbors (G pn) = [] \/ conn_in (G pn) = []) /\
                   (neighbors (G pn) = [] -> conn_in (G pn) <> [] ->
                    dict_mem String.eqb (TileCircuit.cbs st)
                      (node_name (G pn)) = true))
              _ _ _ _ _ _ H1).
    - intros st [w t] st' Hstep. cbn [fst snd].
      exact (create_tile_step_ports G _ _ _ _ _ Hstep).
    - intros a st b st' (Q1 & Q2 & Q3 & Q4) Hstep.
      repeat (split; [assumption|]). intros key pn Hin.
      destruct (Q4 key pn Hin) as (P1 & P2 & P3).
      split; [exact P1|]. split; [exact P2|]. intros Hn Hc.
      eapply create_tile_step_keeps; [exact Hstep | exact (P3 Hn Hc)]. }
  assert (R2 : same_frame s1 s2 /\ same_units s1 s2).
  { revert H2.
    apply (for_each_rel (fun a b => same_frame a b /\ same_units a b)).
    - intros st. split; [apply same_frame_refl | apply same_units_refl].
    - intros t0 t1 t2 [A1 A2] [B1 B2].
      split; [eapply same_frame_trans | eapply same_units_trans]; eauto.
    - intros; eapply lift_sb_ports_step_same; eauto. }
  assert (R3 : same_frame s2 s3 /\ same_units s2 s3).
  { revert H3.
    apply (for_each_rel (fun a b => same_frame a b /\ same_units a b)).
    - intros st. split; [apply same_frame_refl | apply same_units_refl].
    - intros t0 t1 t2 [A1 A2] [B1 B2].
      split; [eapply same_frame_trans | eapply same_units_trans]; eauto.
    - intros; eapply connect_cb_step_same; eauto. }
  assert (R4 : same_frame s3 s4 /\ same_units s3 s4).
  { revert H4.
    apply (for_each_rel (fun a b => same_frame a b /\ same_units a b)).
    - intros st. split; [apply same_frame_refl | apply same_units_refl].
    - intros t0 t1 t2 [A1 A2] [B1 B2].
      split; [eapply same_frame_trans | eapply same_units_trans]; eauto.
    - intros; eapply connect_core_tile_step_same; eauto. }
  unfold TileCircuit.__lift_ports in H5.
  assert (R5 : same_frame s4 s5 /\ same_units s4 s5).
  { match type of H5 with
    | for_each _ _ ?s = _ =>
        assert (R : same_frame s s5 /\ same_units s s5)
    end.
    { revert H5.
      apply (for_each_rel (fun a b => same_frame a b /\ same_units a b)).
      - intros st. split; [apply same_frame_refl | apply same_units_refl].
      - intros t0 t1 t2 [A1 A2] [B1 B2].
        split; [eapply same_frame_trans | eapply same_units_trans]; eauto.
      - intros; eapply lift_ports_step_same; eauto. }
    destruct R as [Ra Rb]. split.
    - eapply same_frame_trans; [|exact Ra]. close_same.
    - eapply same_units_trans; [|exact Rb]. close_same. }
  apply add_features_Ok in H6. destruct H6 as [cbi [sbi [-> _]]].
  destruct R2 as [A2 B2]. destruct R3 as [A3 B3].
  destruct R4 as [A4 B4]. destruct R5 as [A5 B5].
  pose proof (same_frame_trans _ _ _ (same_frame_trans _ _ _
                (same_frame_trans _ _ _ (same_frame_trans _ _ _ F1 A2) A3)
                A4) A5) as F.
  pose proof (same_units_trans _ _ _ (same_units_trans _ _ _
                (same_units_trans _ _ _ B2 B3) B4) B5) as U.
  destruct F as (Fx & Fy & Fc & Fk & Ft & Fa & Fd).
  destruct U as (Uc & Us).
  destruct I1 as (J1 & J2 & J3 & J4 & J5).
  exists ci.
  cbn [TileCircuit.with_features TileCircuit.with_finalized TileCircuit.x
       TileCircuit.y TileCircuit.core_interface TileCircuit.core
       TileCircuit.tiles].
  rewrite Fx, Fy, Fc, Fk, Ft. unfold s0. cbn [TileCircuit.x TileCircuit.y
    TileCircuit.core_interface TileCircuit.core TileCircuit.tiles].
  split; [exact Hs|]. repeat (split; [auto; fail|]).
  split.
  2:{ intros width tile Hin.
      destruct (Each (width, tile) Hin) as (Q1 & Q2 & Q3 & Q4).
      cbn [fst snd] in *. repeat (split; [assumption|]).
      cbn [TileCircuit.cbs TileCircuit.with_features
           TileCircuit.with_finalized]. rewrite Uc. exact Q4. }
  unfold units_inv.
  cbn [TileCircuit.with_features TileCircuit.with_finalized
       TileCircuit.cbs TileCircuit.sbs TileCircuit.core
       TileCircuit.config_addr_width TileCircuit.config_data_width].
  rewrite Fa, Fd, Fk, Uc, Us.
  unfold s0 at 1 2 3.
  cbn [TileCircuit.config_addr_width TileCircuit.config_data_width
       TileCircuit.core].
  repeat split; auto.
Qed.


(** X12. The sanity check of [TileCircuit.__init__].  Without tiles it
    raises [AssertionError].  When it returns, the coordinate of the tile
    circuit is not the sentinel [-1], and every tile is held under its own
    track width and either has the x coordinate [-1] or has the coordinate
    of the tile circuit and a core equal to its core. *)
Theorem tile_init_sanity :
  forall (G : Graph) (tiles : dict Z Tile) (caw cdw tiw fw ssw : Z),
    TileCircuit.__init__ G [] caw cdw tiw fw ssw = Raise AssertionError /\
    forall self,
      TileCircuit.__init__ G tiles caw cdw tiw fw ssw = Ok self ->
      tiles <> [] /\
      TileCircuit.x self <> -1 /\ TileCircuit.y self <> -1 /\
      forall width tile, In (width, tile) tiles ->
        tile_track_width tile = width /\
        (tile_x tile = -1 \/
         (tile_x tile = TileCircuit.x self /\
          tile_y tile = TileCircuit.y self /\
          CoreInterface.__eq__ (TileCircuit.core_interface self)
            (tile_core tile) = true)).
Proof.
  intros G tiles caw cdw tiw fw ssw. split; [reflexivity|].
  intros self H.
  destruct (init_Ok_frame _ _ _ _ _ _ _ _ H)
    as (ci & Hs & Hx & Hy & Hc & _).
  destruct (sanity_loop _ _ _ _ _ _ _ Hs) as [_ P].
  split.
  { intros ->. simpl in Hs. injection Hs as Ex _ _. congruence. }
  split; [exact Hx|]. split; [exact Hy|].
  intros width tile Hin. destruct (P width tile Hin) as [P1 P2].
  split; [exact P1|]. destruct P2 as [P2|(Q1 & Q2 & c' & Ec & Q3)];
    [now left|]. right. injection Ec as <-. rewrite Hc. auto.
Qed.

Lemma tile_init_sanity_witness :
  TileCircuit.x Examples.pe_tile_circuit = 1 /\
  tile_x Examples.pe_tile = TileCircuit.x Examples.pe_tile_circuit /\
  tile_track_width Examples.pe_tile = 16.
Proof.
  destruct (tile_init_sanity Examples.graph [(16, Examples.pe_tile)] 8 32
              TileCircuit.default_tile_id_width
              TileCircuit.default_full_config_addr_width
              TileCircuit.default_stall_signal_width) as [_ H].
  destruct (H Examples.pe_tile_circuit) as (_ & _ & _ & P);
    [vm_compute; reflexivity|].
  destruct (P 16 Examples.pe_tile) as [P1 P2]; [now left|].
  split; [vm_compute; reflexivity|]. split; [|exact P1].
  destruct P2 as [P2|[P2 _]]; [discriminate P2 | exact P2].
Defined.

(** X13. What [TileCircuit.__init__] requires of each tile.  When it
    returns, the switch box of every tile has no switch node, no register
    and no register mux, and every port node of a tile has the bit-width
    the tile is held under and has no outgoing edge or no incoming edge. *)
Theorem tile_init_requires_of_tiles :
  forall (G : Graph) (tiles : dict Z Tile) (caw cdw tiw fw ssw : Z)
         (self : TileCircuit.t),
    TileCircuit.__init__ G tiles caw cdw tiw fw ssw = Ok self ->
    forall width tile, In (width, tile) tiles ->
      get_all_sbs (tile_switchbox tile) = [] /\
      switchbox_registers (tile_switchbox tile) = [] /\
      switchbox_reg_muxs (tile_switchbox tile) = [] /\
      forall key port_node, In (key, port_node) (tile_ports tile) ->
        node_width (G port_node) = width /\
        (neighbors (G port_node) = [] \/ conn_in (G port_node) = []).
Proof.
  intros G tiles caw cdw tiw fw ssw self H width tile Hin.
  destruct (init_Ok_frame _ _ _ _ _ _ _ _ H) as (ci & _ & _ & _ & _ & _ & _
                                                  & _ & E).
  destruct (E width tile Hin) as (E1 & E2 & E3 & E4).
  repeat (split; [assumption|]).
  intros key pn Hp. destruct (E4 key pn Hp) as (P1 & P2 & _). auto.
Qed.

Lemma tile_init_requires_of_tiles_witness :
  get_all_sbs (tile_switchbox Examples.pe_tile) = [] /\
  node_width (Examples.graph 5%nat) = 16 /\
  (neighbors (Examples.graph 5%nat) = [] \/
   conn_in (Examples.graph 5%nat) = []).
Proof.
  destruct (tile_init_requires_of_tiles Examples.graph
              [(16, Examples.pe_tile)] 8 32
              TileCircuit.default_tile_id_width
              TileCircuit.default_full_config_addr_width
              TileCircuit.default_stall_signal_width
              Examples.pe_tile_circuit) with (width := 16)
                                             (tile := Examples.pe_tile)
    as (E1 & _ & _ & E4); [vm_compute; reflexivity | now left |].
  split; [exact E1|]. apply (E4 "data_out" 5%nat). simpl. auto.
Defined.

(** X14. The connection boxes of a tile built by [TileCircuit.__init__].
    Every connection box it holds was compiled by [CB.__init__] from a port
    node of one of the tiles that has no outgoing edge and at least one
    incoming edge, and is held under the name of that port; and every such
    port node has a connection box under its name. *)
Theorem tile_init_connection_boxes :
  forall (G : Graph) (tiles : dict Z Tile) (caw cdw tiw fw ssw : Z)
         (self : TileCircuit.t),
    TileCircuit.__init__ G tiles caw cdw tiw fw ssw = Ok self ->
    (forall name cb,
       dict_get String.eqb (TileCircuit.cbs self) name = Some cb ->
       cb_of_port G tiles caw cdw name cb) /\
    (forall width tile key port_node,
       In (width, tile) tiles -> In (key, port_node) (tile_ports tile) ->
       neighbors (G port_node) = [] -> conn_in (G port_node) <> [] ->
       exists cb,
         dict_get String.eqb (TileCircuit.cbs self)
           (node_name (G port_node)) = Some cb).
Proof.
  intros G tiles caw cdw tiw fw ssw self H.
  destruct (init_Ok_frame _ _ _ _ _ _ _ _ H) as (ci & _ & _ & _ & _ & _ & _
                                                  & U & E).
  destruct U as (_ & _ & _ & U4 & _). split; [exact U4|].
  intros width tile key pn Ht Hp Hn Hc.
  destruct (E width tile Ht) as (_ & _ & _ & E4).
  destruct (E4 key pn Hp) as (_ & _ & P3).
  specialize (P3 Hn Hc). unfold dict_mem in P3.
  destruct (dict_get String.eqb (TileCircuit.cbs self) (node_name (G pn)))
    as [cb|]; [eauto | discriminate].
Qed.

Lemma tile_init_connection_boxes_witness :
  cb_of_port Examples.graph [(16, Examples.pe_tile)] 8 32 "flush"
    (Examples.cb_of 1%nat) /\
  exists cb,
    dict_get String.eqb (TileCircuit.cbs Examples.pe_tile_circuit)
      (node_name (Examples.graph 0%nat)) = Some cb.
Proof.
  destruct (tile_init_connection_boxes Examples.graph
              [(16, Examples.pe_tile)] 8 32
              TileCircuit.default_tile_id_width
              TileCircuit.default_full_config_addr_width
              TileCircuit.default_stall_signal_width
              Examples.pe_tile_circuit) as [A B];
    [vm_compute; reflexivity|].
  split.
  - apply A. vm_compute. reflexivity.
  - apply (B 16 Examples.pe_tile "data_in" 0%nat);
      [now left | simpl; auto | reflexivity | discriminate].
Defined.

(** X15. The switch boxes of a tile built by [TileCircuit.__init__].  Every
    switch box it holds is the unit of the empty switch box of one of the
    tiles, held under the width of that switch box: it has no port, so no
    switch-box feature has a [config] port or a configuration register. *)
Theorem tile_init_switch_boxes :
  forall (G : Graph) (tiles : dict Z Tile) (caw cdw tiw fw ssw : Z)
         (self : TileCircuit.t) (key : Z) (sb : SB.t),
    TileCircuit.__init__ G tiles caw cdw tiw fw ssw = Ok self ->
    dict_get Z.eqb (TileCircuit.sbs self) key = Some sb ->
    sb_of_tile tiles caw cdw ssw (TileCircuit.core self) key sb /\
    (forall name, feature_has_port (FSB key sb) name = false) /\
    TileCircuit.circuit_registers (FSB key sb) = [].
Proof.
  intros G tiles caw cdw tiw fw ssw self key sb H Hd.
  destruct (init_Ok_frame _ _ _ _ _ _ _ _ H) as (ci & _ & _ & _ & _ & Hc & _
                                                  & U & _).
  destruct U as (_ & _ & _ & _ & U5). rewrite Hc.
  pose proof (U5 key sb Hd) as S. split; [exact S|].
  destruct S as (w & t & _ & _ & ->). split; reflexivity.
Qed.

Lemma tile_init_switch_boxes_witness :
  exists sb,
    dict_get Z.eqb (TileCircuit.sbs Examples.pe_tile_circuit) 16 = Some sb /\
    feature_has_port (FSB 16 sb) "config" = false.
Proof.
  exists (empty_SB Examples.empty_switchbox 8 32 "PE" 4).
  split; [vm_compute; reflexivity|].
  apply (tile_init_switch_boxes Examples.graph [(16, Examples.pe_tile)]
           8 32 TileCircuit.default_tile_id_width
           TileCircuit.default_full_config_addr_width
           TileCircuit.default_stall_signal_width
           Examples.pe_tile_circuit 16
           (empty_SB Examples.empty_switchbox 8 32 "PE" 4));
    vm_compute; reflexivity.
Defined.

(* ================================================================= *)
(** ** 32. More on finalization *)

(** X16. The outcome of [__should_add_config] on a feature list.  It returns
    [True] exactly when some feature has a [config] port and no feature
    before the first such one has a [reset] port; it returns [False] exactly
    when no feature has a [config] port or a [reset] port; in every other
    case it raises [AssertionError], and then a feature without [config]
    port has a [reset] port. *)
Theorem should_add_config_outcome :
  forall fs : list Feature,
    (TileCircuit.should_add_config_loop fs = Ok true <->
     exists pre f post,
       fs = (pre ++ f :: post)%list /\
       feature_has_port f "config" = true /\
       forall g, In g pre -> feature_has_port g "config" = false /\
                             feature_has_port g "reset" = false) /\
    (TileCircuit.should_add_config_loop fs = Ok false <->
     forall g, In g fs -> feature_has_port g "config" = false /\
                          feature_has_port g "reset" = false) /\
    (forall e, TileCircuit.should_add_config_loop fs = Raise e ->
       e = AssertionError /\
       exists g, In g fs /\ feature_has_port g "config" = false /\
                 feature_has_port g "reset" = true).
Proof.
  induction fs as [|f fs (IH1 & IH2 & IH3)].
  - split; [|split].
    + split; [discriminate|]. intros (pre & f & post & E & _).
      destruct pre; discriminate E.
    + split; [intros _ g []|reflexivity].
    + intros e H. discriminate H.
  - cbn [TileCircuit.should_add_config_loop].
    destruct (feature_has_port f "config") eqn:Hc.
    + split; [|split].
      * split; [|reflexivity]. intros _. exists [], f, fs.
        split; [reflexivity|]. split; [exact Hc | intros g []].
      * split; [discriminate|]. intros H.
        destruct (H f) as [H1 _]; [now left | congruence].
      * intros e H. discriminate H.
    + destruct (feature_has_port f "reset") eqn:Hr; cbn [negb assert bind].
      * split; [|split].
        -- split; [discriminate|]. intros (pre & g & post & E & Hg & Hp).
           destruct pre as [|p pre]; simpl in E; injection E as <- _.
           ++ congruence.
           ++ destruct (Hp f) as [_ H]; [now left | congruence].
        -- split; [discriminate|]. intros H.
           destruct (H f) as [_ H2]; [now left | congruence].
        -- intros e H. injection H as <-. split; [reflexivity|].
           exists f. split; [now left | auto].
      * split; [|split].
        -- rewrite IH1. split.
           ++ intros (pre & g & post & -> & Hg & Hp).
              exists (f :: pre), g, post. split; [reflexivity|].
              split; [exact Hg|]. intros h [<-|Hh]; [auto | apply Hp, Hh].
           ++ intros (pre & g & post & E & Hg & Hp).
              destruct pre as [|p pre]; simpl in E; injection E as <- ->.
              ** congruence.
              ** exists pre, g, post. split; [reflexivity|].
                 split; [exact Hg|]. intros h Hh. apply Hp. now right.
        -- rewrite IH2. split.
           ++ intros H g [<-|Hg]; [auto | apply H, Hg].
           ++ intros H g Hg. apply H. now right.
        -- intros e H. destruct (IH3 e H) as [E [g [Hg Hp]]].
           split; [exact E|]. exists g. split; [now right | exact Hp].
Qed.

Lemma should_add_config_outcome_witness :
  TileCircuit.should_add_config_loop
    [FCore {| core_feature_id := 1; core_feature_ports := ["stall"] |};
     FCore {| core_feature_id := 0;
              core_feature_ports := ["reset"; "config"] |}] = Ok true.
Proof.
  apply (proj2 (proj1 (should_add_config_outcome _))).
  exists [FCore {| core_feature_id := 1; core_feature_ports := ["stall"] |}],
    (FCore {| core_feature_id := 0;
              core_feature_ports := ["reset"; "config"] |}), [].
  split; [reflexivity|]. split; [reflexivity|].
  intros g [<-|[]]. split; reflexivity.
Defined.

(** X17. [finalize] marks the tile before anything else.  After a call, also
    one that raised, the tile is marked finalized; and on a tile that is
    marked finalized [finalize] raises and leaves the tile as it is. *)
Theorem finalize_marks_first :
  forall s : TileCircuit.t,
    TileCircuit.finalized (snd (TileCircuit.finalize s)) = true /\
    (TileCircuit.finalized s = true ->
     TileCircuit.finalize s = (Raise AlreadyFinalized, s)) /\
    TileCircuit.finalize (snd (TileCircuit.finalize s))
    = (Raise AlreadyFinalized, snd (TileCircuit.finalize s)).
Proof.
  intros s. pose proof (finalize_marks s) as M.
  split; [exact M|]. split.
  - intros Hf. rewrite finalize_unfold, Hf. reflexivity.
  - rewrite (finalize_unfold (snd (TileCircuit.finalize s))), M.
    reflexivity.
Qed.

Lemma finalize_marks_first_witness :
  let s' := snd (TileCircuit.finalize Examples.pe_tile_circuit) in
  TileCircuit.finalize s' = (Raise AlreadyFinalized, s').
Proof.
  intros s'.
  apply (proj1 (proj2 (finalize_marks_first s'))).
  vm_compute. reflexivity.
Defined.

(** X18. What a successful [finalize] adds to a tile one of whose features
    has a [config] port: the ports [config] (address, data, read and write
    bits), [clk] and [read_config_data], in this order after the ports the
    tile had, and a read-back multiplexer with one input per feature; the
    feature list is not changed. *)
Theorem finalize_adds_config_ports :
  forall (s s' : TileCircuit.t) (f : Feature),
    TileCircuit.finalized s = false ->
    has_port (TileCircuit.gen s) "stall" = true ->
    has_port (TileCircuit.gen s) "reset" = true ->
    has_port (TileCircuit.gen s) "tile_id" = true ->
    In f (TileCircuit.features s) ->
    feature_has_port f "config" = true ->
    TileCircuit.finalize s = (Ok tt, s') ->
    gen_ports (TileCircuit.gen s')
    = (gen_ports (TileCircuit.gen s)
       ++ [{| port_name := "config";
              port_width := TileCircuit.full_config_addr_width s
                            + TileCircuit.config_data_width s + 2;
              port_direction := In_; port_type := Data |};
           {| port_name := "clk"; port_width := 1;
              port_direction := In_; port_type := Clock |};
           {| port_name := "read_config_data";
              port_width := TileCircuit.config_data_width s;
              port_direction := Out_; port_type := Data |}])%list /\
    TileCircuit.read_data_mux s'
    = Some (Z.of_nat (length (TileCircuit.features s)),
            TileCircuit.config_data_width s,
            TileCircuit.config_addr_width s, 0) /\
    TileCircuit.features s' = TileCircuit.features s.
Proof.
  intros s s' f Hf Hs Hr Ht Hin Hc H.
  rewrite (finalize_Ok_config s s' f Hf Hs Hr Ht Hin Hc H).
  unfold finalized_config, finalized_plain, add_wires.
  cbn [TileCircuit.gen TileCircuit.upd_gen TileCircuit.with_gen
       TileCircuit.with_read_data_mux TileCircuit.with_finalized
       TileCircuit.read_data_mux TileCircuit.features
       TileCircuit.__features gen_ports add_port].
  rewrite <- !app_assoc. repeat split; reflexivity.
Qed.

Lemma finalize_adds_config_ports_witness :
  let s := Examples.pe_tile_circuit in
  TileCircuit.read_data_mux (snd (TileCircuit.finalize s))
  = Some (Z.of_nat (length (TileCircuit.features s)),
          TileCircuit.config_data_width s,
          TileCircuit.config_addr_width s, 0).
Proof.
  intros s.
  refine (proj1 (proj2 (finalize_adds_config_ports s
                          (snd (TileCircuit.finalize s))
                          (FCB "data_in" (Examples.cb_of 0%nat))
                          _ _ _ _ _ _ _)));
    try (vm_compute; reflexivity).
  vm_compute. tauto.
Defined.

Section ReadDecode.
Import TileCircuit Netlist.

(** Finds the driver of a pin of the read gate in the gate wires. *)
Ltac read_driver :=
  repeat first
    [ rewrite driver_cons_fst
    | rewrite driver_cons_snd by congruence
    | rewrite driver_cons_skip by (apply mentions_neq; congruence) ].

Lemma read_gate_drivers (s : t) (rest : list (Sig * Sig)) :
  driver (gate_wires s ++ rest) (SPort (Prim ReadAndTile) "I0")
  = Some (SPort (Prim EqTile) "O") /\
  driver (gate_wires s ++ rest) (SPort (Prim ReadAndTile) "I1")
  = Some (SIdx (SField (SPort This "config") "read") 0) /\
  driver (gate_wires s ++ rest) (SPort (Prim ReadDataMux) "S")
  = Some (config_addr_sig (feature_addr_slice s)).
Proof.
  unfold gate_wires, config_addr_sig.
  repeat split; apply driver_app_found; read_driver; reflexivity.
Qed.

Lemma eval_read_and (n : nat) (s : t) (bus : ConfigBus) :
  eval (S n) s bus (SPort (Prim ReadAndTile) "O")
  = and2 (input_value n s bus (SPort (Prim ReadAndTile) "I0"))
         (input_value n s bus (SPort (Prim ReadAndTile) "I1")).
Proof. reflexivity. Qed.

Lemma eval_read_bit (n : nat) (s : t) (bus : ConfigBus) :
  eval (S (S n)) s bus (SIdx (SField (SPort This "config") "read") 0)
  = Some (b2z (bus_read bus)).
Proof. simpl. now destruct (bus_read bus). Qed.

(** The read gate of the finalized tile. *)
Lemma read_enable_value (s : t) (bus : ConfigBus) :
  plain_wires (gen_wires (gen s)) = true ->
  eval 8 (finalized_config s) bus (SPort (Prim ReadAndTile) "O")
  = Some (b2z ((tile_id_field (finalized_config s) bus =? bus_tile_id bus)
               && bus_read bus)) /\
  driver (gen_wires (gen (finalized_config s))) (SPort (Prim ReadDataMux) "S")
  = Some (config_addr_sig (feature_addr_slice s)).
Proof.
  intros Hw.
  destruct (read_gate_drivers s
              (flat_map (decode_wires s) (enumerate (features s))))
    as (R1 & R2 & R3).
  destruct (gate_drivers s
              (flat_map (decode_wires s) (enumerate (features s))))
    as (_ & _ & G3 & G4).
  split.
  - rewrite eval_read_and. unfold input_value.
    rewrite !(driver_finalized s _ Hw) by reflexivity.
    rewrite R1, R2, eval_eq_tile, eval_read_bit. unfold input_value.
    rewrite !(driver_finalized s _ Hw) by reflexivity.
    rewrite G3, G4, eval_tile_id, eval_config_addr.
    unfold and2, tile_id_field. rewrite !b2z_nonzero.
    replace (full_config_addr_width (finalized_config s))
      with (full_config_addr_width s) by reflexivity.
    replace (tile_id_slice (finalized_config s)) with (tile_id_slice s)
      by reflexivity.
    now rewrite (Z.eqb_sym (bus_tile_id bus)).
  - rewrite (driver_finalized s _ Hw) by reflexivity. exact R3.
Qed.

Lemma read_input_wired (s : t) (i : nat) (f : Feature) :
  nth_error (features s) i = Some f ->
  In (if feature_has_port f "read_config_data"
      then SPort (feature_ref f) "read_config_data" else SConst 0,
      SIdx (SPort (Prim ReadDataMux) "I") i)
     (gen_wires (gen (finalized_config s))) /\
  In (SPort (Prim ReadAndTile) "O", SIdx (SPort (Prim ReadDataMux) "EN") 0)
     (gen_wires (gen (finalized_config s))).
Proof.
  intros Hi. rewrite finalized_config_wires. split.
  - apply in_or_app. right. apply in_or_app. right.
    apply in_flat_map. exists (i, f). split.
    + apply (nth_error_In _ i).
      apply (nth_error_enumerate_from (features s) 0 i f Hi).
    + unfold decode_wires. left. reflexivity.
  - apply in_or_app. right. apply in_or_app. left.
    unfold gate_wires. simpl. tauto.
Qed.

End ReadDecode.

(** X19. The read path of a tile built by [TileCircuit.__init__] and
    finalized, when a feature has a [config] port.  The enable of the
    read-back multiplexer is driven by the read gate, whose value is (the
    tile-id range of the address equals the tile's [tile_id]) AND (the read
    bit); its select is the feature range of the address; and its input [i]
    is the [read_config_data] port of the feature at index [i], or the
    constant 0 when that feature has no such port. *)
Theorem read_data_mux_decode :
  forall (G : Graph) (tiles : dict Z Tile) (caw cdw tiw fw ssw : Z)
         (self s' : TileCircuit.t) (bus : Netlist.ConfigBus)
         (i : nat) (f g : Feature),
    TileCircuit.__init__ G tiles caw cdw tiw fw ssw = Ok self ->
    TileCircuit.finalize self = (Ok tt, s') ->
    In g (TileCircuit.features self) ->
    feature_has_port g "config" = true ->
    nth_error (TileCircuit.features self) i = Some f ->
    Netlist.eval 8 s' bus (SPort (Prim ReadAndTile) "O")
    = Some (Netlist.b2z
              ((Netlist.tile_id_field s' bus =? Netlist.bus_tile_id bus)
               && Netlist.bus_read bus)) /\
    In (SPort (Prim ReadAndTile) "O", SIdx (SPort (Prim ReadDataMux) "EN") 0)
       (gen_wires (TileCircuit.gen s')) /\
    Netlist.driver (gen_wires (TileCircuit.gen s'))
      (SPort (Prim ReadDataMux) "S")
    = Some (Netlist.config_addr_sig (TileCircuit.feature_addr_slice self)) /\
    In (if feature_has_port f "read_config_data"
        then SPort (feature_ref f) "read_config_data" else SConst 0,
        SIdx (SPort (Prim ReadDataMux) "I") i)
       (gen_wires (TileCircuit.gen s')).
Proof.
  intros G tiles caw cdw tiw fw ssw self s' bus i f g Hinit Hfin Hg Hc Hi.
  destruct (init_Ok_facts _ _ _ _ _ _ _ _ Hinit)
    as (_ & Hf & Ht & Hs & Hr & Hw & _ & _).
  rewrite (finalize_Ok_config self s' g Hf Hs Hr Ht Hg Hc Hfin).
  destruct (read_enable_value self bus Hw) as [E1 E2].
  destruct (read_input_wired self i f Hi) as [I1 I2].
  repeat split; assumption.
Qed.

Lemma read_data_mux_decode_witness :
  let s' := snd (TileCircuit.finalize Examples.pe_tile_circuit) in
  let bus := {| Netlist.bus_config_addr := 65536 + 7;
                Netlist.bus_config_data := 0;
                Netlist.bus_read := true;
                Netlist.bus_write := false;
                Netlist.bus_tile_id := 7 |} in
  Netlist.eval 8 s' bus (SPort (Prim ReadAndTile) "O") = Some 1 /\
  In (SConst 0, SIdx (SPort (Prim ReadDataMux) "I") 3)
     (gen_wires (TileCircuit.gen s')).
Proof.
  intros s' bus.
  destruct (read_data_mux_decode Examples.graph [(16, Examples.pe_tile)]
              8 32 TileCircuit.default_tile_id_width
              TileCircuit.default_full_config_addr_width
              TileCircuit.default_stall_signal_width
              Examples.pe_tile_circuit s' bus 3%nat
              (FSB 16 (empty_SB Examples.empty_switchbox 8 32 "PE" 4))
              (FCB "data_in" (Examples.cb_of 0%nat)))
    as (E & _ & _ & I);
    try (vm_compute; reflexivity).
  - vm_compute. tauto.
  - split; [exact E | exact I].
Defined.

(* ================================================================= *)
(** ** 33. More on route resolution *)

Lemma CB_init_registers (G : Graph) (node : NodeId) (caw cdw : Z)
    (cb : CB.t) :
  CB.__init__ G node caw cdw = Ok cb ->
  is_PortNode (G node) = true /\
  exists nm,
    create_name (node_str (G node)) = Ok nm /\
    ((fan_in (G node) <= 1 /\
      InterconnectConfigurable.registers (CB.base cb) = []) \/
     (1 < fan_in (G node) /\
      InterconnectConfigurable.registers (CB.base cb) =
        [(nm ++ "_sel",
          {| reg_width := Z.log2_up (fan_in (G node));
             reg_addr_width := caw; reg_data_width := cdw;
             reg_use_config_en := true; reg_addr := Some 0 |})])).
Proof.
  intros H.
  assert (Hp : is_PortNode (G node) = true).
  { unfold CB.__init__ in H. destruct (is_PortNode (G node));
      [reflexivity | discriminate H]. }
  split; [exact Hp|].
  assert (Hn : exists nm, create_name (node_str (G node)) = Ok nm).
  { unfold CB.__init__ in H. rewrite Hp in H. cbn [negb bind] in H.
    destruct (create_name (node_str (G node))) as [nm|]; [eauto|].
    discriminate H. }
  destruct Hn as [nm Hn]. exists nm. split; [exact Hn|].
  destruct (fan_in (G node) >? 1) eqn:Hk.
  - right. split; [lia|].
    destruct (CB_init_selector G node caw cdw nm Hp Hn Hk)
      as [cb' [E (_ & _ & _ & R & _)]].
    rewrite E in H. injection H as <-. exact R.
  - left. split; [lia|].
    assert (Hk' : (fan_in (G node) <=? 1) = true) by lia.
    rewrite (CB_init_passthrough G node caw cdw nm Hp Hn Hk') in H.
    now injection H as <-.
Qed.

(** X20. A result of the route resolver is in range.  When
    [get_route_bitstream_config] returns, the pair satisfied the
    preconditions, the destination is not a register, [config_data] is a
    position in the incoming list of the destination that holds the source,
    [feature_addr] is a position in the feature list, and [reg_index] is
    smaller than the number of registers of the owning feature. *)
Theorem route_result_in_range :
  forall (G : Graph) (self : TileCircuit.t) (src dst : NodeId)
         (reg_index feature_addr config_data : nat),
    TileCircuit.get_route_bitstream_config G self src dst
    = Ok (reg_index, feature_addr, config_data) ->
    route_preconditions G self src dst /\
    node_class (G dst) <> RegisterNode /\
    nth_error (conn_in (G dst)) config_data = Some src /\
    (config_data < length (conn_in (G dst)))%nat /\
    (feature_addr < length (TileCircuit.features self))%nat /\
    exists circuit,
      owning_feature self (G src) (G dst) = Some circuit /\
      (reg_index < length (TileCircuit.circuit_registers circuit))%nat.
Proof.
  intros G self src dst r f c H.
  unfold TileCircuit.get_route_bitstream_config in H.
  apply bind_Ok in H. destruct H as [[] [Hw H]].
  apply assert_Ok, Z.eqb_eq in Hw.
  apply bind_Ok in H. destruct H as [tile [Ht H]].
  apply bind_Ok in H. destruct H as [[] [Hxy H]].
  apply assert_Ok, andb_prop in Hxy. destruct Hxy as [Hx Hy].
  apply Z.eqb_eq in Hx, Hy.
  apply bind_Ok in H. destruct H as [[] [Hn H]].
  apply assert_Ok, contains_In in Hn.
  apply bind_Ok in H. destruct H as [c' [Hc H]].
  apply index_Ok in Hc.
  destruct (find_index_Some Nat.eqb nat_eqb_eq _ _ _ Hc) as [Hc1 _].
  apply bind_Ok in H. destruct H as [circuit [Hcirc H]].
  apply bind_Ok in H. destruct H as [r' [Hr H]].
  apply bind_Ok in H. destruct H as [f' [Hf H]].
  injection H as E1 E2 E3. subst.
  assert (Ht' : dict_get Z.eqb (TileCircuit.tiles self) (node_width (G src))
                = Some tile).
  { unfold dict_item in Ht.
    destruct (dict_get Z.eqb (TileCircuit.tiles self) (node_width (G src)));
      [now injection Ht as -> | discriminate]. }
  split.
  { split; [exact Hw|]. split; [exists tile; auto|]. split; [exact Hn|].
    eapply nth_error_In; eauto. }
  split.
  { intros E. rewrite E in Hcirc. discriminate Hcirc. }
  split; [exact Hc1|].
  split.
  { apply nth_error_Some. intros E.
    pose proof (eq_trans (eq_sym Hc1) E) as X. discriminate X. }
  split.
  { apply index_Ok in Hf. apply find_index_feature_Some in Hf.
    destruct Hf as [g [Hg _]]. apply nth_error_Some. rewrite Hg.
    discriminate. }
  exists circuit. split.
  - unfold owning_feature, dict_item in *.
    destruct (node_class (G dst)); try discriminate Hcirc.
    + destruct (dict_get Z.eqb (TileCircuit.sbs self) (node_width (G src)));
        [|discriminate]. cbn [bind] in Hcirc. now injection Hcirc as <-.
    + destruct (dict_get String.eqb (TileCircuit.cbs self)
                  (node_name (G dst))); [|discriminate].
      cbn [bind] in Hcirc. now injection Hcirc as <-.
    + destruct (dict_get Z.eqb (TileCircuit.sbs self) (node_width (G src)));
        [|discriminate]. cbn [bind] in Hcirc. now injection Hcirc as <-.
  - unfold TileCircuit.__find_reg_index in Hr.
    apply bind_Ok in Hr. destruct Hr as [sel [_ Hr]].
    apply index_Ok in Hr.
    destruct (find_index_Some String.eqb string_eqb_eq _ _ _ Hr) as [Hr1 _].
    unfold dict_keys in Hr1.
    rewrite <- (length_map fst (TileCircuit.circuit_registers circuit)).
    rewrite (Permutation_length
               (sort_names_perm
                  (map fst (TileCircuit.circuit_registers circuit)))).
    apply nth_error_Some. rewrite Hr1. discriminate.
Qed.

Lemma route_result_in_range_witness :
  route_preconditions Examples.graph Examples.pe_tile_circuit 3%nat 0%nat /\
  nth_error (conn_in (Examples.graph 0%nat)) 1 = Some 3%nat.
Proof.
  destruct (route_result_in_range Examples.graph Examples.pe_tile_circuit
              3%nat 0%nat 0%nat 1%nat 1%nat) as (P & _ & C & _);
    [vm_compute; reflexivity|].
  split; [exact P | exact C].
Defined.

(** X21. The resolver and the allocator agree on a tile built by
    [TileCircuit.__init__].  When the resolver returns for a port
    destination, the connection box held under the name of the destination
    has one configuration register, the selector register of the
    destination, and the address [_setup_config] gave to that register is
    the [reg_index] the resolver returns, which is 0. *)
Theorem route_register_address :
  forall (G : Graph) (tiles : dict Z Tile) (caw cdw tiw fw ssw : Z)
         (self : TileCircuit.t) (src dst : NodeId)
         (reg_index feature_addr config_data : nat),
    TileCircuit.__init__ G tiles caw cdw tiw fw ssw = Ok self ->
    node_class (G dst) = PortNode ->
    TileCircuit.get_route_bitstream_config G self src dst
    = Ok (reg_index, feature_addr, config_data) ->
    exists cb sel_name,
      dict_get String.eqb (TileCircuit.cbs self) (node_name (G dst))
      = Some cb /\
      get_mux_sel_name (G dst) = Ok sel_name /\
      dict_keys (InterconnectConfigurable.registers (CB.base cb))
      = [sel_name] /\
      address_of (CB.base cb) sel_name = Some (Z.of_nat reg_index) /\
      reg_index = 0%nat.
Proof.
  intros G tiles caw cdw tiw fw ssw self src dst r f c Hinit Hp H.
  destruct (init_Ok_frame _ _ _ _ _ _ _ _ Hinit)
    as (ci & _ & _ & _ & _ & _ & _ & U & _).
  destruct U as (_ & _ & _ & U4 & _).
  unfold TileCircuit.get_route_bitstream_config in H.
  apply bind_Ok in H. destruct H as [[] [_ H]].
  apply bind_Ok in H. destruct H as [tile [_ H]].
  apply bind_Ok in H. destruct H as [[] [_ H]].
  apply bind_Ok in H. destruct H as [[] [_ H]].
  apply bind_Ok in H. destruct H as [c' [_ H]].
  apply bind_Ok in H. destruct H as [circuit [Hcirc H]].
  apply bind_Ok in H. destruct H as [r' [Hr H]].
  apply bind_Ok in H. destruct H as [f' [_ H]].
  injection H as E1 E2 E3. subst.
  rewrite Hp in Hcirc. unfold dict_item in Hcirc.
  destruct (dict_get String.eqb (TileCircuit.cbs self) (node_name (G dst)))
    as [cb|] eqn:Hd; [|discriminate Hcirc].
  cbn [bind] in Hcirc. injection Hcirc as <-.
  destruct (U4 _ _ Hd) as (w & t & key & pn & _ & _ & _ & _ & _ & _ & Hcb).
  destruct (CB_init_registers _ _ _ _ _ Hcb) as [_ [nm [_ R]]].
  unfold TileCircuit.__find_reg_index in Hr.
  apply bind_Ok in Hr. destruct Hr as [sel [Hsel Hr]].
  cbn [TileCircuit.circuit_registers] in Hr.
  exists cb, sel. split; [reflexivity|]. split; [exact Hsel|].
  destruct R as [[_ R]|[_ R]]; rewrite R in Hr.
  - discriminate Hr.
  - cbn [dict_keys map fst] in Hr. rewrite sort_names_singleton in Hr.
    unfold index in Hr. cbn [find_index] in Hr.
    destruct (String.eqb_spec (nm ++ "_sel") sel) as [E|N];
      [|discriminate Hr]. injection Hr as <-. subst sel.
    unfold address_of. rewrite R. cbn [dict_keys map fst dict_get].
    rewrite String.eqb_refl. repeat split; reflexivity.
Qed.

Lemma route_register_address_witness :
  exists cb sel_name,
    dict_get String.eqb (TileCircuit.cbs Examples.pe_tile_circuit)
      (node_name (Examples.graph 0%nat)) = Some cb /\
    address_of (CB.base cb) sel_name = Some 0.
Proof.
  destruct (route_register_address Examples.graph [(16, Examples.pe_tile)]
              8 32 TileCircuit.default_tile_id_width
              TileCircuit.default_full_config_addr_width
              TileCircuit.default_stall_signal_width
              Examples.pe_tile_circuit 3%nat 0%nat 0%nat 1%nat 1%nat)
    as (cb & sel & A & _ & _ & B & _); try (vm_compute; reflexivity).
  exists cb, sel. split; [exact A | exact B].
Defined.

(* ================================================================= *)
(** ** 34. Fan-out, feature addresses and connection boxes *)

(** X22. The stall and reset fan-out.  On a tile that has the [stall] port
    [__add_stall] wires it to the [stall] port of every feature that has
    one and to the [stall] port of the core when the core has one, and it
    makes no other wire; when the features are distinct generators no port
    is wired twice.  The same holds of [__add_reset] and the [reset]
    port. *)
Theorem stall_reset_fanout :
  forall (s : TileCircuit.t) (name : string),
    (has_port (TileCircuit.gen s) "stall" = true ->
     TileCircuit.__add_stall s
     = (Ok tt, add_wires s (Netlist.fanout_wires s "stall"))) /\
    (has_port (TileCircuit.gen s) "reset" = true ->
     TileCircuit.__add_reset s
     = (Ok tt, add_wires s (Netlist.fanout_wires s "reset"))) /\
    (forall w, In w (Netlist.fanout_wires s name) <->
       (exists f, In f (TileCircuit.features s) /\
                  feature_has_port f name = true /\
                  w = (SPort This name, SPort (feature_ref f) name)) \/
       (exists c, TileCircuit.core s = Some c /\ In name (core_ports c) /\
                  w = (SPort This name,
                       SPort (CoreRef (core_id c)) name))) /\
    (NoDup (map feature_ref (TileCircuit.features s)) ->
     NoDup (Netlist.fanout_wires s name)).
Proof.
  intros s name. split; [|split; [|split]].
  - intros H. rewrite <- (add_wires_nil s) at 1.
    rewrite (add_stall_ok s [] H). reflexivity.
  - intros H. rewrite <- (add_wires_nil s) at 1.
    rewrite (add_reset_ok s [] H). reflexivity.
  - intros w. unfold Netlist.fanout_wires. rewrite in_map_iff. split.
    + intros [p [<- Hp]]. apply fanout_ports_In in Hp.
      destruct Hp as [[f (H1 & H2 & ->)]|[c (H1 & H2 & ->)]];
        [left; exists f | right; exists c]; auto.
    + intros [[f (H1 & H2 & ->)]|[c (H1 & H2 & ->)]].
      * exists (SPort (feature_ref f) name). split; [reflexivity|].
        apply fanout_ports_In. left. exists f. auto.
      * exists (SPort (CoreRef (core_id c)) name). split; [reflexivity|].
        apply fanout_ports_In. right. exists c. auto.
  - intros Hnd. unfold Netlist.fanout_wires.
    apply NoDup_map_inj; [|now apply fanout_ports_NoDup].
    intros a b E. now injection E.
Qed.

Lemma stall_reset_fanout_witness :
  TileCircuit.__add_stall Examples.pe_tile_circuit
  = (Ok tt, add_wires Examples.pe_tile_circuit
              (Netlist.fanout_wires Examples.pe_tile_circuit "stall")) /\
  NoDup (Netlist.fanout_wires Examples.pe_tile_circuit "stall").
Proof.
  destruct (stall_reset_fanout Examples.pe_tile_circuit "stall")
    as (A & _ & _ & D).
  split.
  - apply A. vm_compute. reflexivity.
  - apply D. clear. vm_compute.
    repeat (constructor;
            [intros H; simpl in H;
             repeat (destruct H as [H|H]; [discriminate H|]); exact H|]).
    constructor.
Defined.

(** X23. [add_feature] keeps the addresses of the features a tile has: the
    position [features().index] finds for a feature of the list is the same
    after another feature was added; and a feature that was not in the list
    gets the position at the end. *)
Theorem add_feature_keeps_addresses :
  forall (s : TileCircuit.t) (g f : Feature) (i : nat),
    (find_index Feature_eqb f (TileCircuit.features s) = Some i ->
     find_index Feature_eqb f
       (TileCircuit.features (TileCircuit.add_feature s g)) = Some i) /\
    (find_index Feature_eqb g (TileCircuit.features s) = None ->
     find_index Feature_eqb g
       (TileCircuit.features (TileCircuit.add_feature s g))
     = Some (length (TileCircuit.features s))).
Proof.
  intros s g f i. unfold TileCircuit.add_feature, TileCircuit.features.
  cbn [TileCircuit.__features TileCircuit.with_features].
  split.
  - revert i. induction (TileCircuit.__features s) as [|h l IH];
      intros i H; simpl in *; [discriminate|].
    destruct (Feature_eqb h f); [exact H|].
    destruct (find_index Feature_eqb f l) as [j|]; [|discriminate].
    injection H as <-. now rewrite (IH j eq_refl).
  - induction (TileCircuit.__features s) as [|h l IH]; intros H; simpl in *.
    + assert (E : Feature_eqb g g = true)
        by (apply Feature_eqb_eq; reflexivity).
      now rewrite E.
    + destruct (Feature_eqb h g); [discriminate|].
      destruct (find_index Feature_eqb g l) as [j|]; [discriminate|].
      now rewrite (IH eq_refl).
Qed.

Lemma add_feature_keeps_addresses_witness :
  let extra := FCore {| core_feature_id := 7; core_feature_ports := [] |} in
  let cb := FCB "flush" (Examples.cb_of 1%nat) in
  find_index Feature_eqb cb
    (TileCircuit.features
       (TileCircuit.add_feature Examples.pe_tile_circuit extra))
  = Some 2%nat.
Proof.
  intros extra cb.
  apply (proj1 (add_feature_keeps_addresses Examples.pe_tile_circuit
                  extra cb 2%nat)).
  vm_compute. reflexivity.
Defined.

(** X24. The outcomes of [CB.__init__].  On a node that is not a port it
    raises [ValueError]; on a port whose [str] is empty it raises
    [IndexError]; on every other port it returns a connection box for that
    node whose element is as high as the number of incoming edges, and the
    box has a [config] port and a configuration register exactly when the
    port has more than one incoming edge. *)
Theorem CB_init_outcomes :
  forall (G : Graph) (node : NodeId) (caw cdw : Z),
    (is_PortNode (G node) = false ->
     CB.__init__ G node caw cdw = Raise ValueError) /\
    (is_PortNode (G node) = true -> node_str (G node) = "" ->
     CB.__init__ G node caw cdw = Raise IndexError) /\
    (is_PortNode (G node) = true -> node_str (G node) <> "" ->
     exists cb,
       CB.__init__ G node caw cdw = Ok cb /\
       CB.node cb = node /\
       CB.mux cb = Mux_create (fan_in (G node)) (node_width (G node)) /\
       (has_port (InterconnectConfigurable.gen (CB.base cb)) "config" = true
        <-> 1 < fan_in (G node)) /\
       (InterconnectConfigurable.registers (CB.base cb) <> []
        <-> 1 < fan_in (G node))).
Proof.
  intros G node caw cdw. split; [|split].
  - intros Hp. unfold CB.__init__. rewrite Hp. reflexivity.
  - intros Hp Hs. unfold CB.__init__. rewrite Hp, Hs. reflexivity.
  - intros Hp Hs. destruct (create_name_ok _ Hs) as [nm Hn].
    destruct (fan_in (G node) >? 1) eqn:Hk.
    + destruct (CB_init_selector G node caw cdw nm Hp Hn Hk)
        as [cb (E & N & M & _ & R & C)].
      exists cb. repeat (split; [assumption|]). split.
      * split; [lia | auto].
      * rewrite R. split; [lia | discriminate].
    + assert (Hk' : (fan_in (G node) <=? 1) = true) by lia.
      rewrite (CB_init_passthrough G node caw cdw nm Hp Hn Hk').
      eexists. split; [reflexivity|].
      cbn [CB.node CB.mux CB.base InterconnectConfigurable.gen
           InterconnectConfigurable.registers].
      split; [reflexivity|]. split; [reflexivity|]. split.
      * split; [discriminate | lia].
      * split; [congruence | lia].
Qed.

Lemma CB_init_outcomes_witness :
  CB.__init__ Examples.graph 2%nat 8 32 = Raise ValueError /\
  exists cb,
    CB.__init__ Examples.graph 0%nat 8 32 = Ok cb /\
    CB.mux cb = Mux_create 3 16.
Proof.
  split.
  - apply (CB_init_outcomes Examples.graph 2%nat 8 32). reflexivity.
  - destruct (CB_init_outcomes Examples.graph 0%nat 8 32) as (_ & _ & H).
    destruct H as [cb (E & _ & M & _)]; [reflexivity | discriminate |].
    exists cb. split; [exact E | exact M].
Defined.
